(* ===== verification/_CoqProject ===== *)
-Q . S2P
Prelude.v
GoStrings.v
GoErrors.v
Effects.v
GoTime.v
K8sTypes.v
MustGatherV1.v
KubeEffects.v
ApiServer.v
MemCluster.v
Conditions.v
OperatorUtils.v
GoPath.v
Template.v
MustGatherUtil.v
TrustedCA.v
Cleanup.v
SftpValidation.v
Reconcile.v
Requests.v
Demo.v
ReconcileSafety.v
CleanupSafety.v
StatusSafety.v
ErrorSafety.v
SftpNonInterference.v
TrustedCARefinement.v
TemplateFacts.v
DirectoryName.v
SftpDialing.v
SftpDialingFacts.v
SftpTiming.v
AdmissionPolicy.v
Watches.v
Startup.v
JobPhases.v
Lifecycle.v
Retry.v
Progress.v
GatherStart.v
WholeLife.v
Outcomes.v
GatherScript.v
TimeoutArg.v
NetworkLink.v
MustGatherV1alpha1.v
ApiWire.v
ApiVersions.v
Heap.v
HeapTypes.v
DeepCopyV1.v
DeepCopyV1alpha1.v
DeepCopyFacts.v
Effort.v
Metrics.v
WorkQueue.v
RateLimiter.v
Controller.v
ControllerFacts.v
World.v
RelyGuarantee.v
ControllerRuns.v
Pacing.v
Interleaving.v
ReconcileRely.v
Concurrent.v
ConcurrentRuns.v
CaWorld.v
CaConcurrent.v
CaRuns.v
Scheme.v
ClientGo.v
OperatorScheme.v
Permissions.v
SilentHost.v
