(* ===== verification/Prelude.v ===== *)
(** * Must-Gather Operator: verification development (root file)

    The operator reconciles the custom resource [MustGather]: for each instance
    it starts a Kubernetes Job that gathers cluster data (and may obfuscate it,
    keep it on a volume, or upload it over SFTP), reports how the Job ended, and
    cleans up.  This library models the Go code under [src/] and proves what it
    does.  This file holds what every other file uses: the notation scope
    [mgo_scope], the hint database [mgo], string tests and generic lemmas.

    ** The program and its model

    A Go function that talks to the outside is a program of [Effects]: a tree
    of requests over a signature of effects, with every answer open.  A pure Go
    function is a Gallina function.  A Go error is a [goerror], a result with an
    error a sum or an [option]; a pointer is an [option], a map a [gmap], a
    slice a [list]; a duration and a counter are integers [Z].

    - Language and library: [GoStrings] ([strings], [strconv], [fmt] as used),
      [GoErrors] ([errors.Is] and [errors.As] over wrapped errors, the API
      error predicates), [GoTime] (durations, instants, time layouts, doubles),
      [GoPath] ([path.Clean] and [path.Join]), [Effects] (programs, their
      executions [exec], their weakest preconditions [wpg], their runs [run]
      against a handler, and linking, [interp]).
    - Data: [K8sTypes] (the Kubernetes objects read or written),
      [MustGatherV1] ([api/v1/mustgather_types.go] with its schema rules; the
      admitted specs are [valid_spec]), [MustGatherV1alpha1] (the deprecated
      version).  [ApiWire] is the stored form of a spec: the struct tags of both
      versions as encoders and decoders, the markers as defaults and schema, the
      rule that the spec is immutable.
    - Objects in memory: [Heap] (cells, programs on the heap, the class [Deep] of
      values that can be read and copied), [HeapTypes] (the structs of both versions
      with their pointers), [DeepCopyV1] and [DeepCopyV1alpha1]
      ([zz_generated.deepcopy.go]).  Elsewhere an object is a value.
    - The outside: [KubeEffects] (client, recorder, metrics, environment, clock,
      random source, SFTP seam); [ApiServer], a class with the documented laws
      of the API server's verbs, and [MemCluster], an executable instance.
    - Reconciler, [controllers/mustgather/mustgather_controller.go]:
      [Reconcile] ([Reconcile], [handleJobCompletion], [getMustGatherImage],
      [getJobFromInstance], [setValidationFailureStatus], and the sections of
      the handler as [reconcileDeletion], [prepare], [reconcileCreate],
      [checkSecretAndSFTP], [reconcileJob]), [Cleanup]
      ([cleanupMustGatherResources]), [TrustedCA] (the CA bundle's copy),
      [SftpValidation] (the retry loop of [validation.go]), [Template]
      ([template.go], [constant.go], operator-lib's proxy variables),
      [MustGatherUtil] ([pkg/mustgatherutil/util.go]), [Conditions] and
      [OperatorUtils] (the vendored helpers of operator-utils, apimachinery and
      controller-runtime under them).  [Requests] lists the requests each of these
      operations can make, as instances of a class the automation uses.
    - [SftpDialing]: [checkSFTPConnection] and the rest of [validation.go] over
      the network's effects.  [NetworkLink] puts it in the place of the seam.
    - [AdmissionPolicy]: [admission_policy.go].  [Watches]: [predicates.go],
      [SetupWithManager] and the vendored event handlers.  [Startup]: [main.go],
      [config], [pkg/k8sutil], [pkg/mustgatherutil/obfuscate.go].  [Scheme], [ClientGo]
      and [OperatorScheme]: the scheme that the [init] functions of [main.go] and [api]
      build.  [Permissions]: the rbac markers and the ClusterRole of [deploy/], and what
      each request needs of them.
    - The running process: [WorkQueue] (client-go's [util/workqueue]: the queue
      and the delaying queue), [RateLimiter] (its rate limiter), [Controller]
      (the loop of controller-runtime that takes requests from it, calls
      [Reconcile] and queues them again, as a step relation with the workers,
      the clock and restarts), [World] (the cluster that others use at the same
      time: users, the Job controller, lagging informers, lost answers),
      [CaWorld] (the same for the CA copies), [RelyGuarantee] (the calculus for
      many workers in any world), [ControllerRuns] (runs of the loop), [Pacing]
      (what rate limiter and queue do together), [Concurrent] and
      [ConcurrentRuns] (the operator in [World], with a server that can be run
      and two runs), [CaConcurrent] and [CaRuns] (the operator in [CaWorld], and
      a run), [SilentHost] (where some requests are never answered).
    - [Demo]: the concrete inputs of the witnesses.

    ** What is proved

    - Safety, for every answer of the cluster and the network and whatever else
      happens between two requests, each request judged by the history before
      it: when a Job is created ([ReconcileSafety]); what is deleted and when
      the finalizer goes ([CleanupSafety]); what is written to the status
      ([StatusSafety]); no error is lost ([ErrorSafety]); what success means
      ([Outcomes]); which network connections are made, to whom, with which
      credentials, and that they are released ([NetworkLink]); the SFTP
      validation does not leak what the network looks like
      ([SftpNonInterference], with the exact behaviour of the retry loop).
    - The operator in use, any number of workers, others acting between any two
      of its requests: no request is lost or handled twice at a time
      ([ControllerFacts]); a request that fails waits, longer each time
      ([Pacing]); an instance that was let go of never gets a Job again, and has
      no live one when the reads of Jobs are up to date ([ConcurrentRuns], on
      the invariant, the rely and the guarantee of [Interleaving], which
      [ReconcileRely] shows of [Reconcile] and [Concurrent] of the system); the
      operator reads them from an informer, and a run in which an older Job is
      left is in [ConcurrentRuns]. A worker changes a CA copy by the ownership
      of its own instance only, except that a deletion may rest on a stale read,
      and a run where it does ([CaRuns]). All this is when requests are
      answered: the SSH session of the trial connection has no time limit
      ([SftpTiming]), and one host that stays silent stops the operator, as does
      a read of a kind that it may not list ([SilentHost]).
    - Permissions: every request of the reconciler, of the watches and of the
      installation of the policy is granted by the rbac markers, for a type the scheme
      knows under one kind; the ClusterRole of [deploy/] grants all but the reads of image
      streams ([Permissions]).
    - Progress, against every API server with the laws of [ApiServer] and no
      other writer during the call: a gather starts ([GatherStart]), a finished
      one is recorded and cleaned up ([Progress]), an instance marked for
      deletion is cleaned up and let go ([Lifecycle]), and the three together,
      from the new instance to its end ([WholeLife]); how each phase of the
      Job is handled ([JobPhases]); what a failed release of the CA copy leaves
      ([Retry]).
    - Termination: [Effort] bounds each kind of request of one [Reconcile], over
      every environment.  [Metrics] says what it adds to the counters.
    - The API: which updates of a stored object are allowed to the operator and to
      clients of the old version, that no request of the old version is lost, and
      how the two schemas differ ([ApiVersions]); copies share nothing with the
      original ([DeepCopyFacts]).
    - Refinement: the copy of the CA bundle implements a set of users
      ([TrustedCARefinement]).
    - The Job: a well-formed pod with confined sub paths and credentials by
      reference ([TemplateFacts]), its command ([GatherScript]), its timeout
      through double arithmetic ([TimeoutArg]), its directory
      ([DirectoryName]).
    - The connection: addresses, release of handles, errors, the CONNECT
      request ([SftpDialingFacts]), what of it is timed ([SftpTiming]).  The policy, the watches and start-up are
      treated in their own files.

    ** Bounds and fuel

    Programs are finite trees, so every operation terminates ([Effort] counts the
    requests); the loop of
    [validateSFTPWithRetry] is structural on its three attempts
    ([MaxSFTPValidationRetries]).  No recursion of the operator's own code needs
    fuel; [strip_zeros] of [GoTime] divides at most 400 times, and a double
    below 2^63 has fewer decimal zeros.  API integers are [Z]: the operator
    compares them and computes with two only, the timeout (a division into
    doubles, for which [TimeoutArg.timeout_arg_exact] states the exact range)
    and the random number of the directory name (a remainder).

    ** What is outside the model

    The API server, the kubelet, sockets, the SSH and SFTP libraries, the proxy
    decision of [httpproxy], the flag package, the manager, the leader lock, the
    obfuscation library and CEL are services or libraries: they are answers to
    effects, arguments, or classes with documented laws and a concrete instance.
    Unicode tables, consulted for non-ASCII strings only, are the class
    [UnicodeTables].  Logging, metric registration, the generated OpenAPI (two functions
    that return an empty map), version constants and the library of the end-to-end tests
    are left out, as are the shell scripts of [build/bin]; of the scheme, conversion and
    defaulting functions.  Of Kubernetes objects only the fields the operator touches are
    there.  Of the work queue, its metrics, draining on shut-down and the capacity of the
    channel of delayed items are left out, and the answers of the token bucket in its
    rate limiter ([golang.org/x/time/rate]) are open;
    in [World] a request of a killed process takes effect before its end or never.
    A nil and an empty slice or map are read alike; the stored form of
    [ApiWire] tells an absent list from an empty one. *)

From Stdlib Require Export ZArith.
From stdpp Require Export base list gmap sets strings options.

(** The notations of the development live in a scope of their own. *)
Declare Scope mgo_scope.
Delimit Scope mgo_scope with mgo.
Open Scope mgo_scope.

(** Go's [==] on strings. *)
Definition str_eqb (a b : string) : bool := String.eqb a b.
Arguments str_eqb : simpl never.

Infix "=?s" := str_eqb (at level 70, no associativity) : mgo_scope.
Notation "a <>?s b" := (negb (str_eqb a b)) (at level 70, no associativity) : mgo_scope.

(** A pointer dereferenced with a default ([ptr.Deref]). *)
Definition ptr_deref {A} (p : option A) (d : A) : A := default d p.

(** Whether a pointer is set. *)
Definition is_some {A} (o : option A) : bool := match o with Some _ => true | None => false end.

(** ** Automation *)

(** [cases] destructs every [match] and [if] of the goal, keeping equations. *)
Ltac cases_step :=
  match goal with
  | |- context [match ?x with _ => _ end] => destruct x eqn:?
  end.

Ltac cases := repeat (cases_step; simplify_eq/=).

Create HintDb mgo.
Create Rewrite HintDb mgo_str.

(** ** Strings *)

Lemma str_eqb_eq a b : (a =?s b) = true <-> a = b.
Proof. apply String.eqb_eq. Qed.

Lemma str_eqb_neq a b : (a =?s b) = false <-> a <> b.
Proof. apply String.eqb_neq. Qed.

Lemma str_eqb_refl a : (a =?s a) = true.
Proof. apply String.eqb_refl. Qed.

#[export] Hint Rewrite str_eqb_refl : mgo_str.

Lemma str_eqb_spec a b : reflect (a = b) (a =?s b).
Proof. apply String.eqb_spec. Qed.

(** [str_case a b] splits on a string comparison and its meaning. *)
Tactic Notation "str_case" constr(a) constr(b) := destruct (str_eqb_spec a b).

(** [str_cases] splits on every string comparison of the goal. *)
Ltac str_cases :=
  repeat match goal with
  | |- context [str_eqb ?a ?b] => destruct (str_eqb_spec a b); cbn
  end.
