(* ===== verification/GoStrings.v ===== *)
(** * The Go standard library's string functions the operator calls

    Go strings are byte sequences; they are modelled by [string], a sequence of
    8-bit [ascii] characters.  The functions of the packages [strings],
    [strconv] and [fmt] that the operator uses are written out here.  The two
    places where Go consults the Unicode tables (lower-casing and quoting a
    string that holds a non-ASCII byte) go through the class [UnicodeTables],
    which a client section carries as a context. *)

From Stdlib Require Import Ascii NArith DecimalString DecimalZ DecimalN.
From S2P Require Import Prelude.

(** ** Bytes *)

Definition byte_of (n : N) : ascii := ascii_of_N n.

Definition bytes (l : list N) : string := foldr (fun n s => String (byte_of n) s) "" l.

Definition is_ascii_byte (c : ascii) : bool := (N_of_ascii c <? 128)%N.

Fixpoint all_bytes (f : ascii -> bool) (s : string) : bool :=
  match s with
  | EmptyString => true
  | String c s => f c && all_bytes f s
  end.

Definition isASCII (s : string) : bool := all_bytes is_ascii_byte s.

(** The bytes [/], [:], [[] and []]. *)
Definition slash : ascii := byte_of 47.
Definition colon : ascii := byte_of 58.
Definition lbracket : ascii := byte_of 91.
Definition rbracket : ascii := byte_of 93.

(** The double quote and the newline, as one-byte strings. *)
Definition dq : string := bytes [34%N].
Definition nl : string := bytes [10%N].
Definition crlf : string := bytes [13%N; 10%N].

(** ** The Unicode tables *)

Class UnicodeTables := {
  uni_ToLower : string -> string;
  uni_Quote : string -> string;
}.

(** ** strings *)

Definition strings_HasPrefix (s prefix : string) : bool := String.prefix prefix s.

Definition strings_HasSuffix (s suffix : string) : bool :=
  (String.length suffix <=? String.length s)%nat &&
  (String.substring (String.length s - String.length suffix) (String.length suffix) s =?s suffix).

Fixpoint strings_Contains (s sub : string) : bool :=
  String.prefix sub s ||
  match s with
  | EmptyString => false
  | String _ s' => strings_Contains s' sub
  end.

Fixpoint strings_Join (elems : list string) (sep : string) : string :=
  match elems with
  | [] => ""
  | [e] => e
  | e :: es => e +:+ sep +:+ strings_Join es sep
  end.

Definition lower_byte (c : ascii) : ascii :=
  let n := N_of_ascii c in
  if ((65 <=? n) && (n <=? 90))%N then ascii_of_N (n + 32) else c.

Fixpoint ascii_lower (s : string) : string :=
  match s with
  | EmptyString => ""
  | String c s => String (lower_byte c) (ascii_lower s)
  end.

Definition strings_ToLower `{UnicodeTables} (s : string) : string :=
  if isASCII s then ascii_lower s else uni_ToLower s.

(** [strings.TrimLeft], [TrimRight] and [Trim] with a one-byte cutset. *)
Fixpoint trimLeft_byte (b : ascii) (s : string) : string :=
  match s with
  | EmptyString => ""
  | String c s' => if Ascii.eqb c b then trimLeft_byte b s' else s
  end.

Fixpoint trimRight_byte (b : ascii) (s : string) : string :=
  match s with
  | EmptyString => ""
  | String c s' =>
      match trimRight_byte b s' with
      | EmptyString => if Ascii.eqb c b then "" else String c ""
      | t => String c t
      end
  end.

Definition strings_Trim_byte (s : string) (b : ascii) : string :=
  trimRight_byte b (trimLeft_byte b s).

(** [unicode.IsSpace], on the UTF-8 encodings of one, two and three bytes. *)
Definition space1 (a : ascii) : bool :=
  let n := N_of_ascii a in ((9 <=? n) && (n <=? 13) || (n =? 32))%N.

Definition space2 (a b : ascii) : bool :=
  (N_of_ascii a =? 194)%N && ((N_of_ascii b =? 133) || (N_of_ascii b =? 160))%N.

Definition space3 (a b c : ascii) : bool :=
  let '(x, y, z) := (N_of_ascii a, N_of_ascii b, N_of_ascii c) in
  ((x =? 225) && (y =? 154) && (z =? 128)
   || (x =? 226) && (y =? 128) && ((128 <=? z) && (z <=? 138) || (z =? 168) || (z =? 169) || (z =? 175))
   || (x =? 226) && (y =? 129) && (z =? 159)
   || (x =? 227) && (y =? 128) && (z =? 128))%N.

Arguments space1 : simpl never.
Arguments space2 : simpl never.
Arguments space3 : simpl never.

(** Drops the leading space runes. *)
Fixpoint dropSpaces (s : string) : string :=
  match s with
  | EmptyString => ""
  | String a s1 =>
      if space1 a then dropSpaces s1 else
      match s1 with
      | EmptyString => s
      | String b s2 =>
          if space2 a b then dropSpaces s2 else
          match s2 with
          | EmptyString => s
          | String c s3 => if space3 a b c then dropSpaces s3 else s
          end
      end
  end.

(** Cuts the string where nothing but space runes remains. *)
Fixpoint cutSpaces (s : string) : string :=
  if dropSpaces s =?s "" then "" else
  match s with
  | EmptyString => ""
  | String c s' => String c (cutSpaces s')
  end.

Definition strings_TrimSpace (s : string) : string := cutSpaces (dropSpaces s).

(** [strings.Split] with a one-byte separator. *)
Fixpoint split_byte (b : ascii) (s : string) : list string :=
  match s with
  | EmptyString => [""]
  | String c s' =>
      if Ascii.eqb c b then "" :: split_byte b s' else
      match split_byte b s' with
      | [] => [String c ""]
      | e :: es => String c e :: es
      end
  end.

(** The index of the last occurrence of a byte, [-1] being [None]. *)
Fixpoint lastIndexByte (b : ascii) (s : string) : option nat :=
  match s with
  | EmptyString => None
  | String c s' =>
      match lastIndexByte b s' with
      | Some i => Some (S i)
      | None => if Ascii.eqb c b then Some 0%nat else None
      end
  end.

Fixpoint indexByte (b : ascii) (s : string) : option nat :=
  match s with
  | EmptyString => None
  | String c s' => if Ascii.eqb c b then Some 0%nat else S <$> indexByte b s'
  end.

(** ** strconv and fmt *)

Definition strconv_Itoa (z : Z) : string := NilZero.string_of_int (Z.to_int z).

Definition strconv_FormatBool (b : bool) : string := if b then "true" else "false".

Definition hex_digit (n : N) : ascii :=
  if (n <? 10)%N then ascii_of_N (48 + n) else ascii_of_N (87 + n).

Definition quote_byte (c : ascii) : string :=
  let n := N_of_ascii c in
  let esc (x : N) := bytes [92%N; x] in
  (if n =? 34 then esc 34
   else if n =? 92 then esc 92
   else if n =? 7 then esc 97
   else if n =? 8 then esc 98
   else if n =? 12 then esc 102
   else if n =? 10 then esc 110
   else if n =? 13 then esc 114
   else if n =? 9 then esc 116
   else if n =? 11 then esc 118
   else if (n <? 32) || (n =? 127) then
     esc 120 +:+ String (hex_digit (n / 16)) (String (hex_digit (n mod 16)) "")
   else String c "")%N.

Fixpoint quote_ascii (s : string) : string :=
  match s with
  | EmptyString => ""
  | String c s => quote_byte c +:+ quote_ascii s
  end.

(** [fmt.Sprintf("%q", s)]. *)
Definition strconv_Quote `{UnicodeTables} (s : string) : string :=
  if isASCII s then dq +:+ quote_ascii s +:+ dq else uni_Quote s.

(** Left padding with zeros to [w] bytes, [%0wd] of a non-negative number. *)
Fixpoint zeros (n : nat) : string :=
  match n with O => "" | S n => String (byte_of 48) (zeros n) end.

Definition pad_zero (w : nat) (s : string) : string := zeros (w - String.length s) +:+ s.

(** ** Checks of the definitions on concrete inputs *)

Example trim_space_ex : strings_TrimSpace (bytes [32; 194; 160; 97; 32; 98; 226; 128; 168; 9]%N) = "a b".
Proof. vm_compute. reflexivity. Qed.

Example trim_slash_ex : strings_Trim_byte "//a/b/" "/" = "a/b".
Proof. reflexivity. Qed.

Example itoa_ex : strconv_Itoa (-120) = "-120" /\ strconv_Itoa 0 = "0".
Proof. split; reflexivity. Qed.

Example pad_ex : pad_zero 6 (strconv_Itoa 42) = "000042".
Proof. reflexivity. Qed.

(** ** Concatenation *)

#[local] Arguments String.append : simpl nomatch.

Lemma append_nil_r s : s +:+ "" = s.
Proof. induction s; cbn; [done|]. by f_equal. Qed.

Lemma append_assoc s1 s2 s3 : (s1 +:+ s2) +:+ s3 = s1 +:+ s2 +:+ s3.
Proof. induction s1; cbn; [done|]. by f_equal. Qed.

Lemma append_String c s1 s2 : String c s1 +:+ s2 = String c (s1 +:+ s2).
Proof. done. Qed.

Lemma length_append s1 s2 : String.length (s1 +:+ s2) = (String.length s1 + String.length s2)%nat.
Proof. induction s1; cbn; [done|]. by f_equal. Qed.

Lemma all_bytes_append f s1 s2 : all_bytes f (s1 +:+ s2) = all_bytes f s1 && all_bytes f s2.
Proof. induction s1; cbn; [done|]. rewrite IHs1. by rewrite andb_assoc. Qed.

(** ** Substrings *)

Definition substr (t s : string) : Prop := exists a b, s = a +:+ t +:+ b.

Lemma substr_refl s : substr s s.
Proof. exists "", "". by rewrite append_nil_r. Qed.

Lemma substr_trans s t u : substr s t -> substr t u -> substr s u.
Proof.
  intros (a & b & ->) (c & d & ->). exists (c +:+ a), (b +:+ d).
  by rewrite !append_assoc.
Qed.

Lemma substr_cons c t s : substr t s -> substr t (String c s).
Proof. intros (a & b & ->). by exists (String c a), b. Qed.

Lemma prefix_append p s : String.prefix p s = true <-> exists b, s = p +:+ b.
Proof.
  revert s. induction p as [|c p IH]; intros s; cbn; [split; [by exists s|by destruct s]|].
  destruct s as [|d s]; cbn.
  - split; [done|]. by intros [b ?].
  - destruct (ascii_dec c d) as [->|Hne].
    + rewrite IH. split; intros [b Hb]; exists b; [by rewrite Hb|]. cbn in Hb. by simplify_eq.
    + split; [done|]. intros [b Hb]. cbn in Hb. by simplify_eq.
Qed.

Lemma Contains_substr s sub : strings_Contains s sub = true <-> substr sub s.
Proof.
  induction s as [|c s IH]; cbn [strings_Contains]; rewrite orb_true_iff, prefix_append.
  - split.
    + intros [[b Hb]|?]; [|done]. by exists "", b.
    + intros (a & b & Hb). left. destruct a; [by exists b|done].
  - rewrite IH. split.
    + intros [[b Hb]|Hs]; [by exists "", b|by apply substr_cons].
    + intros (a & b & Hb). destruct a as [|d a]; cbn in Hb; [left; by exists b|].
      injection Hb as -> Hb. right. by exists a, b.
Qed.

Lemma Contains_mono s t sub :
  substr t s -> strings_Contains t sub = true -> strings_Contains s sub = true.
Proof. rewrite !Contains_substr. intros. by eapply substr_trans. Qed.

Lemma not_Contains_mono s t sub :
  substr t s -> strings_Contains s sub = false -> strings_Contains t sub = false.
Proof.
  intros Hs Hc. apply not_true_iff_false. intros Ht.
  rewrite (Contains_mono _ _ _ Hs Ht) in Hc. done.
Qed.

(** ** Trimming keeps a substring *)

Lemma trimLeft_substr b s : substr (trimLeft_byte b s) s.
Proof.
  induction s as [|c s IH]; cbn; [apply substr_refl|].
  destruct (Ascii.eqb c b); [by apply substr_cons|apply substr_refl].
Qed.

Lemma trimRight_prefix b s : exists t, s = trimRight_byte b s +:+ t.
Proof.
  induction s as [|c s [t Ht]]; cbn; [by exists ""|].
  destruct (trimRight_byte b s) as [|d r].
  - destruct (Ascii.eqb c b); [by exists (String c s)|]. exists s. done.
  - exists t. by rewrite Ht at 1.
Qed.

Lemma Trim_byte_substr b s : substr (strings_Trim_byte s b) s.
Proof.
  unfold strings_Trim_byte. eapply substr_trans; [|apply trimLeft_substr].
  destruct (trimRight_prefix b (trimLeft_byte b s)) as [t Ht]. by exists "", t.
Qed.

Lemma dropSpaces_suffix s : exists a, s = a +:+ dropSpaces s.
Proof.
  assert (forall n s, (String.length s <= n)%nat -> exists a, s = a +:+ dropSpaces s) as H.
  { clear s. induction n as [|n IH]; intros [|a s1] Hn; cbn in *; try (by exists ""); [lia|].
    destruct (space1 a).
    { destruct (IH s1) as [x Hx]; [lia|]. exists (String a x). cbn. by f_equal. }
    destruct s1 as [|b s2]; [by exists ""|]. cbn in Hn. destruct (space2 a b).
    { destruct (IH s2) as [x Hx]; [lia|]. exists (String a (String b x)). cbn. by do 2 f_equal. }
    destruct s2 as [|c s3]; [by exists ""|]. cbn in Hn. destruct (space3 a b c); [|by exists ""].
    destruct (IH s3) as [x Hx]; [lia|]. exists (String a (String b (String c x))). cbn. by do 3 f_equal. }
  by apply (H (String.length s)).
Qed.

Lemma cutSpaces_prefix s : exists t, s = cutSpaces s +:+ t.
Proof.
  induction s as [|c s [t Ht]]; [by exists ""|].
  cbn [cutSpaces]. destruct (_ =?s _); [by exists (String c s)|]. exists t. cbn. by f_equal.
Qed.

Lemma TrimSpace_substr s : substr (strings_TrimSpace s) s.
Proof.
  unfold strings_TrimSpace. destruct (dropSpaces_suffix s) as [a Ha].
  destruct (cutSpaces_prefix (dropSpaces s)) as [t Ht].
  exists a, t. congruence.
Qed.

(** [strings.Trim(s, "/")] leaves no byte [/] at either end. *)
Lemma trimLeft_head b s : String.prefix (String b "") (trimLeft_byte b s) = false.
Proof.
  induction s as [|c s IH]; cbn; [done|].
  destruct (Ascii.eqb_spec c b); [done|]. cbn. by destruct (ascii_dec b c).
Qed.

Lemma Trim_byte_head b s : String.prefix (String b "") (strings_Trim_byte s b) = false.
Proof.
  unfold strings_Trim_byte. pose proof (trimLeft_head b s) as H.
  destruct (trimLeft_byte b s) as [|c t]; cbn in *; [done|].
  destruct (ascii_dec b c); [by destruct t|].
  destruct (trimRight_byte b t); [|cbn; by destruct (ascii_dec b c)].
  destruct (Ascii.eqb c b); cbn; [done|]. by destruct (ascii_dec b c).
Qed.

(** ** Splitting *)

Lemma split_byte_cons b s : exists e es, split_byte b s = e :: es.
Proof.
  induction s as [|c s (e & es & IH)]; cbn; [eauto|].
  rewrite IH. destruct (Ascii.eqb c b); eauto.
Qed.

Lemma split_byte_app b s t :
  split_byte b (s +:+ String b t) = split_byte b s ++ split_byte b t.
Proof.
  induction s as [|c s IH]; cbn.
  - by rewrite Ascii.eqb_refl.
  - rewrite IH. destruct (Ascii.eqb c b); [done|].
    destruct (split_byte_cons b s) as (e & es & ->). done.
Qed.

(** A string without the separator is its own only element. *)
Lemma split_byte_none b s : all_bytes (fun c => negb (Ascii.eqb c b)) s = true -> split_byte b s = [s].
Proof.
  induction s as [|c s IH]; cbn; [done|]. intros [Hc Hs]%andb_true_iff.
  rewrite (IH Hs). by destruct (Ascii.eqb c b).
Qed.

Lemma split_byte_elem b s e :
  e ∈ split_byte b s -> all_bytes (fun c => negb (Ascii.eqb c b)) e = true /\ substr e s.
Proof.
  revert e. induction s as [|c s IH]; intros e; cbn.
  - intros ->%list_elem_of_singleton. split; [done|]. apply substr_refl.
  - destruct (Ascii.eqb c b) eqn:Hc.
    + intros [->|He]%elem_of_cons; [split; [done|by exists "", (String c s)]|].
      destruct (IH _ He). split; [done|by apply substr_cons].
    + assert (forall e es, split_byte b s = e :: es -> exists t, s = e +:+ t) as Hpre.
      { clear. induction s as [|d s IH]; cbn; [intros; simplify_eq; by exists ""|].
        intros e es. destruct (Ascii.eqb d b).
        - intros; simplify_eq. by exists (String d s).
        - destruct (split_byte_cons b s) as (e' & es' & Hs). rewrite Hs. intros; simplify_eq.
          destruct (IH _ _ Hs) as [t Ht]. exists t. cbn. by f_equal. }
      destruct (split_byte_cons b s) as (e0 & es & Hs). rewrite Hs in IH |- *.
      intros [->|He]%elem_of_cons.
      * destruct (Hpre _ _ Hs) as [t Ht]. split.
        { cbn. rewrite Hc. cbn. apply (IH e0). set_solver. }
        exists "", t. cbn. by f_equal.
      * destruct (IH e) as [? ?]; [set_solver|]. split; [done|by apply substr_cons].
Qed.

(** ** Bytes in strings *)

Definition without (b : ascii) (s : string) : bool := all_bytes (fun c => negb (Ascii.eqb c b)) s.

Lemma indexByte_none b s : without b s = true -> indexByte b s = None.
Proof.
  induction s as [|c s IH]; cbn; [done|]. intros [Hc Hs]%andb_true_iff.
  apply negb_true_iff in Hc. by rewrite Hc, (IH Hs).
Qed.

Lemma indexByte_first b s t : without b s = true -> indexByte b (s +:+ String b t) = Some (String.length s).
Proof.
  induction s as [|c s IH]; cbn; [by rewrite Ascii.eqb_refl|]. intros [Hc Hs]%andb_true_iff.
  apply negb_true_iff in Hc. by rewrite Hc, (IH Hs).
Qed.

Lemma indexByte_in b s t : is_some (indexByte b (s +:+ String b t)) = true.
Proof.
  induction s as [|c s IH]; cbn; [by rewrite Ascii.eqb_refl|]. destruct (Ascii.eqb c b); [done|].
  by destruct (indexByte b (s +:+ String b t)).
Qed.

Lemma lastIndexByte_none b s : without b s = true -> lastIndexByte b s = None.
Proof.
  induction s as [|c s IH]; cbn; [done|]. intros [Hc Hs]%andb_true_iff.
  apply negb_true_iff in Hc. by rewrite (IH Hs), Hc.
Qed.

Lemma lastIndexByte_last b s t :
  without b t = true -> lastIndexByte b (s +:+ String b t) = Some (String.length s).
Proof.
  intros Ht. induction s as [|c s IH]; cbn; [by rewrite (lastIndexByte_none b t Ht), Ascii.eqb_refl|].
  by rewrite IH.
Qed.

Lemma substring_prefix s t : String.substring 0 (String.length s) (s +:+ t) = s.
Proof. induction s as [|c s IH]; cbn; [by destruct t|]. by rewrite IH. Qed.

Lemma substring_all s : String.substring 0 (String.length s) s = s.
Proof. induction s as [|c s IH]; cbn; [done|]. by rewrite IH. Qed.

Lemma substring_suffix s t : String.substring (String.length s) (String.length t) (s +:+ t) = t.
Proof. induction s as [|c s IH]; cbn; [apply substring_all|]. exact IH. Qed.

(** [s[len(a):]] of [a ++ b]. *)
Lemma substring_after a b n :
  n = String.length a -> String.substring n (String.length (a +:+ b) - n) (a +:+ b) = b.
Proof.
  intros ->. rewrite length_append, Nat.add_comm, Nat.add_sub. apply substring_suffix.
Qed.

Lemma without_append b s t : without b (s +:+ t) = without b s && without b t.
Proof. apply all_bytes_append. Qed.

Lemma substring_middle a b c n : n = String.length a ->
  String.substring n (String.length b) (a +:+ b +:+ c) = b.
Proof. intros ->. induction a as [|x a IH]; cbn; [apply substring_prefix|exact IH]. Qed.

Lemma indexByte_without_none b s : without b s = true -> is_some (indexByte b s) = false.
Proof. intros Hs. by rewrite indexByte_none. Qed.

Lemma indexByte_Some_with b s : is_some (indexByte b s) = negb (without b s).
Proof.
  induction s as [|c s IH]; cbn; [done|]. destruct (Ascii.eqb c b); cbn; [done|].
  fold (without b s). rewrite <-IH. by destruct (indexByte b s).
Qed.

Lemma HasSuffix_append s t : strings_HasSuffix (s +:+ t) t = true.
Proof.
  unfold strings_HasSuffix. rewrite length_append. rewrite (proj2 (Nat.leb_le _ _)) by lia.
  rewrite Nat.add_sub. cbn [andb]. apply str_eqb_eq, substring_suffix.
Qed.

Lemma HasPrefix_append s t : strings_HasPrefix (s +:+ t) s = true.
Proof. unfold strings_HasPrefix. apply prefix_append. by exists t. Qed.

(** The text of a number is made of digits and a sign. *)
Lemma uint_bytes f d : all_bytes f "0123456789" = true -> all_bytes f (NilEmpty.string_of_uint d) = true.
Proof.
  cbn. rewrite !andb_true_iff. intros Hf. destruct_and! Hf.
  induction d; cbn; rewrite ?IHd; rewrite ?andb_true_iff; done.
Qed.

Lemma Itoa_bytes f z : all_bytes f "-0123456789" = true -> all_bytes f (strconv_Itoa z) = true.
Proof.
  intros Hf. assert (f "-"%char = true /\ all_bytes f "0123456789" = true) as [Hm Hd] by by apply andb_true_iff in Hf.
  unfold strconv_Itoa, NilZero.string_of_int, NilZero.string_of_uint.
  assert (f "0"%char = true) as H0 by by apply andb_true_iff in Hd as [? _].
  destruct (Z.to_int z) as [d|d]; destruct d; cbn [all_bytes]; rewrite ?Hm, ?H0; try done;
    rewrite ?andb_true_l; by apply uint_bytes.
Qed.

Lemma pad_zero_bytes f w s : f "0"%char = true -> all_bytes f s = true -> all_bytes f (pad_zero w s) = true.
Proof.
  intros H0 Hs. unfold pad_zero. rewrite all_bytes_append, Hs, andb_true_r.
  induction (w - String.length s) as [|n IH]; cbn; [done|]. by rewrite H0.
Qed.
