(* ===== verification/GoErrors.v ===== *)
(** * Go error values

    [goerror] has one constructor for each kind of error value the operator
    meets: the API machinery's [StatusError], a plain [errors.New], a package
    level sentinel compared by identity, a [fmt.Errorf] with [%w] verbs, the two
    context errors, and a value that implements [net.Error].  [errors.Is],
    [errors.As] and the predicates of [k8s.io/apimachinery/pkg/api/errors] are
    written over the unwrap tree in Go's depth-first order. *)

From S2P Require Import Prelude GoStrings.

Inductive goerror :=
| StatusError (reason : string) (code : Z) (message : string)
| errorString (message : string)
| sentinel (name : string) (message : string)
| wrapError (message : string) (wrapped : list goerror)
| DeadlineExceeded
| Canceled
| netError (message : string) (timeout : bool) (wrapped : list goerror).

(** [fmt.Errorf] with one [%w] verb; the caller formats the message. *)
Definition Errorf_w (message : string) (inner : goerror) : goerror := wrapError message [inner].

(** [err.Error()]. *)
Definition Error (e : goerror) : string :=
  match e with
  | StatusError _ _ m | errorString m | sentinel _ m | wrapError m _ | netError m _ _ => m
  | DeadlineExceeded => "context deadline exceeded"
  | Canceled => "context canceled"
  end.

(** [errors.As]: the first error of the tree, in depth-first order, that the
    selector accepts. *)
Fixpoint errors_As {B} (sel : goerror -> option B) (e : goerror) : option B :=
  match sel e with
  | Some b => Some b
  | None =>
      match e with
      | wrapError _ es | netError _ _ es =>
          (fix go (es : list goerror) : option B :=
             match es with
             | [] => None
             | e :: es => match errors_As sel e with Some b => Some b | None => go es end
             end) es
      | _ => None
      end
  end.

(** [errors.Is] against a target recognised by [is_target]. *)
Definition errors_Is (is_target : goerror -> bool) (e : goerror) : bool :=
  is_some (errors_As (fun e => if is_target e then Some tt else None) e).

Definition is_DeadlineExceeded (e : goerror) : bool :=
  match e with DeadlineExceeded => true | _ => false end.

Definition is_Canceled (e : goerror) : bool :=
  match e with Canceled => true | _ => false end.

Definition is_sentinel (name : string) (e : goerror) : bool :=
  match e with sentinel n _ => n =?s name | _ => false end.

(** The target type [net.Error] of [errors.As], with the value of [Timeout()];
    [context.DeadlineExceeded] implements the interface too. *)
Definition as_net_Error (e : goerror) : option bool :=
  match e with
  | DeadlineExceeded => Some true
  | netError _ t _ => Some t
  | _ => None
  end.

(** The target type [APIStatus], with its reason and code. *)
Definition as_APIStatus (e : goerror) : option (string * Z) :=
  match e with StatusError r c _ => Some (r, c) | _ => None end.

Definition StatusReasonUnknown : string := "".
Definition StatusReasonNotFound : string := "NotFound".
Definition StatusReasonAlreadyExists : string := "AlreadyExists".
Definition StatusReasonConflict : string := "Conflict".

Definition knownReasons : list string :=
  ["Unauthorized"; "Forbidden"; "NotFound"; "AlreadyExists"; "Conflict"; "Gone"; "Invalid";
   "ServerTimeout"; "StorageReadError"; "Timeout"; "TooManyRequests"; "BadRequest";
   "MethodNotAllowed"; "NotAcceptable"; "RequestEntityTooLarge"; "UnsupportedMediaType";
   "InternalError"; "Expired"; "ServiceUnavailable"].

Definition reasonAndCodeForError (e : goerror) : string * Z :=
  default (StatusReasonUnknown, 0%Z) (errors_As as_APIStatus e).

Definition ReasonForError (e : goerror) : string := (reasonAndCodeForError e).1.

Definition IsNotFound (e : goerror) : bool :=
  let '(reason, code) := reasonAndCodeForError e in
  (reason =?s StatusReasonNotFound)
  || (negb (existsb (str_eqb reason) knownReasons) && (code =? 404)%Z).

Definition IsAlreadyExists (e : goerror) : bool := ReasonForError e =?s StatusReasonAlreadyExists.

(** The errors the API server answers with, as [apierrors.NewNotFound] and its
    siblings build them. *)
Definition NewNotFound (message : string) : goerror := StatusError StatusReasonNotFound 404 message.
Definition NewAlreadyExists (message : string) : goerror :=
  StatusError StatusReasonAlreadyExists 409 message.
Definition NewConflict (message : string) : goerror := StatusError StatusReasonConflict 409 message.

(** ** Facts *)

Lemma IsNotFound_NewNotFound m : IsNotFound (NewNotFound m) = true.
Proof. reflexivity. Qed.

Lemma IsNotFound_NewConflict m : IsNotFound (NewConflict m) = false.
Proof. reflexivity. Qed.

Lemma IsAlreadyExists_New m : IsAlreadyExists (NewAlreadyExists m) = true.
Proof. reflexivity. Qed.

(** Wrapping with [%w] is transparent to [errors.As] unless the selector
    accepts the wrapper itself, which no selector used here does. *)
Lemma errors_As_Errorf_w {B} (sel : goerror -> option B) m e :
  (forall m es, sel (wrapError m es) = None) ->
  errors_As sel (Errorf_w m e) = errors_As sel e.
Proof. intros Hs. unfold Errorf_w. cbn. rewrite Hs. by destruct (errors_As sel e). Qed.

Lemma IsNotFound_Errorf_w m e : IsNotFound (Errorf_w m e) = IsNotFound e.
Proof.
  unfold IsNotFound, reasonAndCodeForError. by rewrite errors_As_Errorf_w.
Qed.

(** An error and its message are not confused: [%v] hides the wrapped value. *)
Example v_verb_hides :
  errors_Is (is_sentinel "errImageValidation")
    (Errorf_w "x: y" (sentinel "errImageValidation" "image validation failed")) = true /\
  IsNotFound (Errorf_w "x: y" (sentinel "errImageValidation" "image validation failed")) = false.
Proof. split; reflexivity. Qed.

#[export] Hint Rewrite IsNotFound_NewNotFound IsNotFound_NewConflict IsNotFound_Errorf_w : mgo_str.
