(* ===== verification/Effects.v ===== *)
(** * Programs with effects

    An operation of the operator is a [prog E A]: a tree that asks for an effect
    of the signature [E], waits for the answer, and in the end returns an [A].
    The answers come from outside (the API server, the environment, the clock,
    the network), so three readings are given to a program:

    - [exec p tr a]: some answers make [p] perform the exchange [tr] and return
      [a]; a theorem about every [exec] holds whatever the environment answers
      and whatever else happens between two requests;
    - [wpg G p tr Q]: after the history [tr], every request [p] makes satisfies
      its guard [G] on the history so far, and every outcome satisfies [Q];
    - [run h p s]: the outcome against a handler [h] with a state [s]. *)

From S2P Require Import Prelude.

Inductive prog (E : Type -> Type) (A : Type) : Type :=
| Ret (a : A)
| Vis {R : Type} (e : E R) (k : R -> prog E A).

Arguments Ret {E A} a.
Arguments Vis {E A R} e k.

Fixpoint prog_bind {E A B} (p : prog E A) (f : A -> prog E B) : prog E B :=
  match p with
  | Ret a => f a
  | Vis e k => Vis e (fun r => prog_bind (k r) f)
  end.

(** One effect, and its answer. *)
Definition call {E R} (e : E R) : prog E R := Vis e Ret.

Notation "'let*' x := m 'in' k" := (prog_bind m (fun x => k))
  (at level 10, x pattern, m at level 200, k at level 200) : mgo_scope.

(** A performed effect with its answer. *)
Record event (E : Type -> Type) := Ev { ev_type : Type; ev_eff : E ev_type; ev_resp : ev_type }.
Arguments Ev {E ev_type} ev_eff ev_resp.
Arguments ev_type {E} _.
Arguments ev_eff {E} _.
Arguments ev_resp {E} _.

Abbreviation trace E := (list (event E)).

(** The executions of a program, over every possible answer. *)
Inductive exec {E A} : prog E A -> trace E -> A -> Prop :=
| exec_Ret a : exec (Ret a) [] a
| exec_Vis {R} (e : E R) (r : R) k tr a :
    exec (k r) tr a -> exec (Vis e k) (Ev e r :: tr) a.

(** A guard reads the history and the request about to be made. *)
Definition guard (E : Type -> Type) := trace E -> forall R, E R -> Prop.

Fixpoint wpg {E A} (G : guard E) (p : prog E A) (tr : trace E) (Q : trace E -> A -> Prop) : Prop :=
  match p with
  | Ret a => Q tr a
  | Vis e k => G tr _ e /\ forall r, wpg G (k r) (tr ++ [Ev e r]) Q
  end.

(** Every request of the trace satisfies its guard on the part before it. *)
Definition guarded {E} (G : guard E) (tr : trace E) : Prop :=
  forall pre (ev : event E) post, tr = pre ++ ev :: post -> G pre (ev_type ev) (ev_eff ev).

(** Running against a handler: one function gives an answer and a new state to
    each effect. *)
Definition handler (E : Type -> Type) (S : Type) := forall R, E R -> S -> R * S.

Fixpoint run {E A S} (h : handler E S) (p : prog E A) (s : S) : A * S :=
  match p with
  | Ret a => (a, s)
  | Vis e k => let '(r, s') := h _ e s in run h (k r) s'
  end.

Fixpoint run_trace {E A S} (h : handler E S) (p : prog E A) (s : S) : trace E :=
  match p with
  | Ret _ => []
  | Vis e k => let '(r, s') := h _ e s in Ev e r :: run_trace h (k r) s'
  end.

(** Replacing each effect of a signature by a program over another. *)
Fixpoint interp {E F A} (h : forall R, E R -> prog F R) (p : prog E A) : prog F A :=
  match p with
  | Ret a => Ret a
  | Vis e k => prog_bind (h _ e) (fun r => interp h (k r))
  end.

(** A loop over a list that stops at the first error. *)
Fixpoint for_each {E A X} (f : A -> prog E (option X)) (l : list A) : prog E (option X) :=
  match l with
  | [] => Ret None
  | a :: l => let* r := f a in match r with Some x => Ret (Some x) | None => for_each f l end
  end.

(** ** Laws *)

Section laws.
Context {E : Type -> Type}.
Implicit Types G : guard E.

Lemma run_bind {A B S} (h : handler E S) (p : prog E A) (f : A -> prog E B) s :
  run h (prog_bind p f) s = let '(a, s') := run h p s in run h (f a) s'.
Proof.
  revert s. induction p as [a|R e k IH]; intros s; [done|].
  cbn. destruct (h R e s) as [r s']. apply IH.
Qed.

Lemma run_call {R B S} (h : handler E S) (e : E R) (f : R -> prog E B) s x s' :
  h R e s = (x, s') -> run h (prog_bind (call e) f) s = run h (f x) s'.
Proof. intros He. cbn. by rewrite He. Qed.

Lemma wpg_bind {A B} G (p : prog E A) (f : A -> prog E B) tr Q :
  wpg G (prog_bind p f) tr Q <-> wpg G p tr (fun tr' a => wpg G (f a) tr' Q).
Proof.
  revert tr. induction p as [a|R e k IH]; intros tr; [done|].
  cbn. split; intros [HG H]; split; auto; intros r; apply IH, H.
Qed.

Lemma wpg_mono {A} G (p : prog E A) tr (Q Q' : trace E -> A -> Prop) :
  wpg G p tr Q -> (forall tr' a, tr `prefix_of` tr' -> Q tr' a -> Q' tr' a) -> wpg G p tr Q'.
Proof.
  revert tr. induction p as [a|R e k IH]; intros tr; cbn; [eauto|].
  intros [HG H] HQ. split; [done|]. intros r. eapply IH; [apply H|].
  intros tr' a [l ->] Ht. apply HQ; [|done]. exists ([Ev e r] ++ l). by rewrite <-app_assoc.
Qed.

(** Soundness: the guards hold along every execution, and so does [Q]. *)
Lemma wpg_exec {A} G (p : prog E A) tr Q tr' a :
  wpg G p tr Q -> exec p tr' a ->
  Q (tr ++ tr') a /\
  forall pre (ev : event E) post, tr' = pre ++ ev :: post ->
    G (tr ++ pre) (ev_type ev) (ev_eff ev).
Proof.
  intros Hw He. revert tr Hw. induction He as [a|R e r k tr' a He IH]; intros tr Hw.
  - rewrite app_nil_r. split; [done|]. intros [|] ? ? Heq; simplify_eq/=.
  - destruct Hw as [HG Hw]. destruct (IH _ (Hw r)) as [HQ Hg]. split.
    { by rewrite <-app_assoc in HQ. }
    intros [|ev' pre] ev post Heq; simplify_eq/=.
    + by rewrite app_nil_r.
    + replace (tr ++ Ev e r :: pre) with ((tr ++ [Ev e r]) ++ pre) by by rewrite <-app_assoc.
      by eapply Hg.
Qed.

Lemma wpg_sound {A} G (p : prog E A) Q tr a :
  wpg G p [] Q -> exec p tr a -> guarded G tr /\ Q tr a.
Proof.
  intros Hw He. destruct (wpg_exec _ _ _ _ _ _ Hw He) as [HQ Hg].
  split; [|done]. intros pre ev post ->. by eapply (Hg pre ev post).
Qed.

(** Every run is an execution. *)
Lemma run_exec {A S} (h : handler E S) (p : prog E A) s :
  exec p (run_trace h p s) (run h p s).1.
Proof.
  revert s. induction p as [a|R e k IH]; intros s; [constructor|].
  cbn. destruct (h R e s) as [r s']. constructor. apply IH.
Qed.

(** Every program terminates: some answers always bring it to a result. *)
Lemma exec_total {A} (p : prog E A) (ans : forall R, E R -> R) :
  exists tr a, exec p tr a.
Proof.
  induction p as [a|R e k IH]; [repeat econstructor|].
  destruct (IH (ans R e)) as (tr & a & H). repeat econstructor. exact H.
Qed.

(** [for_each] under a history invariant. *)
Lemma wpg_for_each {A X} G (f : A -> prog E (option X)) l tr (I : trace E -> Prop)
    (Q : trace E -> option X -> Prop) :
  I tr ->
  (forall a tr, a ∈ l -> I tr ->
     wpg G (f a) tr (fun tr' r => I tr' /\ (is_Some r -> Q tr' r))) ->
  (forall tr', I tr' -> Q tr' None) ->
  wpg G (for_each f l) tr Q.
Proof.
  intros HI Hf Hd. revert tr HI. induction l as [|a l IH]; intros tr HI; cbn; [auto|].
  apply wpg_bind. eapply wpg_mono.
  - apply Hf; [set_solver|done].
  - intros tr' [x|] _ [HI' HQ]; cbn; [eauto|].
    apply IH; [|done]. intros. apply Hf; [set_solver|done].
Qed.
End laws.

(** ** Static properties: every request a program can make

    [everywhere P p]: each request of [p] satisfies [P], on every path. *)
Section everywhere.
  Context {E : Type -> Type}.

Fixpoint everywhere {A} (P : forall R, E R -> Prop) (p : prog E A) : Prop :=
  match p with
  | Ret _ => True
  | Vis e k => P _ e /\ forall r, everywhere P (k r)
  end.

Lemma everywhere_bind {A B} P (p : prog E A) (f : A -> prog E B) :
  everywhere P p -> (forall a, everywhere P (f a)) -> everywhere P (prog_bind p f).
Proof.
  intros Hp Hf. induction p as [a|R e k IH]; cbn; [apply Hf|].
  destruct Hp as [He Hk]. split; [done|]. intros r. by apply IH.
Qed.

Lemma everywhere_for_each {A X} P (f : A -> prog E (option X)) l :
  (forall a, a ∈ l -> everywhere P (f a)) -> everywhere P (for_each f l).
Proof.
  induction l as [|a l IH]; intros Hf; cbn; [done|]. apply everywhere_bind.
  - apply Hf. set_solver.
  - intros [x|]; cbn; [done|]. apply IH. intros. apply Hf. set_solver.
Qed.

Lemma everywhere_mono {A} (P P' : forall R, E R -> Prop) (p : prog E A) :
  (forall R (e : E R), P R e -> P' R e) -> everywhere P p -> everywhere P' p.
Proof.
  intros HP. induction p as [a|R e k IH]; cbn; [done|].
  intros [He Hk]. split; [by apply HP|]. intros r. apply IH, Hk.
Qed.

Lemma everywhere_exec {A} P (p : prog E A) tr a :
  everywhere P p -> exec p tr a -> Forall (fun ev => P _ (ev_eff ev)) tr.
Proof.
  intros Hp He. induction He as [|R e r k tr a He IH]; [constructor|].
  destruct Hp as [HP Hk]. constructor; [done|]. apply IH, Hk.
Qed.

(** A static property discharges a guard, and whatever the history only
    gains is kept. *)
Lemma everywhere_wpg {A} (G : guard E) P (p : prog E A) tr (I : trace E -> Prop) Q :
  everywhere P p ->
  (forall tr R (e : E R), I tr -> P R e -> G tr R e /\ forall r, I (tr ++ [Ev e r])) ->
  I tr -> (forall tr' a, I tr' -> Q tr' a) ->
  wpg G p tr Q.
Proof.
  intros Hp HG HI HQ. revert tr HI. induction p as [a|R e k IH]; intros tr HI; cbn; [eauto|].
  destruct Hp as [He Hk]. destruct (HG tr R e HI He) as [H1 H2]. split; [done|].
  intros r. apply IH; auto.
Qed.
End everywhere.

(** The trivial guard: only the outcome matters. *)
Definition no_guard {E} : guard E := fun _ _ _ => True.

(** Without guards a program may be followed from the outside: what it did is
    one of its executions. *)
Lemma wpg_self {E A} (p : prog E A) tr :
  wpg no_guard p tr (fun tr' a => exists l, tr' = tr ++ l /\ exec p l a).
Proof.
  revert tr. induction p as [a|R e k IH]; intros tr; cbn.
  - exists []. split; [by rewrite app_nil_r|constructor].
  - split; [done|]. intros x. eapply wpg_mono; [apply IH|]. intros tr' a _ (l & -> & He).
    exists (Ev e x :: l). split; [by rewrite <-app_assoc|by constructor].
Qed.

(** ** Programs that behave alike

    Two programs that make the same requests and go on alike after every
    answer.  The continuations are compared pointwise. *)
Inductive peq {E A} : prog E A -> prog E A -> Prop :=
| peq_Ret a : peq (Ret a) (Ret a)
| peq_Vis {R} (e : E R) k k' : (forall r, peq (k r) (k' r)) -> peq (Vis e k) (Vis e k').

Lemma peq_refl {E A} (p : prog E A) : peq p p.
Proof. induction p; constructor; auto. Qed.

#[export] Hint Resolve peq_refl : mgo.

Lemma peq_sym {E A} (p q : prog E A) : peq p q -> peq q p.
Proof. induction 1; constructor; auto. Qed.

Lemma peq_bind {E A B} (p p' : prog E A) (f f' : A -> prog E B) :
  peq p p' -> (forall a, peq (f a) (f' a)) -> peq (prog_bind p f) (prog_bind p' f').
Proof. intros Hp Hf. induction Hp as [a|R e k k' _ IH]; cbn; [apply Hf|]. constructor. apply IH. Qed.

Lemma peq_inv {E A} (p q : prog E A) :
  peq p q ->
  match p with
  | Ret a => q = Ret a
  | Vis e k => exists k', q = Vis e k' /\ forall r, peq (k r) (k' r)
  end.
Proof. intros []; eauto. Qed.

Lemma peq_trans {E A} (p q s : prog E A) : peq p q -> peq q s -> peq p s.
Proof.
  intros Hpq. revert s. induction Hpq as [a|R e k k' Hk IH]; intros s Hqs; [done|].
  apply peq_inv in Hqs as (k2 & -> & Hk2). constructor. auto.
Qed.

#[export] Instance peq_equivalence {E A} : Equivalence (@peq E A).
Proof. split; [exact peq_refl|exact peq_sym|exact peq_trans]. Qed.

(** Programs that behave alike have the same executions. *)
Lemma peq_exec {E A} (p q : prog E A) tr a : peq p q -> exec p tr a -> exec q tr a.
Proof.
  intros Hpq He. revert q Hpq. induction He as [a|R e r k tr a He IH]; intros q Hpq; apply peq_inv in Hpq.
  - subst. constructor.
  - destruct Hpq as (k' & -> & Hk). constructor. auto.
Qed.

(** The executions of a program, by its first request. *)
Lemma exec_inv {E A} (p : prog E A) tr a :
  exec p tr a ->
  match p with
  | Ret b => tr = [] /\ a = b
  | Vis e k => exists r tr', tr = Ev e r :: tr' /\ exec (k r) tr' a
  end.
Proof. intros []; eauto. Qed.

Lemma exec_bind_inv {E A B} (p : prog E A) (f : A -> prog E B) tr b :
  exec (prog_bind p f) tr b -> exists tr1 tr2 a, tr = tr1 ++ tr2 /\ exec p tr1 a /\ exec (f a) tr2 b.
Proof.
  revert tr. induction p as [a|R e k IH]; intros tr He.
  - exists [], tr, a. split; [done|]. split; [constructor|done].
  - apply exec_inv in He as (x & tr' & -> & He). apply IH in He as (tr1 & tr2 & a & -> & H1 & H2).
    exists (Ev e x :: tr1), tr2, a. split; [done|]. split; [by constructor|done].
Qed.

(** Interpretation: an execution of the interpreted program consists of one
    piece per request of the original, an execution of what replaced it. *)
Lemma interp_exec {E F A} (h : forall R, E R -> prog F R) (p : prog E A) tr a :
  exec (interp h p) tr a ->
  exists pieces : list (event E * trace F),
    exec p (map fst pieces) a /\ tr = concat (map snd pieces) /\
    Forall (fun x => exec (h _ (ev_eff x.1)) x.2 (ev_resp x.1)) pieces.
Proof.
  revert tr. induction p as [a'|R e k IH]; intros tr He; cbn [interp] in He.
  - apply exec_inv in He as [-> ->]. exists []. by repeat constructor.
  - apply exec_bind_inv in He as (tr1 & tr2 & x & -> & He1 & He2).
    apply IH in He2 as (pieces & Hp & -> & Hall). exists ((Ev e x, tr1) :: pieces).
    split; [by constructor|]. split; [done|]. by constructor.
Qed.

(** ** Automation

    [wp_bind] looks through a bind; [wp_step] follows a program one request or
    one branch, and [wp_go] as far as it goes; [ev_go] proves an [everywhere] goal by
    following the program, leaving what each request must satisfy. *)
Ltac wp_bind := apply wpg_bind.

Ltac wp_step :=
  lazymatch goal with
  | |- wpg _ (Ret _) _ _ => cbn [wpg]
  | |- wpg _ (prog_bind _ _) _ _ => apply wpg_bind
  | |- wpg _ (call _) _ _ => split; [|intros ?; cbn [wpg]]
  | |- wpg _ (match ?x with _ => _ end) _ _ => destruct x eqn:?
  end.

Ltac wp_go := repeat (wp_step; cbn beta iota; try done).

Ltac ev_step :=
  match goal with
  | |- everywhere _ (Ret _) => exact I
  | |- everywhere _ (prog_bind _ _) => apply everywhere_bind; [|intros ?]
  | |- everywhere _ (call _) => split; [|intros; exact I]
  | |- everywhere _ (Vis _ _) => split; [|intros ?]
  | |- everywhere _ (for_each _ _) => apply everywhere_for_each; intros
  | |- everywhere _ (match ?x with _ => _ end) => destruct x eqn:?
  | |- everywhere _ _ => solve [eauto with mgo]
  end.

Ltac ev_go := repeat (ev_step; cbn beta iota).

(** Histories only grow. *)
Ltac prefix_go :=
  first
    [ reflexivity
    | assumption
    | match goal with H : ?a `prefix_of` ?b |- _ `prefix_of` ?b => etransitivity; [|exact H]; prefix_go end
    | apply prefix_app_r; prefix_go ].
