(* ===== verification/GoTime.v ===== *)
(** * Go's [time] package and [math.Ceil], as the operator uses them

    A [Duration] is an [int64] count of nanoseconds, here a [Z].  A [Time] is an
    instant (seconds and nanoseconds since the Unix epoch) with the offset of
    its location.  [Duration.Seconds] is computed in IEEE-754 double precision
    with the specification floats of the standard library. *)

From Stdlib Require Import SpecFloat Ascii NArith.
From S2P Require Import Prelude GoStrings.
Local Open Scope Z_scope.

Definition Duration := Z.
Definition Second : Duration := 1000000000.

Record Time := mkTime { t_sec : Z; t_nsec : Z; t_offset : Z }.

#[export] Instance Time_eq_dec : EqDecision Time.
Proof. solve_decision. Defined.

(** [time.Time{}], January 1 of year 1, 00:00:00 UTC. *)
Definition zeroTime : Time := mkTime (-62135596800) 0 0.

Definition Time_IsZero (t : Time) : bool := (t_sec t =? -62135596800) && (t_nsec t =? 0).

(** [IsZero] of a [*metav1.Time]: a nil pointer is zero. *)
Definition metav1_IsZero (t : option Time) : bool :=
  match t with None => true | Some t => Time_IsZero t end.

(** ** Double precision *)

Definition f64 : Type := spec_float.
Definition f64_of_Z (z : Z) : f64 := binary_normalize 53 1024 z 0 false.
Definition f64_add : f64 -> f64 -> f64 := SFadd 53 1024.
Definition f64_div : f64 -> f64 -> f64 := SFdiv 53 1024.

(** [d.Seconds()]: integer division and remainder truncate towards zero. *)
Definition Duration_Seconds (d : Duration) : f64 :=
  f64_add (f64_of_Z (Z.quot d Second)) (f64_div (f64_of_Z (Z.rem d Second)) (f64_of_Z 1000000000)).

(** [math.Ceil] of a finite double: a sign and the magnitude of the resulting
    integer, the sign of a zero result being kept ([Ceil(-0.5)] is [-0]). *)
Definition ceil_f64 (x : f64) : option (bool * Z) :=
  match x with
  | S754_zero s => Some (s, 0)
  | S754_finite s m e =>
      let v := if 0 <=? e then Zpos m * 2 ^ e else
                 if s then Zpos m / 2 ^ (- e) else (Zpos m + 2 ^ (- e) - 1) / 2 ^ (- e) in
      Some (s, v)
  | _ => None
  end.

(** The digits of a number without its trailing zeros. *)
Fixpoint strip_zeros (fuel : nat) (n : Z) : Z :=
  match fuel with
  | O => n
  | S f => if (n =? 0) || negb (n mod 10 =? 0) then n else strip_zeros f (n / 10)
  end.

(** [%v] of an integral double below [2^53] is
    [strconv.FormatFloat(x, 'g', -1, 64)]: the shortest digits, plainly while
    the decimal exponent is below 6 and as [d.ddde+XX] from there on. *)
Definition shortest_g_exponent : nat := 6.

(** [d.ddde+XX]. *)
Definition fmt_e (digits : string) (exp : nat) : string :=
  let es := pad_zero 2 (strconv_Itoa (Z.of_nat exp)) in
  match digits with
  | EmptyString => ""
  | String c EmptyString => String c "" +:+ "e+" +:+ es
  | String c rest => String c "" +:+ "." +:+ rest +:+ "e+" +:+ es
  end.

Definition fmt_v_integral (x : bool * Z) : string :=
  let '(neg, n) := x in
  let digits := strconv_Itoa n in
  let exp := (String.length digits - 1)%nat in
  (if neg then "-" else "") +:+
  (if (shortest_g_exponent <=? exp)%nat
   then fmt_e (strconv_Itoa (strip_zeros 400 n)) exp
   else digits).

(** ** Duration.String *)

(** [fmtFrac]: the digits of [v / 10^prec] after the point, without trailing
    zeros and without the point when there are none; and [v / 10^prec]. *)
Fixpoint fmtFrac (prec : nat) (v : Z) (print : bool) (acc : string) : string * Z :=
  match prec with
  | O => (if print then "." +:+ acc else acc, v)
  | S prec =>
      let digit := v mod 10 in
      let print := print || negb (digit =? 0) in
      fmtFrac prec (v / 10) print
        (if print then String (ascii_of_N (Z.to_N (48 + digit))) acc else acc)
  end.

(** The text of the magnitude [u > 0] of a duration. *)
Definition fmt_magnitude (u : Z) : string :=
  if u <? Second then
    if u <? 1000 then strconv_Itoa u +:+ "ns"
    else if u <? 1000000 then
      let '(frac, v) := fmtFrac 3 u false "" in strconv_Itoa v +:+ frac +:+ bytes [194; 181]%N +:+ "s"
    else let '(frac, v) := fmtFrac 6 u false "" in strconv_Itoa v +:+ frac +:+ "ms"
  else
    let '(frac, v) := fmtFrac 9 u false "" in
    let secs := strconv_Itoa (v mod 60) +:+ frac +:+ "s" in
    let m := v / 60 in
    if 0 <? m then
      let mins := strconv_Itoa (m mod 60) +:+ "m" +:+ secs in
      let h := m / 60 in
      if 0 <? h then strconv_Itoa h +:+ "h" +:+ mins else mins
    else secs.

(** [d.String()]. *)
Definition Duration_String (d : Duration) : string :=
  if d =? 0 then "0s" else
  if d <? 0 then "-" +:+ fmt_magnitude (- d) else fmt_magnitude d.

(** ** Calendar dates *)

(** The proleptic Gregorian date of a day counted from 1970-01-01, with years
    that start in March. *)
Definition civil_from_days (z : Z) : Z * Z * Z :=
  let z := z + 719468 in
  let era := z / 146097 in
  let doe := z - era * 146097 in
  let yoe := (doe - doe / 1460 + doe / 36524 - doe / 146096) / 365 in
  let doy := doe - (365 * yoe + yoe / 4 - yoe / 100) in
  let mp := (5 * doy + 2) / 153 in
  let d := doy - (153 * mp + 2) / 5 + 1 in
  let m := if mp <? 10 then mp + 3 else mp - 9 in
  (yoe + era * 400 + (if m <=? 2 then 1 else 0), m, d).

Definition two (n : Z) : string := pad_zero 2 (strconv_Itoa n).

(** [appendInt(year, 4)]: the sign, then four digits at least. *)
Definition four (n : Z) : string :=
  (if n <? 0 then "-" else "") +:+ pad_zero 4 (strconv_Itoa (Z.abs n)).

(** The clock reading of a time in its location. *)
Definition clock (t : Time) : Z * Z * Z * Z * Z * Z :=
  let s := t_sec t + t_offset t in
  let '(y, m, d) := civil_from_days (s / 86400) in
  let r := s mod 86400 in
  (y, m, d, r / 3600, r / 60 mod 60, r mod 60).

Definition UTC (t : Time) : Time := mkTime (t_sec t) (t_nsec t) 0.

(** [t.Format("20060102T150405Z")]. *)
Definition format_timestamp (t : Time) : string :=
  let '(y, mo, d, h, mi, s) := clock t in
  four y +:+ two mo +:+ two d +:+ "T" +:+ two h +:+ two mi +:+ two s +:+ "Z".

(** [t.Format(time.RFC3339)]. *)
Definition format_RFC3339 (t : Time) : string :=
  let '(y, mo, d, h, mi, s) := clock t in
  let zone :=
    if t_offset t =? 0 then "Z" else
    let z := Z.quot (t_offset t) 60 in
    (if z <? 0 then "-" else "+") +:+ two (Z.abs z / 60) +:+ ":" +:+ two (Z.abs z mod 60) in
  four y +:+ "-" +:+ two mo +:+ "-" +:+ two d +:+ "T" +:+ two h +:+ ":" +:+ two mi +:+ ":" +:+ two s
  +:+ zone.

(** ** Checks of the definitions on concrete inputs *)

Example seconds_ex :
  (fmt_v_integral <$> ceil_f64 (Duration_Seconds 1500000000)) = Some "2" /\
  (fmt_v_integral <$> ceil_f64 (Duration_Seconds 0)) = Some "0" /\
  (fmt_v_integral <$> ceil_f64 (Duration_Seconds (-500000000))) = Some "-0" /\
  (fmt_v_integral <$> ceil_f64 (Duration_Seconds 1200000000000000)) = Some "1.2e+06".
Proof. vm_compute. repeat split. Qed.

Example duration_string_ex :
  map Duration_String [7200000000000; 1800000000000; 1500000000; 1100; 90061001000000; -5]
  = ["2h0m0s"; "30m0s"; "1.5s"; "1.1" +:+ bytes [194; 181; 115]%N; "25h1m1.001s"; "-5ns"].
Proof. vm_compute. reflexivity. Qed.

Example date_ex :
  format_timestamp (mkTime 1700000000 5 3600) = "20231114T231320Z" /\
  format_RFC3339 (mkTime 951782400 0 0) = "2000-02-29T00:00:00Z" /\
  format_RFC3339 (mkTime 1700000000 0 (-19800)) = "2023-11-14T16:43:20-05:30" /\
  format_RFC3339 zeroTime = "0001-01-01T00:00:00Z".
Proof. vm_compute. repeat split. Qed.
