(* ===== verification/K8sTypes.v ===== *)
(** * Kubernetes API objects

    The parts of [metav1], [corev1], [batchv1], [imagev1] and [configv1] the
    operator reads or writes, one [Record] per Go struct and one field per Go
    field used, under the Go name with a prefix for the struct.  A pointer is an
    [option], a Go map is a [gmap], a slice is a [list]; resource fields the
    operator never looks at are left out. *)

From S2P Require Import Prelude GoTime.

(** ** metav1 *)

Record NamespacedName := mkKey { nn_Namespace : string; nn_Name : string }.

Record OwnerReference := mkOwnerRef {
  or_APIVersion : string;
  or_Kind : string;
  or_Name : string;
  or_UID : string;
  or_Controller : option bool;
  or_BlockOwnerDeletion : option bool;
}.

Record ObjectMeta := mkMeta {
  om_Name : string;
  om_Namespace : string;
  om_UID : string;
  om_ResourceVersion : string;
  om_Generation : Z;
  om_DeletionTimestamp : option Time;
  om_Labels : gmap string string;
  om_OwnerReferences : list OwnerReference;
  om_Finalizers : list string;
}.

Definition emptyMeta : ObjectMeta := mkMeta "" "" "" "" 0 None ∅ [] [].

Record TypeMeta := mkTypeMeta { tm_Kind : string; tm_APIVersion : string }.

Definition ConditionTrue : string := "True".

Record Condition := mkCondition {
  c_Type : string;
  c_Status : string;
  c_ObservedGeneration : Z;
  c_LastTransitionTime : Time;
  c_Reason : string;
  c_Message : string;
}.

(** ** corev1 *)

Record ConfigMap := mkConfigMap {
  cm_ObjectMeta : ObjectMeta;
  cm_Data : gmap string string;
  cm_BinaryData : gmap string string;
  cm_Immutable : option bool;
}.

Record Secret := mkSecret { sec_ObjectMeta : ObjectMeta; sec_Data : gmap string string }.
Record ServiceAccount := mkServiceAccount { sa_ObjectMeta : ObjectMeta }.
Record Pod := mkPod { pod_ObjectMeta : ObjectMeta }.

Record LocalObjectReference := mkLocalRef { lor_Name : string }.

Record PersistentVolumeClaimVolumeSource := mkPVCSource { pvs_ClaimName : string; pvs_ReadOnly : bool }.

Record VolumeSource := mkVolumeSource {
  vs_EmptyDir : option unit;
  vs_PersistentVolumeClaim : option PersistentVolumeClaimVolumeSource;
  vs_ConfigMap : option LocalObjectReference;
}.

Record Volume := mkVolume { vol_Name : string; vol_VolumeSource : VolumeSource }.

Record VolumeMount := mkVolumeMount {
  vm_Name : string;
  vm_ReadOnly : bool;
  vm_MountPath : string;
  vm_SubPath : string;
}.

Record SecretKeySelector := mkSecretKeySelector { sks_Ref : LocalObjectReference; sks_Key : string }.

(** [ValueFrom] is only ever a [SecretKeyRef] here. *)
Record EnvVar := mkEnvVar { env_Name : string; env_Value : string; env_SecretKeyRef : option SecretKeySelector }.

Record Container := mkContainer {
  ctr_Name : string;
  ctr_Image : string;
  ctr_Command : list string;
  ctr_Args : list string;
  ctr_Env : list EnvVar;
  ctr_VolumeMounts : list VolumeMount;
}.

Record NodeSelectorRequirement := mkNodeSelectorRequirement { nsr_Key : string; nsr_Operator : string }.
Record PreferredSchedulingTerm := mkPreferredTerm {
  pst_MatchExpressions : list NodeSelectorRequirement;
  pst_Weight : Z;
}.
Record Toleration := mkToleration { tol_Key : string; tol_Operator : string; tol_Effect : string }.

Record PodSpec := mkPodSpec {
  ps_Affinity : list PreferredSchedulingTerm;
  ps_Tolerations : list Toleration;
  ps_RestartPolicy : string;
  ps_ShareProcessNamespace : option bool;
  ps_Volumes : list Volume;
  ps_ServiceAccountName : string;
  ps_Containers : list Container;
}.

(** ** batchv1 *)

Record JobSpec := mkJobSpec { jsp_BackoffLimit : option Z; jsp_Template : PodSpec }.

Record JobCondition := mkJobCondition {
  jc_Type : string; jc_Status : string; jc_Reason : string; jc_Message : string;
  jc_LastProbeTime : Time; jc_LastTransitionTime : Time;
}.

Record JobStatus := mkJobStatus {
  js_Conditions : list JobCondition;
  js_StartTime : option Time;
  js_CompletionTime : option Time;
  js_Active : Z;
  js_Succeeded : Z;
  js_Failed : Z;
  js_Terminating : option Z;
  js_CompletedIndexes : string;
  js_FailedIndexes : option string;
  js_UncountedTerminatedPods : option (list string * list string);
  js_Ready : option Z;
}.

Definition emptyJobStatus : JobStatus := mkJobStatus [] None None 0 0 0 None "" None None None.

Record Job := mkJob { job_ObjectMeta : ObjectMeta; job_Spec : JobSpec; job_Status : JobStatus }.

(** ** imagev1 and configv1 *)

Record TagEvent := mkTagEvent { te_DockerImageReference : string }.
Record NamedTagEventList := mkNamedTagEventList { nt_Tag : string; nt_Items : list TagEvent }.
Record ImageStream := mkImageStream { is_ObjectMeta : ObjectMeta; is_Status_Tags : list NamedTagEventList }.

Record ClusterVersion := mkClusterVersion { cv_ObjectMeta : ObjectMeta; cv_Spec_ClusterID : string }.

(** ** admissionregistration v1 *)

Record LabelSelectorRequirement := mkLabelSelectorRequirement {
  lsr_Key : string; lsr_Operator : string; lsr_Values : list string;
}.
Record LabelSelector := mkLabelSelector {
  ls_MatchLabels : gmap string string;
  ls_MatchExpressions : list LabelSelectorRequirement;
}.

Record NamedRuleWithOperations := mkRule {
  rule_ResourceNames : list string;
  rule_Operations : list string;
  rule_APIGroups : list string;
  rule_APIVersions : list string;
  rule_Resources : list string;
  rule_Scope : option string;
}.

Record MatchResources := mkMatchResources {
  mr_NamespaceSelector : option LabelSelector;
  mr_ObjectSelector : option LabelSelector;
  mr_ResourceRules : list NamedRuleWithOperations;
  mr_ExcludeResourceRules : list NamedRuleWithOperations;
  mr_MatchPolicy : option string;
}.

Record AdmissionValidation := mkValidation {
  v_Expression : string; v_Message : string; v_Reason : option string; v_MessageExpression : string;
}.

Record ValidatingAdmissionPolicySpec := mkVAPSpec {
  vap_ParamKind : option (string * string);
  vap_MatchConstraints : option MatchResources;
  vap_Validations : list AdmissionValidation;
  vap_FailurePolicy : option string;
  vap_AuditAnnotations : list (string * string);
  vap_MatchConditions : list (string * string);
  vap_Variables : list (string * string);
}.
Record ValidatingAdmissionPolicy := mkVAP { vap_ObjectMeta : ObjectMeta; vap_Spec : ValidatingAdmissionPolicySpec }.

Record ParamRef := mkParamRef {
  pr_Name : string; pr_Namespace : string; pr_Selector : option LabelSelector;
  pr_ParameterNotFoundAction : option string;
}.
Record ValidatingAdmissionPolicyBindingSpec := mkVAPBSpec {
  vapb_PolicyName : string;
  vapb_ParamRef : option ParamRef;
  vapb_MatchResources : option MatchResources;
  vapb_ValidationActions : list string;
}.
Record ValidatingAdmissionPolicyBinding := mkVAPB {
  vapb_ObjectMeta : ObjectMeta; vapb_Spec : ValidatingAdmissionPolicyBindingSpec;
}.

(** ** Field updates *)

Definition om_with_OwnerReferences (m : ObjectMeta) (refs : list OwnerReference) : ObjectMeta :=
  mkMeta (om_Name m) (om_Namespace m) (om_UID m) (om_ResourceVersion m) (om_Generation m)
    (om_DeletionTimestamp m) (om_Labels m) refs (om_Finalizers m).

Definition om_with_Finalizers (m : ObjectMeta) (fs : list string) : ObjectMeta :=
  mkMeta (om_Name m) (om_Namespace m) (om_UID m) (om_ResourceVersion m) (om_Generation m)
    (om_DeletionTimestamp m) (om_Labels m) (om_OwnerReferences m) fs.

Definition om_with_Namespace (m : ObjectMeta) (ns : string) : ObjectMeta :=
  mkMeta (om_Name m) ns (om_UID m) (om_ResourceVersion m) (om_Generation m)
    (om_DeletionTimestamp m) (om_Labels m) (om_OwnerReferences m) (om_Finalizers m).

Definition cm_with_OwnerReferences (c : ConfigMap) (refs : list OwnerReference) : ConfigMap :=
  mkConfigMap (om_with_OwnerReferences (cm_ObjectMeta c) refs) (cm_Data c) (cm_BinaryData c) (cm_Immutable c).

Definition job_with_ObjectMeta (j : Job) (m : ObjectMeta) : Job := mkJob m (job_Spec j) (job_Status j).

Definition ps_append_Container (p : PodSpec) (c : Container) : PodSpec :=
  mkPodSpec (ps_Affinity p) (ps_Tolerations p) (ps_RestartPolicy p) (ps_ShareProcessNamespace p)
    (ps_Volumes p) (ps_ServiceAccountName p) (ps_Containers p ++ [c]).

(** [job.Spec.Template.Spec.Containers = append(..., c)]. *)
Definition job_append_Container (j : Job) (c : Container) : Job :=
  mkJob (job_ObjectMeta j)
    (mkJobSpec (jsp_BackoffLimit (job_Spec j)) (ps_append_Container (jsp_Template (job_Spec j)) c))
    (job_Status j).

(** ** Decidable equality *)

#[export] Instance NamespacedName_eq_dec : EqDecision NamespacedName.
Proof. solve_decision. Defined.
#[export] Instance NamespacedName_countable : Countable NamespacedName.
Proof.
  apply (inj_countable' (fun k => (nn_Namespace k, nn_Name k)) (fun p => mkKey p.1 p.2)).
  by intros [].
Defined.
#[export] Instance OwnerReference_eq_dec : EqDecision OwnerReference.
Proof. solve_decision. Defined.
#[export] Instance ObjectMeta_eq_dec : EqDecision ObjectMeta.
Proof. solve_decision. Defined.
#[export] Instance Pod_eq_dec : EqDecision Pod.
Proof. solve_decision. Defined.
#[export] Instance Condition_eq_dec : EqDecision Condition.
Proof. solve_decision. Defined.
#[export] Instance JobCondition_eq_dec : EqDecision JobCondition.
Proof. solve_decision. Defined.
#[export] Instance JobStatus_eq_dec : EqDecision JobStatus.
Proof. solve_decision. Defined.
#[export] Instance LabelSelectorRequirement_eq_dec : EqDecision LabelSelectorRequirement.
Proof. solve_decision. Defined.
#[export] Instance LabelSelector_eq_dec : EqDecision LabelSelector.
Proof. solve_decision. Defined.
#[export] Instance NamedRuleWithOperations_eq_dec : EqDecision NamedRuleWithOperations.
Proof. solve_decision. Defined.
#[export] Instance MatchResources_eq_dec : EqDecision MatchResources.
Proof. solve_decision. Defined.
#[export] Instance AdmissionValidation_eq_dec : EqDecision AdmissionValidation.
Proof. solve_decision. Defined.
#[export] Instance ValidatingAdmissionPolicySpec_eq_dec : EqDecision ValidatingAdmissionPolicySpec.
Proof. solve_decision. Defined.
#[export] Instance ParamRef_eq_dec : EqDecision ParamRef.
Proof. solve_decision. Defined.
#[export] Instance ValidatingAdmissionPolicyBindingSpec_eq_dec : EqDecision ValidatingAdmissionPolicyBindingSpec.
Proof. solve_decision. Defined.
