(* ===== verification/MustGatherV1.v ===== *)
(** * The MustGather API, [api/v1/mustgather_types.go]

    The custom resource's types field by field, its [GetConditions] and
    [SetConditions] accessors, and the CEL validation rules of the kubebuilder
    markers as boolean functions. *)

From Stdlib Require Import Ascii.
From S2P Require Import Prelude GoStrings GoTime K8sTypes.

(** ** Types *)

Record ImageStreamTagRef := mkImageStreamTagRef { istr_Name : string; istr_Tag : string }.

Record GatherSpec := mkGatherSpec {
  gs_Audit : option bool;
  gs_Command : list string;
  gs_Args : list string;
  gs_Since : option Duration;
  gs_SinceTime : option Time;
}.

Record SFTPSpec := mkSFTPSpec {
  sftp_CaseID : string;
  sftp_CaseManagementAccountSecretRef : LocalObjectReference;
  sftp_InternalUser : option bool;
  sftp_Host : option string;
}.

Definition UploadType := string.
Definition UploadTypeSFTP : UploadType := "SFTP".

Record UploadTargetSpec := mkUploadTargetSpec { ut_Type : UploadType; ut_SFTP : option SFTPSpec }.

Definition StorageType := string.
Definition StorageTypePersistentVolume : StorageType := "PersistentVolume".

Record PersistentVolumeClaimReference := mkPVCRef { pvc_Name : string }.

Record PersistentVolumeConfig := mkPVConfig {
  pv_Claim : PersistentVolumeClaimReference;
  pv_SubPath : option string;
}.

Record Storage := mkStorage { st_Type : StorageType; st_PersistentVolume : PersistentVolumeConfig }.

Record ObfuscateConfig := mkObfuscateConfig {
  oc_Enabled : option bool;
  oc_ObfuscationConfigRef : option LocalObjectReference;
  oc_Source : option PersistentVolumeConfig;
}.

Record MustGatherSpec := mkMustGatherSpec {
  spec_ServiceAccountName : string;
  spec_ImageStreamRef : option ImageStreamTagRef;
  spec_GatherSpec : option GatherSpec;
  spec_MustGatherTimeout : option Duration;
  spec_UploadTarget : option UploadTargetSpec;
  spec_RetainResourcesOnCompletion : option bool;
  spec_Storage : option Storage;
  spec_Obfuscate : option ObfuscateConfig;
}.

Record MustGatherStatus := mkMustGatherStatus {
  mgs_Conditions : list Condition;
  mgs_Status : option string;
  mgs_LastUpdate : option Time;
  mgs_Reason : option string;
  mgs_Completed : option bool;
}.

Definition emptyStatus : MustGatherStatus := mkMustGatherStatus [] None None None None.

Record MustGather := mkMustGather {
  mg_TypeMeta : TypeMeta;
  mg_ObjectMeta : ObjectMeta;
  mg_Spec : MustGatherSpec;
  mg_Status : option MustGatherStatus;
}.

(** ** Field access and update *)

Definition mg_Name (m : MustGather) : string := om_Name (mg_ObjectMeta m).
Definition mg_Namespace (m : MustGather) : string := om_Namespace (mg_ObjectMeta m).
Definition mg_UID (m : MustGather) : string := om_UID (mg_ObjectMeta m).
Definition mg_Finalizers (m : MustGather) : list string := om_Finalizers (mg_ObjectMeta m).

Definition mg_with_Finalizers (m : MustGather) (fs : list string) : MustGather :=
  mkMustGather (mg_TypeMeta m) (om_with_Finalizers (mg_ObjectMeta m) fs) (mg_Spec m) (mg_Status m).

Definition mg_with_Status (m : MustGather) (s : option MustGatherStatus) : MustGather :=
  mkMustGather (mg_TypeMeta m) (mg_ObjectMeta m) (mg_Spec m) s.

Definition mgs_with_Conditions (s : MustGatherStatus) (cs : list Condition) : MustGatherStatus :=
  mkMustGatherStatus cs (mgs_Status s) (mgs_LastUpdate s) (mgs_Reason s) (mgs_Completed s).

Definition mgs_with_Completed (s : MustGatherStatus) (b : option bool) : MustGatherStatus :=
  mkMustGatherStatus (mgs_Conditions s) (mgs_Status s) (mgs_LastUpdate s) (mgs_Reason s) b.

Definition GetConditions (m : MustGather) : list Condition :=
  match mg_Status m with None => [] | Some s => mgs_Conditions s end.

Definition SetConditions (m : MustGather) (conditions : list Condition) : MustGather :=
  let s := match mg_Status m with None => emptyStatus | Some s => s end in
  mg_with_Status m (Some (mgs_with_Conditions s conditions)).

(** ** CEL validation rules

    [has(self.f)] on an optional pointer is [Some]; on a slice with
    [omitempty], a non-empty slice is what the server sees as present. *)

Definition has {A} (o : option A) : bool := match o with Some _ => true | None => false end.
Definition has_list {A} (l : list A) : bool := match l with [] => false | _ => true end.
Definition opt_true (o : option bool) : bool := default false o.

(** Fields of an optional [GatherSpec] and [ObfuscateConfig]. *)
Definition gather_audit (s : MustGatherSpec) : bool :=
  match spec_GatherSpec s with Some g => opt_true (gs_Audit g) | None => false end.
Definition gather_command (s : MustGatherSpec) : bool :=
  match spec_GatherSpec s with Some g => has_list (gs_Command g) | None => false end.
Definition obfuscate_enabled (s : MustGatherSpec) : bool :=
  match spec_Obfuscate s with Some o => opt_true (oc_Enabled o) | None => false end.
Definition obfuscate_source (s : MustGatherSpec) : bool :=
  match spec_Obfuscate s with Some o => has (oc_Source o) | None => false end.

(** The six rules on [MustGatherSpec], in order. *)
Definition rule_audit_default_image (s : MustGatherSpec) : bool :=
  negb (has (spec_ImageStreamRef s) && gather_audit s).
Definition rule_audit_no_command (s : MustGatherSpec) : bool :=
  negb (negb (has (spec_ImageStreamRef s)) && gather_command s && gather_audit s).
Definition rule_obfuscate_target (s : MustGatherSpec) : bool :=
  negb (obfuscate_enabled s
        && negb (has (spec_UploadTarget s) || obfuscate_source s || has (spec_Storage s))).
Definition rule_source_enabled (s : MustGatherSpec) : bool :=
  negb (obfuscate_source s && negb (obfuscate_enabled s)).
Definition rule_source_upload (s : MustGatherSpec) : bool :=
  negb (obfuscate_source s && negb (has (spec_UploadTarget s))).
Definition rule_source_no_gather (s : MustGatherSpec) : bool :=
  negb (obfuscate_source s
        && (has (spec_ImageStreamRef s) || gather_command s || gather_audit s)).

(** [GatherSpec]: since and sinceTime exclude each other. *)
Definition rule_since (g : GatherSpec) : bool := negb (has (gs_Since g) && has (gs_SinceTime g)).

(** [MaxItems=256] on [Command] and [Args].  The [Items:MaxLength] markers beside
    them do not reach the generated schema, which bounds no element. *)
Definition rule_gather (g : GatherSpec) : bool :=
  rule_since g && (length (gs_Command g) <=? 256)%nat && (length (gs_Args g) <=? 256)%nat.

(** [SFTPSpec]: non-empty case id and secret name. *)
Definition rule_sftp (s : SFTPSpec) : bool :=
  (sftp_CaseID s <>?s "") && (lor_Name (sftp_CaseManagementAccountSecretRef s) <>?s "").

(** [UploadTargetSpec]: the union, its enum, and the member's own rule. *)
Definition rule_upload (u : UploadTargetSpec) : bool :=
  (ut_Type u =?s UploadTypeSFTP) &&
  (if ut_Type u =?s UploadTypeSFTP then has (ut_SFTP u) else negb (has (ut_SFTP u))) &&
  match ut_SFTP u with Some s => rule_sftp s | None => true end.

(** [PersistentVolumeClaimReference]: 1 to 253 bytes and a lowercase RFC 1123
    subdomain: labels separated by dots, each of lower case letters, digits and
    inner dashes. *)
Definition alnum_byte (c : ascii) : bool :=
  let n := N_of_ascii c in ((97 <=? n) && (n <=? 122) || (48 <=? n) && (n <=? 57))%N.
Definition dash : ascii := byte_of 45.
Definition dot : ascii := byte_of 46.

Fixpoint ends_alnum (s : string) : bool :=
  match s with
  | "" => false
  | String c "" => alnum_byte c
  | String _ s => ends_alnum s
  end.

Definition dns1123_label (s : string) : bool :=
  match s with
  | "" => false
  | String c _ => alnum_byte c && all_bytes (fun c => alnum_byte c || Ascii.eqb c dash) s && ends_alnum s
  end.

Definition dns1123_subdomain (s : string) : bool :=
  (String.length s <=? 253)%nat && forallb dns1123_label (split_byte dot s).

Definition rule_claim (c : PersistentVolumeClaimReference) : bool :=
  (pvc_Name c <>?s "") && dns1123_subdomain (pvc_Name c).

(** [PersistentVolumeConfig]: no [..] in the sub path, and a claim. *)
Definition rule_pv (p : PersistentVolumeConfig) : bool :=
  match pv_SubPath p with Some s => negb (strings_Contains s "..") | None => true end &&
  rule_claim (pv_Claim p).

Definition rule_storage (s : Storage) : bool :=
  (st_Type s =?s StorageTypePersistentVolume) && rule_pv (st_PersistentVolume s).

(** [ObfuscateConfig]: a referenced ConfigMap has a name. *)
Definition rule_obfuscate (o : ObfuscateConfig) : bool :=
  match oc_ObfuscationConfigRef o with Some r => lor_Name r <>?s "" | None => true end &&
  match oc_Source o with Some p => rule_pv p | None => true end.

Definition rule_imagestream (r : ImageStreamTagRef) : bool :=
  (istr_Name r <>?s "") && (istr_Tag r <>?s "").

Definition opt_all {A} (f : A -> bool) (o : option A) : bool :=
  match o with Some a => f a | None => true end.

(** What the API server's validation admits. *)
Definition valid_spec (s : MustGatherSpec) : bool :=
  (spec_ServiceAccountName s <>?s "") &&
  rule_audit_default_image s && rule_audit_no_command s && rule_obfuscate_target s &&
  rule_source_enabled s && rule_source_upload s && rule_source_no_gather s &&
  opt_all rule_imagestream (spec_ImageStreamRef s) &&
  opt_all rule_gather (spec_GatherSpec s) &&
  opt_all rule_upload (spec_UploadTarget s) &&
  opt_all rule_storage (spec_Storage s) &&
  opt_all rule_obfuscate (spec_Obfuscate s).
