(* ===== verification/KubeEffects.v ===== *)
(** * The effects of the controller

    Everything the reconciler asks of the outside: the Kubernetes client and
    recorder of [ReconcilerBase], the Prometheus counters, the process
    environment, the clock, the random source and the SFTP dial seam
    [sftpDialFunc].  The API server is a service outside the program, so the
    answers to these requests are not modelled here: programs are verified for
    every answer, or against an interface that states documented behaviour. *)

From S2P Require Import Prelude GoErrors GoTime K8sTypes MustGatherV1 Effects.

(** The kinds of object the client handles. *)
Inductive Kind :=
| KMustGather | KJob | KConfigMap | KServiceAccount | KSecret | KPod
| KImageStream | KClusterVersion
| KValidatingAdmissionPolicy | KValidatingAdmissionPolicyBinding.

Definition objOf (k : Kind) : Type :=
  match k with
  | KMustGather => MustGather
  | KJob => Job
  | KConfigMap => ConfigMap
  | KServiceAccount => ServiceAccount
  | KSecret => Secret
  | KPod => Pod
  | KImageStream => ImageStream
  | KClusterVersion => ClusterVersion
  | KValidatingAdmissionPolicy => ValidatingAdmissionPolicy
  | KValidatingAdmissionPolicyBinding => ValidatingAdmissionPolicyBinding
  end.

Definition meta_of {k : Kind} : objOf k -> ObjectMeta :=
  match k return objOf k -> ObjectMeta with
  | KMustGather => mg_ObjectMeta
  | KJob => job_ObjectMeta
  | KConfigMap => cm_ObjectMeta
  | KServiceAccount => sa_ObjectMeta
  | KSecret => sec_ObjectMeta
  | KPod => pod_ObjectMeta
  | KImageStream => is_ObjectMeta
  | KClusterVersion => cv_ObjectMeta
  | KValidatingAdmissionPolicy => vap_ObjectMeta
  | KValidatingAdmissionPolicyBinding => vapb_ObjectMeta
  end.

(** [client.ObjectKeyFromObject]. *)
Definition ObjectKeyFromObject {k : Kind} (o : objOf k) : NamespacedName :=
  mkKey (om_Namespace (meta_of o)) (om_Name (meta_of o)).

(** The two Prometheus counters of [pkg/localmetrics]. *)
Inductive Metric := MetricMustGatherTotal | MetricMustGatherErrors.

(** A call answers an error or a value; a call without a value answers
    [option goerror], [None] being Go's [nil].  [Update] overwrites the object
    it is given with the server's reply, so its answer is that object. *)
Inductive KubeE : Type -> Type :=
| Get (k : Kind) (key : NamespacedName) : KubeE (goerror + objOf k)
| ListPods (ns : string) (labels : gmap string string) : KubeE (goerror + list Pod)
| Create (k : Kind) (o : objOf k) : KubeE (option goerror)
| Update (k : Kind) (o : objOf k) : KubeE (goerror + objOf k)
| StatusUpdate (m : MustGather) : KubeE (goerror + MustGather)
| Delete (k : Kind) (o : objOf k) : KubeE (option goerror)
| RecordEvent (m : MustGather) (eventtype reason message : string) : KubeE unit
| MetricInc (m : Metric) : KubeE unit
| LookupEnv (name : string) : KubeE (option string)
| TimeNow : KubeE Time
| RandInt63 : KubeE Z
| SftpDial (username password host : string) : KubeE (option goerror).

Abbreviation kprog := (prog KubeE).

(** [reconcile.Result], and a Go [(reconcile.Result, error)] pair. *)
Record Result := mkResult { res_Requeue : bool; res_RequeueAfter : Duration }.
Definition emptyResult : Result := mkResult false 0%Z.
Definition Outcome : Type := Result * option goerror.

(** [os.Getenv]. *)
Definition Getenv (name : string) : kprog string :=
  let* v := call (LookupEnv name) in Ret (default "" v).

#[export] Instance Kind_eq_dec : EqDecision Kind.
Proof. solve_decision. Defined.
#[export] Instance Metric_eq_dec : EqDecision Metric.
Proof. solve_decision. Defined.

(** The fields of [MustGatherReconciler] besides its [ReconcilerBase]. *)
Record MustGatherReconciler := mkReconciler {
  r_TrustedCAConfigMap : string;
  r_OperatorNamespace : string;
  r_DefaultMustGatherImage : string;
  r_OperatorServiceAccountName : string;
}.
