(* ===== verification/ApiServer.v ===== *)
(** * The API server as an interface

    What the operator may rely on when the API server answers normally and
    nobody else writes meanwhile: an object store addressed by kind and key.
    The class [ApiServer] states the documented behaviour of the verbs; a
    client's theorem is proved against the class, and MemCluster discharges it.

    The server owns some metadata: it assigns the UID and the resource version,
    and refuses an update whose resource version is not the current one. *)

From S2P Require Import Prelude GoStrings GoErrors GoTime K8sTypes MustGatherV1 Effects KubeEffects.

(** The part of the metadata that belongs to the client. *)
Definition client_meta (m : ObjectMeta) :=
  (om_Name m, om_Namespace m, om_Labels m, om_OwnerReferences m, om_Finalizers m).

(** [stored o o']: the server keeps [o'] for the object [o] it was sent. *)
Definition stored {k : Kind} (o o' : objOf k) : Prop :=
  client_meta (meta_of o') = client_meta (meta_of o) /\
  match k return objOf k -> objOf k -> Prop with
  | KConfigMap => fun o o' => cm_Data o' = cm_Data o
  | KMustGather => fun o o' => mg_Spec o' = mg_Spec o /\ mg_TypeMeta o' = mg_TypeMeta o
  | KJob => fun o o' => job_Spec o' = job_Spec o
  | _ => fun _ _ => True
  end o o'.

(** An object the server removes once its last finalizer is gone. *)
Definition finalized (m : ObjectMeta) : bool :=
  match om_DeletionTimestamp m, om_Finalizers m with Some _, [] => true | _, _ => false end.

Definition labels_match (labels : gmap string string) (m : ObjectMeta) : Prop := labels ⊆ om_Labels m.

#[export] Instance labels_match_dec labels m : Decision (labels_match labels m).
Proof. unfold labels_match. apply _. Defined.

Section api.
  Context {S : Type} (handle : handler KubeE S)
    (lookup_obj : S -> forall k, NamespacedName -> option (objOf k)).

(** Nothing but the object of kind [k] at [key] differs between two stores. *)
Definition only_changes (s s' : S) (k : Kind) (key : NamespacedName) : Prop :=
  forall k' key', (k', key') <> (k, key) -> lookup_obj s' k' key' = lookup_obj s k' key'.

Definition unchanged (s s' : S) : Prop := forall k key, lookup_obj s' k key = lookup_obj s k key.
End api.

Class ApiServer (S : Type) := {
  api_handle : handler KubeE S;
  api_lookup : S -> forall k, NamespacedName -> option (objOf k);

  api_Get_found s k key o :
    api_lookup s k key = Some o -> api_handle _ (Get k key) s = (inr o, s);
  api_Get_missing s k key :
    api_lookup s k key = None ->
    exists e, IsNotFound e = true /\ api_handle _ (Get k key) s = (inl e, s);
  api_lookup_key s k key o : api_lookup s k key = Some o -> ObjectKeyFromObject o = key;

  api_Create_new s k (o : objOf k) :
    api_lookup s k (ObjectKeyFromObject o) = None ->
    exists s' o', api_handle _ (Create k o) s = (None, s') /\ stored o o' /\
      om_DeletionTimestamp (meta_of o') = None /\
      api_lookup s' k (ObjectKeyFromObject o) = Some o' /\
      only_changes api_lookup s s' k (ObjectKeyFromObject o);

  api_Update_current s k (o cur : objOf k) :
    api_lookup s k (ObjectKeyFromObject o) = Some cur ->
    om_ResourceVersion (meta_of o) = om_ResourceVersion (meta_of cur) ->
    om_UID (meta_of o) = om_UID (meta_of cur) ->
    om_DeletionTimestamp (meta_of o) = om_DeletionTimestamp (meta_of cur) ->
    exists s' o', api_handle _ (Update k o) s = (inr o', s') /\ stored o o' /\
      om_UID (meta_of o') = om_UID (meta_of cur) /\
      om_DeletionTimestamp (meta_of o') = om_DeletionTimestamp (meta_of cur) /\
      api_lookup s' k (ObjectKeyFromObject o) = (if finalized (meta_of o) then None else Some o') /\
      only_changes api_lookup s s' k (ObjectKeyFromObject o);

  (** Deleting an object no finalizer holds. *)
  api_Delete_existing s k (o cur : objOf k) :
    api_lookup s k (ObjectKeyFromObject o) = Some cur -> om_Finalizers (meta_of cur) = [] ->
    exists s', api_handle _ (Delete k o) s = (None, s') /\
      api_lookup s' k (ObjectKeyFromObject o) = None /\
      only_changes api_lookup s s' k (ObjectKeyFromObject o);

  api_StatusUpdate s (m cur : MustGather) :
    api_lookup s KMustGather (@ObjectKeyFromObject KMustGather m) = Some cur ->
    om_ResourceVersion (mg_ObjectMeta m) = om_ResourceVersion (mg_ObjectMeta cur) ->
    exists s' m', api_handle _ (StatusUpdate m) s = (inr m', s') /\
      @stored KMustGather cur m' /\ mg_Status m' = mg_Status m /\ mg_UID m' = mg_UID cur /\
      om_DeletionTimestamp (mg_ObjectMeta m') = om_DeletionTimestamp (mg_ObjectMeta cur) /\
      api_lookup s' KMustGather (@ObjectKeyFromObject KMustGather m) = Some m' /\
      only_changes api_lookup s s' KMustGather (@ObjectKeyFromObject KMustGather m);

  api_ListPods s ns labels :
    exists pods, api_handle _ (ListPods ns labels) s = (inr pods, s) /\
      NoDup (@ObjectKeyFromObject KPod <$> pods) /\
      forall p : Pod, p ∈ pods <->
        api_lookup s KPod (@ObjectKeyFromObject KPod p) = Some p /\
        om_Namespace (pod_ObjectMeta p) = ns /\ labels_match labels (pod_ObjectMeta p);

  (** The requests that are not about stored objects change none. *)
  api_RecordEvent s m t rn msg : unchanged api_lookup s (api_handle _ (RecordEvent m t rn msg) s).2;
  api_MetricInc s m : unchanged api_lookup s (api_handle _ (MetricInc m) s).2;
  api_LookupEnv s n : unchanged api_lookup s (api_handle _ (LookupEnv n) s).2;
  api_TimeNow s : unchanged api_lookup s (api_handle _ TimeNow s).2;
  api_RandInt63 s : unchanged api_lookup s (api_handle _ RandInt63 s).2;
  api_SftpDial s u p h : unchanged api_lookup s (api_handle _ (SftpDial u p h) s).2;
}.
