(* ===== verification/MemCluster.v ===== *)
(** * An in-memory cluster

    A store of objects with the API server's bookkeeping, the operator's
    environment, and a log of events and metrics: an instance of [ApiServer],
    on which the development's concrete runs are evaluated. *)

From S2P Require Import Prelude GoStrings GoErrors GoTime K8sTypes MustGatherV1 Effects KubeEffects.
From S2P Require Import ApiServer.

(** The objects of one kind, found by the key they carry. *)
Definition has_key {k : Kind} (key : NamespacedName) (o : objOf k) : bool :=
  bool_decide (ObjectKeyFromObject o = key).
Definition find_key {k : Kind} (key : NamespacedName) (l : list (objOf k)) : option (objOf k) :=
  List.find (has_key key) l.
Definition remove_key {k : Kind} (key : NamespacedName) (l : list (objOf k)) : list (objOf k) :=
  List.filter (fun o => negb (has_key key o)) l.
Definition put_object {k : Kind} (o : objOf k) (l : list (objOf k)) : list (objOf k) :=
  o :: remove_key (ObjectKeyFromObject o) l.

Definition store : Type := forall k, list (objOf k).

Record cluster := mkCluster {
  cl_objects : store;
  cl_counter : Z;
  cl_env : gmap string string;
  cl_now : Time;
  cl_random : Z;
  cl_dials : list (option goerror);
  cl_events : list (string * string);
  cl_metrics : Metric -> Z;
}.

Definition with_meta {k : Kind} : objOf k -> ObjectMeta -> objOf k :=
  match k return objOf k -> ObjectMeta -> objOf k with
  | KMustGather => fun o m => mkMustGather (mg_TypeMeta o) m (mg_Spec o) (mg_Status o)
  | KJob => fun o m => mkJob m (job_Spec o) (job_Status o)
  | KConfigMap => fun o m => mkConfigMap m (cm_Data o) (cm_BinaryData o) (cm_Immutable o)
  | KServiceAccount => fun o m => mkServiceAccount m
  | KSecret => fun o m => mkSecret m (sec_Data o)
  | KPod => fun o m => mkPod m
  | KImageStream => fun o m => mkImageStream m (is_Status_Tags o)
  | KClusterVersion => fun o m => mkClusterVersion m (cv_Spec_ClusterID o)
  | KValidatingAdmissionPolicy => fun o m => mkVAP m (vap_Spec o)
  | KValidatingAdmissionPolicyBinding => fun o m => mkVAPB m (vapb_Spec o)
  end.

Definition store_alter {k : Kind} (f : list (objOf k) -> list (objOf k)) (st : store) : store :=
  fun k' =>
    match decide (k = k') with
    | left E => match E in _ = k' return list (objOf k') with eq_refl => f (st k) end
    | right _ => st k'
    end.

Definition set_objects (c : cluster) (st : store) : cluster :=
  mkCluster st (cl_counter c + 1)%Z (cl_env c) (cl_now c) (cl_random c) (cl_dials c) (cl_events c) (cl_metrics c).

(** The metadata after a write: a fresh resource version; the UID, the
    generation and the deletion timestamp are the server's. *)
Definition server_meta (c : cluster) (uid : string) (del : option Time) (m : ObjectMeta) : ObjectMeta :=
  mkMeta (om_Name m) (om_Namespace m) uid (strconv_Itoa (cl_counter c)) (om_Generation m) del
    (om_Labels m) (om_OwnerReferences m) (om_Finalizers m).

Definition notFound (key : NamespacedName) : goerror := NewNotFound (nn_Name key +:+ " not found").

Definition mem_create {k} (o : objOf k) (c : cluster) : option goerror * cluster :=
  let key := ObjectKeyFromObject o in
  match find_key key (cl_objects c k) with
  | Some _ => (Some (NewAlreadyExists (nn_Name key +:+ " already exists")), c)
  | None =>
      let o' := with_meta o (server_meta c ("uid-" +:+ strconv_Itoa (cl_counter c)) None (meta_of o)) in
      (None, set_objects c (store_alter (k:=k) (put_object o') (cl_objects c)))
  end.

Definition conflict (key : NamespacedName) : goerror :=
  NewConflict (nn_Name key +:+ ": the object has been modified").

Definition mem_update {k} (o : objOf k) (c : cluster) : (goerror + objOf k) * cluster :=
  let key := ObjectKeyFromObject o in
  match find_key key (cl_objects c k) with
  | None => (inl (notFound key), c)
  | Some cur =>
      if om_ResourceVersion (meta_of o) <>?s om_ResourceVersion (meta_of cur) then (inl (conflict key), c)
      else
        let o' := with_meta o (server_meta c (om_UID (meta_of cur)) (om_DeletionTimestamp (meta_of cur)) (meta_of o)) in
        (inr o', set_objects c
           (store_alter (k:=k) (if finalized (meta_of o') then remove_key key else put_object o') (cl_objects c)))
  end.

Definition mem_status_update (m : MustGather) (c : cluster) : (goerror + MustGather) * cluster :=
  let key := @ObjectKeyFromObject KMustGather m in
  match find_key key (cl_objects c KMustGather) with
  | None => (inl (notFound key), c)
  | Some cur =>
      if om_ResourceVersion (mg_ObjectMeta m) <>?s om_ResourceVersion (mg_ObjectMeta cur) then (inl (conflict key), c)
      else
        let meta := mg_ObjectMeta cur in
        let m' := mkMustGather (mg_TypeMeta cur)
                    (server_meta c (om_UID meta) (om_DeletionTimestamp meta) meta) (mg_Spec cur) (mg_Status m) in
        (inr m', set_objects c (store_alter (k:=KMustGather) (put_object (k:=KMustGather) m') (cl_objects c)))
  end.

Definition mem_delete {k} (o : objOf k) (c : cluster) : option goerror * cluster :=
  let key := ObjectKeyFromObject o in
  match find_key key (cl_objects c k) with
  | None => (Some (notFound key), c)
  | Some cur =>
      match om_Finalizers (meta_of cur) with
      | [] => (None, set_objects c (store_alter (k:=k) (remove_key key) (cl_objects c)))
      | _ :: _ =>
          let cur' := with_meta cur (server_meta c (om_UID (meta_of cur)) (Some (cl_now c)) (meta_of cur)) in
          (None, set_objects c (store_alter (k:=k) (put_object cur') (cl_objects c)))
      end
  end.

Definition mem_list_pods (ns : string) (labels : gmap string string) (c : cluster) : list Pod :=
  remove_dups (filter
    (fun p => find_key (k:=KPod) (@ObjectKeyFromObject KPod p) (cl_objects c KPod) = Some p /\
              om_Namespace (pod_ObjectMeta p) = ns /\ labels_match labels (pod_ObjectMeta p))
    (cl_objects c KPod)).

Definition metric_inc (f : Metric -> Z) (m : Metric) : Metric -> Z :=
  fun m' => if decide (m = m') then (f m' + 1)%Z else f m'.

Definition mem_handle : handler KubeE cluster :=
  fun R e c =>
    match e in KubeE R return R * cluster with
    | Get k key =>
        (match find_key key (cl_objects c k) with Some o => inr o | None => inl (notFound key) end, c)
    | ListPods ns labels => (inr (mem_list_pods ns labels c), c)
    | Create k o => mem_create o c
    | Update k o => mem_update o c
    | StatusUpdate m => mem_status_update m c
    | Delete k o => mem_delete o c
    | RecordEvent m t rn msg =>
        (tt, mkCluster (cl_objects c) (cl_counter c) (cl_env c) (cl_now c) (cl_random c) (cl_dials c)
               (cl_events c ++ [(t, msg)]) (cl_metrics c))
    | MetricInc m =>
        (tt, mkCluster (cl_objects c) (cl_counter c) (cl_env c) (cl_now c) (cl_random c) (cl_dials c)
               (cl_events c) (metric_inc (cl_metrics c) m))
    | LookupEnv name => (cl_env c !! name, c)
    | TimeNow => (cl_now c, c)
    | RandInt63 => (cl_random c, c)
    | SftpDial _ _ _ =>
        (match cl_dials c with d :: _ => d | [] => None end,
         mkCluster (cl_objects c) (cl_counter c) (cl_env c) (cl_now c) (cl_random c) (tail (cl_dials c))
           (cl_events c) (cl_metrics c))
    end.

(** ** The laws *)

Lemma find_key_Some {k} key (l : list (objOf k)) o :
  find_key key l = Some o -> ObjectKeyFromObject o = key /\ o ∈ l.
Proof.
  unfold find_key. intros H. pose proof (List.find_some _ _ H) as [Hin Hk].
  apply bool_decide_eq_true in Hk. split; [done|]. by apply list_elem_of_In.
Qed.

Lemma find_remove_key {k} key key' (l : list (objOf k)) :
  find_key key' (remove_key key l) = if decide (key' = key) then None else find_key key' l.
Proof.
  unfold find_key, remove_key, has_key.
  induction l as [|o l IH]; cbn; [by case_decide|].
  destruct (bool_decide_reflect (ObjectKeyFromObject o = key)) as [E|E]; cbn; rewrite IH;
    destruct (bool_decide_reflect (ObjectKeyFromObject o = key')); case_decide; congruence.
Qed.

Lemma find_put_object {k} (o : objOf k) key' l :
  find_key key' (put_object o l) = if decide (key' = ObjectKeyFromObject o) then Some o else find_key key' l.
Proof.
  transitivity (if has_key key' o then Some o else find_key key' (remove_key (ObjectKeyFromObject o) l)); [done|].
  rewrite find_remove_key. unfold has_key.
  destruct (bool_decide_reflect (ObjectKeyFromObject o = key')); case_decide; congruence.
Qed.

Lemma with_meta_meta {k} (o : objOf k) m : meta_of (with_meta o m) = m.
Proof. by destruct k. Qed.

Definition mem_lookup (c : cluster) (k : Kind) (key : NamespacedName) : option (objOf k) :=
  find_key key (cl_objects c k).

Lemma store_alter_same {k} f (st : store) : store_alter (k:=k) f st k = f (st k).
Proof.
  unfold store_alter. destruct (decide (k = k)) as [E|]; [|done]. by rewrite (proof_irrel E eq_refl).
Qed.

Lemma store_alter_other {k} f (st : store) k' : k <> k' -> store_alter (k:=k) f st k' = st k'.
Proof. intros Hk. unfold store_alter. destruct (decide (k = k')); [done|done]. Qed.

(** A write of one list changes the object it is about and no other. *)
Lemma write_at {k} f (c : cluster) key v :
  (forall key', find_key key' (f (cl_objects c k)) =
     if decide (key' = key) then v else find_key key' (cl_objects c k)) ->
  mem_lookup (set_objects c (store_alter (k:=k) f (cl_objects c))) k key = v /\
  only_changes mem_lookup c (set_objects c (store_alter (k:=k) f (cl_objects c))) k key.
Proof.
  intros Hf. unfold mem_lookup, only_changes. cbn [cl_objects set_objects]. split.
  - rewrite store_alter_same, Hf. by rewrite decide_True.
  - intros k' key' Hne. destruct (decide (k = k')) as [<-|Hk]; [|by rewrite store_alter_other].
    rewrite store_alter_same, Hf. rewrite decide_False; congruence.
Qed.

Lemma put_at {k} (o : objOf k) key (c : cluster) :
  ObjectKeyFromObject o = key ->
  mem_lookup (set_objects c (store_alter (k:=k) (put_object o) (cl_objects c))) k key = Some o /\
  only_changes mem_lookup c (set_objects c (store_alter (k:=k) (put_object o) (cl_objects c))) k key.
Proof. intros <-. apply write_at. intros. apply find_put_object. Qed.

Lemma remove_at {k} key (c : cluster) :
  mem_lookup (set_objects c (store_alter (k:=k) (remove_key key) (cl_objects c))) k key = None /\
  only_changes mem_lookup c (set_objects c (store_alter (k:=k) (remove_key key) (cl_objects c))) k key.
Proof. apply write_at. intros. apply find_remove_key. Qed.

Lemma stored_with_meta {k} (o : objOf k) c u d :
  stored o (with_meta o (server_meta c u d (meta_of o))).
Proof. split; [by rewrite with_meta_meta|by destruct k]. Qed.

Lemma with_meta_key {k} (o : objOf k) c u d :
  ObjectKeyFromObject (with_meta o (server_meta c u d (meta_of o))) = ObjectKeyFromObject o.
Proof. unfold ObjectKeyFromObject. by rewrite with_meta_meta. Qed.

Lemma mem_list_pods_spec ns labels c :
  NoDup (@ObjectKeyFromObject KPod <$> mem_list_pods ns labels c) /\
  forall p : Pod, p ∈ mem_list_pods ns labels c <->
    mem_lookup c KPod (@ObjectKeyFromObject KPod p) = Some p /\
    om_Namespace (pod_ObjectMeta p) = ns /\ labels_match labels (pod_ObjectMeta p).
Proof.
  assert (forall p : Pod, p ∈ mem_list_pods ns labels c <->
    mem_lookup c KPod (@ObjectKeyFromObject KPod p) = Some p /\
    om_Namespace (pod_ObjectMeta p) = ns /\ labels_match labels (pod_ObjectMeta p)) as Hin.
  { intros p. unfold mem_list_pods. rewrite elem_of_remove_dups, list_elem_of_filter.
    split; [by intros [? _]|]. intros Hp. split; [done|]. destruct Hp as [Hp _].
    by destruct (find_key_Some (k:=KPod) _ _ _ Hp). }
  split; [|done]. apply NoDup_fmap_2_strong.
  - intros p q Hp Hq Hpq. apply Hin in Hp as [Hp _]. apply Hin in Hq as [Hq _]. congruence.
  - apply NoDup_remove_dups.
Qed.

#[export, refine] Instance mem_ApiServer : ApiServer cluster :=
  {| api_handle := mem_handle; api_lookup := mem_lookup |}.
Proof.
  - intros s k key o Ho. cbn. unfold mem_lookup in Ho. by rewrite Ho.
  - intros s k key Ho. cbn. unfold mem_lookup in Ho. rewrite Ho. by exists (notFound key).
  - intros s k key o [? _]%find_key_Some. done.
  - intros s k o Ho. cbn. unfold mem_create. unfold mem_lookup in Ho. rewrite Ho.
    do 2 eexists. split; [done|]. split; [apply stored_with_meta|].
    split; [by rewrite with_meta_meta|]. apply put_at, with_meta_key.
  - intros s k o cur Ho Hrv Huid Hdel. cbn. unfold mem_update. unfold mem_lookup in Ho. rewrite Ho.
    rewrite Hrv, str_eqb_refl. cbn [negb].
    do 2 eexists. split; [done|]. split; [apply stored_with_meta|]. rewrite with_meta_meta.
    split; [done|]. split; [done|].
    assert (finalized (server_meta s (om_UID (meta_of cur)) (om_DeletionTimestamp (meta_of cur)) (meta_of o))
            = finalized (meta_of o)) as -> by (unfold finalized; cbn; by rewrite Hdel).
    destruct (finalized (meta_of o)); [apply remove_at|apply put_at, with_meta_key].
  - intros s k o cur Ho Hfin. cbn. unfold mem_delete. unfold mem_lookup in Ho. rewrite Ho, Hfin.
    eexists. split; [done|]. apply remove_at.
  - intros s m cur Ho Hrv. cbn. unfold mem_status_update. unfold mem_lookup in Ho. rewrite Ho.
    rewrite Hrv, str_eqb_refl. cbn [negb]. do 2 eexists. split; [done|]. cbn.
    split; [by split|]. do 3 (split; [done|]). apply (put_at (k:=KMustGather)).
    by destruct (find_key_Some (k:=KMustGather) _ _ _ Ho).
  - intros s ns labels. exists (mem_list_pods ns labels s). split; [done|].
    apply mem_list_pods_spec.
  - by intros.
  - by intros.
  - by intros.
  - by intros.
  - by intros.
  - by intros.
Defined.
