(* ===== verification/Conditions.v ===== *)
(** * Status conditions

    [AddOrReplaceCondition] of operator-utils and [SetStatusCondition],
    [FindStatusCondition] and [IsStatusConditionPresentAndEqual] of
    apimachinery: the two ways the operator writes the list of conditions of a
    [MustGather].  The CRD declares the list a map keyed by type; that the types
    stay distinct is the invariant [unique_types]. *)

From S2P Require Import Prelude GoStrings GoErrors GoTime K8sTypes MustGatherV1 Effects KubeEffects.

Definition ReconcileErrorType : string := "ReconcileError".
Definition ReconcileErrorReason : string := "LastReconcileCycleFailed".
Definition ReconcileSuccessType : string := "ReconcileSuccess".
Definition ReconcileSuccessReason : string := "LastReconcileCycleSucceded".

Fixpoint AddOrReplaceCondition (c : Condition) (conditions : list Condition) : list Condition :=
  match conditions with
  | [] => [c]
  | condition :: rest =>
      if c_Type c =?s c_Type condition then c :: rest
      else condition :: AddOrReplaceCondition c rest
  end.

Fixpoint FindStatusCondition (conditions : list Condition) (conditionType : string) : option Condition :=
  match conditions with
  | [] => None
  | c :: rest => if c_Type c =?s conditionType then Some c else FindStatusCondition rest conditionType
  end.

(** Writing through the pointer [FindStatusCondition] returned. *)
Fixpoint write_found (conditions : list Condition) (conditionType : string) (c' : Condition) : list Condition :=
  match conditions with
  | [] => []
  | c :: rest => if c_Type c =?s conditionType then c' :: rest else c :: write_found rest conditionType c'
  end.

(** [now] is the clock reading of the branch that takes one. *)
Definition merge_condition (now : Time) (existing new : Condition) : Condition * bool :=
  let changed_status := c_Status existing <>?s c_Status new in
  let ltt :=
    if changed_status then
      if negb (Time_IsZero (c_LastTransitionTime new)) then c_LastTransitionTime new else now
    else c_LastTransitionTime existing in
  (mkCondition (c_Type existing) (c_Status new) (c_ObservedGeneration new) ltt
     (c_Reason new) (c_Message new),
   changed_status || (c_Reason existing <>?s c_Reason new)
   || (c_Message existing <>?s c_Message new)
   || negb (c_ObservedGeneration existing =? c_ObservedGeneration new)%Z).

Definition with_transition (c : Condition) (t : Time) : Condition :=
  mkCondition (c_Type c) (c_Status c) (c_ObservedGeneration c) t (c_Reason c) (c_Message c).

(** [SetStatusCondition] as a function of the time [time.Now()] would answer. *)
Definition SetStatusCondition (now : Time) (conditions : list Condition) (new : Condition)
    : list Condition * bool :=
  match FindStatusCondition conditions (c_Type new) with
  | None =>
      let new := if Time_IsZero (c_LastTransitionTime new) then with_transition new now else new in
      (conditions ++ [new], true)
  | Some existing =>
      let '(merged, changed) := merge_condition now existing new in
      (write_found conditions (c_Type new) merged, changed)
  end.

(** Whether [SetStatusCondition] reads the clock. *)
Definition takes_clock (conditions : list Condition) (new : Condition) : bool :=
  Time_IsZero (c_LastTransitionTime new) &&
  match FindStatusCondition conditions (c_Type new) with
  | None => true
  | Some existing => c_Status existing <>?s c_Status new
  end.

Fixpoint IsStatusConditionPresentAndEqual (conditions : list Condition) (conditionType status : string) : bool :=
  match conditions with
  | [] => false
  | c :: rest =>
      if c_Type c =?s conditionType then c_Status c =?s status
      else IsStatusConditionPresentAndEqual rest conditionType status
  end.

(** The invariant of a list keyed by type. *)
Definition unique_types (conditions : list Condition) : Prop := NoDup (c_Type <$> conditions).

(** ** Lookup by type, the abstract view of a condition list *)

Lemma Find_AddOrReplace c cs t :
  FindStatusCondition (AddOrReplaceCondition c cs) t =
  if decide (c_Type c = t) then Some c else FindStatusCondition cs t.
Proof.
  induction cs as [|d cs IH]; cbn; [|str_case (c_Type c) (c_Type d); cbn; [|rewrite IH]];
    str_cases; repeat case_decide; congruence.
Qed.

Lemma types_AddOrReplace c cs t :
  t ∈ c_Type <$> AddOrReplaceCondition c cs -> t = c_Type c \/ t ∈ c_Type <$> cs.
Proof.
  induction cs as [|d cs IH]; cbn; [set_solver|]. str_cases; set_solver.
Qed.

Lemma AddOrReplace_unique c cs : unique_types cs -> unique_types (AddOrReplaceCondition c cs).
Proof.
  unfold unique_types. induction cs as [|d cs IH]; cbn.
  - intros _. apply NoDup_singleton.
  - intros [Hd Hcs]%NoDup_cons. destruct (str_eqb_spec (c_Type c) (c_Type d)) as [E|E]; cbn.
    + rewrite E. by constructor.
    + constructor; [|auto]. intros [?|?]%types_AddOrReplace; [congruence|done].
Qed.

Lemma types_write_found cs t c' :
  c_Type c' = t -> c_Type <$> write_found cs t c' = c_Type <$> cs.
Proof.
  intros Ht. induction cs as [|d cs IH]; cbn; [done|]. str_cases; congruence.
Qed.

Lemma Find_write_found cs t c' u :
  c_Type c' = t -> is_Some (FindStatusCondition cs t) ->
  FindStatusCondition (write_found cs t c') u =
  if decide (t = u) then Some c' else FindStatusCondition cs u.
Proof.
  intros <-. induction cs as [|d cs IH]; cbn; [by intros []|].
  str_case (c_Type d) (c_Type c'); cbn; intros Hs; [|rewrite IH by done];
    str_cases; repeat case_decide; congruence.
Qed.

Lemma Find_app cs c t :
  FindStatusCondition (cs ++ [c]) t =
  match FindStatusCondition cs t with
  | Some d => Some d
  | None => if c_Type c =?s t then Some c else None
  end.
Proof. induction cs as [|d cs IH]; cbn; [done|]. by destruct (c_Type d =?s t). Qed.

Lemma Find_type cs t c : FindStatusCondition cs t = Some c -> c_Type c = t.
Proof. induction cs as [|d cs IH]; cbn; [done|]. str_cases; naive_solver. Qed.

Lemma Find_None cs t : FindStatusCondition cs t = None <-> t ∉ c_Type <$> cs.
Proof. induction cs as [|d cs IH]; cbn; [set_solver|]. str_cases; set_solver. Qed.

Lemma SetStatusCondition_unique now cs new :
  unique_types cs -> unique_types (SetStatusCondition now cs new).1.
Proof.
  unfold SetStatusCondition, unique_types. intros Hu.
  destruct (FindStatusCondition cs (c_Type new)) as [ex|] eqn:E; cbn.
  - rewrite types_write_found; [done|]. by apply Find_type in E.
  - apply Find_None in E. rewrite fmap_app. apply NoDup_app. split_and!; [done| |apply NoDup_singleton].
    intros t Ht. destruct (Time_IsZero _); cbn; set_solver.
Qed.

(** What a caller finds after [SetStatusCondition]. *)
Lemma Find_SetStatusCondition now cs new t :
  FindStatusCondition (SetStatusCondition now cs new).1 t =
  if decide (c_Type new = t) then
    Some (match FindStatusCondition cs (c_Type new) with
          | None => if Time_IsZero (c_LastTransitionTime new) then with_transition new now else new
          | Some ex => (merge_condition now ex new).1
          end)
  else FindStatusCondition cs t.
Proof.
  unfold SetStatusCondition.
  destruct (FindStatusCondition cs (c_Type new)) as [ex|] eqn:E; cbn.
  - rewrite Find_write_found by (rewrite ?E; try done; by apply Find_type in E). by case_decide.
  - rewrite Find_app. case_decide as Ht; subst.
    + rewrite E. destruct (Time_IsZero _); cbn; by rewrite str_eqb_refl.
    + destruct (FindStatusCondition cs t); [done|].
      destruct (Time_IsZero _); cbn; str_cases; congruence.
Qed.

Lemma IsPresentAndEqual_Find cs t s :
  IsStatusConditionPresentAndEqual cs t s =
  match FindStatusCondition cs t with Some c => c_Status c =?s s | None => false end.
Proof. induction cs as [|c cs IH]; cbn; [done|]. by destruct (c_Type c =?s t). Qed.
