(* ===== verification/OperatorUtils.v ===== *)
(** * ReconcilerBase and controllerutil

    The vendored helpers the reconciler is built on: [ManageError] and
    [ManageSuccess] (an event and a status condition each),
    [CreateResourceIfNotExists], [DeleteResourcesIfExist], and
    [SetControllerReference] with the owner-reference functions under it. *)

From S2P Require Import Prelude GoStrings GoErrors GoTime K8sTypes MustGatherV1 Effects KubeEffects.
From S2P Require Import Conditions.

(** ** Owner references *)

(** [schema.ParseGroupVersion]: group and version, [None] on more than one [/]. *)
Definition ParseGroupVersion (gv : string) : option (string * string) :=
  if (gv =?s "") || (gv =?s "/") then Some ("", "") else
  match indexByte slash gv with
  | None => Some ("", gv)
  | Some i =>
      let version := String.substring (S i) (String.length gv - S i) gv in
      match indexByte slash version with
      | None => Some (String.substring 0 i gv, version)
      | Some _ => None
      end
  end.

Definition referSameObject (a b : OwnerReference) : bool :=
  match ParseGroupVersion (or_APIVersion a), ParseGroupVersion (or_APIVersion b) with
  | Some (aGroup, _), Some (bGroup, _) =>
      (aGroup =?s bGroup) && (or_Kind a =?s or_Kind b) && (or_Name a =?s or_Name b)
  | _, _ => false
  end.

(** [upsertOwnerRef]: replaces the first reference to the same object, or
    appends ([indexOwnerRef] is the search). *)
Fixpoint upsertOwnerRef (ref : OwnerReference) (owners : list OwnerReference) : list OwnerReference :=
  match owners with
  | [] => [ref]
  | r :: rest => if referSameObject r ref then ref :: rest else r :: upsertOwnerRef ref rest
  end.

Definition validateOwner (owner object : ObjectMeta) : option goerror :=
  let ownerNs := om_Namespace owner in
  if ownerNs =?s "" then None else
  let objNs := om_Namespace object in
  if objNs =?s "" then
    Some (errorString ("cluster-scoped resource must not have a namespace-scoped owner, owner's namespace " +:+ ownerNs))
  else if ownerNs <>?s objNs then
    Some (errorString ("cross-namespace owner references are disallowed, owner's namespace " +:+ ownerNs
                       +:+ ", obj's namespace " +:+ objNs))
  else None.

Definition is_controller (r : OwnerReference) : bool := default false (or_Controller r).

Definition GetControllerOf (m : ObjectMeta) : option OwnerReference :=
  List.find is_controller (om_OwnerReferences m).

(** The group, version and kind the scheme holds for [MustGather]. *)
Definition MustGatherAPIVersion : string := "operator.openshift.io/v1".
Definition MustGatherKind : string := "MustGather".

(** The reference [SetControllerReference] builds for an owner. *)
Definition controllerRef (owner : ObjectMeta) : OwnerReference :=
  mkOwnerRef MustGatherAPIVersion MustGatherKind (om_Name owner) (om_UID owner) (Some true) (Some true).

(** [controllerutil.SetControllerReference]; [inl] is the returned error, the
    object being left unchanged. *)
Definition SetControllerReference (owner controlled : ObjectMeta) : goerror + ObjectMeta :=
  match validateOwner owner controlled with
  | Some e => inl e
  | None =>
      let ref := controllerRef owner in
      match GetControllerOf controlled with
      | Some existing =>
          if negb (referSameObject existing ref) then
            inl (errorString ("Object " +:+ om_Namespace controlled +:+ "/" +:+ om_Name controlled
                   +:+ " is already owned by another " +:+ or_Kind existing +:+ " controller "
                   +:+ or_Name existing))
          else inr (om_with_OwnerReferences controlled (upsertOwnerRef ref (om_OwnerReferences controlled)))
      | None => inr (om_with_OwnerReferences controlled (upsertOwnerRef ref (om_OwnerReferences controlled)))
      end
  end.

(** ** Creating and deleting *)

(** The object [CreateResourceIfNotExists] sends: the owner reference is set
    (its error is dropped), then the namespace. *)
Definition owned_job (owner : ObjectMeta) (namespace : string) (obj : Job) : Job :=
  let meta :=
    match SetControllerReference owner (job_ObjectMeta obj) with
    | inl _ => job_ObjectMeta obj
    | inr m => m
    end in
  job_with_ObjectMeta obj (if namespace =?s "" then meta else om_with_Namespace meta namespace).

(** [CreateResourceIfNotExists], at its one use: a [Job] owned by a [MustGather]. *)
Definition CreateResourceIfNotExists (owner : MustGather) (namespace : string) (obj : Job)
    : kprog (option goerror) :=
  let* err := call (Create KJob (owned_job (mg_ObjectMeta owner) namespace obj)) in
  Ret match err with
      | Some e => if IsAlreadyExists e then None else Some e
      | None => None
      end.

Definition DeleteResourceIfExists {k : Kind} (obj : objOf k) : kprog (option goerror) :=
  let* err := call (Delete k obj) in
  Ret match err with
      | Some e => if IsNotFound e then None else Some e
      | None => None
      end.

Definition DeleteResourcesIfExist {k : Kind} (objs : list (objOf k)) : kprog (option goerror) :=
  for_each DeleteResourceIfExists objs.

(** ** Outcome of a reconcile *)

Definition errorCondition (m : MustGather) (now : Time) (issue : goerror) : Condition :=
  mkCondition ReconcileErrorType ConditionTrue (om_Generation (mg_ObjectMeta m)) now
    ReconcileErrorReason (Error issue).

Definition successCondition (m : MustGather) (now : Time) : Condition :=
  mkCondition ReconcileSuccessType ConditionTrue (om_Generation (mg_ObjectMeta m)) now
    ReconcileSuccessReason "".

(** [conditionsAware.SetConditions(apis.AddOrReplaceCondition(c, GetConditions()))]. *)
Definition put_condition (m : MustGather) (c : Condition) : MustGather :=
  SetConditions m (AddOrReplaceCondition c (GetConditions m)).

Definition ManageErrorWithRequeue (obj : MustGather) (issue : goerror) (requeueAfter : Duration)
    : kprog Outcome :=
  let* _ := call (RecordEvent obj "Warning" "ProcessingError" (Error issue)) in
  let* now := call TimeNow in
  let* r := call (StatusUpdate (put_condition obj (errorCondition obj now issue))) in
  match r with
  | inl err => Ret (mkResult false requeueAfter, Some err)
  | inr _ => Ret (mkResult false requeueAfter, Some issue)
  end.

Definition ManageError (obj : MustGather) (issue : goerror) : kprog Outcome :=
  ManageErrorWithRequeue obj issue 0%Z.

Definition ManageSuccessWithRequeue (obj : MustGather) (requeueAfter : Duration) : kprog Outcome :=
  let* now := call TimeNow in
  let* r := call (StatusUpdate (put_condition obj (successCondition obj now))) in
  match r with
  | inl err => Ret (mkResult false requeueAfter, Some err)
  | inr _ => Ret (mkResult false requeueAfter, None)
  end.

Definition ManageSuccess (obj : MustGather) : kprog Outcome := ManageSuccessWithRequeue obj 0%Z.

(** ** Facts *)

Lemma GetConditions_SetConditions m cs : GetConditions (SetConditions m cs) = cs.
Proof. by destruct m as [? ? ? [[]|]]. Qed.

Lemma put_condition_spec_meta m c :
  mg_ObjectMeta (put_condition m c) = mg_ObjectMeta m /\ mg_Spec (put_condition m c) = mg_Spec m.
Proof. done. Qed.

Lemma owned_job_key owner ns j :
  om_Name (job_ObjectMeta (owned_job owner ns j)) = om_Name (job_ObjectMeta j) /\
  job_Spec (owned_job owner ns j) = job_Spec j.
Proof.
  unfold owned_job, SetControllerReference. cbn. split; [|done].
  repeat case_match; simplify_eq/=; done.
Qed.

Lemma owned_job_finalizers owner ns j :
  om_Finalizers (job_ObjectMeta (owned_job owner ns j)) = om_Finalizers (job_ObjectMeta j).
Proof. unfold owned_job, SetControllerReference. cbn. repeat case_match; simplify_eq/=; done. Qed.

Lemma owned_job_namespace owner ns j :
  om_Namespace (job_ObjectMeta j) = ns -> om_Namespace (job_ObjectMeta (owned_job owner ns j)) = ns.
Proof.
  intros <-. unfold owned_job, SetControllerReference. cbn. str_case (om_Namespace (job_ObjectMeta j)) ""; [|done].
  repeat case_match; simplify_eq/=; done.
Qed.

(** An object that nobody owns yet becomes owned by its creator. *)
Lemma owned_job_refs owner j :
  om_OwnerReferences (job_ObjectMeta j) = [] -> om_Namespace (job_ObjectMeta j) = om_Namespace owner ->
  om_OwnerReferences (job_ObjectMeta (owned_job owner (om_Namespace owner) j)) = [controllerRef owner].
Proof.
  intros Hr Hn. unfold owned_job, SetControllerReference, validateOwner, GetControllerOf.
  rewrite Hn, Hr. str_case (om_Namespace owner) ""; cbn; by rewrite ?str_eqb_refl.
Qed.
