(* ===== verification/GoPath.v ===== *)
(** * Go's [path] package: [Clean] and [Join]

    [Clean] is lexical: it works on the elements between slashes with a stack of
    the elements kept so far. *)

From S2P Require Import Prelude GoStrings.

#[local] Arguments String.append : simpl nomatch.

(** One pass over the elements; [stack] holds the kept ones, last first. *)
Fixpoint clean_elements (rooted : bool) (stack elems : list string) : list string :=
  match elems with
  | [] => reverse stack
  | e :: es =>
      if (e =?s "") || (e =?s ".") then clean_elements rooted stack es
      else if e =?s ".." then
        match stack with
        | top :: rest =>
            if top =?s ".." then clean_elements rooted (".." :: stack) es
            else clean_elements rooted rest es
        | [] => clean_elements rooted (if rooted then [] else [".."]) es
        end
      else clean_elements rooted (e :: stack) es
  end.

Definition path_Clean (p : string) : string :=
  if p =?s "" then "." else
  let rooted := strings_HasPrefix p "/" in
  let out := strings_Join (clean_elements rooted [] (split_byte slash p)) "/" in
  if rooted then "/" +:+ out else if out =?s "" then "." else out.

Fixpoint join_elements (buf : string) (elems : list string) : string :=
  match elems with
  | [] => buf
  | e :: es =>
      join_elements
        (if (buf <>?s "") || (e <>?s "")
         then (if buf <>?s "" then buf +:+ "/" else buf) +:+ e else buf) es
  end.

Definition path_Join (elems : list string) : string :=
  if forallb (fun e => e =?s "") elems then "" else path_Clean (join_elements "" elems).

Example path_join_ex :
  map path_Join [["a//b"; "d"]; [""; "d"]; ["./a/../b/"; "d"]; ["../x"; "d"]; ["/a"; ".."; ""]; []]
  = ["a/b/d"; "d"; "b/d"; "../x/d"; "/"; ""].
Proof. vm_compute. reflexivity. Qed.

(** ** Facts *)

Definition no_slash (s : string) : Prop := all_bytes (fun c => negb (Ascii.eqb c slash)) s = true.

(** An element that [Clean] keeps as it is. *)
Definition real_element (e : string) : Prop := e <> "" /\ e <> "." /\ e <> "..".

Lemma split_Join es :
  es <> [] -> Forall no_slash es -> split_byte slash (strings_Join es "/") = es.
Proof.
  intros Hne Hf. induction Hf as [|e es He Hes IH]; [done|].
  destruct es as [|e' es]; [by apply split_byte_none|].
  change (strings_Join (e :: e' :: es) "/") with (e +:+ String slash (strings_Join (e' :: es) "/")).
  rewrite split_byte_app, IH by done. by rewrite (split_byte_none _ e He).
Qed.

(** Without [..] the stack only grows, by the non-trivial elements. *)
Lemma clean_elements_no_dotdot rooted stack elems :
  ".." ∉ elems ->
  clean_elements rooted stack elems
  = reverse stack ++ filter (fun e => e <> "" /\ e <> ".") elems.
Proof.
  revert stack. induction elems as [|e es IH]; intros stack Hnd; cbn [clean_elements].
  - by rewrite filter_nil, app_nil_r.
  - apply not_elem_of_cons in Hnd as [He Hes]. rewrite filter_cons.
    destruct (str_eqb_spec e "") as [->|H1]; [rewrite IH by done; by rewrite decide_False by naive_solver|].
    destruct (str_eqb_spec e ".") as [->|H2]; [rewrite IH by done; by rewrite decide_False by naive_solver|].
    cbn [orb]. destruct (str_eqb_spec e ".."); [congruence|].
    rewrite decide_True by done. rewrite IH by done. by rewrite reverse_cons, <-app_assoc.
Qed.

Lemma HasPrefix_slash_append s t :
  s <> "" -> strings_HasPrefix (s +:+ t) "/" = strings_HasPrefix s "/".
Proof.
  unfold strings_HasPrefix. destruct s as [|c s]; [done|]. intros _. cbn.
  case_match; [|done]. by destruct s, t.
Qed.

Lemma Join_nonempty es e : e ∈ es -> e <> "" -> strings_Join es "/" <> "".
Proof.
  destruct es as [|e1 [|e2 es]]; cbn; [set_solver|set_solver|].
  intros _ _. by destruct e1.
Qed.

(** Joining a relative base free of [..] with one proper element: the result's
    elements are the base's proper elements followed by that element. *)
Lemma split_path_Join base dir :
  strings_HasPrefix base "/" = false -> ".." ∉ split_byte slash base ->
  no_slash dir -> real_element dir -> strings_HasPrefix dir "/" = false ->
  split_byte slash (path_Join [base; dir])
  = filter (fun e => e <> "" /\ e <> ".") (split_byte slash base) ++ [dir].
Proof.
  intros Hb Hdd Hns (Hd1 & Hd2 & Hd3) Hdp.
  set (els := filter (fun e => e <> "" /\ e <> ".") (split_byte slash base) ++ [dir]).
  assert (exists p, path_Join [base; dir] = path_Clean p /\ p <> "" /\
            strings_HasPrefix p "/" = false /\ (".." ∉ split_byte slash p) /\
            filter (fun e => e <> "" /\ e <> ".") (split_byte slash p) = els) as (p & -> & Hp & Hpp & Hpd & Hpe).
  { unfold path_Join. cbn [forallb join_elements]. rewrite andb_true_r.
    rewrite (proj2 (str_eqb_neq dir "")) by done. rewrite andb_false_r.
    destruct (str_eqb_spec base "") as [->|Hbn]; rewrite ?str_eqb_refl; cbn [forallb join_elements andb negb orb].
    - exists dir. rewrite (split_byte_none slash dir Hns). subst els. cbn [split_byte app].
      repeat rewrite filter_cons. rewrite decide_True by done. rewrite decide_False by naive_solver.
      split_and!; try done. set_solver.
    - exists (base +:+ String slash dir). rewrite split_byte_app, (split_byte_none slash dir Hns).
      subst els. rewrite filter_app, filter_cons, filter_nil, decide_True by done.
      rewrite HasPrefix_slash_append by done. split_and!; try done.
      + rewrite orb_true_r. change ("" +:+ base) with base.
        rewrite (proj2 (str_eqb_neq base "")) by done. cbn [negb]. by rewrite append_assoc.
      + by destruct base.
      + set_solver. }
  unfold path_Clean. rewrite (proj2 (str_eqb_neq p "")) by done. rewrite Hpp.
  rewrite clean_elements_no_dotdot by done. cbn [reverse rev_append]. rewrite Hpe.
  assert (Forall no_slash els) as Hels.
  { unfold els. apply Forall_app. split; [|by constructor].
    apply Forall_forall. intros e [_ He]%list_elem_of_filter.
    by apply split_byte_elem in He as [? _]. }
  rewrite (proj2 (str_eqb_neq _ "")).
  - cbn. apply split_Join; [unfold els; by destruct (filter _ _)|done].
  - apply (Join_nonempty _ dir); [unfold els; set_solver|done].
Qed.
