(* ===== verification/Template.v ===== *)
(** * The job template, [controllers/mustgather/template.go] and [constant.go]

    The translation of [getJobTemplate] and everything under it: the volumes,
    the gather and upload containers, their mounts, commands and environment.
    [getJobTemplate] reads the operator's proxy variables, so it is a program;
    the rest is pure. *)

From S2P Require Import Prelude GoStrings GoPath GoErrors GoTime K8sTypes MustGatherV1 Effects KubeEffects.

(** ** Constants *)

Definition infraNodeLabelKey : string := "node-role.kubernetes.io/infra".
Definition outputVolumeName : string := "must-gather-output".
Definition uploadVolumeName : string := "must-gather-upload".
Definition trustedCAVolumeName : string := "trusted-ca".
Definition volumeMountPath : string := "/must-gather".
Definition volumeUploadMountPath : string := "/must-gather-upload".
Definition trustedCAMountPath : string := "/etc/pki/tls/certs".

Definition gatherCommandBinaryAudit : string := "gather_audit_logs".
Definition gatherCommandBinaryNoAudit : string := "gather".

(** [fmt.Sprintf(gatherCommand, timeout, binary)]. *)
Definition gatherCommand (timeout binary : string) : string :=
  "timeout " +:+ timeout +:+ " bash -x -c -- '/usr/bin/" +:+ binary
  +:+ "' 2>&1 | tee /must-gather/must-gather.log" +:+ nl +:+ nl
  +:+ "status=$?" +:+ nl
  +:+ "if [[ $status -eq 124 || $status -eq 137 ]]; then" +:+ nl
  +:+ "  echo " +:+ dq +:+ "Gather timed out." +:+ dq +:+ nl
  +:+ "  exit 0" +:+ nl
  +:+ "fi | tee -a /must-gather/must-gather.log".

Definition gatherContainerName : string := "gather".
Definition gatherEnvSince : string := "MUST_GATHER_SINCE".
Definition gatherEnvSinceTime : string := "MUST_GATHER_SINCE_TIME".
Definition backoffLimit : Z := 3.
Definition uploadContainerName : string := "upload".
Definition uploadEnvUsername : string := "username".
Definition uploadEnvPassword : string := "password".
Definition uploadEnvCaseID : string := "caseid".
Definition uploadEnvHost : string := "host".
Definition uploadEnvInternalUser : string := "internal_user".
Definition uploadEnvHTTPProxy : string := "http_proxy".
Definition uploadEnvHTTPSProxy : string := "https_proxy".
Definition uploadEnvNoProxy : string := "no_proxy".
Definition uploadEnvMustGatherOutput : string := "must_gather_output".
Definition uploadEnvMustGatherUpload : string := "must_gather_upload".
Definition uploadEnvFilenamePrefix : string := "FILENAME_PREFIX".

Definition uploadCommand : string :=
  "count=0" +:+ nl +:+ "until [ $count -gt 4 ]" +:+ nl +:+ "do" +:+ nl
  +:+ "  while `pgrep -a gather > /dev/null`" +:+ nl +:+ "  do" +:+ nl
  +:+ "    echo " +:+ dq +:+ "waiting for gathers to complete ..." +:+ dq +:+ nl
  +:+ "    sleep 120" +:+ nl +:+ "    count=0" +:+ nl +:+ "  done" +:+ nl
  +:+ "  echo " +:+ dq +:+ "no gather is running ($count / 4)" +:+ dq +:+ nl
  +:+ "  ((count++))" +:+ nl +:+ "  sleep 30" +:+ nl +:+ "done" +:+ nl
  +:+ "/usr/local/bin/upload".
Definition uploadCommandDirect : string := "/usr/local/bin/upload".

Definition sshDir : string := "/tmp/must-gather-operator/.ssh".
Definition knownHostsFile : string := "/tmp/must-gather-operator/.ssh/known_hosts".

Definition obfuscateEnvEnabled : string := "obfuscate".
Definition obfuscateEnvConfig : string := "obfuscate_config".
Definition obfuscateConfigVolumeName : string := "obfuscate-config".
Definition obfuscateConfigMountPath : string := "/etc/must-gather-clean/custom-config/config.yaml".
Definition obfuscateConfigMapKey : string := "config.yaml".
Definition obfuscateChownSuffix : string :=
  "gather_rc=$?; chown -R 65534:65534 /must-gather || true; exit $gather_rc".

(** ** Questions about the spec *)

Definition derefString (s : option string) : string := match s with None => "" | Some s => s end.

(** [base] of [outputSubPath] and [getUploadContainer]. *)
Definition trimmed_base (storage : Storage) : string :=
  strings_Trim_byte (strings_TrimSpace (derefString (pv_SubPath (st_PersistentVolume storage)))) slash.

(** The sub path and whether there is a PVC. *)
Definition outputSubPath (storage : option Storage) (directoryName : string) : string * bool :=
  match storage with
  | None => ("", false)
  | Some st =>
      if st_Type st <>?s StorageTypePersistentVolume then ("", false)
      else (path_Join [trimmed_base st; directoryName], true)
  end.

Record GatherTimeFilter := mkTimeFilter { tf_Since : Duration; tf_SinceTime : option Time }.

Definition isObfuscateEnabled (obfuscate : option ObfuscateConfig) : bool :=
  match obfuscate with Some o => ptr_deref (oc_Enabled o) false | None => false end.

Definition shouldAppendObfuscateChown (obfuscate : option ObfuscateConfig) : bool :=
  isObfuscateEnabled obfuscate &&
  match obfuscate with Some o => negb (has (oc_Source o)) | None => false end.

Definition hasSFTPUpload (mustGather : MustGather) : bool :=
  match spec_UploadTarget (mg_Spec mustGather) with
  | None => false
  | Some ut =>
      if ut_Type ut <>?s UploadTypeSFTP then false else
      match ut_SFTP ut with
      | None => false
      | Some s => (sftp_CaseID s <>?s "") && (lor_Name (sftp_CaseManagementAccountSecretRef s) <>?s "")
      end
  end.

Definition getSftpSpec (mustGather : MustGather) : option SFTPSpec :=
  if negb (hasSFTPUpload mustGather) then None
  else match spec_UploadTarget (mg_Spec mustGather) with Some ut => ut_SFTP ut | None => None end.

Definition shouldAddUploadContainer (mustGather : MustGather) : bool :=
  isObfuscateEnabled (spec_Obfuscate (mg_Spec mustGather)) || hasSFTPUpload mustGather.

Definition getObfuscateConfigMapRefName (obfuscate : option ObfuscateConfig) : string :=
  match obfuscate with
  | Some o => match oc_ObfuscationConfigRef o with Some r => lor_Name r | None => "" end
  | None => ""
  end.

(** The claim name of [obfuscate.Source], empty when there is none. *)
Definition sourceClaimName (obfuscate : option ObfuscateConfig) : string :=
  match obfuscate with
  | Some o => match oc_Source o with Some p => pvc_Name (pv_Claim p) | None => "" end
  | None => ""
  end.

Definition sourceSubPath (obfuscate : option ObfuscateConfig) : option string :=
  match obfuscate with
  | Some o => match oc_Source o with Some p => pv_SubPath p | None => None end
  | None => None
  end.

Definition hasObfuscateSource (obfuscate : option ObfuscateConfig) : bool :=
  sourceClaimName obfuscate <>?s "".

(** ** initializeJobTemplate *)

Definition emptyDirSource : VolumeSource := mkVolumeSource (Some tt) None None.
Definition pvcSource (claim : string) (ro : bool) : VolumeSource :=
  mkVolumeSource None (Some (mkPVCSource claim ro)) None.
Definition configMapSource (name : string) : VolumeSource :=
  mkVolumeSource None None (Some (mkLocalRef name)).

Definition outputVolumeSource (storage : option Storage) (obfuscate : option ObfuscateConfig) : VolumeSource :=
  if hasObfuscateSource obfuscate then pvcSource (sourceClaimName obfuscate) true
  else match storage with
       | Some st =>
           if (st_Type st =?s StorageTypePersistentVolume)
              && (pvc_Name (pv_Claim (st_PersistentVolume st)) <>?s "")
           then pvcSource (pvc_Name (pv_Claim (st_PersistentVolume st))) false
           else emptyDirSource
       | None => emptyDirSource
       end.

Definition jobVolumes (storage : option Storage) (trustedCAConfigMapName : string)
    (obfuscate : option ObfuscateConfig) : list Volume :=
  [mkVolume outputVolumeName (outputVolumeSource storage obfuscate);
   mkVolume uploadVolumeName emptyDirSource]
  ++ (if trustedCAConfigMapName <>?s ""
      then [mkVolume trustedCAVolumeName (configMapSource trustedCAConfigMapName)] else [])
  ++ (if getObfuscateConfigMapRefName obfuscate <>?s ""
      then [mkVolume obfuscateConfigVolumeName (configMapSource (getObfuscateConfigMapRefName obfuscate))]
      else []).

Definition initializeJobTemplate (name namespace serviceAccountRef : string) (storage : option Storage)
    (trustedCAConfigMapName : string) (obfuscate : option ObfuscateConfig) : Job :=
  mkJob
    (mkMeta name namespace "" "" 0 None ∅ [] [])
    (mkJobSpec (Some backoffLimit)
       (mkPodSpec
          [mkPreferredTerm [mkNodeSelectorRequirement infraNodeLabelKey "Exists"] 1]
          [mkToleration infraNodeLabelKey "Exists" "NoSchedule"]
          "Never" (Some true)
          (jobVolumes storage trustedCAConfigMapName obfuscate)
          serviceAccountRef []))
    emptyJobStatus.

(** ** getGatherContainer *)

(** [%v] of [math.Ceil(timeout.Seconds())]. *)
Definition timeout_arg (timeout : Duration) : string :=
  match ceil_f64 (Duration_Seconds timeout) with
  | Some x => fmt_v_integral x
  | None => "NaN"
  end.

Definition trustedCAMount : VolumeMount :=
  mkVolumeMount trustedCAVolumeName true trustedCAMountPath "".

(** The volume mount of the output directory, outside source mode. *)
Definition gatherOutputMount (storage : option Storage) (directoryName : string) : VolumeMount :=
  let '(subPath, hasPVC) := outputSubPath storage directoryName in
  mkVolumeMount outputVolumeName false volumeMountPath (if hasPVC then subPath else "").

(** The command and arguments of the gather container. *)
Definition gatherCommandArgs (audit : bool) (timeout : Duration) (command args : list string)
    (obfuscate : option ObfuscateConfig) : list string * list string :=
  let commandBinary := if audit then gatherCommandBinaryAudit else gatherCommandBinaryNoAudit in
  match command with
  | _ :: _ =>
      if shouldAppendObfuscateChown obfuscate then
        let wrappedCmd := dq +:+ "$@" +:+ dq +:+ nl +:+ obfuscateChownSuffix in
        (["/bin/bash"; "-c"; wrappedCmd; "--"], command ++ args)
      else (command, args)
  | [] =>
      let gatherCmd := gatherCommand (timeout_arg timeout) commandBinary in
      let gatherCmd :=
        if shouldAppendObfuscateChown obfuscate then gatherCmd +:+ nl +:+ obfuscateChownSuffix
        else gatherCmd in
      (["/bin/bash"; "-c"; gatherCmd], args)
  end.

Definition timeFilterEnv (timeFilter : option GatherTimeFilter) : list EnvVar :=
  match timeFilter with
  | None => []
  | Some tf =>
      (if (0 <? tf_Since tf)%Z then [mkEnvVar gatherEnvSince (Duration_String (tf_Since tf)) None] else [])
      ++ match tf_SinceTime tf with
         | Some t => [mkEnvVar gatherEnvSinceTime (format_RFC3339 t) None]
         | None => []
         end
  end.

Definition getGatherContainer (image : string) (audit : bool) (timeout : Duration)
    (storage : option Storage) (trustedCAConfigMapName : string)
    (timeFilter : option GatherTimeFilter) (command args : list string) (directoryName : string)
    (obfuscate : option ObfuscateConfig) : Container :=
  let volumeMounts :=
    gatherOutputMount storage directoryName
    :: (if trustedCAConfigMapName <>?s "" then [trustedCAMount] else []) in
  let '(cmd, cargs) := gatherCommandArgs audit timeout command args obfuscate in
  mkContainer gatherContainerName image cmd cargs (timeFilterEnv timeFilter) volumeMounts.

(** ** getUploadContainer *)

Definition uploadCommandWithSSH (obfuscate : option ObfuscateConfig) : string :=
  let uploadCmd := if hasObfuscateSource obfuscate then uploadCommandDirect else uploadCommand in
  "mkdir -p " +:+ sshDir +:+ "; touch " +:+ knownHostsFile +:+ "; chmod 700 " +:+ sshDir
  +:+ "; chmod 600 " +:+ knownHostsFile +:+ "; " +:+ uploadCmd.

Definition uploadOutputMount (storage : option Storage) (obfuscate : option ObfuscateConfig)
    (directoryName : string) : VolumeMount :=
  if hasObfuscateSource obfuscate then
    mkVolumeMount outputVolumeName true volumeMountPath
      (strings_Trim_byte (derefString (sourceSubPath obfuscate)) slash)
  else gatherOutputMount storage directoryName.

Definition uploadUploadMount (storage : option Storage) (obfuscate : option ObfuscateConfig)
    (directoryName : string) : VolumeMount :=
  let emptyDirMount := mkVolumeMount uploadVolumeName false volumeUploadMountPath "" in
  if isObfuscateEnabled obfuscate && negb (hasObfuscateSource obfuscate) then
    match storage with
    | Some st =>
        if st_Type st =?s StorageTypePersistentVolume
        then mkVolumeMount outputVolumeName false volumeUploadMountPath
               (path_Join [trimmed_base st; directoryName])
        else emptyDirMount
    | None => emptyDirMount
    end
  else emptyDirMount.

Definition secretEnv (name : string) (ref : LocalObjectReference) : EnvVar :=
  mkEnvVar name "" (Some (mkSecretKeySelector ref name)).
Definition plainEnv (name value : string) : EnvVar := mkEnvVar name value None.

Definition sftpEnv (sftp : option SFTPSpec) : list EnvVar :=
  match sftp with
  | None => []
  | Some s =>
      [secretEnv uploadEnvUsername (sftp_CaseManagementAccountSecretRef s);
       secretEnv uploadEnvPassword (sftp_CaseManagementAccountSecretRef s);
       plainEnv uploadEnvCaseID (sftp_CaseID s);
       plainEnv uploadEnvHost (derefString (sftp_Host s));
       plainEnv uploadEnvInternalUser (strconv_FormatBool (ptr_deref (sftp_InternalUser s) false))]
  end.

Definition uploadEnv (httpProxy httpsProxy noProxy : string) (sftp : option SFTPSpec)
    (obfuscate : option ObfuscateConfig) (directoryName : string) : list EnvVar :=
  [plainEnv uploadEnvMustGatherOutput volumeMountPath;
   plainEnv uploadEnvMustGatherUpload volumeUploadMountPath]
  ++ sftpEnv sftp
  ++ (if isObfuscateEnabled obfuscate then [plainEnv obfuscateEnvEnabled "true"] else [])
  ++ (if getObfuscateConfigMapRefName obfuscate <>?s ""
      then [plainEnv obfuscateEnvConfig obfuscateConfigMountPath] else [])
  ++ [plainEnv uploadEnvFilenamePrefix directoryName]
  ++ (if httpProxy <>?s "" then [plainEnv uploadEnvHTTPProxy httpProxy] else [])
  ++ (if httpsProxy <>?s "" then [plainEnv uploadEnvHTTPSProxy httpsProxy] else [])
  ++ (if noProxy <>?s "" then [plainEnv uploadEnvNoProxy noProxy] else []).

Definition getUploadContainer (operatorImage : string) (storage : option Storage)
    (httpProxy httpsProxy noProxy : string) (shouldMountTrustedCAConfigMap : bool)
    (sftp : option SFTPSpec) (obfuscate : option ObfuscateConfig) (directoryName : string) : Container :=
  let volumeMounts :=
    [uploadOutputMount storage obfuscate directoryName; uploadUploadMount storage obfuscate directoryName]
    ++ (if shouldMountTrustedCAConfigMap then [trustedCAMount] else [])
    ++ (if getObfuscateConfigMapRefName obfuscate <>?s ""
        then [mkVolumeMount obfuscateConfigVolumeName true obfuscateConfigMountPath obfuscateConfigMapKey]
        else []) in
  mkContainer uploadContainerName operatorImage ["/bin/bash"; "-c"; uploadCommandWithSSH obfuscate] []
    (uploadEnv httpProxy httpsProxy noProxy sftp obfuscate directoryName) volumeMounts.

(** ** Proxy variables, [operator-lib/proxy] *)

Definition ProxyEnvNames : list string := ["HTTP_PROXY"; "HTTPS_PROXY"; "NO_PROXY"].

Fixpoint readProxyVars (names : list string) : kprog (list EnvVar) :=
  match names with
  | [] => Ret []
  | s :: names =>
      let* v := call (LookupEnv s) in
      let* rest := readProxyVars names in
      Ret (match v with
           | Some value => [plainEnv s value; plainEnv (ascii_lower s) value]
           | None => []
           end ++ rest)
  end.

Definition ReadProxyVarsFromEnv : kprog (list EnvVar) := readProxyVars ProxyEnvNames.

(** The loop of [getJobTemplate] over them: the last value of each name. *)
Fixpoint proxy_values (envVars : list EnvVar) (acc : string * string * string) : string * string * string :=
  match envVars with
  | [] => acc
  | envVar :: rest =>
      let '(httpProxy, httpsProxy, noProxy) := acc in
      proxy_values rest
        (if env_Name envVar =?s "HTTP_PROXY" then (env_Value envVar, httpsProxy, noProxy)
         else if env_Name envVar =?s "HTTPS_PROXY" then (httpProxy, env_Value envVar, noProxy)
         else if env_Name envVar =?s "NO_PROXY" then (httpProxy, httpsProxy, env_Value envVar)
         else acc)
  end.

(** ** getJobTemplate *)

Definition timeFilter_of (gatherSpec : option GatherSpec) : option GatherTimeFilter :=
  match gatherSpec with
  | None => None
  | Some gs =>
      if has (gs_Since gs) || has (gs_SinceTime gs)
      then Some (mkTimeFilter (ptr_deref (gs_Since gs) 0%Z) (gs_SinceTime gs))
      else None
  end.

(** The template as a function of the proxy values. *)
Definition jobTemplate (image operatorImage : string) (mustGather : MustGather)
    (trustedCAConfigMapName directoryName : string) (proxies : string * string * string) : Job :=
  let spec := mg_Spec mustGather in
  let job := initializeJobTemplate (mg_Name mustGather) (mg_Namespace mustGather)
               (spec_ServiceAccountName spec) (spec_Storage spec) trustedCAConfigMapName
               (spec_Obfuscate spec) in
  let '(httpProxy, httpsProxy, noProxy) := proxies in
  let audit := match spec_GatherSpec spec with Some gs => ptr_deref (gs_Audit gs) false | None => false end in
  let timeout := ptr_deref (spec_MustGatherTimeout spec) 0%Z in
  let timeFilter := timeFilter_of (spec_GatherSpec spec) in
  let command := match spec_GatherSpec spec with Some gs => gs_Command gs | None => [] end in
  let args := match spec_GatherSpec spec with Some gs => gs_Args gs | None => [] end in
  let job :=
    if negb (hasObfuscateSource (spec_Obfuscate spec)) then
      job_append_Container job
        (getGatherContainer image audit timeout (spec_Storage spec) trustedCAConfigMapName timeFilter
           command args directoryName (spec_Obfuscate spec))
    else job in
  if shouldAddUploadContainer mustGather then
    job_append_Container job
      (getUploadContainer operatorImage (spec_Storage spec) httpProxy httpsProxy noProxy
         (trustedCAConfigMapName <>?s "") (getSftpSpec mustGather) (spec_Obfuscate spec) directoryName)
  else job.

Definition getJobTemplate (image operatorImage : string) (mustGather : MustGather)
    (trustedCAConfigMapName directoryName : string) : kprog Job :=
  let* envVars := ReadProxyVarsFromEnv in
  Ret (jobTemplate image operatorImage mustGather trustedCAConfigMapName directoryName
         (proxy_values envVars ("", "", ""))).

(** ** Facts *)

Lemma jobTemplate_meta image op m ca dir proxies :
  job_ObjectMeta (jobTemplate image op m ca dir proxies)
  = mkMeta (mg_Name m) (mg_Namespace m) "" "" 0 None ∅ [] [].
Proof.
  unfold jobTemplate. destruct proxies as [[? ?] ?].
  destruct (negb (hasObfuscateSource _)), (shouldAddUploadContainer m); reflexivity.
Qed.

(** The proxy variables are read from the environment and nowhere else. *)
Lemma readProxyVars_everywhere (P : forall R, KubeE R -> Prop) names :
  (forall s, P _ (LookupEnv s)) -> everywhere P (readProxyVars names).
Proof. intros HP. induction names; cbn; [done|]. split; [done|]. intros. by ev_go. Qed.
