(* ===== verification/MustGatherUtil.v ===== *)
(** * Directory names, [pkg/mustgatherutil/util.go]

    The name of the directory a gather writes into:
    [must-gather.local.<cluster-id-suffix>.<timestamp>.<random>]. *)

From S2P Require Import Prelude GoStrings GoErrors GoTime K8sTypes MustGatherV1 Effects KubeEffects.

Definition clusterVersionName : string := "version".
Definition clusterIDSuffixLength : nat := 12.

(** [id[len(id)-12:]] when the id is longer than twelve bytes. *)
Definition id_suffix (id : string) : string :=
  if (clusterIDSuffixLength <? String.length id)%nat
  then String.substring (String.length id - clusterIDSuffixLength) clusterIDSuffixLength id
  else id.

Definition getClusterIDSuffix : kprog string :=
  let* r := call (Get KClusterVersion (mkKey "" clusterVersionName)) in
  Ret match r with
      | inl _ => ""
      | inr clusterVersion => id_suffix (cv_Spec_ClusterID clusterVersion)
      end.

(** [fmt.Sprintf("%06d", n)]: the sign counts towards the width. *)
Definition Sprintf_06d (n : Z) : string :=
  if (n <? 0)%Z then "-" +:+ pad_zero 5 (strconv_Itoa (- n)) else pad_zero 6 (strconv_Itoa n).

Definition generateRandomSuffix : kprog string :=
  let* n := call RandInt63 in Ret (Sprintf_06d n).

Definition directory_name (clusterIDSuffix : string) (now : Time) (random : string) : string :=
  let parts := ["must-gather.local"] in
  let parts := if clusterIDSuffix <>?s "" then parts ++ [clusterIDSuffix] else parts in
  let parts := parts ++ [format_timestamp (UTC now)] in
  let parts := parts ++ [random] in
  strings_Join parts ".".

Definition GenerateMustGatherDirectoryName (now : Time) : kprog string :=
  let* clusterIDSuffix := getClusterIDSuffix in
  let* random := generateRandomSuffix in
  Ret (directory_name clusterIDSuffix now random).

Example directory_name_ex :
  directory_name (id_suffix "12345678-abcd-efgh-1234-56789abcdef0") (mkTime 1700000000 0 0) (Sprintf_06d 42)
  = "must-gather.local.56789abcdef0.20231114T221320Z.000042" /\
  directory_name "" (mkTime 1700000000 0 0) (Sprintf_06d 1234567)
  = "must-gather.local.20231114T221320Z.1234567".
Proof. vm_compute. split; reflexivity. Qed.

(** ** The name is one proper path element *)

#[local] Arguments String.append : simpl nomatch.

Lemma all_bytes_Join f sep es :
  all_bytes f sep = true -> Forall (fun e => all_bytes f e = true) es ->
  all_bytes f (strings_Join es sep) = true.
Proof.
  intros Hs. induction 1 as [|e es He Hes IH]; [done|].
  destruct es as [|e' es]; [done|].
  change (strings_Join (e :: e' :: es) sep) with (e +:+ sep +:+ strings_Join (e' :: es) sep).
  by rewrite !all_bytes_append, He, Hs, IH.
Qed.

Lemma directory_name_head suffix now random :
  exists t, directory_name suffix now random = "must-gather.local." +:+ t.
Proof.
  unfold directory_name. cbn [app].
  destruct (suffix <>?s ""); cbn [app strings_Join]; eexists; reflexivity.
Qed.

Lemma directory_name_no_slash suffix now random :
  let ok := fun c => negb (Ascii.eqb c slash) in
  all_bytes ok suffix = true -> all_bytes ok (format_timestamp (UTC now)) = true ->
  all_bytes ok random = true ->
  all_bytes ok (directory_name suffix now random) = true.
Proof.
  intros ok Hs Ht Hr. unfold directory_name. apply all_bytes_Join; [done|].
  destruct (suffix <>?s ""); repeat constructor; done.
Qed.
