(* ===== verification/TrustedCA.v ===== *)
(** * The trusted CA ConfigMap

    [ensureTrustedCAConfigMap] copies the operator's CA bundle into the
    namespace of a [MustGather] and records that object as an owner of the copy;
    [cleanupTrustedCAConfigMap] removes the owner, and the copy with the last
    one.  The owner references work as a reference count: the second half states
    both operations as set operations on the owners' UIDs. *)

From S2P Require Import Prelude GoStrings GoErrors GoTime K8sTypes MustGatherV1 Effects KubeEffects.

(** [ref.UID == instance.UID] for some reference: the owner loop shared by
    [ensureTrustedCAConfigMap] and [cleanupMustGatherResources]. *)
Fixpoint owned_by (uid : string) (refs : list OwnerReference) : bool :=
  match refs with
  | [] => false
  | ref :: refs => if or_UID ref =?s uid then true else owned_by uid refs
  end.

(** The reference to [instance]: no [Controller] and no [BlockOwnerDeletion]. *)
Definition instanceOwnerRef (instance : MustGather) : OwnerReference :=
  mkOwnerRef (tm_APIVersion (mg_TypeMeta instance)) (tm_Kind (mg_TypeMeta instance))
    (mg_Name instance) (mg_UID instance) None None.

(** The copy made for the first owner: the labels and [Data] of the source,
    not its [BinaryData]. *)
Definition newTrustedCAConfigMap (name : string) (instance : MustGather) (source : ConfigMap) : ConfigMap :=
  mkConfigMap
    (mkMeta name (mg_Namespace instance) "" "" 0 None (om_Labels (cm_ObjectMeta source))
       [instanceOwnerRef instance] [])
    (cm_Data source) ∅ None.

Definition cm_owners (cm : ConfigMap) : list OwnerReference := om_OwnerReferences (cm_ObjectMeta cm).

Definition ensureTrustedCAConfigMap (r : MustGatherReconciler) (instance : MustGather)
    : kprog (option goerror) :=
  if mg_Namespace instance =?s r_OperatorNamespace r then Ret None else
  let* src := call (Get KConfigMap (mkKey (r_OperatorNamespace r) (r_TrustedCAConfigMap r))) in
  match src with
  | inl err =>
      Ret (Some (Errorf_w ("failed to get trustedCA ConfigMap from operator namespace: " +:+ Error err) err))
  | inr sourceConfigMap =>
      let* cur := call (Get KConfigMap (mkKey (mg_Namespace instance) (r_TrustedCAConfigMap r))) in
      match cur with
      | inl err =>
          if negb (IsNotFound err) then
            Ret (Some (Errorf_w ("failed to check for existing ConfigMap in instance namespace: " +:+ Error err) err))
          else
            let* err := call (Create KConfigMap
                          (newTrustedCAConfigMap (r_TrustedCAConfigMap r) instance sourceConfigMap)) in
            Ret match err with
                | Some err =>
                    Some (Errorf_w ("failed to create trustedCA ConfigMap in instance namespace: " +:+ Error err) err)
                | None => None
                end
      | inr existingConfigMap =>
          if owned_by (mg_UID instance) (cm_owners existingConfigMap) then Ret None
          else
            let* res := call (Update KConfigMap
                          (cm_with_OwnerReferences existingConfigMap
                             (cm_owners existingConfigMap ++ [instanceOwnerRef instance]))) in
            Ret match res with
                | inl err =>
                    Some (Errorf_w ("failed to update ownerReferences on trustedCA ConfigMap: " +:+ Error err) err)
                | inr _ => None
                end
      end
  end.

(** The loop building [updatedOwnerRefs]. *)
Fixpoint remove_owner (uid : string) (refs : list OwnerReference) : list OwnerReference :=
  match refs with
  | [] => []
  | ref :: refs => if or_UID ref <>?s uid then ref :: remove_owner uid refs else remove_owner uid refs
  end.

Definition cleanupTrustedCAConfigMap (r : MustGatherReconciler) (instance : MustGather)
    : kprog (option goerror) :=
  if mg_Namespace instance =?s r_OperatorNamespace r then Ret None else
  let* cur := call (Get KConfigMap (mkKey (mg_Namespace instance) (r_TrustedCAConfigMap r))) in
  match cur with
  | inl err =>
      if IsNotFound err then Ret None
      else Ret (Some (Errorf_w ("failed to get trustedCA ConfigMap: " +:+ Error err) err))
  | inr existingConfigMap =>
      match remove_owner (mg_UID instance) (cm_owners existingConfigMap) with
      | [] =>
          let* err := call (Delete KConfigMap existingConfigMap) in
          Ret match err with
              | Some err => Some (Errorf_w ("failed to delete trustedCA ConfigMap: " +:+ Error err) err)
              | None => None
              end
      | updatedOwnerRefs =>
          let* res := call (Update KConfigMap (cm_with_OwnerReferences existingConfigMap updatedOwnerRefs)) in
          Ret match res with
              | inl err =>
                  Some (Errorf_w ("failed to update trustedCA ConfigMap owner references: " +:+ Error err) err)
              | inr _ => None
              end
      end
  end.

(** ** The owners of a ConfigMap as a set of UIDs *)

Definition owner_uids (refs : list OwnerReference) : gset string := list_to_set (or_UID <$> refs).

Lemma owned_by_spec uid refs : owned_by uid refs = true <-> uid ∈ owner_uids refs.
Proof.
  unfold owner_uids. induction refs as [|ref refs IH]; cbn; [set_solver|].
  str_cases; set_solver.
Qed.

Lemma owner_uids_app l1 l2 : owner_uids (l1 ++ l2) = owner_uids l1 ∪ owner_uids l2.
Proof. unfold owner_uids. by rewrite fmap_app, list_to_set_app_L. Qed.

Lemma owner_uids_remove uid refs : owner_uids (remove_owner uid refs) = owner_uids refs ∖ {[uid]}.
Proof.
  unfold owner_uids. induction refs as [|ref refs IH]; cbn; [set_solver|].
  str_cases; cbn; set_solver.
Qed.

Lemma owner_uids_empty refs : owner_uids refs = ∅ <-> refs = [].
Proof. split; [|by intros ->]. unfold owner_uids. destruct refs; [done|]. cbn. set_solver. Qed.

Lemma remove_owner_filter uid refs :
  remove_owner uid refs = filter (fun ref => or_UID ref <> uid) refs.
Proof.
  induction refs as [|ref refs IH]; cbn [remove_owner]; [done|]. rewrite filter_cons.
  str_case (or_UID ref) uid; cbn; case_decide; try done; by rewrite IH.
Qed.

Lemma instanceOwnerRef_uid m : owner_uids [instanceOwnerRef m] = {[mg_UID m]}.
Proof. unfold owner_uids. cbn. set_solver. Qed.
