(* ===== verification/Cleanup.v ===== *)
(** * Cleanup, [cleanupMustGatherResources]

    Deletes the Job a [MustGather] owns, the Job's pods first, and gives up the
    share in the trusted CA ConfigMap. *)

From S2P Require Import Prelude GoStrings GoErrors GoTime K8sTypes MustGatherV1 Effects KubeEffects.
From S2P Require Import OperatorUtils TrustedCA.

(** [client.MatchingLabels{"controller-uid": uid}]. *)
Definition jobPodLabels (uid : string) : gmap string string := {["controller-uid" := uid]}.

Definition jobKey (instance : MustGather) : NamespacedName :=
  mkKey (mg_Namespace instance) (mg_Name instance).

Definition cleanupMustGatherResources (r : MustGatherReconciler) (instance : MustGather)
    : kprog (option goerror) :=
  let* res := call (Get KJob (jobKey instance)) in
  match res with
  | inl err => if negb (IsNotFound err) then Ret (Some err) else Ret None
  | inr tmpJob =>
      if negb (owned_by (mg_UID instance) (om_OwnerReferences (job_ObjectMeta tmpJob))) then Ret None
      else
        let* pods := call (ListPods (mg_Namespace instance) (jobPodLabels (om_UID (job_ObjectMeta tmpJob)))) in
        match pods with
        | inl err => Ret (Some err)
        | inr podList =>
            let* err := DeleteResourcesIfExist (k:=KPod) podList in
            match err with
            | Some err => Ret (Some err)
            | None =>
                let* err := call (Delete KJob tmpJob) in
                match err with
                | Some err => Ret (Some err)
                | None =>
                    if r_TrustedCAConfigMap r <>?s "" then cleanupTrustedCAConfigMap r instance
                    else Ret None
                end
            end
        end
  end.
