(* ===== verification/SftpValidation.v ===== *)
(** * SFTP validation: classification of errors and the retry loop

    [IsTransientError], [classifySFTPError] and [validateSFTPWithRetry] of
    [controllers/mustgather/validation.go].  The dial itself is the seam
    [sftpDialFunc], an effect here; its implementation is in SftpDialing. *)

From S2P Require Import Prelude GoStrings GoErrors GoTime K8sTypes MustGatherV1 Effects KubeEffects.

Definition IsTransientError (err : goerror) : bool :=
  if errors_Is is_DeadlineExceeded err || errors_Is is_Canceled err then true
  else match errors_As as_net_Error err with
       | Some timeout => timeout
       | None => false
       end.

Section classify.
  Context `{UnicodeTables}.

Definition classifySFTPError (err : option goerror) : string :=
  match err with
  | None => "SFTP connection failed"
  | Some err =>
      let errMsg := strings_ToLower (Error err) in
      let contains := strings_Contains errMsg in
      if contains "unable to authenticate" || contains "authentication failed" then
        "Authentication failed: username or password is incorrect"
      else if contains "connection refused" then
        "Connection refused: SFTP server is not running or port is blocked"
      else if contains "no route to host" || contains "host is unreachable" || contains "host unreachable" then
        "Host unreachable: verify the hostname or IP address is correct"
      else if contains "network is unreachable" || contains "network unreachable" then
        "Network unreachable: check network connectivity"
      else if contains "no such host" || (contains "lookup" && contains "no such host") then
        "DNS resolution failed: hostname could not be resolved"
      else if contains "i/o timeout" || contains "deadline exceeded" || contains "connection timed out" then
        "Connection timed out: server may be slow or unreachable"
      else if contains "connection reset" then
        "Connection reset: server unexpectedly closed the connection"
      else if contains "failed to create sftp client" || contains "subsystem request failed" then
        "SFTP subsystem not available on the server"
      else "SFTP connection failed"
  end.

End classify.

Definition MaxSFTPValidationRetries : nat := 3.

Definition validateSFTPCredentials (username password host : string) : kprog (option goerror) :=
  call (SftpDial username password host).

Definition retriesExhausted (lastErr : goerror) : goerror :=
  Errorf_w ("validation timed out after " +:+ strconv_Itoa (Z.of_nat MaxSFTPValidationRetries)
            +:+ " attempts: " +:+ Error lastErr) lastErr.

(** The attempts that remain, after [lastErr]. *)
Fixpoint retry_loop (attempts : nat) (username password host : string) (lastErr : goerror)
    : kprog (option goerror) :=
  match attempts with
  | O => Ret (Some (retriesExhausted lastErr))
  | S attempts =>
      let* r := validateSFTPCredentials username password host in
      match r with
      | None => Ret None
      | Some lastErr =>
          if negb (IsTransientError lastErr) then Ret (Some lastErr)
          else retry_loop attempts username password host lastErr
      end
  end.

(** [lastErr] starts as [nil]; it is overwritten before it is read. *)
Definition validateSFTPWithRetry (username password host : string) : kprog (option goerror) :=
  retry_loop MaxSFTPValidationRetries username password host (errorString "%!w(<nil>)").
