(* ===== verification/Reconcile.v ===== *)
(** * The reconciler, [controllers/mustgather/mustgather_controller.go]

    [Reconcile] and the operations it is composed of.  A program over the
    controller's effects: the whole handler, in the order of the source, with
    every return. *)

From S2P Require Import Prelude GoStrings GoErrors GoTime K8sTypes MustGatherV1 Effects KubeEffects.
From S2P Require Import Conditions OperatorUtils Template MustGatherUtil TrustedCA Cleanup SftpValidation.

Definition mustGatherFinalizer : string := "finalizer.mustgathers.operator.openshift.io".
Definition errImageValidation : goerror := sentinel "errImageValidation" "image validation failed".
Definition ValidationServiceAccount : string := "Service Account".
Definition ProtocolSFTP : string := "SFTP".
Definition sftpValidationFailedUserMessage : string := "unable to connect to the SFTP server".
Definition ValidationSFTPCredentials : string := "SFTP credentials".
Definition ValidationImageStream : string := "ImageStream".

(** [slices.Contains] and [slices.DeleteFunc] on the finalizers. *)
Definition has_finalizer (m : MustGather) : bool :=
  existsb (fun s => s =?s mustGatherFinalizer) (mg_Finalizers m).

Definition remove_finalizer (m : MustGather) : MustGather :=
  mg_with_Finalizers m (List.filter (fun s => s <>?s mustGatherFinalizer) (mg_Finalizers m)).

(** [RetainResourcesOnCompletion == nil || !*RetainResourcesOnCompletion]. *)
Definition cleanup_wanted (m : MustGather) : bool :=
  match spec_RetainResourcesOnCompletion (mg_Spec m) with
  | None => true
  | Some b => negb b
  end.

Section reconcile.
  Context `{UnicodeTables}.
  Variable r : MustGatherReconciler.

(** ** Status *)

Definition status_of (m : MustGather) : MustGatherStatus := default emptyStatus (mg_Status m).

Definition validationErrorMessage (validationType : string) (validationErr : goerror) : string :=
  validationType +:+ " validation failed: " +:+ Error validationErr.

Definition validationCondition (instance : MustGather) (errorMessage : string) : Condition :=
  mkCondition "ReconcileError" ConditionTrue (om_Generation (mg_ObjectMeta instance)) zeroTime
    "ValidationFailed" errorMessage.

(** The instance [setValidationFailureStatus] writes; [now] is the reading for
    [LastUpdate], [now'] the one [SetStatusCondition] takes. *)
Definition validation_failed (now now' : Time) (errorMessage : string) (instance : MustGather) : MustGather :=
  let s := status_of instance in
  let conditions :=
    (SetStatusCondition now' (mgs_Conditions s) (validationCondition instance errorMessage)).1 in
  mg_with_Status instance
    (Some (mkMustGatherStatus conditions (Some "Failed") (Some now) (Some errorMessage) (Some true))).

Definition setValidationFailureStatus (instance : MustGather) (validationType : string)
    (validationErr : goerror) : kprog Outcome :=
  let errorMessage := validationErrorMessage validationType validationErr in
  let* now := call TimeNow in
  let* now' := if takes_clock (mgs_Conditions (status_of instance)) (validationCondition instance errorMessage)
               then call TimeNow else Ret zeroTime in
  let instance := validation_failed now now' errorMessage instance in
  let* _ := call (RecordEvent instance "Warning" "ProcessingError" errorMessage) in
  let* res := call (StatusUpdate instance) in
  match res with
  | inl statusErr => ManageError instance statusErr
  | inr _ => Ret (emptyResult, None)
  end.

(** [handleJobCompletion]: what it writes, then the cleanup on the instance the
    server answered. *)
Definition completed (status reason : string) (instance : MustGather) : MustGather :=
  let s := status_of instance in
  mg_with_Status instance
    (Some (mkMustGatherStatus (mgs_Conditions s) (Some status) (mgs_LastUpdate s) (Some reason) (Some true))).

Definition handleJobCompletion (instance : MustGather) (status reason : string) : kprog Outcome :=
  let instance := completed status reason instance in
  let* res := call (StatusUpdate instance) in
  match res with
  | inl err => ManageError instance err
  | inr instance =>
      if cleanup_wanted instance then
        let* err := cleanupMustGatherResources r instance in
        match err with
        | Some err => ManageError instance err
        | None => Ret (emptyResult, None)
        end
      else Ret (emptyResult, None)
  end.

Definition updateStatus (instance : MustGather) (job : Job) : kprog Outcome :=
  ManageSuccess
    (mg_with_Status instance
       (Some (mgs_with_Completed (status_of instance)
                (Some (negb (metav1_IsZero (js_CompletionTime (job_Status job)))))))).

Definition addFinalizer (m : MustGather) : kprog (option goerror) :=
  let* res := call (Update KMustGather (mg_with_Finalizers m (mg_Finalizers m ++ [mustGatherFinalizer]))) in
  Ret match res with inl err => Some err | inr _ => None end.

(** ** The image and the Job *)

(** The loop over [imageStream.Status.Tags]: the first tag of that name decides. *)
Fixpoint find_tag (tag : string) (tags : list NamedTagEventList) : option NamedTagEventList :=
  match tags with
  | [] => None
  | t :: tags => if nt_Tag t =?s tag then Some t else find_tag tag tags
  end.

Definition pullable_image (t : NamedTagEventList) : option string :=
  match nt_Items t with
  | item :: _ => if te_DockerImageReference item <>?s "" then Some (te_DockerImageReference item) else None
  | [] => None
  end.

Definition getMustGatherImage (instance : MustGather) : kprog (goerror + string) :=
  match spec_ImageStreamRef (mg_Spec instance) with
  | None => Ret (inr (r_DefaultMustGatherImage r))
  | Some ref =>
      let* res := call (Get KImageStream (mkKey (r_OperatorNamespace r) (istr_Name ref))) in
      Ret match res with
          | inl err =>
              inl (Errorf_w ("failed to get imagestream " +:+ istr_Name ref +:+ " in namespace "
                             +:+ r_OperatorNamespace r +:+ ": " +:+ Error err) err)
          | inr imageStream =>
              match find_tag (istr_Tag ref) (is_Status_Tags imageStream) with
              | None =>
                  inl (errorString ("imagestream tag " +:+ istr_Tag ref +:+ " not found in imagestream "
                                    +:+ istr_Name ref))
              | Some t =>
                  match pullable_image t with
                  | None =>
                      inl (errorString ("imagestream tag " +:+ istr_Tag ref +:+ " in imagestream "
                                        +:+ istr_Name ref +:+ " is not pullable"))
                  | Some image => inr image
                  end
              end
          end
  end.

Definition OPERATOR_IMAGE : string := "OPERATOR_IMAGE".

Definition operatorImageMissing : goerror := errorString "operator image environment variable not found".

Definition getJobFromInstance (instance : MustGather) : kprog (goerror + Job) :=
  let* res := getMustGatherImage instance in
  match res with
  | inl err =>
      Ret (inl (Errorf_w (Error errImageValidation +:+ ": " +:+ Error err) errImageValidation))
  | inr image =>
      let* v := call (LookupEnv OPERATOR_IMAGE) in
      match v with
      | None => Ret (inl operatorImageMissing)
      | Some operatorImage =>
          let* now := call TimeNow in
          let* directoryName := GenerateMustGatherDirectoryName now in
          let* job := getJobTemplate image operatorImage instance (r_TrustedCAConfigMap r) directoryName in
          Ret (inr job)
      end
  end.

(** ** Reconcile *)

Definition RequeueResult : Result := mkResult true 0%Z.

(** The branch of an instance marked for deletion. *)
Definition reconcileDeletion (instance : MustGather) : kprog Outcome :=
  if has_finalizer instance then
    let* err := if cleanup_wanted instance then cleanupMustGatherResources r instance else Ret None in
    match err with
    | Some err => Ret (emptyResult, Some err)
    | None =>
        let instance := remove_finalizer instance in
        let* res := call (Update KMustGather instance) in
        match res with
        | inl err => ManageError instance err
        | inr _ => Ret (emptyResult, None)
        end
    end
  else Ret (emptyResult, None).

(** The user's secret and the trial connection; [Some] is an early return. *)
Definition sftp_of (instance : MustGather) : option SFTPSpec :=
  match spec_UploadTarget (mg_Spec instance) with
  | Some ut =>
      match ut_SFTP ut with
      | Some sftp => if lor_Name (sftp_CaseManagementAccountSecretRef sftp) <>?s "" then Some sftp else None
      | None => None
      end
  | None => None
  end.

Definition missingField (secretName field : string) : goerror :=
  errorString ("sftp credentials secret " +:+ strconv_Quote secretName +:+ " is missing required field '"
               +:+ field +:+ "'").

Definition secretNotFound (secretName namespace : string) : goerror :=
  errorString ("secret " +:+ secretName +:+ " not found in namespace " +:+ namespace
    +:+ ": Please create the secret referenced by caseManagementAccountSecretRef").

Definition checkSecretAndSFTP (instance : MustGather) : kprog (option Outcome) :=
  match sftp_of instance with
  | None => Ret None
  | Some sftp =>
      let secretName := lor_Name (sftp_CaseManagementAccountSecretRef sftp) in
      let* res := call (Get KSecret (mkKey (mg_Namespace instance) secretName)) in
      match res with
      | inl err =>
          if IsNotFound err then
            let* o := ManageError instance (secretNotFound secretName (mg_Namespace instance)) in Ret (Some o)
          else Ret (Some (RequeueResult, Some err))
      | inr userSecret =>
          let username := default "" (sec_Data userSecret !! "username") in
          let password := default "" (sec_Data userSecret !! "password") in
          if username =?s "" then
            let* o := setValidationFailureStatus instance ValidationSFTPCredentials
                        (missingField secretName "username") in Ret (Some o)
          else if password =?s "" then
            let* o := setValidationFailureStatus instance ValidationSFTPCredentials
                        (missingField secretName "password") in Ret (Some o)
          else
            let* validationErr := validateSFTPWithRetry username password (derefString (sftp_Host sftp)) in
            match validationErr with
            | Some _ =>
                let* o := setValidationFailureStatus instance ProtocolSFTP
                            (errorString sftpValidationFailedUserMessage) in Ret (Some o)
            | None => Ret None
            end
      end
  end.

(** The branch where the Job was not found. *)
Definition reconcileCreate (instance : MustGather) : kprog Outcome :=
  let saName := spec_ServiceAccountName (mg_Spec instance) in
  let* res := getJobFromInstance instance in
  match res with
  | inl err =>
      if errors_Is (is_sentinel "errImageValidation") err
      then setValidationFailureStatus instance ValidationImageStream err
      else ManageError instance err
  | inr job =>
      let* sa := call (Get KServiceAccount (mkKey (mg_Namespace instance) saName)) in
      match sa with
      | inl err =>
          if IsNotFound err then setValidationFailureStatus instance ValidationServiceAccount err
          else Ret (RequeueResult, Some err)
      | inr _ =>
          let* early := checkSecretAndSFTP instance in
          match early with
          | Some outcome => Ret outcome
          | None =>
              let* err := CreateResourceIfNotExists instance (mg_Namespace instance) job in
              match err with
              | Some err => ManageError instance err
              | None =>
                  let* _ := call (MetricInc MetricMustGatherTotal) in
                  ManageSuccess instance
              end
          end
      end
  end.

(** The branch of an existing Job. *)
Definition reconcileJob (instance : MustGather) (existingJob : Job) : kprog Outcome :=
  let st := job_Status existingJob in
  if (0 <? js_Active st)%Z then updateStatus instance existingJob
  else if (0 <? js_Succeeded st)%Z then
    handleJobCompletion instance "Completed" "MustGather Job pods succeeded"
  else
    let backoffLimit := default 0%Z (jsp_BackoffLimit (job_Spec existingJob)) in
    if (backoffLimit <? js_Failed st)%Z then
      let* _ := call (MetricInc MetricMustGatherErrors) in
      handleJobCompletion instance "Failed" "MustGather Job pods failed"
    else updateStatus instance existingJob.

Definition operatorSARejected (instance : MustGather) : goerror :=
  errorString ("serviceAccountName " +:+ strconv_Quote (spec_ServiceAccountName (mg_Spec instance))
    +:+ " is not allowed in namespace " +:+ strconv_Quote (mg_Namespace instance)
    +:+ ": the operator's own service account cannot be used for must-gather jobs").

Definition usesOperatorSA (instance : MustGather) : bool :=
  (mg_Namespace instance =?s r_OperatorNamespace r)
  && (spec_ServiceAccountName (mg_Spec instance) =?s r_OperatorServiceAccountName r).

Definition obfuscationConfigMapMissing (instance : MustGather) (cmName : string) (err : goerror) : goerror :=
  Errorf_w ("obfuscation ConfigMap " +:+ strconv_Quote cmName +:+ " not found in namespace "
            +:+ strconv_Quote (mg_Namespace instance) +:+ ": " +:+ Error err) err.

(** The trusted CA copy and the obfuscation ConfigMap; [Some] is an error for
    [ManageError]. *)
Definition prepare (instance : MustGather) : kprog (option goerror) :=
  let* err := if r_TrustedCAConfigMap r <>?s "" then ensureTrustedCAConfigMap r instance else Ret None in
  match err with
  | Some err => Ret (Some err)
  | None =>
      let cmName := getObfuscateConfigMapRefName (spec_Obfuscate (mg_Spec instance)) in
      if cmName <>?s "" then
        let* res := call (Get KConfigMap (mkKey (mg_Namespace instance) cmName)) in
        Ret match res with
            | inl err => Some (obfuscationConfigMapMissing instance cmName err)
            | inr _ => None
            end
      else Ret None
  end.

Definition reconcileActive (instance : MustGather) : kprog Outcome :=
  let* err := prepare instance in
  match err with
  | Some err => ManageError instance err
  | None =>
      let* res := call (Get KJob (jobKey instance)) in
      match res with
      | inl err =>
          if negb (IsNotFound err) then ManageError instance err else reconcileCreate instance
      | inr existingJob => reconcileJob instance existingJob
      end
  end.

Definition Reconcile (request : NamespacedName) : kprog Outcome :=
  let* res := call (Get KMustGather request) in
  match res with
  | inl err => if IsNotFound err then Ret (emptyResult, None) else Ret (emptyResult, Some err)
  | inr instance =>
      if has (om_DeletionTimestamp (mg_ObjectMeta instance)) then reconcileDeletion instance
      else if negb (has_finalizer instance) then
        let* err := addFinalizer instance in Ret (emptyResult, err)
      else if usesOperatorSA instance then
        setValidationFailureStatus instance ValidationServiceAccount (operatorSARejected instance)
      else reconcileActive instance
  end.

End reconcile.
