(* ===== verification/Requests.v ===== *)
(** * The requests of each operation

    Which requests an operation of the reconciler can make, whatever it is answered: a
    class of request for each effect and kind of object, and an instance of [Makes] for
    each operation.  What holds of these classes holds of every request of the operation,
    so the safety proofs need no lemma per operation of their own: [ev_go] finds the
    instance. *)

From S2P Require Import Prelude GoStrings GoErrors GoTime K8sTypes MustGatherV1 Effects KubeEffects.
From S2P Require Import Conditions OperatorUtils Template MustGatherUtil TrustedCA Cleanup SftpValidation Reconcile.

(** ** Classes of requests *)

Inductive request :=
| Reads (k : Kind) | ListsPods | Creates (k : Kind) | Updates (k : Kind) | WritesStatus | Deletes (k : Kind)
| Reports | Counts | AsksEnv | AsksClock | AsksRandom | Dials.

#[export] Instance request_eq_dec : EqDecision request.
Proof. solve_decision. Defined.

Definition request_of {R} (e : KubeE R) : request :=
  match e with
  | Get k _ => Reads k
  | ListPods _ _ => ListsPods
  | Create k _ => Creates k
  | Update k _ => Updates k
  | StatusUpdate _ => WritesStatus
  | Delete k _ => Deletes k
  | RecordEvent _ _ _ _ => Reports
  | MetricInc _ => Counts
  | LookupEnv _ => AsksEnv
  | TimeNow => AsksClock
  | RandInt63 => AsksRandom
  | SftpDial _ _ _ => Dials
  end.

Definition among (l : list request) (R : Type) (e : KubeE R) : Prop := bool_decide (request_of e ∈ l) = true.

(** [p] makes no request outside [l]. *)
Class Makes {A} (p : kprog A) (l : list request) := makes_among : everywhere (among l) p.

Lemma makes_everywhere {A} (P : forall R, KubeE R -> Prop) (p : kprog A) l `{!Makes p l} :
  (forall R (e : KubeE R), among l R e -> P R e) -> everywhere P p.
Proof. intros HP. by eapply everywhere_mono. Qed.

Lemma makes_exec {A} (p : kprog A) l tr a `{!Makes p l} :
  exec p tr a -> Forall (fun ev => among l _ (ev_eff ev)) tr.
Proof. intros Hex. by eapply everywhere_exec. Qed.

(** ** Automation *)

(** One case for each class. *)
Ltac by_class :=
  let R := fresh "R" in
  let e := fresh "e" in
  let H := fresh "Hin" in
  let k := fresh "k" in
  intros R e H; destruct e as [k|? ?|k|k|?|k|? ? ? ?|?|?| | |? ? ?]; try destruct k;
  first [discriminate H|exact I|done|cbn; tauto|reflexivity].

Ltac by_requests := eapply makes_everywhere; [apply _|by_class].

#[export] Hint Extern 3 (everywhere _ _) => by_requests : mgo.
#[export] Hint Extern 1 (among _ _ _) => reflexivity : mgo.

Ltac makes := unfold Makes; ev_go; first [reflexivity|done].

(** ** The operations *)

#[export] Instance ManageError_makes m e : Makes (ManageError m e) [AsksClock; Reports; WritesStatus].
Proof. unfold ManageError, ManageErrorWithRequeue. makes. Qed.

#[export] Instance ManageSuccess_makes m : Makes (ManageSuccess m) [AsksClock; WritesStatus].
Proof. unfold ManageSuccess, ManageSuccessWithRequeue. makes. Qed.

#[export] Instance DeleteResourceIfExists_makes k (o : objOf k) : Makes (DeleteResourceIfExists o) [Deletes k].
Proof. unfold DeleteResourceIfExists. unfold Makes. ev_go. by destruct k. Qed.

#[export] Instance DeleteResourcesIfExist_makes k (os : list (objOf k)) : Makes (DeleteResourcesIfExist os) [Deletes k].
Proof. unfold DeleteResourcesIfExist, Makes. apply everywhere_for_each. intros o _. apply DeleteResourceIfExists_makes. Qed.

#[export] Instance CreateResourceIfNotExists_makes m ns j : Makes (CreateResourceIfNotExists m ns j) [Creates KJob].
Proof. unfold CreateResourceIfNotExists. makes. Qed.

#[export] Instance ensureTrustedCAConfigMap_makes r m :
  Makes (ensureTrustedCAConfigMap r m) [Reads KConfigMap; Creates KConfigMap; Updates KConfigMap].
Proof. unfold ensureTrustedCAConfigMap. makes. Qed.

#[export] Instance cleanupTrustedCAConfigMap_makes r m :
  Makes (cleanupTrustedCAConfigMap r m) [Reads KConfigMap; Updates KConfigMap; Deletes KConfigMap].
Proof. unfold cleanupTrustedCAConfigMap. makes. Qed.

#[export] Instance cleanupMustGatherResources_makes r m :
  Makes (cleanupMustGatherResources r m)
    [Reads KJob; ListsPods; Deletes KPod; Deletes KJob; Reads KConfigMap; Updates KConfigMap; Deletes KConfigMap].
Proof. unfold cleanupMustGatherResources. makes. Qed.

#[export] Instance retry_loop_makes n u p h e : Makes (retry_loop n u p h e) [Dials].
Proof. unfold Makes. revert e. induction n; intros; cbn [retry_loop]; [done|]. split; [done|]. by intros; ev_go. Qed.

#[export] Instance validateSFTPWithRetry_makes u p h : Makes (validateSFTPWithRetry u p h) [Dials].
Proof. apply retry_loop_makes. Qed.

#[export] Instance readProxyVars_makes names : Makes (readProxyVars names) [AsksEnv].
Proof. by apply readProxyVars_everywhere. Qed.

#[export] Instance GenerateMustGatherDirectoryName_makes now :
  Makes (GenerateMustGatherDirectoryName now) [Reads KClusterVersion; AsksRandom].
Proof. unfold GenerateMustGatherDirectoryName, getClusterIDSuffix, generateRandomSuffix. makes. Qed.

#[export] Instance getJobTemplate_makes image op m ca dir : Makes (getJobTemplate image op m ca dir) [AsksEnv].
Proof. unfold getJobTemplate, ReadProxyVarsFromEnv. makes. Qed.

Section reconcile.
  Context `{UnicodeTables} (r : MustGatherReconciler).

#[export] Instance setValidationFailureStatus_makes m t e :
  Makes (setValidationFailureStatus m t e) [AsksClock; Reports; WritesStatus].
Proof. unfold setValidationFailureStatus. makes. Qed.

#[export] Instance handleJobCompletion_makes m s t :
  Makes (handleJobCompletion r m s t)
    [WritesStatus; Reads KJob; ListsPods; Deletes KPod; Deletes KJob; Reads KConfigMap; Updates KConfigMap;
     Deletes KConfigMap; AsksClock; Reports].
Proof. unfold handleJobCompletion. makes. Qed.

#[export] Instance updateStatus_makes m j : Makes (updateStatus m j) [AsksClock; WritesStatus].
Proof. unfold updateStatus. makes. Qed.

#[export] Instance reconcileJob_makes m j :
  Makes (reconcileJob r m j)
    [WritesStatus; Reads KJob; ListsPods; Deletes KPod; Deletes KJob; Reads KConfigMap; Updates KConfigMap;
     Deletes KConfigMap; AsksClock; Reports; Counts].
Proof. unfold reconcileJob. makes. Qed.

#[export] Instance addFinalizer_makes m : Makes (addFinalizer m) [Updates KMustGather].
Proof. unfold addFinalizer. makes. Qed.

#[export] Instance getMustGatherImage_makes m : Makes (getMustGatherImage r m) [Reads KImageStream].
Proof. unfold getMustGatherImage. makes. Qed.

#[export] Instance getJobFromInstance_makes m :
  Makes (getJobFromInstance r m) [Reads KImageStream; AsksEnv; AsksClock; Reads KClusterVersion; AsksRandom].
Proof. unfold getJobFromInstance. makes. Qed.

#[export] Instance checkSecretAndSFTP_makes m :
  Makes (checkSecretAndSFTP m) [Reads KSecret; AsksClock; Reports; WritesStatus; Dials].
Proof. unfold checkSecretAndSFTP. makes. Qed.

#[export] Instance prepare_makes m :
  Makes (prepare r m) [Reads KConfigMap; Creates KConfigMap; Updates KConfigMap].
Proof. unfold prepare. makes. Qed.

#[export] Instance reconcileDeletion_makes m :
  Makes (reconcileDeletion r m)
    [Reads KJob; ListsPods; Deletes KPod; Deletes KJob; Reads KConfigMap; Updates KConfigMap; Deletes KConfigMap;
     Updates KMustGather; AsksClock; Reports; WritesStatus].
Proof. unfold reconcileDeletion. makes. Qed.

#[export] Instance reconcileCreate_makes m :
  Makes (reconcileCreate r m)
    [Reads KImageStream; AsksEnv; AsksClock; Reads KClusterVersion; AsksRandom; Reads KServiceAccount; Reads KSecret;
     Dials; Creates KJob; Counts; Reports; WritesStatus].
Proof. unfold reconcileCreate. makes. Qed.

#[export] Instance Reconcile_makes request :
  Makes (Reconcile r request)
    [Reads KMustGather; Reads KJob; Reads KConfigMap; Reads KServiceAccount; Reads KSecret; Reads KImageStream;
     Reads KClusterVersion; ListsPods; Creates KJob; Creates KConfigMap; Updates KMustGather; Updates KConfigMap;
     WritesStatus; Deletes KPod; Deletes KJob; Deletes KConfigMap; Reports; Counts; AsksEnv; AsksClock; AsksRandom;
     Dials].
Proof. unfold Reconcile, reconcileActive. makes. Qed.
End reconcile.
