(* ===== verification/Demo.v ===== *)
(** * Concrete inputs

    A reconciler, a [MustGather] with an SFTP upload, and an in-memory cluster
    with what it needs: the inputs at which the theorems are instantiated. *)

From S2P Require Import Prelude GoStrings GoErrors GoTime K8sTypes MustGatherV1 Effects KubeEffects.
From S2P Require Import ApiServer MemCluster Conditions OperatorUtils Template MustGatherUtil TrustedCA.
From S2P Require Import Cleanup SftpValidation Reconcile.

(** Unicode tables under which every non-ASCII string is its own image. *)
Definition ascii_tables : UnicodeTables := {| uni_ToLower s := s; uni_Quote s := dq +:+ s +:+ dq |}.
#[local] Existing Instance ascii_tables.

Definition demo_reconciler : MustGatherReconciler :=
  mkReconciler "trusted-ca" "operator-ns" "quay.io/must-gather:latest" "operator-sa".

Definition demo_sftp : SFTPSpec := mkSFTPSpec "01234567" (mkLocalRef "case-secret") None (Some "sftp.example.com").

Definition demo_spec : MustGatherSpec :=
  mkMustGatherSpec "default" None None (Some 7200000000000%Z)
    (Some (mkUploadTargetSpec UploadTypeSFTP (Some demo_sftp))) None None None.

Definition meta_named (ns name uid : string) : ObjectMeta := mkMeta name ns uid "1" 1 None ∅ [] [].

Definition demo_mustgather (finalizers : list string) (spec : MustGatherSpec) : MustGather :=
  mkMustGather (mkTypeMeta "MustGather" "operator.openshift.io/v1")
    (om_with_Finalizers (meta_named "user-ns" "demo" "mg-uid") finalizers) spec None.

Definition demo_key : NamespacedName := mkKey "user-ns" "demo".

Definition demo_ca : ConfigMap :=
  mkConfigMap (meta_named "operator-ns" "trusted-ca" "ca-uid") {["ca-bundle.crt" := "PEM"]} ∅ None.

Definition demo_secret : Secret :=
  mkSecret (meta_named "user-ns" "case-secret" "s-uid") {["username" := "alice"; "password" := "secret"]}.

Definition demo_objects (mgs : list MustGather) (jobs : list Job) (pods : list Pod) : store :=
  fun k =>
    match k with
    | KMustGather => mgs
    | KJob => jobs
    | KPod => pods
    | KConfigMap => [demo_ca]
    | KServiceAccount => [mkServiceAccount (meta_named "user-ns" "default" "sa-uid")]
    | KSecret => [demo_secret]
    | KClusterVersion => [mkClusterVersion (meta_named "" "version" "cv-uid") "12345678-abcd-56789abcdef0"]
    | _ => []
    end.

Definition demo_cluster (objects : store) (dials : list (option goerror)) : cluster :=
  mkCluster objects 100 {["OPERATOR_IMAGE" := "quay.io/operator:v1"]} (mkTime 1700000000 0 0) 424242 dials []
    (fun _ => 0%Z).

(** The cluster just before the Job is created. *)
Definition demo_start : cluster :=
  demo_cluster (demo_objects [demo_mustgather [mustGatherFinalizer] demo_spec] [] []) [Some DeadlineExceeded; None].

(** A Job of the instance with a status, and a pod of the Job. *)
Definition demo_job (st : JobStatus) : Job :=
  mkJob (om_with_OwnerReferences (meta_named "user-ns" "demo" "job-uid")
           [controllerRef (mg_ObjectMeta (demo_mustgather [] demo_spec))])
    (mkJobSpec (Some 0%Z) (mkPodSpec [] [] "Never" None [] "default" [])) st.

Definition demo_pod : Pod :=
  mkPod (mkMeta "demo-x" "user-ns" "pod-uid" "1" 1 None {["controller-uid" := "job-uid"]} [] []).

Definition job_status (active succeeded failed : Z) : JobStatus :=
  mkJobStatus [] None None active succeeded failed None "" None None None.

(** Whether a request of some kind was made. *)
Definition is_create_job (ev : event KubeE) : bool :=
  match ev_eff ev with Create KJob _ => true | _ => false end.
Definition is_delete (ev : event KubeE) : bool :=
  match ev_eff ev with Delete _ _ => true | _ => false end.
Definition is_update_mustgather (ev : event KubeE) : bool :=
  match ev_eff ev with Update KMustGather _ => true | _ => false end.
Definition is_status_update (ev : event KubeE) : bool :=
  match ev_eff ev with StatusUpdate _ => true | _ => false end.

Example demo_run :
  let p := Reconcile demo_reconciler demo_key in
  map is_create_job (run_trace mem_handle p demo_start) <> [] /\
  existsb is_create_job (run_trace mem_handle p demo_start) = true /\
  (run mem_handle p demo_start).1 = (emptyResult, None) /\
  cl_metrics (run mem_handle p demo_start).2 MetricMustGatherTotal = 1%Z.
Proof. vm_compute. repeat split. done. Qed.
