(* ===== verification/ReconcileSafety.v ===== *)
(** * Safety of the reconciler

    What holds of every request [Reconcile] makes, whatever the API server and
    the network answer and whatever happens between two requests: a Job is
    created only after every check passed, objects are deleted only when the
    instance owns them and wants cleanup, and the finalizer goes only after a
    complete cleanup. *)

From S2P Require Import Prelude GoStrings GoErrors GoTime K8sTypes MustGatherV1 Effects KubeEffects.
From S2P Require Import Conditions OperatorUtils Template MustGatherUtil TrustedCA Cleanup SftpValidation.
From S2P Require Import Reconcile Requests ApiServer MemCluster Demo.

(** ** The history *)

(** The request [e] was made and answered [r]. *)
Definition saw {R} (tr : trace KubeE) (e : KubeE R) (r : R) : Prop := Ev e r ∈ tr.

Lemma saw_prefix {R} tr tr' (e : KubeE R) r : tr `prefix_of` tr' -> saw tr e r -> saw tr' e r.
Proof. intros [l ->] H. apply elem_of_app. by left. Qed.

Lemma saw_last {R} tr (e : KubeE R) r : saw (tr ++ [Ev e r]) e r.
Proof. apply elem_of_app. right. by apply list_elem_of_singleton. Qed.

Lemma saw_snoc {R R'} tr (e : KubeE R) r (e' : KubeE R') r' :
  saw tr e r -> saw (tr ++ [Ev e' r']) e r.
Proof. apply saw_prefix. by eexists. Qed.

#[export] Hint Resolve saw_last saw_snoc : mgo.

(** ** What justifies the creation of a Job *)

(** The trusted CA copy is in the namespace of the instance. *)
Definition ca_ready (r : MustGatherReconciler) (instance : MustGather) (tr : trace KubeE) : Prop :=
  r_TrustedCAConfigMap r <> "" -> mg_Namespace instance <> r_OperatorNamespace r ->
  (exists cm, saw tr (Get KConfigMap (mkKey (mg_Namespace instance) (r_TrustedCAConfigMap r))) (inr cm)) \/
  (exists cm : objOf KConfigMap,
     ObjectKeyFromObject cm = mkKey (mg_Namespace instance) (r_TrustedCAConfigMap r) /\
     saw tr (Create KConfigMap cm) None).

Definition obfuscation_config_ready (instance : MustGather) (tr : trace KubeE) : Prop :=
  let name := getObfuscateConfigMapRefName (spec_Obfuscate (mg_Spec instance)) in
  name <> "" -> exists cm, saw tr (Get KConfigMap (mkKey (mg_Namespace instance) name)) (inr cm).

(** The image is the default one, or the first item of the named tag. *)
Definition image_resolved (r : MustGatherReconciler) (instance : MustGather) (tr : trace KubeE)
    (image : string) : Prop :=
  match spec_ImageStreamRef (mg_Spec instance) with
  | None => image = r_DefaultMustGatherImage r
  | Some ref =>
      exists stream t item items,
        saw tr (Get KImageStream (mkKey (r_OperatorNamespace r) (istr_Name ref))) (inr stream) /\
        t ∈ is_Status_Tags stream /\ nt_Tag t = istr_Tag ref /\ nt_Items t = item :: items /\
        image = te_DockerImageReference item /\ image <> ""
  end.

(** The credentials are in the secret, and a connection with them succeeded. *)
Definition sftp_verified (instance : MustGather) (tr : trace KubeE) : Prop :=
  forall sftp, sftp_of instance = Some sftp ->
  exists sec username password,
    saw tr (Get KSecret (mkKey (mg_Namespace instance)
                           (lor_Name (sftp_CaseManagementAccountSecretRef sftp)))) (inr sec) /\
    sec_Data sec !! "username" = Some username /\ sec_Data sec !! "password" = Some password /\
    username <> "" /\ password <> "" /\
    saw tr (SftpDial username password (derefString (sftp_Host sftp))) None.

Section safety.
  Context `{UnicodeTables}.
  Variable r : MustGatherReconciler.

(** The instance is one that [Reconcile] works for. *)
Definition active (instance : MustGather) : Prop :=
  om_DeletionTimestamp (mg_ObjectMeta instance) = None /\
  has_finalizer instance = true /\ usesOperatorSA r instance = false.

Definition job_justified (request : NamespacedName) (tr : trace KubeE) (job : Job) : Prop :=
  exists instance image operatorImage directoryName proxies err sa,
    saw tr (Get KMustGather request) (inr instance) /\ active instance /\
    ca_ready r instance tr /\ obfuscation_config_ready instance tr /\
    saw tr (Get KJob (jobKey instance)) (inl err) /\ IsNotFound err = true /\
    image_resolved r instance tr image /\
    saw tr (LookupEnv OPERATOR_IMAGE) (Some operatorImage) /\
    saw tr (Get KServiceAccount (mkKey (mg_Namespace instance)
                                   (spec_ServiceAccountName (mg_Spec instance)))) (inr sa) /\
    sftp_verified instance tr /\
    job = owned_job (mg_ObjectMeta instance) (mg_Namespace instance)
            (jobTemplate image operatorImage instance (r_TrustedCAConfigMap r) directoryName proxies) /\
    om_OwnerReferences (job_ObjectMeta job) = [controllerRef (mg_ObjectMeta instance)].

(** Every [Create] of a Job satisfies [P] on the history before it. *)
Definition on_create_job (P : trace KubeE -> Job -> Prop) : guard KubeE :=
  fun tr R e => match e with Create KJob job => P tr job | _ => True end.

Definition not_create_job (R : Type) (e : KubeE R) : Prop :=
  match e with Create KJob _ => False | _ => True end.

(** ** Programs that create no Job *)

Lemma wpg_no_create {A} P (p : kprog A) tr (Q : trace KubeE -> A -> Prop) :
  everywhere not_create_job p -> (forall tr' a, tr `prefix_of` tr' -> Q tr' a) ->
  wpg (on_create_job P) p tr Q.
Proof.
  intros Hp HQ. apply (everywhere_wpg _ not_create_job _ _ (fun tr' => tr `prefix_of` tr')); auto.
  - intros tr' R e Hpre He. split; [by destruct e as [| |[]| | | | | | | | |]|].
    intros a. by apply prefix_app_r.
Qed.

(** ** What the checks establish *)

Lemma ensure_ready P m tr :
  wpg (on_create_job P) (ensureTrustedCAConfigMap r m) tr
    (fun tr' err => err = None -> ca_ready r m tr').
Proof.
  unfold ensureTrustedCAConfigMap, ca_ready. wp_go; intros; simplify_eq.
  - by str_case (mg_Namespace m) (r_OperatorNamespace r).
  - case_match; simplify_eq. right. eexists (newTrustedCAConfigMap _ _ _). split; [done|]. apply saw_last.
  - left. eauto with mgo.
  - left. eauto with mgo.
Qed.

Lemma ca_ready_prefix m tr tr' : tr `prefix_of` tr' -> ca_ready r m tr -> ca_ready r m tr'.
Proof.
  intros Hp Hc H1 H2. destruct (Hc H1 H2) as [[cm ?]|(cm & ? & ?)]; [left|right]; exists cm;
    eauto using saw_prefix.
Qed.

Lemma obfuscation_config_ready_prefix m tr tr' :
  tr `prefix_of` tr' -> obfuscation_config_ready m tr -> obfuscation_config_ready m tr'.
Proof. intros Hp Hc Hn. destruct (Hc Hn) as [cm ?]. eauto using saw_prefix. Qed.

Lemma image_resolved_prefix m tr tr' i :
  tr `prefix_of` tr' -> image_resolved r m tr i -> image_resolved r m tr' i.
Proof.
  unfold image_resolved. intros Hp. destruct (spec_ImageStreamRef (mg_Spec m)) as [ref|]; [|done].
  intros (st & t & it & its & ? & ?). exists st, t, it, its. eauto using saw_prefix.
Qed.

Lemma prepare_ready P m tr :
  wpg (on_create_job P) (prepare r m) tr
    (fun tr' err => err = None -> ca_ready r m tr' /\ obfuscation_config_ready m tr').
Proof.
  unfold prepare. apply wpg_bind.
  apply (wpg_mono _ _ _ (fun tr' err => err = None -> ca_ready r m tr')).
  { str_case (r_TrustedCAConfigMap r) ""; cbn [negb]; [|apply ensure_ready]. by intros _ ?. }
  intros tr1 err _ Hca. unfold obfuscation_config_ready.
  str_case (getObfuscateConfigMapRefName (spec_Obfuscate (mg_Spec m))) ""; cbn [negb];
    wp_go; intros; simplify_eq; [by split; [apply Hca|]|].
  case_match; simplify_eq. split; [|eauto with mgo].
  eapply ca_ready_prefix, Hca; [by eexists|done].
Qed.

Lemma find_tag_elem tag tags t : find_tag tag tags = Some t -> t ∈ tags /\ nt_Tag t = tag.
Proof.
  induction tags as [|t' tags IH]; cbn; [done|]. str_case (nt_Tag t') tag; intros; simplify_eq.
  - split; [set_solver|done].
  - destruct IH; [done|]. split; [set_solver|done].
Qed.

Lemma pullable_image_Some t image :
  pullable_image t = Some image ->
  exists item items, nt_Items t = item :: items /\ image = te_DockerImageReference item /\ image <> "".
Proof.
  unfold pullable_image. destruct (nt_Items t) as [|item items]; [done|].
  str_case (te_DockerImageReference item) ""; cbn; intros; simplify_eq. eauto.
Qed.

Lemma getMustGatherImage_resolved P m tr :
  wpg (on_create_job P) (getMustGatherImage r m) tr
    (fun tr' res => forall image, res = inr image -> image_resolved r m tr' image).
Proof.
  unfold getMustGatherImage, image_resolved.
  destruct (spec_ImageStreamRef (mg_Spec m)) as [ref|]; [|by cbn; intros; simplify_eq].
  wp_go. intros image Hi. destruct r0 as [err|stream]; [done|].
  destruct (find_tag _ _) as [t|] eqn:Ht; [|done]. apply find_tag_elem in Ht as [? ?].
  destruct (pullable_image t) as [i|] eqn:Hp; [|done]. simplify_eq.
  apply pullable_image_Some in Hp as (item & items & ? & ? & ?).
  exists stream, t, item, items. split_and!; eauto with mgo.
Qed.

(** The template is built from the image, the operator's image, and a
    directory name and proxy values read from the environment. *)
Definition built_from (m : MustGather) (tr : trace KubeE) (job : Job) : Prop :=
  exists image operatorImage directoryName proxies,
    image_resolved r m tr image /\ saw tr (LookupEnv OPERATOR_IMAGE) (Some operatorImage) /\
    job = jobTemplate image operatorImage m (r_TrustedCAConfigMap r) directoryName proxies.

Lemma built_from_prefix m tr tr' j : tr `prefix_of` tr' -> built_from m tr j -> built_from m tr' j.
Proof.
  intros Hp (i & o & d & p & ? & ? & ?). exists i, o, d, p.
  eauto using saw_prefix, image_resolved_prefix.
Qed.

Lemma getJobTemplate_wpg P image op m ca dir tr (Q : trace KubeE -> Job -> Prop) :
  (forall tr' proxies, tr `prefix_of` tr' -> Q tr' (jobTemplate image op m ca dir proxies)) ->
  wpg (on_create_job P) (getJobTemplate image op m ca dir) tr Q.
Proof.
  intros HQ. unfold getJobTemplate, ReadProxyVarsFromEnv. apply wpg_bind, wpg_no_create.
  - by_requests.
  - intros. by apply HQ.
Qed.

Lemma getJobFromInstance_built P m tr :
  wpg (on_create_job P) (getJobFromInstance r m) tr
    (fun tr' res => forall job, res = inr job -> built_from m tr' job).
Proof.
  unfold getJobFromInstance. apply wpg_bind.
  eapply wpg_mono; [apply getMustGatherImage_resolved|]. cbn beta.
  intros tr1 [e|image] _ Hi; [by cbn|]. wp_step. wp_step; [done|]. destruct r0 as [op|]; [|by cbn].
  wp_step. wp_step; [done|]. apply wpg_bind, wpg_no_create.
  { unfold GenerateMustGatherDirectoryName, getClusterIDSuffix, generateRandomSuffix. by ev_go. }
  intros tr2 dir Hp2. apply wpg_bind, getJobTemplate_wpg. intros tr3 proxies Hp3 job [= <-].
  exists image, op, dir, proxies. split_and!; [| |done].
  - eapply image_resolved_prefix; [|by apply Hi]. prefix_go.
  - eapply saw_prefix; [|apply saw_last]. prefix_go.
Qed.

Lemma retry_verified P n u p h e tr :
  wpg (on_create_job P) (retry_loop n u p h e) tr
    (fun tr' res => res = None -> saw tr' (SftpDial u p h) None).
Proof.
  revert e tr. induction n as [|n IH]; intros e tr; cbn [retry_loop]; [by cbn|].
  apply wpg_bind. split; [done|]. intros [err|]; cbn [wpg]; [|eauto with mgo].
  destruct (IsTransientError err); cbn; [apply IH|done].
Qed.

(** An early return says nothing about the checks. *)
Lemma wpg_early P (p : kprog Outcome) tr (Q : trace KubeE -> Prop) :
  everywhere not_create_job p ->
  wpg (on_create_job P) (let* o := p in Ret (Some o)) tr (fun tr' early => early = None -> Q tr').
Proof. intros Hp. by apply wpg_bind, wpg_no_create. Qed.

Lemma checkSecretAndSFTP_verified P m tr :
  wpg (on_create_job P) (checkSecretAndSFTP m) tr
    (fun tr' early => early = None -> sftp_verified m tr').
Proof.
  unfold checkSecretAndSFTP, sftp_verified. destruct (sftp_of m) as [sftp|]; [|by cbn; intros].
  wp_step. wp_step; [done|]. destruct r0 as [err|sec].
  { destruct (IsNotFound err); [apply wpg_early; eauto with mgo|]. by cbn. }
  destruct (sec_Data sec !! "username") as [u|] eqn:Hu; cbn [from_option id];
    [|rewrite str_eqb_refl; apply wpg_early; eauto with mgo].
  str_case u ""; [apply wpg_early; eauto with mgo|].
  destruct (sec_Data sec !! "password") as [p|] eqn:Hpw; cbn [from_option id];
    [|rewrite str_eqb_refl; apply wpg_early; eauto with mgo].
  str_case p ""; [apply wpg_early; eauto with mgo|].
  apply wpg_bind. eapply wpg_mono; [apply retry_verified|]. cbn beta.
  intros tr' [err|] Hpre Hdial; [apply wpg_early; eauto with mgo|]. cbn.
  intros _ s [= <-]. exists sec, u, p. split_and!; auto. eapply saw_prefix; [done|]. apply saw_last.
Qed.

(** ** The creation of the Job *)

(** What reconcileCreate still has to check, given what was checked before. *)
Lemma reconcileCreate_justified req m err tr :
  saw tr (Get KMustGather req) (inr m) -> active m ->
  ca_ready r m tr -> obfuscation_config_ready m tr ->
  saw tr (Get KJob (jobKey m)) (inl err) -> IsNotFound err = true ->
  wpg (on_create_job (job_justified req)) (reconcileCreate r m) tr (fun _ _ => True).
Proof.
  intros Hm Ha Hca Hob Hj Herr. unfold reconcileCreate. apply wpg_bind.
  eapply wpg_mono; [apply getJobFromInstance_built|]. cbn beta.
  intros tr1 [e|job] Hp1 Hb.
  { destruct (errors_Is _ e); apply wpg_no_create; eauto with mgo. }
  wp_step. wp_step; [done|]. destruct r0 as [e|sa].
  { destruct (IsNotFound e); [apply wpg_no_create; eauto with mgo|]. by cbn. }
  apply wpg_bind. eapply wpg_mono; [apply checkSecretAndSFTP_verified|]. cbn beta.
  intros tr2 [out|] Hp2 Hsftp; [by cbn|].
  apply wpg_bind. unfold CreateResourceIfNotExists. wp_step. wp_step.
  - assert (tr `prefix_of` tr2) as Hp by prefix_go.
    destruct (Hb job) as (image & op & dir & prox & Hi & Ho & ->); [done|].
    exists m, image, op, dir, prox, err, sa. split_and!; eauto 3 using saw_prefix.
    + by eapply ca_ready_prefix.
    + by eapply obfuscation_config_ready_prefix.
    + eapply image_resolved_prefix; [|done]. prefix_go.
    + eapply saw_prefix; [|done]. prefix_go.
    + eapply saw_prefix; [|apply saw_last]. done.
    + apply owned_job_refs; by rewrite jobTemplate_meta.
  - apply wpg_no_create; [|done]. by ev_go.
Qed.

Lemma Reconcile_justified req :
  wpg (on_create_job (job_justified req)) (Reconcile r req) [] (fun _ _ => True).
Proof.
  unfold Reconcile. apply wpg_bind. wp_step; [done|]. destruct r0 as [e|m].
  { by destruct (IsNotFound e). }
  assert (saw ([] ++ [Ev (Get KMustGather req) (inr m)]) (Get KMustGather req) (inr m)) as Hm by apply saw_last.
  revert Hm. generalize ([] ++ [Ev (Get KMustGather req) (inr m)]) as tr. intros tr Hm.
  destruct (has _) eqn:Hdel; [apply wpg_no_create; [by_requests|done]|].
  destruct (has_finalizer m) eqn:Hfin; cbn [negb];
    [|unfold addFinalizer; apply wpg_no_create; [by ev_go|done]].
  destruct (usesOperatorSA r m) eqn:Hsa; [apply wpg_no_create; eauto with mgo|].
  assert (active m) as Ha.
  { repeat split; [|done..]. by destruct (om_DeletionTimestamp (mg_ObjectMeta m)). }
  unfold reconcileActive. apply wpg_bind. eapply wpg_mono; [apply prepare_ready|]. cbn beta.
  intros tr1 [e|] Hp1 Hr; [apply wpg_no_create; eauto with mgo|]. destruct (Hr eq_refl) as [Hca Hob].
  wp_step. wp_step; [done|]. destruct r0 as [e|job]; [|apply wpg_no_create; [by_requests|done]].
  destruct (IsNotFound e) eqn:He; cbn [negb]; [|apply wpg_no_create; eauto with mgo].
  eapply reconcileCreate_justified; try done.
  - eapply saw_prefix; [|done]. prefix_go.
  - eapply ca_ready_prefix; [|done]. prefix_go.
  - eapply obfuscation_config_ready_prefix; [|done]. prefix_go.
  - apply saw_last.
Qed.

End safety.

(** C1: a Job is created only when everything was checked.  At every [Create]
    of a Job that [Reconcile] ever makes, whatever was answered before it: the
    instance was read, is not being deleted, carries the finalizer, and does
    not run as the operator; the CA copy and the obfuscation ConfigMap are there;
    no Job of that name existed; the image was resolved; the service account
    exists; the SFTP credentials are non-empty and a connection with them
    succeeded; and the Job is the template built from these, owned by the
    instance as its controller. *)
Theorem job_created_only_when_justified `{UnicodeTables} r req tr o :
  exec (Reconcile r req) tr o -> guarded (on_create_job (job_justified r req)) tr.
Proof. intros He. by destruct (wpg_sound _ _ _ _ _ (Reconcile_justified r req) He). Qed.

Lemma job_created_only_when_justified_witness :
  let tr := run_trace mem_handle (@Reconcile ascii_tables demo_reconciler demo_key) demo_start in
  existsb is_create_job tr = true /\
  guarded (on_create_job (job_justified demo_reconciler demo_key)) tr.
Proof.
  intros tr. split; [vm_compute; reflexivity|].
  eapply job_created_only_when_justified, run_exec.
Defined.
