(* ===== verification/CleanupSafety.v ===== *)
(** * Safety of deletion

    What [Reconcile] may delete, and when it lets go of the finalizer: every
    [Delete] and every update of a [MustGather] is justified by the history. *)

From S2P Require Import Prelude GoStrings GoErrors GoTime K8sTypes MustGatherV1 Effects KubeEffects.
From S2P Require Import ApiServer MemCluster Conditions OperatorUtils Template MustGatherUtil TrustedCA.
From S2P Require Import Cleanup SftpValidation Reconcile Requests Demo ReconcileSafety.

(** A version of the instance the server answered. *)
Definition known_instance (req : NamespacedName) (tr : trace KubeE) (m : MustGather) : Prop :=
  saw tr (Get KMustGather req) (inr m) \/ exists m0, saw tr (StatusUpdate m0) (inr m).

(** A pod that is gone: its deletion was answered with success or NotFound. *)
Definition pod_gone (tr : trace KubeE) (pod : Pod) : Prop :=
  saw tr (Delete KPod pod) None \/
  exists e, saw tr (Delete KPod pod) (Some e) /\ IsNotFound e = true.

(** The Job of the instance: found under its key, with its UID among the owners. *)
Definition job_of (m : MustGather) (tr : trace KubeE) (job : Job) : Prop :=
  saw tr (Get KJob (jobKey m)) (inr job) /\
  mg_UID m ∈ owner_uids (om_OwnerReferences (job_ObjectMeta job)).

Definition pods_of (m : MustGather) (job : Job) (tr : trace KubeE) (pods : list Pod) : Prop :=
  saw tr (ListPods (mg_Namespace m) (jobPodLabels (om_UID (job_ObjectMeta job)))) (inr pods).

Definition caKey (r : MustGatherReconciler) (m : MustGather) : NamespacedName :=
  mkKey (mg_Namespace m) (r_TrustedCAConfigMap r).

(** The instance no longer owns the CA copy. *)
Definition ca_released (r : MustGatherReconciler) (m : MustGather) (tr : trace KubeE) : Prop :=
  r_TrustedCAConfigMap r <> "" -> mg_Namespace m <> r_OperatorNamespace r ->
  (exists e, saw tr (Get KConfigMap (caKey r m)) (inl e) /\ IsNotFound e = true) \/
  (exists cm, saw tr (Get KConfigMap (caKey r m)) (inr cm) /\ saw tr (Delete KConfigMap cm) None) \/
  (exists cm cm', saw tr (Update KConfigMap cm) (inr cm') /\ mg_UID m ∉ owner_uids (cm_owners cm)).

(** Nothing of the instance is left: no Job, a Job of somebody else, or the Job
    with its pods deleted and the CA copy released. *)
Definition cleanup_done (r : MustGatherReconciler) (m : MustGather) (tr : trace KubeE) : Prop :=
  (exists e, saw tr (Get KJob (jobKey m)) (inl e) /\ IsNotFound e = true) \/
  (exists job, saw tr (Get KJob (jobKey m)) (inr job) /\
     mg_UID m ∉ owner_uids (om_OwnerReferences (job_ObjectMeta job))) \/
  (exists job pods, job_of m tr job /\ pods_of m job tr pods /\ (forall p, p ∈ pods -> pod_gone tr p) /\
     saw tr (Delete KJob job) None /\ ca_released r m tr).

(** Why an object may be deleted. *)
Definition owned_object (r : MustGatherReconciler) (m : MustGather) (tr : trace KubeE) (k : Kind) : objOf k -> Prop :=
  match k return objOf k -> Prop with
  | KJob => fun job => job_of m tr job /\
      exists pods, pods_of m job tr pods /\ forall p, p ∈ pods -> pod_gone tr p
  | KPod => fun pod => exists job pods, job_of m tr job /\ pods_of m job tr pods /\ pod ∈ pods
  | KConfigMap => fun cm =>
      r_TrustedCAConfigMap r <> "" /\ mg_Namespace m <> r_OperatorNamespace r /\
      saw tr (Get KConfigMap (caKey r m)) (inr cm) /\ owner_uids (cm_owners cm) ⊆ {[mg_UID m]} /\
      exists job, job_of m tr job /\ saw tr (Delete KJob job) None
  | _ => fun _ => False
  end.

(** The instance is over: being deleted, or its completion was recorded. *)
Definition over (m : MustGather) (tr : trace KubeE) : Prop :=
  om_DeletionTimestamp (mg_ObjectMeta m) <> None \/
  exists m0 s, saw tr (StatusUpdate m0) (inr m) /\ mg_Status m0 = Some s /\ mgs_Completed s = Some true.

Definition delete_justified (r : MustGatherReconciler) (req : NamespacedName) (tr : trace KubeE)
    (k : Kind) (o : objOf k) : Prop :=
  exists m, known_instance req tr m /\ over m tr /\ cleanup_wanted m = true /\ owned_object r m tr k o.

(** An update of the instance changes its finalizers only: ours is added to an
    instance that lacks it, or taken off one that is being deleted and, unless
    it retains its resources, has been cleaned up. *)
Definition update_justified (r : MustGatherReconciler) (req : NamespacedName) (tr : trace KubeE)
    (m' : MustGather) : Prop :=
  exists m, saw tr (Get KMustGather req) (inr m) /\
    ((om_DeletionTimestamp (mg_ObjectMeta m) = None /\ has_finalizer m = false /\
      m' = mg_with_Finalizers m (mg_Finalizers m ++ [mustGatherFinalizer])) \/
     (om_DeletionTimestamp (mg_ObjectMeta m) <> None /\ has_finalizer m = true /\
      m' = remove_finalizer m /\ (cleanup_wanted m = true -> cleanup_done r m tr))).

Definition destructive (r : MustGatherReconciler) (req : NamespacedName) : guard KubeE :=
  fun tr R e =>
    match e with
    | Delete k o => delete_justified r req tr k o
    | Update KMustGather m => update_justified r req tr m
    | _ => True
    end.

Definition harmless (R : Type) (e : KubeE R) : Prop :=
  match e with Delete _ _ | Update KMustGather _ => False | _ => True end.

(** ** Facts of the history persist *)

Lemma owned_object_prefix r m tr tr' k (o : objOf k) :
  tr `prefix_of` tr' -> owned_object r m tr k o -> owned_object r m tr' k o.
Proof.
  intros Hp. destruct k; cbn; try done.
  - intros ([? ?] & pods & ? & Hg). split; [split; eauto using saw_prefix|]. exists pods.
    split; [by eapply saw_prefix|]. intros p Hpod. destruct (Hg p Hpod) as [?|(e & ? & ?)];
      [left|right; exists e]; eauto using saw_prefix.
  - intros (? & ? & ? & ? & job & [? ?] & ?). split_and!; eauto using saw_prefix.
    exists job. split; [split|]; eauto using saw_prefix.
  - intros (job & pods & [? ?] & ? & ?). exists job, pods. split; [split|]; eauto using saw_prefix.
    split; [by eapply saw_prefix|done].
Qed.

Section safety.
  Context `{UnicodeTables}.
  Variables (r : MustGatherReconciler) (req : NamespacedName).
  Abbreviation G := (destructive r req).

Lemma wpg_harmless {A} (p : kprog A) tr (Q : trace KubeE -> A -> Prop) :
  everywhere harmless p -> (forall tr' a, tr `prefix_of` tr' -> Q tr' a) -> wpg G p tr Q.
Proof.
  intros Hp HQ. apply (everywhere_wpg _ harmless _ _ (fun tr' => tr `prefix_of` tr')); auto.
  intros tr' R e Hpre He. split; [|intros; by apply prefix_app_r].
  by destruct e as [| | |[]| | | | | | | |].
Qed.

(** ** The cleanup *)

Lemma delete_pods (l : list Pod) tr :
  (forall tr' p, tr `prefix_of` tr' -> p ∈ l -> G tr' _ (Delete KPod p)) ->
  wpg G (DeleteResourcesIfExist (k:=KPod) l) tr
    (fun tr' err => err = None -> forall p, p ∈ l -> pod_gone tr' p).
Proof.
  unfold DeleteResourcesIfExist. revert tr. induction l as [|p l IH]; intros tr HG; cbn [for_each].
  { cbn. intros _ p Hp%elem_of_nil. done. }
  unfold DeleteResourceIfExists at 1. apply wpg_bind. wp_step. wp_step.
  { apply HG; [done|set_solver]. }
  assert (forall ans, pod_gone (tr ++ [Ev (Delete KPod p) ans]) p ->
    wpg G (for_each (DeleteResourceIfExists (k:=KPod)) l) (tr ++ [Ev (Delete KPod p) ans])
      (fun tr' err => err = None -> forall q, q ∈ p :: l -> pod_gone tr' q)) as Hrest.
  { intros ans Hgone. eapply wpg_mono; [apply IH|].
    - intros tr' q Hp Hq. apply HG; [|set_solver]. etrans; [|done]. by eexists.
    - intros tr' err Hp Hl Herr q [->|Hq]%elem_of_cons; [|by apply Hl].
      destruct Hgone as [?|(e & ? & ?)]; [left|right; exists e]; eauto using saw_prefix. }
  destruct r0 as [e|]; [destruct (IsNotFound e) eqn:He|].
  - apply Hrest. right. exists e. split; [apply saw_last|done].
  - by cbn.
  - apply Hrest. left. apply saw_last.
Qed.

Definition may_clean (m : MustGather) (tr : trace KubeE) : Prop :=
  known_instance req tr m /\ over m tr /\ cleanup_wanted m = true.

Lemma may_clean_prefix m tr tr' : tr `prefix_of` tr' -> may_clean m tr -> may_clean m tr'.
Proof.
  intros Hp (Hk & Ho & Hw). split_and!; [| |done].
  - destruct Hk as [?|[m0 ?]]; [left|right; exists m0]; eauto using saw_prefix.
  - destruct Ho as [?|(m0 & s & ? & ?)]; [left|right; exists m0, s]; eauto using saw_prefix.
Qed.

Lemma may_delete m tr k (o : objOf k) :
  may_clean m tr -> owned_object r m tr k o -> G tr _ (Delete k o).
Proof. intros (? & ? & ?) ?. exists m. done. Qed.

Lemma remove_owner_nil uid refs : remove_owner uid refs = [] -> owner_uids refs ⊆ {[uid]}.
Proof.
  intros Hr. pose proof (owner_uids_remove uid refs) as Hu. rewrite Hr in Hu.
  intros x Hx. destruct (decide (x = uid)); set_solver.
Qed.

Lemma cleanupCA_safe m tr job :
  may_clean m tr -> r_TrustedCAConfigMap r <> "" -> job_of m tr job -> saw tr (Delete KJob job) None ->
  wpg G (cleanupTrustedCAConfigMap r m) tr (fun tr' err => err = None -> ca_released r m tr').
Proof.
  intros Hm Hca [? ?] Hdel. unfold cleanupTrustedCAConfigMap, ca_released.
  str_case (mg_Namespace m) (r_OperatorNamespace r); [by cbn|].
  wp_step. wp_step; [done|]. destruct r0 as [e|cm].
  { destruct (IsNotFound e) eqn:He; cbn; [|done]. intros _ _ _. left. exists e. split; [apply saw_last|done]. }
  destruct (remove_owner (mg_UID m) (cm_owners cm)) as [|ref refs] eqn:Hr.
  - wp_step. wp_step.
    + apply (may_delete m); [eapply may_clean_prefix; [|done]; prefix_go|]. cbn.
      split_and!; [done|done|apply saw_last|by apply remove_owner_nil|].
      exists job. split; [split; [|done]|]; eauto using saw_snoc.
    + destruct r0 as [e|]; [done|]. intros _ _ _. right. left. exists cm.
      split; [apply saw_snoc|]; apply saw_last.
  - wp_step. wp_step; [done|]. destruct r0 as [e|cm']; [done|]. intros _ _ _. right. right.
    exists (cm_with_OwnerReferences cm (ref :: refs)), cm'. split; [apply saw_last|].
    change (mg_UID m ∉ owner_uids (ref :: refs)). rewrite <-Hr, owner_uids_remove. set_solver.
Qed.

Lemma cleanup_done_deleted m job pods tr tr' :
  tr `prefix_of` tr' ->
  job_of m tr job -> pods_of m job tr pods -> (forall p, p ∈ pods -> pod_gone tr p) ->
  saw tr' (Delete KJob job) None -> ca_released r m tr' -> cleanup_done r m tr'.
Proof.
  intros Hp [? ?] Hpods Hgone Hdel Hca. right. right. exists job, pods. split_and!; try done.
  - split; eauto using saw_prefix.
  - by eapply saw_prefix.
  - intros p Hin. destruct (Hgone p Hin) as [?|(e & ? & ?)]; [left|right; exists e]; eauto using saw_prefix.
Qed.

(** The last part of the cleanup: the Job, then the CA copy. *)
Lemma delete_job_safe m job pods tr :
  may_clean m tr -> job_of m tr job -> pods_of m job tr pods -> (forall p, p ∈ pods -> pod_gone tr p) ->
  wpg G (let* err := call (Delete KJob job) in
         match err with
         | Some err => Ret (Some err)
         | None => if r_TrustedCAConfigMap r <>?s "" then cleanupTrustedCAConfigMap r m else Ret None
         end) tr (fun tr' err => err = None -> cleanup_done r m tr').
Proof.
  intros Hm Hjob Hpods Hgone. wp_step. wp_step.
  { apply (may_delete m); [done|]. split; [done|]. eauto. }
  destruct r0 as [e|]; [done|]. str_case (r_TrustedCAConfigMap r) ""; cbn [negb].
  - cbn. intros _. apply (cleanup_done_deleted m job pods tr); try done; [prefix_go|apply saw_last|].
    by intros ?.
  - eapply wpg_mono; [eapply (cleanupCA_safe m _ job); [|done| |apply saw_last]|].
    + eapply may_clean_prefix; [|done]. prefix_go.
    + destruct Hjob. split; [by apply saw_snoc|done].
    + cbn. intros tr' err Hp' Hr Herr. apply (cleanup_done_deleted m job pods tr); auto.
      * prefix_go.
      * eapply saw_prefix; [done|apply saw_last].
Qed.

Lemma cleanup_safe m tr :
  may_clean m tr ->
  wpg G (cleanupMustGatherResources r m) tr (fun tr' err => err = None -> cleanup_done r m tr').
Proof.
  intros Hm. unfold cleanupMustGatherResources. wp_step. wp_step; [done|]. destruct r0 as [e|job].
  { destruct (IsNotFound e) eqn:He; cbn; [|done]. intros _. left. exists e. split; [apply saw_last|done]. }
  destruct (owned_by _ _) eqn:Ho; cbn [negb].
  2: { intros _. right. left. exists job. split; [apply saw_last|].
       rewrite <-owned_by_spec. congruence. }
  apply owned_by_spec in Ho. wp_step. wp_step; [done|]. destruct r0 as [e|pods]; [done|].
  set (tr2 := _ ++ [_]).
  assert (pods_of m job tr2 pods) as Hpods by apply saw_last.
  assert (may_clean m tr2) as Hm2 by (eapply may_clean_prefix; [|done]; unfold tr2; prefix_go).
  assert (job_of m tr2 job) as Hjob2 by (split; [apply saw_snoc, saw_last|done]).
  clearbody tr2. wp_bind. eapply wpg_mono; [apply delete_pods|cbn beta].
  { intros tr3 p Hp3 Hp. apply (may_delete m); [by eapply may_clean_prefix|].
    apply (owned_object_prefix _ _ tr2); [done|]. exists job, pods. done. }
  intros tr3 [e|] Hp3 Hgone; [done|]. apply (delete_job_safe m job pods).
  - by eapply may_clean_prefix.
  - destruct Hjob2; split; eauto using saw_prefix.
  - by eapply saw_prefix.
  - by apply Hgone.
Qed.

(** ** The handlers *)

Lemma handleJobCompletion_safe m s t tr : wpg G (handleJobCompletion r m s t) tr (fun _ _ => True).
Proof.
  unfold handleJobCompletion. wp_step. wp_step; [done|].
  destruct r0 as [e|m']; [apply wpg_harmless; eauto with mgo|].
  destruct (cleanup_wanted m') eqn:Hw; [|by cbn]. wp_bind. eapply wpg_mono; [apply cleanup_safe|].
  - split_and!; [| |done].
    + right. eexists. apply saw_last.
    + right. do 2 eexists. split; [apply saw_last|]. done.
  - intros tr' [e|] _ _; [apply wpg_harmless; eauto with mgo|done].
Qed.

Lemma reconcileJob_safe m j tr : wpg G (reconcileJob r m j) tr (fun _ _ => True).
Proof.
  unfold reconcileJob, updateStatus. repeat case_match; try (apply wpg_harmless; eauto with mgo; done).
  - apply handleJobCompletion_safe.
  - wp_step. wp_step; [done|]. apply handleJobCompletion_safe.
Qed.

Lemma reconcileDeletion_safe m tr :
  saw tr (Get KMustGather req) (inr m) -> om_DeletionTimestamp (mg_ObjectMeta m) <> None ->
  wpg G (reconcileDeletion r m) tr (fun _ _ => True).
Proof.
  intros Hm Hdel. unfold reconcileDeletion. destruct (has_finalizer m) eqn:Hf; [|by cbn].
  wp_bind. eapply (wpg_mono _ _ _ (fun tr' err => err = None -> cleanup_wanted m = true -> cleanup_done r m tr')).
  { destruct (cleanup_wanted m) eqn:Hw; [|by cbn]. eapply wpg_mono; [apply cleanup_safe|naive_solver].
    split_and!; [by left|by left|done]. }
  intros tr' [e|] Hp Hc; [by cbn|]. wp_step. wp_step.
  - exists m. split; [by eapply saw_prefix|]. right. auto.
  - destruct r0; [apply wpg_harmless; eauto with mgo|by cbn].
Qed.

Lemma Reconcile_destructive : wpg G (Reconcile r req) [] (fun _ _ => True).
Proof.
  unfold Reconcile. wp_step. wp_step; [done|]. destruct r0 as [e|m]; [by destruct (IsNotFound e)|].
  assert (saw ([] ++ [Ev (Get KMustGather req) (inr m)]) (Get KMustGather req) (inr m)) as Hm by apply saw_last.
  revert Hm. generalize ([] ++ [Ev (Get KMustGather req) (inr m)]) as tr. intros tr Hm.
  destruct (om_DeletionTimestamp (mg_ObjectMeta m)) as [t|] eqn:Hdel; cbn [has].
  { apply reconcileDeletion_safe; [done|]. by rewrite Hdel. }
  destruct (has_finalizer m) eqn:Hfin; cbn [negb].
  - destruct (usesOperatorSA r m); [apply wpg_harmless; eauto with mgo|].
    unfold reconcileActive. wp_bind. apply wpg_harmless; [eauto with mgo|].
    intros tr1 [e|] Hp1; [apply wpg_harmless; eauto with mgo|].
    wp_step. wp_step; [done|]. destruct r0 as [e|job]; [|apply reconcileJob_safe].
    destruct (IsNotFound e); cbn [negb]; apply wpg_harmless; eauto with mgo.
  - unfold addFinalizer. wp_step. wp_step. wp_step; [|by destruct r0; cbn].
    exists m. split; [done|]. left. done.
Qed.

End safety.

(** C2: deletion is safe.  Every [Delete] of [Reconcile] has a version of the
    instance that is over (marked for deletion, or recorded as completed) and
    wants cleanup, and concerns what that instance owns: the Job under its own
    name that names its UID as owner, after all of the Job's pods; a pod listed
    for that Job; or the CA copy in its own namespace when no other UID owns it,
    after the Job.  Every update of a [MustGather] only adds the operator's
    finalizer, or takes it off an instance being deleted, and then, unless
    resources are retained, with the cleanup complete. *)
Theorem deletes_and_updates_justified `{UnicodeTables} r req tr o :
  exec (Reconcile r req) tr o -> guarded (destructive r req) tr.
Proof. intros He. by destruct (wpg_sound _ _ _ _ _ (Reconcile_destructive r req) He). Qed.

(** A completed gather with one pod. *)
Lemma deletes_and_updates_justified_witness :
  let c := demo_cluster (demo_objects [demo_mustgather [mustGatherFinalizer] demo_spec]
             [demo_job (job_status 0 1 0)] [demo_pod]) [] in
  let tr := run_trace mem_handle (@Reconcile ascii_tables demo_reconciler demo_key) c in
  length (filter (fun ev => is_delete ev = true) tr) = 3 /\
  guarded (destructive demo_reconciler demo_key) tr.
Proof.
  intros c tr. split; [vm_compute; reflexivity|].
  eapply (@deletes_and_updates_justified ascii_tables), run_exec.
Defined.
