(* ===== verification/StatusSafety.v ===== *)
(** * Safety of status writes

    Every status [Reconcile] writes is that of the instance it read, with a
    condition list that stays keyed by type, and it never invents a completion. *)

From S2P Require Import Prelude GoStrings GoErrors GoTime K8sTypes MustGatherV1 Effects KubeEffects.
From S2P Require Import ApiServer MemCluster Conditions OperatorUtils Template MustGatherUtil TrustedCA.
From S2P Require Import Cleanup SftpValidation Reconcile Requests Demo ReconcileSafety CleanupSafety.

Definition validationTypes : list string :=
  [ValidationServiceAccount; ProtocolSFTP; ValidationSFTPCredentials; ValidationImageStream].

(** A Job that is done: a completion time, or no active pod and a success or
    more failures than the limit. *)
Definition job_finished (job : Job) : Prop :=
  metav1_IsZero (js_CompletionTime (job_Status job)) = false \/
  ((js_Active (job_Status job) <= 0)%Z /\
   ((0 < js_Succeeded (job_Status job))%Z \/
    (default 0 (jsp_BackoffLimit (job_Spec job)) < js_Failed (job_Status job))%Z)).

Definition completion (m : MustGather) : option bool := mgs_Completed (status_of m).

(** A completion that is written was there, or is that of a finished Job, or
    reports a failed validation. *)
Definition completion_justified (m m' : MustGather) (tr : trace KubeE) : Prop :=
  completion m' = Some true ->
  completion m = Some true \/
  (exists job, saw tr (Get KJob (jobKey m)) (inr job) /\ job_finished job) \/
  (mgs_Status (status_of m') = Some "Failed" /\
   exists t e, t ∈ validationTypes /\ mgs_Reason (status_of m') = Some (validationErrorMessage t e)).

Definition same_object (m m' : MustGather) : Prop :=
  mg_TypeMeta m' = mg_TypeMeta m /\ mg_Name m' = mg_Name m /\ mg_Namespace m' = mg_Namespace m /\
  mg_UID m' = mg_UID m /\ mg_Spec m' = mg_Spec m /\
  om_ResourceVersion (mg_ObjectMeta m') = om_ResourceVersion (mg_ObjectMeta m).

(** The local copy [m'] of an instance the server answered. *)
Definition local_copy (req : NamespacedName) (tr : trace KubeE) (m' : MustGather) : Prop :=
  exists m, known_instance req tr m /\ same_object m m' /\
    (unique_types (GetConditions m) -> unique_types (GetConditions m')) /\
    completion_justified m m' tr.

Definition status_writes (req : NamespacedName) : guard KubeE :=
  fun tr R e => match e with StatusUpdate m' => local_copy req tr m' | _ => True end.

Definition no_status (R : Type) (e : KubeE R) : Prop := match e with StatusUpdate _ => False | _ => True end.

Lemma status_of_conditions m : mgs_Conditions (status_of m) = GetConditions m.
Proof. unfold status_of, GetConditions. by destruct (mg_Status m). Qed.

Section safety.
  Context `{UnicodeTables}.
  Variables (r : MustGatherReconciler) (req : NamespacedName).
  Abbreviation G := (status_writes req).

Lemma local_copy_prefix tr tr' m : tr `prefix_of` tr' -> local_copy req tr m -> local_copy req tr' m.
Proof.
  intros Hp (m0 & Hk & Hs & Hu & Hc). exists m0. split_and!; [|done|done|].
  - destruct Hk as [?|[m1 ?]]; [left|right; exists m1]; eauto using saw_prefix.
  - intros Ht. destruct (Hc Ht) as [?|[(job & ? & ?)|?]]; eauto 10 using saw_prefix.
Qed.

Lemma local_copy_refl tr m : known_instance req tr m -> local_copy req tr m.
Proof. intros Hk. exists m. split_and!; [done|done|done|]. by left. Qed.

(** Changing nothing but the conditions, by a function that keeps them keyed. *)
Lemma local_copy_put tr m c : local_copy req tr m -> local_copy req tr (put_condition m c).
Proof.
  intros (m0 & Hk & Hs & Hu & Hc). exists m0. split_and!; [done|done| |].
  - intros Hun. unfold put_condition. rewrite GetConditions_SetConditions. by apply AddOrReplace_unique, Hu.
  - unfold completion_justified, completion, put_condition, SetConditions, status_of in *. cbn.
    by destruct (mg_Status m).
Qed.

Lemma wpg_no_status {A} (p : kprog A) tr (Q : trace KubeE -> A -> Prop) :
  everywhere no_status p -> (forall tr' a, tr `prefix_of` tr' -> Q tr' a) -> wpg G p tr Q.
Proof.
  intros Hp HQ. apply (everywhere_wpg _ no_status _ _ (fun tr' => tr `prefix_of` tr')); auto.
  intros tr' R e Hpre He. split; [|intros; by apply prefix_app_r]. by destruct e.
Qed.

Lemma ManageError_status m e tr (Q : trace KubeE -> Outcome -> Prop) :
  local_copy req tr m -> (forall tr' o, tr `prefix_of` tr' -> Q tr' o) -> wpg G (ManageError m e) tr Q.
Proof.
  intros Hm HQ. unfold ManageError, ManageErrorWithRequeue.
  wp_step. wp_step; [done|]. wp_step. wp_step; [done|]. wp_step. wp_step.
  - apply local_copy_put. eapply local_copy_prefix; [|done]. prefix_go.
  - destruct r2; cbn; apply HQ; prefix_go.
Qed.

Lemma ManageSuccess_status m tr (Q : trace KubeE -> Outcome -> Prop) :
  local_copy req tr m -> (forall tr' o, tr `prefix_of` tr' -> Q tr' o) -> wpg G (ManageSuccess m) tr Q.
Proof.
  intros Hm HQ. unfold ManageSuccess, ManageSuccessWithRequeue.
  wp_step. wp_step; [done|]. wp_step. wp_step.
  - apply local_copy_put. eapply local_copy_prefix; [|done]. prefix_go.
  - destruct r1; cbn; apply HQ; prefix_go.
Qed.

Lemma local_copy_validation_failed tr m now now' t e :
  local_copy req tr m -> t ∈ validationTypes ->
  local_copy req tr (validation_failed now now' (validationErrorMessage t e) m).
Proof.
  intros (m0 & Hk & Hs & Hu & Hc) Ht. exists m0. split_and!; [done|done| |].
  - intros Hun. unfold validation_failed. cbn. apply SetStatusCondition_unique.
    rewrite status_of_conditions. by apply Hu.
  - intros _. right. right. split; [done|]. eauto.
Qed.

Lemma validation_status m t e tr (Q : trace KubeE -> Outcome -> Prop) :
  local_copy req tr m -> t ∈ validationTypes -> (forall tr' o, tr `prefix_of` tr' -> Q tr' o) ->
  wpg G (setValidationFailureStatus m t e) tr Q.
Proof.
  intros Hm Ht HQ. unfold setValidationFailureStatus. wp_step. wp_step; [done|].
  wp_bind. apply wpg_no_status; [by ev_go|]. intros tr1 now' Hp1.
  assert (local_copy req tr1 (validation_failed r0 now' (validationErrorMessage t e) m)) as Hl.
  { apply local_copy_validation_failed; [|done]. eapply local_copy_prefix; [|done]. prefix_go. }
  wp_step. wp_step; [done|]. wp_step. wp_step.
  - eapply local_copy_prefix; [|done]. prefix_go.
  - destruct r2 as [err|m']; [|cbn; apply HQ; prefix_go].
    apply ManageError_status; [|intros; apply HQ; prefix_go].
    eapply local_copy_prefix; [|done]. prefix_go.
Qed.

(** ** The handlers *)

(** Recording the completion of a finished Job. *)
Lemma local_copy_completed tr m job s t :
  local_copy req tr m -> saw tr (Get KJob (jobKey m)) (inr job) -> job_finished job ->
  local_copy req tr (completed s t m).
Proof.
  intros (m0 & Hk & Hs & Hu & Hc) Hj Hf. exists m0. split_and!; [done|done| |].
  - intros Hun. change (unique_types (mgs_Conditions (status_of m))). rewrite status_of_conditions. by apply Hu.
  - intros _. right. left. exists job. split; [|done].
    replace (jobKey m0) with (jobKey m); [done|]. destruct Hs as (_ & Hn & Hns & _).
    unfold jobKey. by rewrite Hn, Hns.
Qed.

Lemma handleJobCompletion_status m job s t tr :
  local_copy req tr m -> saw tr (Get KJob (jobKey m)) (inr job) -> job_finished job ->
  wpg G (handleJobCompletion r m s t) tr (fun _ _ => True).
Proof.
  intros Hm Hj Hf. assert (local_copy req tr (completed s t m)) as Hl by by eapply local_copy_completed.
  unfold handleJobCompletion. wp_step. wp_step; [done|]. destruct r0 as [e|m'].
  { apply ManageError_status; [|done]. eapply local_copy_prefix; [|done]. prefix_go. }
  destruct (cleanup_wanted m'); [|by cbn]. wp_bind. apply wpg_no_status; [by_requests|].
  intros tr' [e|] Hp; [|by cbn]. apply ManageError_status; [|done].
  apply local_copy_refl. right. eexists. eapply saw_prefix; [done|apply saw_last].
Qed.

Lemma updateStatus_status m job tr :
  local_copy req tr m -> saw tr (Get KJob (jobKey m)) (inr job) ->
  wpg G (updateStatus m job) tr (fun _ _ => True).
Proof.
  intros (m0 & Hk & Hs & Hu & Hc) Hj. apply ManageSuccess_status; [|done].
  exists m0. split_and!; [done|done| |].
  - intros Hun. change (unique_types (mgs_Conditions (status_of m))). rewrite status_of_conditions. by apply Hu.
  - intros Ht. right. left. exists job. split.
    + replace (jobKey m0) with (jobKey m); [done|]. destruct Hs as (_ & Hn & Hns & _).
      unfold jobKey. by rewrite Hn, Hns.
    + left. injection Ht as Ht. by apply negb_true_iff.
Qed.

Lemma reconcileJob_status m job tr :
  local_copy req tr m -> saw tr (Get KJob (jobKey m)) (inr job) ->
  wpg G (reconcileJob r m job) tr (fun _ _ => True).
Proof.
  intros Hm Hj. unfold reconcileJob.
  destruct (Z.ltb_spec 0 (js_Active (job_Status job))); [by apply updateStatus_status|].
  destruct (Z.ltb_spec 0 (js_Succeeded (job_Status job))).
  { apply (handleJobCompletion_status _ job); [done|done|]. right. lia. }
  destruct (Z.ltb_spec (default 0%Z (jsp_BackoffLimit (job_Spec job))) (js_Failed (job_Status job)));
    [|by apply updateStatus_status].
  wp_step. wp_step; [done|]. apply (handleJobCompletion_status _ job); [|by apply saw_snoc|right; lia].
  eapply local_copy_prefix; [|done]. prefix_go.
Qed.

Lemma wpg_early_status (p : kprog Outcome) tr (Q : trace KubeE -> option Outcome -> Prop) :
  wpg G p tr (fun tr' o => Q tr' (Some o)) -> wpg G (let* o := p in Ret (Some o)) tr Q.
Proof. intros Hp. by apply wpg_bind. Qed.

Lemma checkSecretAndSFTP_status m tr :
  local_copy req tr m -> wpg G (checkSecretAndSFTP m) tr (fun tr' _ => tr `prefix_of` tr').
Proof.
  intros Hm. unfold checkSecretAndSFTP. destruct (sftp_of m) as [sftp|]; [|by cbn].
  wp_step. wp_step; [done|]. set (tr1 := tr ++ _).
  assert (tr `prefix_of` tr1) as Hp by by eexists. assert (local_copy req tr1 m) as Hm1 by by eapply local_copy_prefix.
  clearbody tr1. destruct r0 as [e|sec].
  { destruct (IsNotFound e); [|by cbn]. apply wpg_early_status, ManageError_status; [done|]. intros; prefix_go. }
  assert (forall e, wpg G (let* o := setValidationFailureStatus m ValidationSFTPCredentials e in Ret (Some o)) tr1
    (fun tr' _ => tr `prefix_of` tr')) as Hval.
  { intros e. apply wpg_early_status, validation_status; [done|set_solver|]. intros; prefix_go. }
  case_match; [apply Hval|]. case_match; [apply Hval|]. wp_bind.
  apply wpg_no_status; [by_requests|]. intros tr2 [e|] Hp2; [|cbn; prefix_go].
  apply wpg_early_status, validation_status; [by eapply local_copy_prefix|set_solver|]. intros; prefix_go.
Qed.

Lemma reconcileCreate_status m tr :
  local_copy req tr m -> wpg G (reconcileCreate r m) tr (fun _ _ => True).
Proof.
  intros Hm. unfold reconcileCreate. wp_bind. apply wpg_no_status; [by_requests|].
  intros tr1 res Hp1. assert (local_copy req tr1 m) as Hm1 by by eapply local_copy_prefix.
  destruct res as [e|job].
  { destruct (errors_Is _ e); [apply validation_status|apply ManageError_status]; try done. set_solver. }
  wp_step. wp_step; [done|]. set (tr2 := tr1 ++ _).
  assert (local_copy req tr2 m) as Hm2 by (eapply local_copy_prefix; [by eexists|done]). clearbody tr2.
  destruct r0 as [e|sa].
  { destruct (IsNotFound e); [|by cbn]. apply validation_status; [done|set_solver|done]. }
  wp_bind. eapply wpg_mono; [by apply checkSecretAndSFTP_status|]. cbn beta.
  intros tr3 [o|] _ Hp3; [by cbn|]. assert (local_copy req tr3 m) as Hm3 by by eapply local_copy_prefix.
  wp_bind. apply wpg_no_status; [unfold CreateResourceIfNotExists; by ev_go|].
  intros tr4 [e|] Hp4; [apply ManageError_status; [by eapply local_copy_prefix|done]|].
  wp_step. wp_step; [done|]. apply ManageSuccess_status; [|done].
  eapply local_copy_prefix; [|exact Hm3]. prefix_go.
Qed.

Lemma reconcileDeletion_status m tr :
  local_copy req tr m -> wpg G (reconcileDeletion r m) tr (fun _ _ => True).
Proof.
  intros Hm. unfold reconcileDeletion. destruct (has_finalizer m); [|by cbn]. wp_bind.
  apply wpg_no_status; [case_match; [by_requests|done]|].
  intros tr1 [e|] Hp1; [by cbn|]. wp_step. wp_step; [done|].
  destruct r0 as [e|m']; [|by cbn]. apply ManageError_status; [|done].
  eapply local_copy_prefix in Hm as (m0 & Hk & Hs & Hu & Hc); [by exists m0|]. prefix_go.
Qed.

Lemma Reconcile_status : wpg G (Reconcile r req) [] (fun _ _ => True).
Proof.
  unfold Reconcile. wp_step. wp_step; [done|]. destruct r0 as [e|m]; [by destruct (IsNotFound e)|].
  set (tr := _ ++ _). assert (local_copy req tr m) as Hm by (apply local_copy_refl; left; apply saw_last).
  clearbody tr. destruct (has _); [by apply reconcileDeletion_status|].
  destruct (has_finalizer m); cbn [negb]; [|apply wpg_no_status; [unfold addFinalizer; by ev_go|done]].
  destruct (usesOperatorSA r m); [apply validation_status; [done|set_solver|done]|].
  unfold reconcileActive. wp_bind. apply wpg_no_status; [by_requests|].
  intros tr1 res Hp1. assert (local_copy req tr1 m) as Hm1 by by eapply local_copy_prefix.
  destruct res as [e|]; [by apply ManageError_status|]. wp_step. wp_step; [done|].
  assert (local_copy req (tr1 ++ [Ev (Get KJob (jobKey m)) r0]) m) as Hm2
    by (eapply local_copy_prefix; [by eexists|done]).
  destruct r0 as [e|job].
  - destruct (IsNotFound e); cbn [negb]; [by apply reconcileCreate_status|by apply ManageError_status].
  - apply reconcileJob_status; [done|apply saw_last].
Qed.

End safety.

(** C3: status writes are faithful.  Every status [Reconcile] writes, on every
    path and whatever was answered, goes to an instance it read, with the same
    identity, resource version and spec; its condition list has at most one
    condition of each type if the list read had; and [Completed] is true in it
    only if it was true, or the instance's Job was read and is finished, or the
    status reports a failed validation. *)
Theorem status_writes_faithful `{UnicodeTables} r req tr o :
  exec (Reconcile r req) tr o -> guarded (status_writes req) tr.
Proof. intros He. by destruct (wpg_sound _ _ _ _ _ (Reconcile_status r req) He). Qed.

Lemma status_writes_faithful_witness :
  let tr := run_trace mem_handle (@Reconcile ascii_tables demo_reconciler demo_key) demo_start in
  existsb is_status_update tr = true /\ guarded (status_writes demo_key) tr.
Proof.
  intros tr. split; [vm_compute; reflexivity|].
  eapply (@status_writes_faithful ascii_tables), run_exec.
Defined.
