(* ===== verification/ErrorSafety.v ===== *)
(** * No error is lost

    [Reconcile] returns an error, which controller-runtime answers with a retry,
    unless every request succeeded or failed in one of the few ways the source
    tolerates. *)

From S2P Require Import Prelude GoStrings GoErrors GoTime K8sTypes MustGatherV1 Effects KubeEffects.
From S2P Require Import ApiServer MemCluster Conditions OperatorUtils Template MustGatherUtil TrustedCA.
From S2P Require Import Cleanup SftpValidation Reconcile Demo ReconcileSafety.

Section errors.
  Context `{UnicodeTables}.
  Variable r : MustGatherReconciler.

(** The failed reads that are no failure of the reconcile: an object that may
    be absent, an image that is reported as a failed validation, a cluster id
    the directory name does without. *)
Definition tolerated_Get (k : Kind) (key : NamespacedName) (e : goerror) : bool :=
  match k with
  | KMustGather | KJob | KServiceAccount => IsNotFound e
  | KConfigMap => IsNotFound e && (nn_Name key =?s r_TrustedCAConfigMap r)
                  && (nn_Namespace key <>?s r_OperatorNamespace r)
  | KImageStream | KClusterVersion => true
  | _ => false
  end.

Definition value {A} (x : goerror + A) : bool := match x with inl _ => false | inr _ => true end.
Definition no_error_but (tolerated : goerror -> bool) (x : option goerror) : bool :=
  match x with Some err => tolerated err | None => true end.

(** An answer with which the reconcile may still succeed. *)
Definition fine_answer {R} (e : KubeE R) : R -> bool :=
  match e in KubeE R return R -> bool with
  | Get k key => fun x => match x with inl err => tolerated_Get k key err | inr _ => true end
  | ListPods _ _ => value
  | Create KJob _ => no_error_but IsAlreadyExists
  | Create _ _ => no_error_but (fun _ => false)
  | Update _ _ => value
  | StatusUpdate _ => value
  | Delete KPod _ => no_error_but IsNotFound
  | Delete _ _ => no_error_but (fun _ => false)
  | _ => fun _ => true
  end.

Definition fine (ev : event KubeE) : bool := fine_answer (ev_eff ev) (ev_resp ev).
Definition all_fine (tr : trace KubeE) : Prop := forall ev, ev ∈ tr -> fine ev = true.

Lemma all_fine_snoc {R} tr (e : KubeE R) x : all_fine tr -> fine_answer e x = true -> all_fine (tr ++ [Ev e x]).
Proof.
  intros Ht Hx ev [Hev|Hev]%elem_of_app; [by apply Ht|]. by apply list_elem_of_singleton in Hev as ->.
Qed.

(** The triple of this file: from a fine history, [p] either fails as [failed]
    says, or its history is fine. *)
Definition fails_or_fine {A} (failed : A -> Prop) (p : kprog A) : Prop :=
  forall tr, all_fine tr -> wpg no_guard p tr (fun tr' a => failed a \/ all_fine tr').

Lemma fof_Ret {A} (failed : A -> Prop) a : fails_or_fine failed (Ret a).
Proof. intros tr Ht. by right. Qed.

Lemma fof_failed {A} (failed : A -> Prop) (p : kprog A) :
  (forall tr, wpg no_guard p tr (fun _ a => failed a)) -> fails_or_fine failed p.
Proof. intros Hp tr _. eapply wpg_mono; [apply Hp|]. by left. Qed.

Lemma fof_bind {A B} (failed : A -> Prop) (failed' : B -> Prop) p (f : A -> kprog B) :
  fails_or_fine failed p ->
  (forall a tr, failed a -> wpg no_guard (f a) tr (fun _ b => failed' b)) ->
  (forall a, fails_or_fine failed' (f a)) ->
  fails_or_fine failed' (prog_bind p f).
Proof.
  intros Hp Hff Hf tr Ht. wp_bind. eapply wpg_mono; [by apply Hp|]. intros tr' a _ [Ha|Ha].
  - eapply wpg_mono; [by apply Hff|]. by left.
  - by apply Hf.
Qed.

(** A request: bad answers must make the rest fail. *)
Lemma fof_call {R B} (failed : B -> Prop) (e : KubeE R) (f : R -> kprog B) :
  (forall x, fine_answer e x = true -> fails_or_fine failed (f x)) ->
  (forall x tr, fine_answer e x = false -> wpg no_guard (f x) tr (fun _ b => failed b)) ->
  fails_or_fine failed (prog_bind (call e) f).
Proof.
  intros Hf Hb tr Ht. wp_bind. split; [done|]. intros x. cbn [wpg].
  destruct (fine_answer e x) eqn:Hx.
  - apply Hf; [done|]. by apply all_fine_snoc.
  - eapply wpg_mono; [apply (Hb x _ Hx)|]. by left.
Qed.

Definition err_some (e : option goerror) : Prop := is_Some e.
Definition out_failed (o : Outcome) : Prop := is_Some o.2.

(** ** The operations *)

Lemma ManageError_fails m e tr : wpg no_guard (ManageError m e) tr (fun _ o => out_failed o).
Proof. unfold ManageError, ManageErrorWithRequeue. wp_go; by eexists. Qed.

Lemma ManageError_fof m e : fails_or_fine out_failed (ManageError m e).
Proof. apply fof_failed. intros. apply ManageError_fails. Qed.

Lemma ManageSuccess_fof m : fails_or_fine out_failed (ManageSuccess m).
Proof.
  unfold ManageSuccess, ManageSuccessWithRequeue. apply fof_call; [|done]. intros now _.
  apply fof_call.
  - intros [e|m'] Hx; [done|apply fof_Ret].
  - intros [e|m'] tr Hx; [by eexists|done].
Qed.

Lemma validation_fof m t e : fails_or_fine out_failed (setValidationFailureStatus m t e).
Proof.
  unfold setValidationFailureStatus. apply fof_call; [|done]. intros now _.
  apply (fof_bind (fun _ => False)); [|done|].
  { destruct (takes_clock _ _); [|apply fof_Ret]. intros tr Ht. split; [done|]. intros x. right.
    by apply all_fine_snoc. }
  intros now'. apply fof_call; [|done]. intros [] _. apply fof_call.
  - intros [err|m'] Hx; [done|apply fof_Ret].
  - intros [err|m'] tr Hx; [apply ManageError_fails|done].
Qed.

Lemma delete_fof {k} (o : objOf k) : k = KPod -> fails_or_fine err_some (DeleteResourceIfExists o).
Proof.
  intros ->. unfold DeleteResourceIfExists. apply fof_call; intros [e|]; try (intros; apply fof_Ret).
  - cbn. intros tr He. destruct (IsNotFound e); [done|by eexists].
  - intros tr He. done.
Qed.

Lemma for_each_fof {A} (f : A -> kprog (option goerror)) l :
  (forall a, fails_or_fine err_some (f a)) -> fails_or_fine err_some (for_each f l).
Proof.
  intros Hf. induction l as [|a l IH]; cbn [for_each]; [apply fof_Ret|].
  apply (fof_bind err_some); [done| |].
  - intros [e|] tr He; [done|by destruct He].
  - intros [e|]; [apply fof_Ret|done].
Qed.

Lemma cleanupCA_fof m : r_TrustedCAConfigMap r <> "" -> fails_or_fine err_some (cleanupTrustedCAConfigMap r m).
Proof.
  intros Hca. unfold cleanupTrustedCAConfigMap.
  destruct (str_eqb_spec (mg_Namespace m) (r_OperatorNamespace r)) as [|Hns]; [apply fof_Ret|].
  apply fof_call.
  - intros [e|cm] Hx; [destruct (IsNotFound e); apply fof_Ret|].
    destruct (remove_owner _ _); apply fof_call; intros x; try (intros; apply fof_Ret);
      intros tr Hbad; destruct x; cbn in *; try done; by eexists.
  - intros [e|cm] tr Hx; [|done]. cbn in Hx. apply str_eqb_neq in Hns. rewrite str_eqb_refl, Hns in Hx.
    destruct (IsNotFound e); [done|by eexists].
Qed.

Lemma cleanup_fof m : fails_or_fine err_some (cleanupMustGatherResources r m).
Proof.
  unfold cleanupMustGatherResources. apply fof_call.
  2: { intros [e|job] tr Hx; [|done]. cbn in Hx. destruct (IsNotFound e); [done|by eexists]. }
  intros [e|job] Hx; [destruct (IsNotFound e); apply fof_Ret|].
  destruct (owned_by _ _); cbn [negb]; [|apply fof_Ret]. apply fof_call.
  2: { intros [e|pods] tr Hp; [by eexists|done]. }
  intros [e|pods] Hp; [apply fof_Ret|]. apply (fof_bind err_some).
  - apply for_each_fof. intros. by apply delete_fof.
  - intros [e|] tr He; [by eexists|by destruct He].
  - intros [e|]; [apply fof_Ret|]. apply fof_call.
    + intros [e|] Hd; [done|]. str_case (r_TrustedCAConfigMap r) ""; cbn [negb]; [apply fof_Ret|by apply cleanupCA_fof].
    + intros [e|] tr Hd; [by eexists|done].
Qed.

Lemma handleJobCompletion_fof m s t : fails_or_fine out_failed (handleJobCompletion r m s t).
Proof.
  unfold handleJobCompletion. apply fof_call.
  2: { intros [e|m'] tr Hx; [apply ManageError_fails|done]. }
  intros [e|m'] Hx; [done|]. destruct (cleanup_wanted m'); [|apply fof_Ret].
  apply (fof_bind err_some); [apply cleanup_fof| |].
  - intros [e|] tr He; [apply ManageError_fails|by destruct He].
  - intros [e|]; [apply ManageError_fof|apply fof_Ret].
Qed.

Lemma reconcileJob_fof m job : fails_or_fine out_failed (reconcileJob r m job).
Proof.
  unfold reconcileJob, updateStatus. repeat case_match;
    try apply ManageSuccess_fof; try apply handleJobCompletion_fof.
  apply fof_call; [|done]. intros. apply handleJobCompletion_fof.
Qed.

Lemma reconcileDeletion_fof m : fails_or_fine out_failed (reconcileDeletion r m).
Proof.
  unfold reconcileDeletion. destruct (has_finalizer m); [|apply fof_Ret].
  apply (fof_bind err_some); [case_match; [apply cleanup_fof|apply fof_Ret]| |].
  - intros [e|] tr He; [by eexists|by destruct He].
  - intros [e|]; [apply fof_Ret|]. apply fof_call.
    + intros [e|m'] Hx; [done|apply fof_Ret].
    + intros [e|m'] tr Hx; [apply ManageError_fails|done].
Qed.

Lemma ensureCA_fof m : r_TrustedCAConfigMap r <> "" -> fails_or_fine err_some (ensureTrustedCAConfigMap r m).
Proof.
  intros Hca. unfold ensureTrustedCAConfigMap.
  destruct (str_eqb_spec (mg_Namespace m) (r_OperatorNamespace r)) as [|Hns]; [apply fof_Ret|].
  apply fof_call; [|intros [e|cm] tr Hx; [by eexists|done]]. intros [e|src] _; [apply fof_Ret|].
  apply fof_call.
  - intros [e|cm] Hx.
    + destruct (IsNotFound e); cbn [negb]; [|apply fof_Ret]. apply fof_call.
      * intros [e'|] Hd; [done|apply fof_Ret].
      * intros [e'|] tr Hd; [by eexists|done].
    + destruct (owned_by _ _); [apply fof_Ret|]. apply fof_call.
      * intros [e'|] Hd; [done|apply fof_Ret].
      * intros [e'|] tr Hd; [by eexists|done].
  - intros [e|cm] tr Hx; [|done]. cbn in Hx. apply str_eqb_neq in Hns. rewrite str_eqb_refl, Hns in Hx.
    destruct (IsNotFound e); [done|by eexists].
Qed.

Lemma prepare_fof m : fails_or_fine err_some (prepare r m).
Proof.
  unfold prepare. apply (fof_bind err_some).
  - str_case (r_TrustedCAConfigMap r) ""; cbn [negb]; [apply fof_Ret|by apply ensureCA_fof].
  - intros [e|] tr He; [by eexists|by destruct He].
  - intros [e|]; [apply fof_Ret|]. case_match; [|apply fof_Ret]. intros tr Ht. wp_step. split; [done|].
    intros [e|cm]; cbn; [left; by eexists|]. right. by apply all_fine_snoc.
Qed.

Lemma fof_fine {A} (p : kprog A) (failed : A -> Prop) :
  everywhere (fun R e => forall x : R, fine_answer e x = true) p -> fails_or_fine failed p.
Proof.
  intros Hp tr Ht. revert tr Ht. induction p as [a|R e k IH]; intros tr Ht; [by right|].
  destruct Hp as [He Hk]. split; [done|]. intros x. apply IH; [apply Hk|]. by apply all_fine_snoc.
Qed.

Lemma getJobFromInstance_fof m : fails_or_fine (fun _ => False) (getJobFromInstance r m).
Proof.
  apply fof_fine. assert (forall l, everywhere (fun R e => forall x : R, fine_answer e x = true) (readProxyVars l)).
  { induction l; cbn; [done|]. split; [done|]. intros. by ev_go. }
  unfold getJobFromInstance, getMustGatherImage, GenerateMustGatherDirectoryName, getClusterIDSuffix,
    generateRandomSuffix, getJobTemplate, ReadProxyVarsFromEnv.
  ev_go; try done; by intros [].
Qed.

Lemma early_fof (p : kprog Outcome) :
  fails_or_fine out_failed p ->
  fails_or_fine (fun o => exists o', o = Some o' /\ out_failed o') (let* o := p in Ret (Some o)).
Proof.
  intros Hp. apply (fof_bind out_failed); [done| |intros; apply fof_Ret].
  intros o tr Ho. cbn. eauto.
Qed.

Lemma checkSecretAndSFTP_fof m :
  fails_or_fine (fun o => exists o', o = Some o' /\ out_failed o') (checkSecretAndSFTP m).
Proof.
  unfold checkSecretAndSFTP. destruct (sftp_of m) as [sftp|]; [|apply fof_Ret]. apply fof_call.
  2: { intros [e|sec] tr Hx; [|done]. destruct (IsNotFound e).
       - wp_bind. eapply wpg_mono; [apply ManageError_fails|]. cbn. eauto.
       - cbn. eexists. split; [done|by eexists]. }
  intros [e|sec] Hx; [done|]. repeat (case_match; [apply early_fof, validation_fof|]).
  apply (fof_bind (fun _ => False)); [|done|].
  - apply fof_fine. unfold validateSFTPWithRetry. generalize MaxSFTPValidationRetries as n.
    generalize (errorString "%!w(<nil>)") as e.
    intros e n. revert e. induction n; intros e; cbn; [done|]. split; [done|]. intros [?|]; cbn; [|done].
    by destruct (negb _).
  - intros [e|]; [apply early_fof, validation_fof|apply fof_Ret].
Qed.

Lemma reconcileCreate_fof m : fails_or_fine out_failed (reconcileCreate r m).
Proof.
  unfold reconcileCreate. apply (fof_bind (fun _ => False)); [apply getJobFromInstance_fof|done|].
  intros [e|job]; [destruct (errors_Is _ e); [apply validation_fof|apply ManageError_fof]|].
  apply fof_call.
  2: { intros [e|sa] tr Hx; [|done]. cbn in Hx. rewrite Hx. by eexists. }
  intros [e|sa] Hx; [destruct (IsNotFound e); [apply validation_fof|apply fof_Ret]|].
  eapply fof_bind; [apply checkSecretAndSFTP_fof| |].
  - intros o tr (o' & -> & Ho). done.
  - intros [o|]; [apply fof_Ret|]. apply (fof_bind err_some).
    + unfold CreateResourceIfNotExists. apply fof_call; [intros; apply fof_Ret|].
      intros [e|] tr He; [|done]. cbn in *. rewrite He. by eexists.
    + intros [e|] tr He; [apply ManageError_fails|by destruct He].
    + intros [e|]; [apply ManageError_fof|]. apply fof_call; [|done]. intros. apply ManageSuccess_fof.
Qed.

Lemma Reconcile_fof req : fails_or_fine out_failed (Reconcile r req).
Proof.
  unfold Reconcile. apply fof_call.
  2: { intros [e|m] tr Hx; [|done]. cbn in Hx. rewrite Hx. by eexists. }
  intros [e|m] Hx; [destruct (IsNotFound e); apply fof_Ret|].
  destruct (has _); [apply reconcileDeletion_fof|]. destruct (has_finalizer m); cbn [negb].
  - destruct (usesOperatorSA r m); [apply validation_fof|].
    unfold reconcileActive. apply (fof_bind err_some); [apply prepare_fof| |].
    + intros [e|] tr He; [apply ManageError_fails|by destruct He].
    + intros [e|]; [apply ManageError_fof|]. apply fof_call.
      * intros [e|job] Hj; [|apply reconcileJob_fof].
        destruct (IsNotFound e); cbn [negb]; [apply reconcileCreate_fof|apply ManageError_fof].
      * intros [e|job] tr Hj; [|done]. cbn in Hj. rewrite Hj. apply ManageError_fails.
  - apply (fof_bind err_some).
    + unfold addFinalizer. apply fof_call; [intros; apply fof_Ret|].
      intros [e|m'] tr He; [by eexists|done].
    + done.
    + intros [e|]; apply fof_Ret.
Qed.

End errors.

(** C4: no error is lost.  If [Reconcile] returns a nil error, whatever the
    environment did, every request it made was answered with success, or with
    one of the failures the source tolerates: NotFound for the instance, its
    Job, its service account (reported as a failed validation), a pod being
    deleted or the CA copy; AlreadyExists for the Job; an unreadable image
    stream (reported as a failed validation) or cluster version; an
    unreachable SFTP server.  Any other failure comes back as an error. *)
Theorem no_error_lost `{UnicodeTables} r req tr res :
  exec (Reconcile r req) tr (res, None) -> forall ev, ev ∈ tr -> fine r ev = true.
Proof.
  intros He. assert (all_fine r []) as Hnil by (intros ev Hev; by apply elem_of_nil in Hev).
  destruct (wpg_sound _ _ _ _ _ (Reconcile_fof r req [] Hnil) He) as [_ [[e Hf]|Hf]]; [done|exact Hf].
Qed.

Lemma no_error_lost_witness :
  let tr := run_trace mem_handle (@Reconcile ascii_tables demo_reconciler demo_key) demo_start in
  (0 < length tr)%nat /\ forall ev, ev ∈ tr -> fine demo_reconciler ev = true.
Proof.
  intros tr. split; [vm_compute; lia|].
  apply (@no_error_lost ascii_tables demo_reconciler demo_key tr emptyResult).
  pose proof (run_exec mem_handle (@Reconcile ascii_tables demo_reconciler demo_key) demo_start) as He.
  replace (emptyResult, None) with
    (run mem_handle (@Reconcile ascii_tables demo_reconciler demo_key) demo_start).1; [exact He|].
  vm_compute. reflexivity.
Defined.
