(* ===== verification/SftpNonInterference.v ===== *)
(** * What an SFTP server can tell a user

    The host of an SFTP upload is chosen by whoever writes the custom resource,
    so the trial connection must not become a probe of the network: the status,
    the events and every other request of the operator may depend on whether
    the validation succeeded and on nothing else of how it went. *)

From S2P Require Import Prelude GoStrings GoErrors GoTime K8sTypes MustGatherV1 Effects KubeEffects.
From S2P Require Import ApiServer MemCluster Conditions OperatorUtils Template MustGatherUtil TrustedCA.
From S2P Require Import Cleanup SftpValidation Reconcile Requests Demo.

(** ** Answering the dials *)

(** Whether a request is a dial, and if so how its answer is read. *)
Definition is_dial {R} (e : KubeE R) : option (option goerror -> R) :=
  match e in KubeE R return option (option goerror -> R) with
  | SftpDial _ _ _ => Some (fun x => x)
  | _ => None
  end.

(** The program with its dials answered by [d n], [d (n+1)], ...: what the
    cluster sees of it. *)
Fixpoint resolve {A} (d : nat -> option goerror) (n : nat) (p : kprog A) : kprog A :=
  match p with
  | Ret a => Ret a
  | Vis e k =>
      match is_dial e with
      | Some f => resolve d (S n) (k (f (d n)))
      | None => Vis e (fun x => resolve d n (k x))
      end
  end.

(** The verdict of the validation on a stream of dial answers. *)
Fixpoint verdict_from (attempts : nat) (d : nat -> option goerror) (n : nat) : bool :=
  match attempts with
  | O => false
  | S attempts =>
      match d n with
      | None => true
      | Some e => IsTransientError e && verdict_from attempts d (S n)
      end
  end.

Definition sftp_verdict (d : nat -> option goerror) : bool := verdict_from MaxSFTPValidationRetries d 0.

Definition not_dial (R : Type) (e : KubeE R) : Prop := is_dial e = None.

Definition is_success (res : option goerror) : bool := match res with None => true | Some _ => false end.

(** ** Programs without dials *)

Lemma resolve_bind_free {A B} d n (p : kprog A) (f : A -> kprog B) :
  everywhere not_dial p -> peq (resolve d n (prog_bind p f)) (prog_bind p (fun a => resolve d n (f a))).
Proof.
  intros Hp. induction p as [a|R e k IH]; [apply peq_refl|]. destruct Hp as [He Hk].
  cbn. unfold not_dial in He. rewrite He. constructor. intros x. apply IH, Hk.
Qed.

Lemma resolve_free {A} d n (p : kprog A) : everywhere not_dial p -> peq (resolve d n p) p.
Proof.
  intros Hp. induction p as [a|R e k IH]; [apply peq_refl|]. destruct Hp as [He Hk].
  cbn. unfold not_dial in He. rewrite He. constructor. intros x. apply IH, Hk.
Qed.

(** ** Insensitivity *)

Section insensitive.
  Variables d1 d2 : nat -> option goerror.

Definition insensitive {A} (p : kprog A) : Prop := peq (resolve d1 0 p) (resolve d2 0 p).

Lemma insensitive_free {A} (p : kprog A) : everywhere not_dial p -> insensitive p.
Proof. intros Hp. unfold insensitive. by rewrite !resolve_free. Qed.

Lemma insensitive_bind {A B} (p : kprog A) (f : A -> kprog B) :
  everywhere not_dial p -> (forall a, insensitive (f a)) -> insensitive (prog_bind p f).
Proof.
  intros Hp Hf. unfold insensitive. rewrite !resolve_bind_free by done. apply peq_bind; [done|exact Hf].
Qed.

(** The retry loop ends with some result, and its verdict is [verdict_from]. *)
Lemma resolve_retry {A B} d (g1 : option goerror -> kprog A) (g2 : A -> kprog B) u p h a n e :
  exists res n',
    resolve d n (prog_bind (prog_bind (retry_loop a u p h e) g1) g2) = resolve d n' (prog_bind (g1 res) g2) /\
    is_success res = verdict_from a d n.
Proof.
  revert n e. induction a as [|a IH]; intros n e; cbn; [by exists (Some (retriesExhausted e)), n|].
  destruct (d n) as [e'|]; cbn; [|by exists None, (S n)].
  destruct (IsTransientError e'); cbn; [apply IH|by exists (Some e'), (S n)].
Qed.

(** After the validation only its verdict counts. *)
Lemma insensitive_validate {A B} (g1 : option goerror -> kprog A) (g2 : A -> kprog B) u p h :
  sftp_verdict d1 = sftp_verdict d2 ->
  (forall e1 e2, g1 (Some e1) = g1 (Some e2)) ->
  (forall res, everywhere not_dial (prog_bind (g1 res) g2)) ->
  insensitive (prog_bind (prog_bind (validateSFTPWithRetry u p h) g1) g2).
Proof.
  intros Hv Hg Hf. unfold insensitive, validateSFTPWithRetry.
  destruct (resolve_retry d1 g1 g2 u p h MaxSFTPValidationRetries 0 (errorString "%!w(<nil>)"))
    as (res1 & n1 & -> & Hr1).
  destruct (resolve_retry d2 g1 g2 u p h MaxSFTPValidationRetries 0 (errorString "%!w(<nil>)"))
    as (res2 & n2 & -> & Hr2).
  rewrite !resolve_free by done. change (is_success res1 = sftp_verdict d1) in Hr1.
  change (is_success res2 = sftp_verdict d2) in Hr2.
  rewrite Hv, <-Hr2 in Hr1. destruct res1 as [e1|], res2 as [e2|]; try done. by rewrite (Hg e1 e2).
Qed.
End insensitive.

(** ** The reconciler *)

Section reconcile.
  Context `{UnicodeTables}.
  Variable r : MustGatherReconciler.

Section streams.
  Variables d1 d2 : nat -> option goerror.
  Hypothesis same_verdict : sftp_verdict d1 = sftp_verdict d2.

Lemma checkSecret_insensitive m (f : option Outcome -> kprog Outcome) :
  (forall o, everywhere not_dial (f o)) ->
  insensitive d1 d2 (prog_bind (checkSecretAndSFTP m) f).
Proof using Type*.
  intros Hf. unfold checkSecretAndSFTP. destruct (sftp_of m) as [sftp|]; [|apply insensitive_free, (Hf None)].
  unfold insensitive. cbn [prog_bind call resolve is_dial]. constructor. intros [e|sec].
  { apply insensitive_free. ev_go; eauto with mgo. }
  set (u := default "" _). set (p := default "" _).
  destruct (u =?s ""); [apply insensitive_free; ev_go; eauto with mgo|].
  destruct (p =?s ""); [apply insensitive_free; ev_go; eauto with mgo|].
  apply insensitive_validate; [done|done|]. intros [e|]; ev_go; eauto with mgo.
Qed.

Lemma reconcileCreate_insensitive m : insensitive d1 d2 (reconcileCreate r m).
Proof using Type*.
  unfold reconcileCreate. apply insensitive_bind; [eauto with mgo|]. intros [e|job].
  { apply insensitive_free. by ev_go. }
  unfold insensitive. cbn [prog_bind call resolve is_dial]. constructor. intros [e|sa].
  { apply insensitive_free. by ev_go. }
  apply checkSecret_insensitive. intros o. unfold CreateResourceIfNotExists. by ev_go.
Qed.

Lemma Reconcile_insensitive req : insensitive d1 d2 (Reconcile r req).
Proof using Type*.
  unfold Reconcile. unfold insensitive. cbn [prog_bind call resolve is_dial]. constructor. intros [e|m].
  { apply insensitive_free. by ev_go. }
  destruct (has _); [apply insensitive_free; by ev_go|].
  destruct (has_finalizer m); cbn [negb]; [|apply insensitive_free; unfold addFinalizer; by ev_go].
  destruct (usesOperatorSA r m); [apply insensitive_free; by ev_go|].
  unfold reconcileActive. apply insensitive_bind; [eauto with mgo|]. intros [e|]; [apply insensitive_free; by ev_go|].
  unfold insensitive. cbn [prog_bind call resolve is_dial]. constructor. intros [e|job].
  - destruct (IsNotFound e); cbn [negb]; [apply reconcileCreate_insensitive|apply insensitive_free; by ev_go].
  - apply insensitive_free. by ev_go.
Qed.
End streams.
End reconcile.

(** C5: the SFTP validation is no reachability oracle.  Take two streams of
    answers of the dialled host (refused, unreachable, timed out, rejected, ...)
    on which the validation has the same verdict.  The two reconciles then make
    the same requests with the same contents (the status, the events, the
    reasons, everything) and return the same outcome against every cluster. *)
Theorem sftp_errors_do_not_leak `{UnicodeTables} r req d1 d2 :
  sftp_verdict d1 = sftp_verdict d2 ->
  peq (resolve d1 0 (Reconcile r req)) (resolve d2 0 (Reconcile r req)).
Proof. intros Hv. by apply Reconcile_insensitive. Qed.

(** A refused connection and a timeout after two retries. *)
Lemma sftp_errors_do_not_leak_witness :
  let refused := fun _ : nat => Some (netError "connection refused" false []) in
  let timeout := fun _ : nat => Some DeadlineExceeded in
  let p := @Reconcile ascii_tables demo_reconciler demo_key in
  existsb is_status_update (run_trace mem_handle (resolve refused 0 p) demo_start) = true /\
  peq (resolve refused 0 p) (resolve timeout 0 p).
Proof.
  intros refused timeout p. split; [vm_compute; reflexivity|].
  apply (@sftp_errors_do_not_leak ascii_tables demo_reconciler demo_key refused timeout).
  reflexivity.
Defined.

(** ** The retry loop *)

(** How a list of dial answers ends the loop. *)
Definition loop_result (limit : nat) (answers : list (option goerror)) (res : option goerror) : Prop :=
  exists before last,
    answers = before ++ [last] /\
    Forall (fun x => exists e, x = Some e /\ IsTransientError e = true) before /\
    match last with
    | None => res = None
    | Some e =>
        if IsTransientError e then length answers = limit /\ res = Some (retriesExhausted e)
        else res = Some e
    end.

Lemma retry_loop_result u p h a e tr res :
  exec (retry_loop a u p h e) tr res ->
  exists answers, tr = map (fun x => Ev (SftpDial u p h) x) answers /\ (length answers <= a)%nat /\
    ((a = 0%nat /\ answers = [] /\ res = Some (retriesExhausted e)) \/ loop_result a answers res).
Proof.
  revert e tr. induction a as [|a IH]; intros e tr He; apply exec_inv in He.
  { destruct He as [-> ->]. exists []. split_and!; auto. }
  destruct He as (x & tr' & -> & He). cbn [prog_bind] in He. destruct x as [e'|].
  2: { apply exec_inv in He as [-> ->]. exists [None]. split_and!; [done|cbn; lia|].
       right. by exists [], None. }
  destruct (IsTransientError e') eqn:Ht; cbn [negb] in He.
  2: { apply exec_inv in He as [-> ->]. exists [Some e']. split_and!; [done|cbn; lia|].
       right. exists [], (Some e'). by rewrite Ht. }
  apply IH in He as (answers & -> & Hl & [(-> & -> & ->)|(before & last & -> & Hb & Hlast)]).
  - exists [Some e']. split_and!; [done|done|]. right. exists [], (Some e'). by rewrite Ht.
  - exists (Some e' :: before ++ [last]). split_and!; [done|cbn; lia|]. right.
    exists (Some e' :: before), last. split_and!; [done|constructor; eauto|].
    destruct last as [el|]; [|done]. destruct (IsTransientError el); [|done].
    destruct Hlast as [<- ->]. done.
Qed.

(** C6: the retry loop is bounded and stops at once.  [validateSFTPWithRetry]
    dials at least once and at most three times, always the same host with the
    same credentials; it goes on only after a transient error; success ends it
    with nil, any other error ends it with that error, and three transient
    errors end it with the last of them, wrapped. *)
Theorem validateSFTPWithRetry_spec u p h tr res :
  exec (validateSFTPWithRetry u p h) tr res ->
  exists answers, tr = map (fun x => Ev (SftpDial u p h) x) answers /\
    (1 <= length answers <= MaxSFTPValidationRetries)%nat /\
    loop_result MaxSFTPValidationRetries answers res.
Proof.
  intros He. apply retry_loop_result in He as (answers & -> & Hl & [(? & _)|Hr]); [done|]. exists answers.
  split_and!; try done. destruct Hr as (b & l & -> & _). rewrite length_app. cbn. lia.
Qed.

Lemma validateSFTPWithRetry_spec_witness :
  exists answers,
    run_trace mem_handle (validateSFTPWithRetry "u" "p" "h") demo_start
    = map (fun x => Ev (SftpDial "u" "p" "h") x) answers /\
    (1 <= length answers <= 3)%nat /\ loop_result 3 answers None.
Proof.
  apply (validateSFTPWithRetry_spec "u" "p" "h").
  exact (run_exec mem_handle (validateSFTPWithRetry "u" "p" "h") demo_start).
Defined.
