(* ===== verification/TrustedCARefinement.v ===== *)
(** * The trusted CA copy is a reference count

    Abstract specification: a namespace holds a set of UIDs, those of the
    instances that use the CA bundle.  [ensureTrustedCAConfigMap] adds a UID and
    [cleanupTrustedCAConfigMap] removes one.  The ConfigMap implements the set:
    it exists exactly while the set is not empty.  The refinement is proved
    against the interface [ApiServer]. *)

From S2P Require Import Prelude GoStrings GoErrors GoTime K8sTypes MustGatherV1 Effects KubeEffects.
From S2P Require Import ApiServer MemCluster OperatorUtils TrustedCA Cleanup SftpValidation Reconcile.
From S2P Require Import Demo CleanupSafety.

(** ** The specification *)

Inductive ca_op := Ensure (m : MustGather) | Release (m : MustGather).

Definition op_instance (op : ca_op) : MustGather := match op with Ensure m | Release m => m end.

Definition ca_spec (users : gset string) (op : ca_op) : gset string :=
  match op with
  | Ensure m => users ∪ {[mg_UID m]}
  | Release m => users ∖ {[mg_UID m]}
  end.

(** ** The implementation *)

Definition run_ca_op (r : MustGatherReconciler) (op : ca_op) : kprog (option goerror) :=
  match op with
  | Ensure m => ensureTrustedCAConfigMap r m
  | Release m => cleanupTrustedCAConfigMap r m
  end.

(** The operations in order; the errors of all of them. *)
Fixpoint run_ca_ops (r : MustGatherReconciler) (ops : list ca_op) : kprog (list (option goerror)) :=
  match ops with
  | [] => Ret []
  | op :: ops =>
      let* err := run_ca_op r op in
      let* errs := run_ca_ops r ops in
      Ret (err :: errs)
  end.

Section refinement.
  Context {S : Type} `{ApiServer S}.
  Variables (r : MustGatherReconciler) (ns : string).
  Hypothesis other_namespace : ns <> r_OperatorNamespace r.

Definition copy_key : NamespacedName := mkKey ns (r_TrustedCAConfigMap r).
Definition source_key : NamespacedName := mkKey (r_OperatorNamespace r) (r_TrustedCAConfigMap r).
Definition the_copy (s : S) : option ConfigMap := api_lookup s KConfigMap copy_key.

(** The abstraction: the owners of the copy, none when there is no copy. *)
Definition users (s : S) : gset string :=
  match the_copy s with Some cm => owner_uids (cm_owners cm) | None => ∅ end.

(** The invariant: the operator's bundle exists; a copy is not being deleted,
    no finalizer holds it, and somebody owns it. *)
Definition ca_inv (s : S) : Prop :=
  is_Some (api_lookup s KConfigMap source_key) /\
  forall cm, the_copy s = Some cm ->
    om_DeletionTimestamp (cm_ObjectMeta cm) = None /\ om_Finalizers (cm_ObjectMeta cm) = [] /\
    owner_uids (cm_owners cm) <> ∅.

(** What a step from [s] to [s'] has to do. *)
Definition simulates (s s' : S) (users' : gset string) : Prop :=
  users s' = users' /\ ca_inv s' /\ only_changes api_lookup s s' KConfigMap copy_key.

Lemma source_not_copy : (KConfigMap, source_key) <> (KConfigMap, copy_key).
Proof using other_namespace. unfold source_key, copy_key. congruence. Qed.

(** A write of the copy, by what is found at its key afterwards. *)
Lemma simulates_write s s' users' :
  ca_inv s -> only_changes api_lookup s s' KConfigMap copy_key ->
  users s' = users' ->
  (forall cm, the_copy s' = Some cm ->
    om_DeletionTimestamp (cm_ObjectMeta cm) = None /\ om_Finalizers (cm_ObjectMeta cm) = []) ->
  (is_Some (the_copy s') -> users' <> ∅) ->
  simulates s s' users'.
Proof using other_namespace.
  intros [Hsrc _] Ho Hu Hm Hne. split; [done|]. split; [|done]. split.
  - by rewrite (Ho KConfigMap source_key source_not_copy).
  - intros cm Hcm. destruct (Hm cm Hcm) as [? ?]. split_and!; [done..|].
    rewrite <-Hu in Hne. unfold users in Hne. rewrite Hcm in Hne. by apply Hne.
Qed.

Lemma simulates_refl s : ca_inv s -> simulates s s (users s).
Proof. intros Hi. split_and!; [done|done|]. by intros ???. Qed.

Lemma copy_key_of cm s : the_copy s = Some cm -> @ObjectKeyFromObject KConfigMap cm = copy_key.
Proof. apply (api_lookup_key s KConfigMap). Qed.

(** The server's version of an updated copy. *)
Lemma stored_copy cm cm' : @stored KConfigMap cm cm' ->
  om_Finalizers (cm_ObjectMeta cm') = om_Finalizers (cm_ObjectMeta cm) /\
  cm_owners cm' = cm_owners cm.
Proof. intros [Hc _]. unfold client_meta in Hc. cbn in Hc. injection Hc as ? ? ? ? ?. done. Qed.

(** Updating the owners of the copy. *)
Lemma update_owners s cm refs :
  ca_inv s -> the_copy s = Some cm -> owner_uids refs <> ∅ ->
  exists s' cm', api_handle _ (Update KConfigMap (cm_with_OwnerReferences cm refs)) s = (inr cm', s') /\
    simulates s s' (owner_uids refs).
Proof using other_namespace.
  intros Hi Hcm Hne. destruct Hi as [Hsrc Hp]. destruct (Hp cm Hcm) as (Hdel & Hfin & _).
  assert (@ObjectKeyFromObject KConfigMap (cm_with_OwnerReferences cm refs) = copy_key) as Hk
    by exact (copy_key_of cm s Hcm).
  destruct (api_Update_current s KConfigMap (cm_with_OwnerReferences cm refs) cm)
    as (s' & cm' & Hrun & Hst & _ & Hdel' & Hl & Ho); [by rewrite Hk|done..|].
  rewrite Hk in Hl, Ho. exists s', cm'. split; [done|]. apply stored_copy in Hst as [Hf Hrefs].
  unfold finalized in Hl. cbn in Hl, Hdel'. rewrite Hdel in Hl, Hdel'.
  apply simulates_write; [done|done| | |done].
  - unfold users, the_copy. by rewrite Hl, Hrefs.
  - intros cm0 Hcm0. unfold the_copy in Hcm0. rewrite Hl in Hcm0. simplify_eq. by rewrite Hf.
Qed.

(** The first owner creates the copy. *)
Lemma create_copy s m src :
  ca_inv s -> the_copy s = None -> mg_Namespace m = ns ->
  exists s', api_handle _ (Create KConfigMap (newTrustedCAConfigMap (r_TrustedCAConfigMap r) m src)) s = (None, s') /\
    simulates s s' {[mg_UID m]}.
Proof using other_namespace.
  intros Hi Hcm Hns. set (new := newTrustedCAConfigMap (r_TrustedCAConfigMap r) m src).
  assert (@ObjectKeyFromObject KConfigMap new = copy_key) as Hk by (unfold copy_key; by rewrite <-Hns).
  destruct (api_Create_new s KConfigMap new) as (s' & cm' & Hrun & Hst & Hdel & Hl & Ho); [by rewrite Hk|].
  rewrite Hk in Hl, Ho. exists s'. split; [done|]. apply stored_copy in Hst as [Hf Hrefs].
  apply simulates_write; [done|done| | |set_solver].
  - unfold users, the_copy. rewrite Hl, Hrefs. apply instanceOwnerRef_uid.
  - intros cm Hcm'. unfold the_copy in Hcm'. rewrite Hl in Hcm'. simplify_eq. by rewrite Hf.
Qed.

(** The last owner deletes it. *)
Lemma delete_copy s cm :
  ca_inv s -> the_copy s = Some cm ->
  exists s', api_handle _ (Delete KConfigMap cm) s = (None, s') /\ simulates s s' ∅.
Proof using other_namespace.
  intros Hi Hcm. destruct (proj2 Hi cm Hcm) as (_ & Hfin & _). pose proof (copy_key_of cm s Hcm) as Hk.
  destruct (api_Delete_existing s KConfigMap cm cm) as (s' & Hrun & Hl & Ho); [by rewrite Hk|done|].
  rewrite Hk in Hl, Ho. exists s'. split; [done|].
  apply simulates_write; [done|done| | |]; unfold users, the_copy; by rewrite Hl.
Qed.

Lemma users_copy s cm : the_copy s = Some cm -> users s = owner_uids (cm_owners cm).
Proof. intros Hcm. unfold users. by rewrite Hcm. Qed.

Lemma ensure_refines m s :
  mg_Namespace m = ns -> ca_inv s ->
  exists s', run api_handle (ensureTrustedCAConfigMap r m) s = (None, s') /\
    simulates s s' (users s ∪ {[mg_UID m]}).
Proof using other_namespace.
  intros Hns Hi. unfold ensureTrustedCAConfigMap. rewrite Hns, (proj2 (str_eqb_neq _ _) other_namespace).
  destruct (proj1 Hi) as [src Hsrc].
  erewrite run_call by exact (api_Get_found s KConfigMap source_key src Hsrc). cbn beta iota.
  destruct (the_copy s) as [cm|] eqn:Hcm.
  - erewrite run_call by exact (api_Get_found s KConfigMap copy_key cm Hcm). cbn beta iota. rewrite (users_copy s cm Hcm).
    destruct (owned_by (mg_UID m) (cm_owners cm)) eqn:Hown.
    + exists s. split; [done|]. apply owned_by_spec in Hown. rewrite <-(users_copy s cm Hcm) in *.
      replace (users s ∪ {[mg_UID m]}) with (users s) by set_solver. by apply simulates_refl.
    + destruct (update_owners s cm (cm_owners cm ++ [instanceOwnerRef m]) Hi Hcm) as (s' & cm' & Hrun & Hsim);
        rewrite owner_uids_app, instanceOwnerRef_uid in *; [set_solver|].
      exists s'. by erewrite run_call by exact Hrun.
  - destruct (api_Get_missing s KConfigMap copy_key Hcm) as (e & He & Hget). erewrite run_call by exact Hget. cbn beta iota.
    rewrite He. cbn [negb].
    destruct (create_copy s m src Hi Hcm Hns) as (s' & Hrun & Hsim).
    exists s'. erewrite run_call by exact Hrun. split; [done|].
    replace (users s) with (∅ : gset string) by (unfold users; by rewrite Hcm).
    by rewrite union_empty_l_L.
Qed.

Lemma cleanup_refines m s :
  mg_Namespace m = ns -> ca_inv s ->
  exists s', run api_handle (cleanupTrustedCAConfigMap r m) s = (None, s') /\
    simulates s s' (users s ∖ {[mg_UID m]}).
Proof using other_namespace.
  intros Hns Hi. unfold cleanupTrustedCAConfigMap. rewrite Hns, (proj2 (str_eqb_neq _ _) other_namespace).
  destruct (the_copy s) as [cm|] eqn:Hcm.
  - erewrite run_call by exact (api_Get_found s KConfigMap copy_key cm Hcm). cbn beta iota.
    rewrite (users_copy s cm Hcm), <-owner_uids_remove.
    destruct (remove_owner (mg_UID m) (cm_owners cm)) as [|ref refs] eqn:Hrm.
    + destruct (delete_copy s cm Hi Hcm) as (s' & Hrun & Hsim). exists s'.
      by erewrite run_call by exact Hrun.
    + destruct (update_owners s cm (ref :: refs) Hi Hcm) as (s' & cm' & Hrun & Hsim).
      { by rewrite owner_uids_empty. }
      exists s'. by erewrite run_call by exact Hrun.
  - destruct (api_Get_missing s KConfigMap copy_key Hcm) as (e & He & Hget). erewrite run_call by exact Hget. cbn beta iota.
    rewrite He. exists s. split; [done|]. assert (users s = ∅) as Hu by (unfold users; by rewrite Hcm).
    replace (users s ∖ {[mg_UID m]}) with (users s) by set_solver. by apply simulates_refl.
Qed.

Lemma run_ca_op_refines op s :
  mg_Namespace (op_instance op) = ns -> ca_inv s ->
  exists s', run api_handle (run_ca_op r op) s = (None, s') /\ simulates s s' (ca_spec (users s) op).
Proof using other_namespace. destruct op; [apply ensure_refines|apply cleanup_refines]. Qed.

(** The copy exists exactly while it has users. *)
Lemma copy_exists_iff s : ca_inv s -> is_Some (the_copy s) <-> users s <> ∅.
Proof.
  intros [_ Hp]. split.
  - intros [cm Hcm]. rewrite (users_copy s cm Hcm). by apply (Hp cm).
  - unfold users. destruct (the_copy s); [by eexists|done].
Qed.

Lemma run_ca_ops_refines ops s :
  Forall (fun op => mg_Namespace (op_instance op) = ns) ops -> ca_inv s ->
  exists s', run api_handle (run_ca_ops r ops) s = (map (fun _ => None) ops, s') /\
    simulates s s' (fold_left ca_spec ops (users s)).
Proof using other_namespace.
  intros Hf. revert s. induction Hf as [|op ops Hop Hops IH]; intros s Hi.
  { exists s. split; [done|]. by apply simulates_refl. }
  destruct (run_ca_op_refines op s Hop Hi) as (s1 & Hrun1 & Hu1 & Hi1 & Ho1).
  destruct (IH s1 Hi1) as (s2 & Hrun2 & Hu2 & Hi2 & Ho2). exists s2. split.
  - cbn [run_ca_ops]. rewrite run_bind, Hrun1, run_bind, Hrun2. done.
  - split_and!; [by rewrite Hu2, Hu1|done|]. intros k key Hne. by rewrite Ho2, Ho1.
Qed.

End refinement.

(** C7: the trusted CA copy refines a set of users.  Take any sequence of
    ensure and cleanup calls for instances of a namespace other than the
    operator's, against any API server that keeps the interface's laws, from a
    store where the operator's bundle exists and a copy, if there is one, is in
    use.  No call fails; afterwards the owners of the copy are exactly the set
    the specification computes; the copy exists if and only if that set is not
    empty; and no other object has changed. *)
Theorem ca_copy_refines_user_set {St : Type} `{ApiServer St} r ns ops (s : St) :
  ns <> r_OperatorNamespace r -> Forall (fun op => mg_Namespace (op_instance op) = ns) ops ->
  ca_inv r ns s ->
  let users' := fold_left ca_spec ops (users r ns s) in
  exists s', run api_handle (run_ca_ops r ops) s = (map (fun _ => None) ops, s') /\
    users r ns s' = users' /\ (is_Some (the_copy r ns s') <-> users' <> ∅) /\
    only_changes api_lookup s s' KConfigMap (copy_key r ns).
Proof.
  intros Hns Hops Hi. destruct (run_ca_ops_refines r ns Hns ops s Hops Hi) as (s' & Hrun & Hu & Hi' & Ho).
  exists s'. split_and!; [done|done| |done]. rewrite <-Hu. by apply copy_exists_iff.
Qed.

(** Two instances: both use the copy, then the first lets go, then the second. *)
Lemma ca_copy_refines_user_set_witness :
  let m1 := demo_mustgather [] demo_spec in
  let m2 := mkMustGather (mg_TypeMeta m1) (meta_named "user-ns" "demo2" "mg-uid2") demo_spec None in
  let ops := [Ensure m1; Ensure m2; Release m1; Release m2] in
  exists s', run mem_handle (run_ca_ops demo_reconciler ops) demo_start = ([None; None; None; None], s') /\
    users demo_reconciler "user-ns" s' = ∅ /\
    (is_Some (the_copy demo_reconciler "user-ns" s') <-> (∅ : gset string) <> ∅).
Proof.
  intros m1 m2 ops.
  destruct (ca_copy_refines_user_set (H:=mem_ApiServer) demo_reconciler "user-ns" ops demo_start)
    as (s' & Hrun & Hu & He & _).
  - done.
  - repeat constructor.
  - split; [by eexists|]. by intros cm Hcm.
  - exists s'. split; [exact Hrun|].
    replace (fold_left ca_spec ops (users demo_reconciler "user-ns" demo_start)) with (∅ : gset string) in Hu, He
      by (vm_compute; reflexivity).
    done.
Defined.
