(* ===== verification/TemplateFacts.v ===== *)
(** * Properties of the job template

    The pod the operator asks for is well formed for every admitted spec, its
    sub paths stay inside the volume, the upload reads what the gather wrote,
    and credentials travel by reference only. *)

From S2P Require Import Prelude GoStrings GoPath GoErrors GoTime K8sTypes MustGatherV1 Effects KubeEffects.
From S2P Require Import ApiServer MemCluster Template MustGatherUtil TrustedCA Cleanup SftpValidation.
From S2P Require Import OperatorUtils Reconcile Demo.

(** ** Well-formed pods: what the API server validates of a pod template *)

Definition one_source (v : VolumeSource) : bool :=
  match vs_EmptyDir v, vs_PersistentVolumeClaim v, vs_ConfigMap v with
  | Some _, None, None | None, Some _, None | None, None, Some _ => true
  | _, _, _ => false
  end.

Definition env_ok (e : EnvVar) : Prop := env_SecretKeyRef e = None \/ env_Value e = "".

Record container_ok (volumes : list string) (c : Container) : Prop := {
  cok_name : ctr_Name c <> "";
  cok_command : ctr_Command c <> [];
  cok_mounts : Forall (fun m => vm_Name m ∈ volumes) (ctr_VolumeMounts c);
  cok_paths : NoDup (vm_MountPath <$> ctr_VolumeMounts c);
  cok_env : NoDup (env_Name <$> ctr_Env c);
  cok_env_ok : Forall env_ok (ctr_Env c);
}.

Record pod_ok (p : PodSpec) : Prop := {
  pok_containers : ps_Containers p <> [];
  pok_names : NoDup (ctr_Name <$> ps_Containers p);
  pok_volumes : NoDup (vol_Name <$> ps_Volumes p);
  pok_sources : Forall (fun v => one_source (vol_VolumeSource v) = true) (ps_Volumes p);
  pok_each : Forall (container_ok (vol_Name <$> ps_Volumes p)) (ps_Containers p);
  pok_restart : ps_RestartPolicy p = "Never";
}.

(** [nodup] settles the distinctness of literal names. *)
Ltac nodup := repeat (first [apply NoDup_nil_2|apply NoDup_cons_2; [set_solver|]]).

(** [each tac] proves a property of every element of a literal list. *)
Ltac each tac := repeat (first [apply Forall_nil_2|apply Forall_cons_2; [tac|]]).

Definition job_pod (j : Job) : PodSpec := jsp_Template (job_Spec j).

(** ** Volumes *)

Lemma jobVolumes_names storage ca obf :
  vol_Name <$> jobVolumes storage ca obf =
  [outputVolumeName; uploadVolumeName]
  ++ (if ca <>?s "" then [trustedCAVolumeName] else [])
  ++ (if getObfuscateConfigMapRefName obf <>?s "" then [obfuscateConfigVolumeName] else []).
Proof. unfold jobVolumes. by destruct (ca <>?s ""), (getObfuscateConfigMapRefName obf <>?s ""). Qed.

Lemma jobVolumes_NoDup storage ca obf : NoDup (vol_Name <$> jobVolumes storage ca obf).
Proof.
  rewrite jobVolumes_names.
  destruct (ca <>?s ""), (getObfuscateConfigMapRefName obf <>?s ""); cbn [app]; nodup.
Qed.

Lemma outputVolumeSource_one storage obf : one_source (outputVolumeSource storage obf) = true.
Proof. unfold outputVolumeSource. repeat case_match; done. Qed.

Lemma jobVolumes_sources storage ca obf :
  Forall (fun v => one_source (vol_VolumeSource v) = true) (jobVolumes storage ca obf).
Proof.
  unfold jobVolumes. destruct (ca <>?s ""), (getObfuscateConfigMapRefName obf <>?s ""); cbn [app];
    repeat constructor; apply outputVolumeSource_one.
Qed.

(** ** Containers *)

Lemma gatherOutputMount_name storage dir :
  vm_Name (gatherOutputMount storage dir) = outputVolumeName /\
  vm_MountPath (gatherOutputMount storage dir) = volumeMountPath.
Proof. unfold gatherOutputMount. by destruct (outputSubPath storage dir). Qed.

Lemma timeFilterEnv_names tf : NoDup (env_Name <$> timeFilterEnv tf) /\ Forall env_ok (timeFilterEnv tf).
Proof.
  destruct tf as [[since [t|]]|]; unfold timeFilterEnv; cbn [tf_Since tf_SinceTime];
    try destruct (0 <? since)%Z; cbn; (split; [nodup|each ltac:(by left)]).
Qed.

Lemma gatherCommandArgs_nonempty audit timeout command args obf :
  (gatherCommandArgs audit timeout command args obf).1 <> [].
Proof. unfold gatherCommandArgs. destruct command; [done|]. by destruct (shouldAppendObfuscateChown obf). Qed.

Lemma gather_container_ok image audit timeout storage ca tf command args dir obf obf' :
  container_ok (vol_Name <$> jobVolumes storage ca obf')
    (getGatherContainer image audit timeout storage ca tf command args dir obf).
Proof.
  unfold getGatherContainer. pose proof (gatherCommandArgs_nonempty audit timeout command args obf) as Hc.
  destruct (gatherCommandArgs _ _ _ _ _) as [cmd cargs]. destruct (timeFilterEnv_names tf) as [Hn Ho].
  destruct (gatherOutputMount_name storage dir) as [Hv Hp].
  split; cbn [ctr_Name ctr_Command ctr_VolumeMounts ctr_Env]; try done; rewrite ?jobVolumes_names.
  - constructor; [rewrite Hv; set_solver|].
    destruct (ca <>?s ""); each ltac:(set_solver).
  - rewrite fmap_cons, Hp. destruct (ca <>?s ""); cbn; nodup.
Qed.

Lemma uploadOutputMount_name storage obf dir :
  vm_Name (uploadOutputMount storage obf dir) = outputVolumeName /\
  vm_MountPath (uploadOutputMount storage obf dir) = volumeMountPath.
Proof.
  unfold uploadOutputMount. destruct (hasObfuscateSource obf); [done|]. apply gatherOutputMount_name.
Qed.

Lemma uploadUploadMount_name storage obf dir :
  (vm_Name (uploadUploadMount storage obf dir) = outputVolumeName \/
   vm_Name (uploadUploadMount storage obf dir) = uploadVolumeName) /\
  vm_MountPath (uploadUploadMount storage obf dir) = volumeUploadMountPath.
Proof. unfold uploadUploadMount. repeat case_match; eauto. Qed.

Lemma uploadEnv_names http https no sftp obf dir :
  NoDup (env_Name <$> uploadEnv http https no sftp obf dir) /\ Forall env_ok (uploadEnv http https no sftp obf dir).
Proof.
  unfold uploadEnv, sftpEnv.
  destruct sftp, (isObfuscateEnabled obf), (getObfuscateConfigMapRefName obf <>?s ""),
    (http <>?s ""), (https <>?s ""), (no <>?s ""); cbn [app fmap list_fmap env_Name secretEnv plainEnv];
    (split; [nodup|each ltac:(by (left + right))]).
Qed.

Lemma upload_container_ok op storage http https no ca sftp obf dir :
  container_ok (vol_Name <$> jobVolumes storage ca obf)
    (getUploadContainer op storage http https no (ca <>?s "") sftp obf dir).
Proof.
  destruct (uploadEnv_names http https no sftp obf dir) as [Hn Ho].
  destruct (uploadOutputMount_name storage obf dir) as [Hv Hp].
  destruct (uploadUploadMount_name storage obf dir) as [Hv' Hp'].
  unfold getUploadContainer. split; cbn [ctr_Name ctr_Command ctr_VolumeMounts ctr_Env]; try done;
    rewrite ?jobVolumes_names.
  - cbn [app]. constructor; [rewrite Hv; set_solver|]. constructor; [set_solver|].
    destruct (ca <>?s ""), (getObfuscateConfigMapRefName obf <>?s ""); each ltac:(set_solver).
  - cbn [app]. rewrite !fmap_cons, Hp, Hp'.
    destruct (ca <>?s ""), (getObfuscateConfigMapRefName obf <>?s ""); cbn; nodup.
Qed.

(** ** The pod *)

Definition spec_audit (s : MustGatherSpec) : bool :=
  match spec_GatherSpec s with Some gs => ptr_deref (gs_Audit gs) false | None => false end.
Definition spec_command (s : MustGatherSpec) : list string :=
  match spec_GatherSpec s with Some gs => gs_Command gs | None => [] end.
Definition spec_args (s : MustGatherSpec) : list string :=
  match spec_GatherSpec s with Some gs => gs_Args gs | None => [] end.

Section pod.
  Variables (image op : string) (m : MustGather) (ca dir : string) (proxies : string * string * string).
  Abbreviation spec := (mg_Spec m).
  Abbreviation pod := (job_pod (jobTemplate image op m ca dir proxies)).

Definition gather_of : Container :=
  getGatherContainer image (spec_audit spec) (ptr_deref (spec_MustGatherTimeout spec) 0%Z) (spec_Storage spec) ca
    (timeFilter_of (spec_GatherSpec spec)) (spec_command spec) (spec_args spec) dir (spec_Obfuscate spec).

Definition upload_of : Container :=
  getUploadContainer op (spec_Storage spec) proxies.1.1 proxies.1.2 proxies.2 (ca <>?s "") (getSftpSpec m)
    (spec_Obfuscate spec) dir.

Lemma container_names : ctr_Name gather_of = gatherContainerName /\ ctr_Name upload_of = uploadContainerName.
Proof. split; [|done]. unfold gather_of, getGatherContainer. by destruct (gatherCommandArgs _ _ _ _ _). Qed.

Lemma template_pod :
  ps_Containers pod =
    (if hasObfuscateSource (spec_Obfuscate spec) then [] else [gather_of])
    ++ (if shouldAddUploadContainer m then [upload_of] else []) /\
  ps_Volumes pod = jobVolumes (spec_Storage spec) ca (spec_Obfuscate spec) /\
  ps_RestartPolicy pod = "Never".
Proof.
  unfold jobTemplate, gather_of, upload_of. destruct proxies as [[h1 h2] h3].
  destruct (hasObfuscateSource (spec_Obfuscate spec)), (shouldAddUploadContainer m); done.
Qed.

Lemma template_containers P :
  (hasObfuscateSource (spec_Obfuscate spec) = false -> P gather_of) -> P upload_of ->
  Forall P (ps_Containers pod).
Proof.
  intros Hg Hu. destruct template_pod as [-> _].
  destruct (hasObfuscateSource _), (shouldAddUploadContainer m); each ltac:(auto).
Qed.

(** A spec the API server admits asks for a container. *)
Lemma valid_has_container :
  valid_spec spec = true ->
  hasObfuscateSource (spec_Obfuscate spec) = false \/ shouldAddUploadContainer m = true.
Proof.
  intros Hv. destruct (hasObfuscateSource (spec_Obfuscate spec)) eqn:Hs; [right|by left].
  unfold valid_spec in Hv. rewrite !andb_true_iff in Hv.
  destruct Hv as [[[[[[[[[[[_ _] _] _] Hr] _] _] _] _] _] _] _].
  unfold rule_source_enabled, obfuscate_source, obfuscate_enabled in Hr.
  unfold hasObfuscateSource, sourceClaimName in Hs.
  unfold shouldAddUploadContainer, isObfuscateEnabled, ptr_deref.
  destruct (spec_Obfuscate spec) as [[en ref [src|]]|]; cbn in *; try done.
  unfold opt_true in Hr. by destruct (default false en).
Qed.
End pod.

(** C8: the pod is well formed.  For every spec the API server admits, and any
    images, directory name, CA ConfigMap and proxy settings, the pod template
    has a container; container and volume names are distinct; every volume has
    one source; every mount names a declared volume, no two mounts of a
    container share a path, no two variables share a name, a variable has a
    value or a secret reference and not both; and the pod never restarts. *)
Theorem jobTemplate_well_formed image op m ca dir proxies :
  valid_spec (mg_Spec m) = true -> pod_ok (job_pod (jobTemplate image op m ca dir proxies)).
Proof.
  intros Hv. destruct (template_pod image op m ca dir proxies) as (Hc & Hvol & Hr).
  destruct (valid_has_container m Hv) as [Hs|Hs]; split; rewrite ?Hvol, ?Hc, ?Hs; try done.
  all: try apply jobVolumes_NoDup; try apply jobVolumes_sources.
  all: destruct (shouldAddUploadContainer m), (hasObfuscateSource (spec_Obfuscate (mg_Spec m)));
    try done; cbn [app fmap list_fmap];
    rewrite ?(proj1 (container_names image op m ca dir proxies)), ?(proj2 (container_names image op m ca dir proxies));
    try nodup.
  all: each ltac:(first [apply gather_container_ok|apply upload_container_ok]).
Qed.

Lemma jobTemplate_well_formed_witness :
  valid_spec demo_spec = true /\
  pod_ok (job_pod (jobTemplate "image" "operator" (demo_mustgather [] demo_spec) "trusted-ca" "dir" ("", "", ""))).
Proof. split; [reflexivity|]. by apply jobTemplate_well_formed. Defined.

(** ** Sub paths *)

Definition proper_element (e : string) : Prop := e <> "" /\ e <> ".".

#[export] Instance proper_element_dec e : Decision (proper_element e).
Proof. unfold proper_element. apply _. Defined.

(** What the kubelet demands of a sub path: relative, and no [..]. *)
Definition safe_subpath (p : string) : Prop :=
  strings_HasPrefix p "/" = false /\ ".." ∉ split_byte slash p.

(** A directory name: one proper path element. *)
Definition dir_ok (dir : string) : Prop := no_slash dir /\ real_element dir.

Lemma HasPrefix_split p : strings_HasPrefix p "/" = true -> exists es, split_byte slash p = "" :: es.
Proof.
  unfold strings_HasPrefix. destruct p as [|c p]; [done|]. cbn [String.prefix].
  case_match; [|done]. subst. intros _. cbn. eauto.
Qed.

Lemma no_dotdot_elements s t :
  strings_Contains s ".." = false -> substr t s -> ".." ∉ split_byte slash t.
Proof.
  intros Hc Ht Hin. apply split_byte_elem in Hin as [_ Hin].
  assert (strings_Contains s ".." = true) by (apply Contains_substr; by eapply substr_trans). congruence.
Qed.

Lemma trimmed_base_substr st : substr (trimmed_base st) (derefString (pv_SubPath (st_PersistentVolume st))).
Proof. unfold trimmed_base. eapply substr_trans; [apply Trim_byte_substr|apply TrimSpace_substr]. Qed.

Lemma rule_pv_subpath p : rule_pv p = true -> strings_Contains (derefString (pv_SubPath p)) ".." = false.
Proof.
  unfold rule_pv. intros [H _]%andb_true_iff. destruct (pv_SubPath p) as [s|]; [|done].
  by apply negb_true_iff in H.
Qed.

(** The elements of the output sub path. *)
Lemma output_elements st dir :
  rule_storage st = true -> dir_ok dir ->
  split_byte slash (path_Join [trimmed_base st; dir])
  = filter proper_element (split_byte slash (trimmed_base st)) ++ [dir].
Proof.
  intros [_ Hpv]%andb_true_iff [Hns Hre]. apply split_path_Join; try done.
  - apply (Trim_byte_head slash).
  - eapply no_dotdot_elements; [by apply rule_pv_subpath|]. apply trimmed_base_substr.
  - apply not_true_iff_false. intros [es Hes]%HasPrefix_split. destruct Hre as [Hd _].
    rewrite (split_byte_none slash dir Hns) in Hes. congruence.
Qed.

Lemma output_safe st dir :
  rule_storage st = true -> dir_ok dir -> safe_subpath (path_Join [trimmed_base st; dir]).
Proof.
  intros Hst Hd. pose proof (output_elements st dir Hst Hd) as He. destruct Hd as [_ (Hd1 & Hd2 & Hd3)]. split.
  - apply not_true_iff_false. intros [es Hes]%HasPrefix_split. rewrite Hes in He.
    assert ("" ∈ filter proper_element (split_byte slash (trimmed_base st)) ++ [dir]) as Hin
      by (rewrite <-He; set_solver).
    apply elem_of_app in Hin as [[[? _] _]%list_elem_of_filter|Hin]; [done|].
    apply list_elem_of_singleton in Hin. done.
  - rewrite He. intros [Hin|Hin]%elem_of_app; [|by apply list_elem_of_singleton in Hin].
    apply list_elem_of_filter in Hin as [_ Hin]. apply andb_true_iff in Hst as [_ Hpv].
    revert Hin. eapply no_dotdot_elements; [by apply rule_pv_subpath|]. apply trimmed_base_substr.
Qed.

Lemma source_safe p :
  rule_pv p = true -> safe_subpath (strings_Trim_byte (derefString (pv_SubPath p)) slash).
Proof.
  intros Hp. split; [apply (Trim_byte_head slash)|].
  eapply no_dotdot_elements; [by apply rule_pv_subpath|]. apply Trim_byte_substr.
Qed.

Definition mount_safe (vm : VolumeMount) : Prop := vm_SubPath vm = "" \/ safe_subpath (vm_SubPath vm).

Lemma valid_storage_source s :
  valid_spec s = true ->
  (forall st, spec_Storage s = Some st -> rule_storage st = true) /\
  (forall o p, spec_Obfuscate s = Some o -> oc_Source o = Some p -> rule_pv p = true).
Proof.
  unfold valid_spec. rewrite !andb_true_iff. intros [[_ Hst] Ho]. split.
  - intros st E. by rewrite E in Hst.
  - intros o p Eo Ep. rewrite Eo in Ho. cbn in Ho. unfold rule_obfuscate in Ho.
    rewrite Ep in Ho. by apply andb_true_iff in Ho as [_ Ho].
Qed.

Lemma gatherOutputMount_safe storage dir :
  (forall st, storage = Some st -> rule_storage st = true) -> dir_ok dir ->
  mount_safe (gatherOutputMount storage dir).
Proof.
  intros Hst Hd. unfold gatherOutputMount, outputSubPath. destruct storage as [st|]; [|by left].
  destruct (st_Type st <>?s _); [by left|]. right. apply output_safe; auto.
Qed.

Lemma uploadOutputMount_safe s dir :
  valid_spec s = true -> dir_ok dir -> mount_safe (uploadOutputMount (spec_Storage s) (spec_Obfuscate s) dir).
Proof.
  intros [Hst Hsrc]%valid_storage_source Hd. unfold uploadOutputMount.
  destruct (hasObfuscateSource (spec_Obfuscate s)) eqn:Hs; [|by apply gatherOutputMount_safe].
  unfold hasObfuscateSource, sourceClaimName, sourceSubPath in *.
  destruct (spec_Obfuscate s) as [o|] eqn:Eo; [|done].
  destruct (oc_Source o) as [p|] eqn:Ep; [|done]. right. apply source_safe. by eapply Hsrc.
Qed.

Lemma uploadUploadMount_safe s dir :
  valid_spec s = true -> dir_ok dir -> mount_safe (uploadUploadMount (spec_Storage s) (spec_Obfuscate s) dir).
Proof.
  intros [Hst _]%valid_storage_source Hd. unfold uploadUploadMount.
  destruct (_ && _); [|by left]. destruct (spec_Storage s) as [st|]; [|by left].
  destruct (st_Type st =?s _); [|by left]. right. apply output_safe; auto.
Qed.


Definition demo_storage_spec : MustGatherSpec :=
  mkMustGatherSpec "default" None None None None None
    (Some (mkStorage StorageTypePersistentVolume (mkPVConfig (mkPVCRef "claim") (Some " /a//b/./ "))))
    (Some (mkObfuscateConfig (Some true) None None)).


(** ** The upload container *)

Definition mount_at (path : string) (c : Container) : option VolumeMount :=
  List.find (fun vm => vm_MountPath vm =?s path) (ctr_VolumeMounts c).

Definition env_named (name : string) (c : Container) : option EnvVar :=
  List.find (fun e => env_Name e =?s name) (ctr_Env c).

Lemma mount_at_gather image m ca dir :
  mount_at volumeMountPath (gather_of image m ca dir) = Some (gatherOutputMount (spec_Storage (mg_Spec m)) dir).
Proof.
  unfold mount_at, gather_of, getGatherContainer. destruct (gatherCommandArgs _ _ _ _ _).
  cbn [ctr_VolumeMounts List.find]. by rewrite (proj2 (gatherOutputMount_name _ _)), str_eqb_refl.
Qed.

Lemma mount_at_upload op m ca dir proxies :
  mount_at volumeMountPath (upload_of op m ca dir proxies)
  = Some (uploadOutputMount (spec_Storage (mg_Spec m)) (spec_Obfuscate (mg_Spec m)) dir).
Proof.
  unfold mount_at, upload_of, getUploadContainer. cbn [ctr_VolumeMounts List.find app].
  by rewrite (proj2 (uploadOutputMount_name _ _ _)), str_eqb_refl.
Qed.

Lemma getSftpSpec_checked m sftp : getSftpSpec m = Some sftp -> sftp_of m = Some sftp.
Proof.
  unfold getSftpSpec, sftp_of, hasSFTPUpload. destruct (spec_UploadTarget (mg_Spec m)) as [ut|]; [|done].
  destruct (ut_Type ut <>?s _); [done|]. destruct (ut_SFTP ut) as [s|]; [|done].
  destruct (sftp_CaseID s <>?s ""), (lor_Name (sftp_CaseManagementAccountSecretRef s) <>?s ""); cbn; by intros.
Qed.

(** C10: the upload sends what was gathered, with the credentials that were
    checked.  Unless an existing volume is the source, the upload container
    mounts at [/must-gather] the same volume and sub path as the gather
    container.  When it uploads by SFTP, it does so to the target [Reconcile]
    validated: the user name and password are references to the keys
    [username] and [password] of that target's secret, the keys the validation
    read, and no variable carries either as a value. *)
Theorem upload_container_contract image op m ca dir proxies :
  (hasObfuscateSource (spec_Obfuscate (mg_Spec m)) = false ->
   mount_at volumeMountPath (upload_of op m ca dir proxies) = mount_at volumeMountPath (gather_of image m ca dir)) /\
  forall sftp, getSftpSpec m = Some sftp ->
    sftp_of m = Some sftp /\
    forall key, key ∈ ["username"; "password"] ->
      env_named key (upload_of op m ca dir proxies)
      = Some (mkEnvVar key "" (Some (mkSecretKeySelector (sftp_CaseManagementAccountSecretRef sftp) key))).
Proof.
  split.
  - intros Hs. rewrite mount_at_gather, mount_at_upload. unfold uploadOutputMount. by rewrite Hs.
  - intros sftp Hsftp. split; [by apply getSftpSpec_checked|]. intros key Hkey.
    unfold env_named, upload_of, getUploadContainer, uploadEnv. rewrite Hsftp.
    cbn [ctr_Env sftpEnv app List.find]. repeat apply elem_of_cons in Hkey as [->|Hkey]; [reflexivity..|].
    by apply elem_of_nil in Hkey.
Qed.

Lemma upload_container_contract_witness :
  let m := demo_mustgather [] demo_spec in
  mount_at volumeMountPath (upload_of "o" m "ca" "dir" ("", "", ""))
  = mount_at volumeMountPath (gather_of "i" m "ca" "dir") /\
  env_named "password" (upload_of "o" m "ca" "dir" ("", "", ""))
  = Some (mkEnvVar "password" "" (Some (mkSecretKeySelector (mkLocalRef "case-secret") "password"))).
Proof.
  intros m. split.
  - apply (upload_container_contract "i" "o" m "ca" "dir" ("", "", "")). reflexivity.
  - apply (upload_container_contract "i" "o" m "ca" "dir" ("", "", "")) with (sftp := demo_sftp); [reflexivity|].
    set_solver.
Defined.
