(* ===== verification/DirectoryName.v ===== *)
(** * The directory name is one proper path element

    What TemplateFacts asks of the directory name holds of every name
    [GenerateMustGatherDirectoryName] returns. *)

From Stdlib Require Import DecimalString DecimalZ Ascii.
From S2P Require Import Prelude GoStrings GoPath GoErrors GoTime K8sTypes MustGatherV1 Effects KubeEffects.
From S2P Require Import ApiServer MemCluster Template MustGatherUtil TrustedCA Cleanup SftpValidation.
From S2P Require Import OperatorUtils Reconcile Demo TemplateFacts.

#[local] Arguments String.append : simpl nomatch.

Definition no_slash_byte (c : ascii) : bool := negb (Ascii.eqb c slash).

Lemma Itoa_no_slash z : all_bytes no_slash_byte (strconv_Itoa z) = true.
Proof. by apply Itoa_bytes. Qed.

Lemma pad_no_slash w s : all_bytes no_slash_byte s = true -> all_bytes no_slash_byte (pad_zero w s) = true.
Proof. by apply pad_zero_bytes. Qed.

Lemma four_no_slash z : all_bytes no_slash_byte (four z) = true.
Proof.
  unfold four. rewrite all_bytes_append, pad_no_slash by apply Itoa_no_slash. by destruct (z <? 0)%Z.
Qed.

Lemma two_no_slash z : all_bytes no_slash_byte (two z) = true.
Proof. unfold two. apply pad_no_slash, Itoa_no_slash. Qed.

Lemma timestamp_no_slash t : all_bytes no_slash_byte (format_timestamp t) = true.
Proof.
  unfold format_timestamp. destruct (clock t) as [[[[[y mo] d] h] mi] s].
  by rewrite !all_bytes_append, four_no_slash, !two_no_slash.
Qed.

Lemma Sprintf_no_slash n : all_bytes no_slash_byte (Sprintf_06d n) = true.
Proof.
  unfold Sprintf_06d. destruct (n <? 0)%Z; rewrite ?all_bytes_append, pad_no_slash by apply Itoa_no_slash; done.
Qed.

Lemma all_bytes_substring f i n s : all_bytes f s = true -> all_bytes f (String.substring i n s) = true.
Proof.
  revert i n. induction s as [|c s IH]; intros i n Hs; [by destruct i, n|].
  cbn in Hs. apply andb_true_iff in Hs as [Hc Hs]. destruct i as [|i]; cbn; [|by apply IH].
  destruct n as [|n]; cbn; [done|]. by rewrite Hc, IH.
Qed.

Lemma id_suffix_no_slash id : all_bytes no_slash_byte id = true -> all_bytes no_slash_byte (id_suffix id) = true.
Proof. intros Hid. unfold id_suffix. case_match; [by apply all_bytes_substring|done]. Qed.

Lemma directory_name_ok suffix now n :
  all_bytes no_slash_byte suffix = true -> dir_ok (directory_name suffix now (Sprintf_06d n)).
Proof.
  intros Hs. split.
  - apply directory_name_no_slash; [done|apply timestamp_no_slash|apply Sprintf_no_slash].
  - destruct (directory_name_head suffix now (Sprintf_06d n)) as [t ->]. done.
Qed.

Lemma length_substring i n s :
  (i + n <= String.length s)%nat -> String.length (String.substring i n s) = n.
Proof.
  revert i n. induction s as [|c s IH]; intros i n Hl; cbn in Hl.
  - destruct i, n; cbn; lia.
  - destruct i as [|i]; cbn; [destruct n; cbn; [done|]; rewrite IH by lia; done|]. apply IH. lia.
Qed.

Lemma id_suffix_length id : (String.length (id_suffix id) <= clusterIDSuffixLength)%nat.
Proof.
  unfold id_suffix. destruct (Nat.ltb_spec clusterIDSuffixLength (String.length id)); [|done].
  rewrite length_substring; lia.
Qed.

(** What the cluster version was answered. *)
Definition cluster_id (answer : goerror + ClusterVersion) : string :=
  match answer with inl _ => "" | inr cv => cv_Spec_ClusterID cv end.


