(* ===== verification/SftpDialing.v ===== *)
(** * The SFTP trial connection

    [checkSFTPConnection] of [controllers/mustgather/validation.go] and what it
    uses: address normalisation over Go's [net.SplitHostPort] and
    [net.JoinHostPort], the choice of a proxy, the CONNECT tunnel, the SSH
    handshake and the SFTP subsystem check.  It is a program over the network's
    effects; the sockets, the SSH library and the proxy decision of
    [httpproxy] answer from outside. *)

From Stdlib Require Import Ascii NArith.
From S2P Require Import Prelude GoStrings GoErrors GoTime Effects SftpValidation.

(** ** Addresses *)

(** [net.SplitHostPort]; the error text is only ever tested for being there. *)
Definition SplitHostPort (hostport : string) : option (string * string) :=
  match lastIndexByte colon hostport with
  | None => None
  | Some i =>
      let port := String.substring (S i) (String.length hostport - S i) hostport in
      let after (n : nat) := String.substring n (String.length hostport - n) hostport in
      let finish (host : string) (j k : nat) :=
        if is_some (indexByte lbracket (after j)) || is_some (indexByte rbracket (after k)) then None
        else Some (host, port) in
      if strings_HasPrefix hostport "[" then
        match indexByte rbracket hostport with
        | None => None
        | Some e =>
            if (S e =? String.length hostport)%nat then None
            else if (S e =? i)%nat then finish (String.substring 1 (e - 1) hostport) 1%nat (S e)
            else None
        end
      else
        let host := String.substring 0 i hostport in
        if is_some (indexByte colon host) then None else finish host 0%nat 0%nat
  end.

(** [net.JoinHostPort]. *)
Definition JoinHostPort (host port : string) : string :=
  if is_some (indexByte colon host) then "[" +:+ host +:+ "]:" +:+ port else host +:+ ":" +:+ port.

Definition sftpDefaultPort : string := "22".

Definition containsPort (host : string) : bool := is_some (SplitHostPort host).

Definition normalizeHostAddress (host : string) : string :=
  if (host =?s "") || containsPort host then host
  else
    let host :=
      if strings_HasPrefix host "[" && strings_HasSuffix host "]"
      then String.substring 1 (String.length host - 2) host else host in
    JoinHostPort host sftpDefaultPort.

(** ** [base64.StdEncoding.EncodeToString] *)

Definition base64_alphabet : list ascii :=
  String.list_ascii_of_string "ABCDEFGHIJKLMNOPQRSTUVWXYZabcdefghijklmnopqrstuvwxyz0123456789+/".

Definition base64_char (n : N) : ascii := nth (N.to_nat n) base64_alphabet "A"%char.

Definition base64_pad : ascii := "="%char.

Fixpoint base64_encode (s : string) : string :=
  match s with
  | EmptyString => ""
  | String a EmptyString =>
      let x := N_of_ascii a in
      String (base64_char (x / 4)) (String (base64_char (x mod 4 * 16))
        (String base64_pad (String base64_pad "")))
  | String a (String b EmptyString) =>
      let x := N_of_ascii a in let y := N_of_ascii b in
      String (base64_char (x / 4)) (String (base64_char (x mod 4 * 16 + y / 16))
        (String (base64_char (y mod 16 * 4)) (String base64_pad "")))
  | String a (String b (String c s)) =>
      let x := N_of_ascii a in let y := N_of_ascii b in let z := N_of_ascii c in
      String (base64_char (x / 4)) (String (base64_char (x mod 4 * 16 + y / 16))
        (String (base64_char (y mod 16 * 4 + z / 64)) (String (base64_char (z mod 64)) (base64_encode s))))
  end%N.

Example base64_ex :
  map base64_encode ["alice:secret"; "a"; "ab"; "abc"; ""] = ["YWxpY2U6c2VjcmV0"; "YQ=="; "YWI="; "YWJj"; ""].
Proof. vm_compute. reflexivity. Qed.

(** ** The network's effects *)

(** A parsed proxy URL: scheme, host, and user with password. *)
Record ProxyURL := mkProxyURL {
  pu_Scheme : string; pu_Host : string; pu_User : option (string * string);
}.

Definition sshDialTimeout : Duration := (5 * Second)%Z.

(** [ssh.AuthMethod] and [ssh.HostKeyCallback], as the library offers them ready-made. *)
Inductive AuthMethod := ssh_Password (password : string).
Inductive HostKeyCallback := InsecureIgnoreHostKey | FixedHostKey (key : string).

(** The fields of [ssh.ClientConfig] that are set.  By the library's documentation
    [Timeout] is for the TCP connection that [ssh.Dial] makes; [NewClientConn], which is
    given a connection, does not look at it. *)
Record ClientConfig := mkClientConfig {
  cc_User : string;
  cc_Auth : list AuthMethod;
  cc_HostKeyCallback : HostKeyCallback;
  cc_Timeout : Duration;
}.

Definition buildSSHConfig (username password : string) (hostKeyCallback : HostKeyCallback) : ClientConfig :=
  mkClientConfig username [ssh_Password password] hostKeyCallback sshDialTimeout.

(** Connections are named by numbers. *)
Inductive NetE : Type -> Type :=
| ProxyFunc (scheme host : string) : NetE (goerror + option ProxyURL)
| DialTCP (addr : string) (timeout : Duration) : NetE (goerror + nat)
| CtxDeadline : NetE (option Time)
| SetDeadline (conn : nat) (t : Time) : NetE unit
| ConnWrite (conn : nat) (data : string) : NetE (option goerror)
| ReadResponse (conn : nat) : NetE (goerror + (Z * string))
| CloseConn (conn : nat) : NetE unit
| NewClientConn (conn : nat) (addr : string) (config : ClientConfig) : NetE (goerror + nat)
| CloseSSH (client : nat) : NetE unit
| NewSFTPClient (client : nat) : NetE (goerror + nat)
| CloseSFTP (client : nat) : NetE unit.

Abbreviation nprog := (prog NetE).

Section dialing.
  Context `{UnicodeTables}.

(** ** The proxy *)

Definition getProxyURLForAddr (addr : string) : nprog (goerror + option ProxyURL) :=
  let '(host, port) := default (addr, sftpDefaultPort) (SplitHostPort addr) in
  let* r := call (ProxyFunc "https" (JoinHostPort host port)) in
  match r with
  | inr None => call (ProxyFunc "http" (JoinHostPort host port))
  | _ => Ret r
  end.

Definition proxyAddr (proxyURL : ProxyURL) : string :=
  if containsPort (pu_Host proxyURL) then pu_Host proxyURL
  else JoinHostPort (pu_Host proxyURL) (if pu_Scheme proxyURL =?s "https" then "3129" else "3128").

(** The bytes sent to the proxy. *)
Definition connectReq (proxyURL : ProxyURL) (addr : string) : string :=
  ("CONNECT " +:+ addr +:+ " HTTP/1.1" +:+ crlf +:+ "Host: " +:+ addr +:+ crlf)
  +:+ (match pu_User proxyURL with
       | Some (username, password) =>
           "Proxy-Authorization: Basic " +:+ base64_encode (username +:+ ":" +:+ password) +:+ crlf
       | None => ""
       end)
  +:+ crlf.

Definition StatusOK : Z := 200.

Definition proxyDialContext (proxyURL : ProxyURL) (addr : string) : nprog (goerror + nat) :=
  let* r := call (DialTCP (proxyAddr proxyURL) sshDialTimeout) in
  match r with
  | inl err => Ret (inl (Errorf_w ("failed to connect to proxy " +:+ proxyAddr proxyURL +:+ ": " +:+ Error err) err))
  | inr conn =>
      let* deadline := call CtxDeadline in
      let* _ := match deadline with Some t => call (SetDeadline conn t) | None => Ret tt end in
      let* w := call (ConnWrite conn (connectReq proxyURL addr)) in
      match w with
      | Some err =>
          let* _ := call (CloseConn conn) in
          Ret (inl (Errorf_w ("failed to send CONNECT request to proxy: " +:+ Error err) err))
      | None =>
          let* resp := call (ReadResponse conn) in
          match resp with
          | inl err =>
              let* _ := call (CloseConn conn) in
              Ret (inl (Errorf_w ("failed to read proxy CONNECT response: " +:+ Error err) err))
          | inr (code, status) =>
              if negb (code =? StatusOK)%Z then
                let* _ := call (CloseConn conn) in
                Ret (inl (errorString ("proxy CONNECT to " +:+ addr +:+ " failed with status "
                                       +:+ strconv_Itoa code +:+ " " +:+ status)))
              else
                let* _ := call (SetDeadline conn zeroTime) in
                Ret (inr conn)
          end
      end
  end.

(** [netDialFunc]. *)
Definition netDial (addr : string) : nprog (goerror + nat) :=
  let* p := getProxyURLForAddr addr in
  match p with
  | inl err => Ret (inl (Errorf_w ("failed to determine proxy for " +:+ addr +:+ ": " +:+ Error err) err))
  | inr (Some proxyURL) => proxyDialContext proxyURL addr
  | inr None => call (DialTCP addr sshDialTimeout)
  end.

(** ** SSH and SFTP *)

(** [fmt.Errorf("%s: %w", classifySFTPError(err), err)]. *)
Definition classified (err : goerror) : goerror :=
  Errorf_w (classifySFTPError (Some err) +:+ ": " +:+ Error err) err.

Definition verifySFTPSubsystem (client : nat) : nprog (option goerror) :=
  let* r := call (NewSFTPClient client) in
  match r with
  | inl err => Ret (Some (classified err))
  | inr sftpClient =>
      let* _ := call (CloseSFTP sftpClient) in
      Ret None
  end.

Definition checkSFTPConnection (username password host : string) : nprog (option goerror) :=
  let address := normalizeHostAddress host in
  let config := buildSSHConfig username password InsecureIgnoreHostKey in
  let* netConn := netDial address in
  match netConn with
  | inl err => Ret (Some (classified err))
  | inr netConn =>
      let* sshConn := call (NewClientConn netConn address config) in
      match sshConn with
      | inl err =>
          let* _ := call (CloseConn netConn) in
          Ret (Some (classified err))
      | inr client =>
          let* err := verifySFTPSubsystem client in
          let* _ := call (CloseSSH client) in
          Ret err
      end
  end.

End dialing.
