(* ===== verification/SftpDialingFacts.v ===== *)
(** * Properties of the trial connection

    Address normalisation, release of every connection, transparency of error
    wrapping for the retry decision, and the shape of the CONNECT request. *)

From Stdlib Require Import Ascii NArith.
From S2P Require Import Prelude GoStrings GoErrors GoTime Effects SftpValidation SftpDialing.

#[local] Arguments String.append : simpl nomatch.

(** ** Splitting what was joined *)

Definition no_brackets (s : string) : bool := without lbracket s && without rbracket s.
Definition plain (s : string) : bool := without colon s && no_brackets s.

Lemma HasPrefix_lbracket s : without lbracket s = true -> strings_HasPrefix s "[" = false.
Proof.
  destruct s as [|c s]; [done|]. cbn [without all_bytes]. intros [Hc _]%andb_true_iff.
  unfold strings_HasPrefix. cbn [String.prefix]. case_match; [|done]. subst. done.
Qed.

Lemma no_brackets_index s :
  no_brackets s = true -> indexByte lbracket s = None /\ indexByte rbracket s = None.
Proof. intros [Hl Hr]%andb_true_iff. split; by apply indexByte_none. Qed.

Lemma Split_bracketed h p :
  no_brackets h = true -> plain p = true -> SplitHostPort ("[" +:+ h +:+ "]:" +:+ p) = Some (h, p).
Proof.
  intros [Hhl Hhr]%andb_true_iff [Hpc [Hpl Hpr]%andb_true_iff]%andb_true_iff.
  set (s := "[" +:+ h +:+ "]:" +:+ p).
  assert (s = ("[" +:+ h +:+ "]") +:+ String colon p) as E1 by (unfold s; by rewrite !append_assoc).
  assert (s = ("[" +:+ h +:+ "]:") +:+ p) as E2 by (unfold s; by rewrite !append_assoc).
  assert (s = ("[" +:+ h) +:+ String rbracket (String colon p)) as E3 by (unfold s; by rewrite !append_assoc).
  assert (lastIndexByte colon s = Some (S (S (String.length h)))) as Hi.
  { rewrite E1, lastIndexByte_last by done. rewrite !length_append. cbn. f_equal. lia. }
  assert (indexByte rbracket s = Some (S (String.length h))) as He.
  { rewrite E3, indexByte_first; [done|]. by rewrite without_append, Hhr. }
  assert (String.length s = S (S (S (String.length h + String.length p)))) as Hlen.
  { unfold s. rewrite !length_append. cbn. lia. }
  unfold SplitHostPort. rewrite Hi, He.
  replace (strings_HasPrefix s "[") with true by (symmetry; apply prefix_append; by eexists).
  rewrite (proj2 (Nat.eqb_neq _ _)) by lia. rewrite Nat.eqb_refl.
  assert (String.substring 1 (String.length s - 1) s = h +:+ "]:" +:+ p) as -> by (unfold s; by rewrite substring_after).
  assert (String.substring (S (S (String.length h))) (String.length s - S (S (String.length h))) s
          = String colon p) as ->.
  { rewrite E1. apply substring_after. rewrite !length_append. cbn. lia. }
  rewrite !indexByte_without_none; [|cbn; exact Hpr|by rewrite !without_append, Hhl, Hpl].
  cbn [orb]. f_equal. f_equal.
  - replace (S (String.length h) - 1)%nat with (String.length h) by lia.
    unfold s. by apply (substring_middle "[").
  - rewrite E2. apply substring_after. rewrite !length_append. cbn. lia.
Qed.

Lemma Split_unbracketed h p :
  plain h = true -> plain p = true -> SplitHostPort (h +:+ ":" +:+ p) = Some (h, p).
Proof.
  intros [Hhc [Hhl Hhr]%andb_true_iff]%andb_true_iff [Hpc [Hpl Hpr]%andb_true_iff]%andb_true_iff.
  set (s := h +:+ ":" +:+ p).
  assert (s = (h +:+ ":") +:+ p) as E by (unfold s; by rewrite append_assoc).
  assert (without lbracket s = true) as Hl by (unfold s; by rewrite !without_append, Hhl, Hpl).
  assert (without rbracket s = true) as Hr by (unfold s; by rewrite !without_append, Hhr, Hpr).
  unfold SplitHostPort.
  replace (lastIndexByte colon s) with (Some (String.length h)) by (symmetry; by apply lastIndexByte_last).
  rewrite HasPrefix_lbracket by done.
  assert (String.substring 0 (String.length h) s = h) as -> by apply substring_prefix.
  assert (String.substring 0 (String.length s - 0) s = s) as -> by (rewrite Nat.sub_0_r; apply substring_all).
  rewrite !indexByte_without_none by done. cbn [orb]. f_equal. f_equal.
  rewrite E. apply substring_after. rewrite length_append. cbn. lia.
Qed.

Lemma Split_Join h p :
  no_brackets h = true -> plain p = true -> SplitHostPort (JoinHostPort h p) = Some (h, p).
Proof.
  intros Hh Hp. unfold JoinHostPort. rewrite indexByte_Some_with.
  destruct (without colon h) eqn:Hc; cbn [negb]; [|by apply Split_bracketed].
  apply Split_unbracketed; [|done]. unfold plain. by rewrite Hc, Hh.
Qed.

(** ** Normal forms of an address *)

(** The ways to write a host [h] with a port [p]; [22] is the default. *)
Inductive address : string -> string -> string -> Prop :=
| address_bare h : h <> "" -> plain h = true -> address h h "22"
| address_v6 a b c : no_brackets (a +:+ ":" +:+ b +:+ ":" +:+ c) = true -> without colon c = true ->
    address (a +:+ ":" +:+ b +:+ ":" +:+ c) (a +:+ ":" +:+ b +:+ ":" +:+ c) "22"
| address_bracketed v : no_brackets v = true -> without colon v = false ->
    address ("[" +:+ v +:+ "]") v "22"
| address_port h p : no_brackets h = true -> plain p = true -> address (JoinHostPort h p) h p.

Lemma Split_bare h : without colon h = true -> SplitHostPort h = None.
Proof. intros Hh. unfold SplitHostPort. by rewrite lastIndexByte_none. Qed.

Lemma Split_v6 a b c :
  no_brackets (a +:+ ":" +:+ b +:+ ":" +:+ c) = true -> without colon c = true ->
  SplitHostPort (a +:+ ":" +:+ b +:+ ":" +:+ c) = None.
Proof.
  intros [Hl _]%andb_true_iff Hc. set (s := a +:+ ":" +:+ b +:+ ":" +:+ c) in *.
  assert (s = (a +:+ ":" +:+ b) +:+ String colon c) as E by (unfold s; by rewrite !append_assoc).
  unfold SplitHostPort. rewrite HasPrefix_lbracket by done. rewrite E at 1.
  rewrite lastIndexByte_last by done.
  replace (String.substring 0 (String.length (a +:+ ":" +:+ b)) s) with (a +:+ ":" +:+ b)
    by (symmetry; rewrite E; apply substring_prefix).
  pose proof (indexByte_in colon a b) as Hin. change (String colon b) with (":" +:+ b) in Hin.
  by rewrite Hin.
Qed.

Lemma Split_bracketed_only v : no_brackets v = true -> SplitHostPort ("[" +:+ v +:+ "]") = None.
Proof.
  intros [_ Hr]%andb_true_iff. unfold SplitHostPort. destruct (lastIndexByte colon _); [|done].
  replace (strings_HasPrefix ("[" +:+ v +:+ "]") "[") with true by (symmetry; apply prefix_append; by eexists).
  assert (indexByte rbracket (("[" +:+ v) +:+ String rbracket "") = Some (S (String.length v))) as He.
  { rewrite indexByte_first; [done|]. by rewrite without_append, Hr. }
  rewrite append_assoc in He. change (String rbracket "") with "]" in He. rewrite He.
  rewrite (proj2 (Nat.eqb_eq _ _)); [done|]. rewrite !length_append. cbn. lia.
Qed.

Lemma strip_brackets v :
  strings_HasPrefix ("[" +:+ v +:+ "]") "[" && strings_HasSuffix ("[" +:+ v +:+ "]") "]" = true /\
  String.substring 1 (String.length ("[" +:+ v +:+ "]") - 2) ("[" +:+ v +:+ "]") = v.
Proof.
  split.
  - replace (strings_HasPrefix ("[" +:+ v +:+ "]") "[") with true by (symmetry; apply prefix_append; by eexists).
    cbn [andb]. unfold strings_HasSuffix.
    rewrite <-append_assoc. rewrite (proj2 (Nat.leb_le _ _)) by (rewrite !length_append; cbn; lia).
    cbn [andb]. apply str_eqb_eq. rewrite !length_append. cbn [String.length].
    replace (1 + String.length v + 1 - 1)%nat with (String.length ("[" +:+ v)) by (rewrite length_append; cbn; lia).
    apply (substring_suffix ("[" +:+ v) "]").
  - rewrite !length_append. cbn [String.length]. replace (1 + (String.length v + 1) - 2)%nat with (String.length v) by lia.
    by apply (substring_middle "[").
Qed.

Lemma normalize_address host h p : address host h p -> normalizeHostAddress host = JoinHostPort h p.
Proof.
  intros Ha. unfold normalizeHostAddress, containsPort. destruct Ha as [h Hne Hp|a b c Hb Hc|v Hb Hc|h p Hh Hp].
  - pose proof Hp as [Hhc [Hl _]%andb_true_iff]%andb_true_iff. rewrite Split_bare by done.
    rewrite (proj2 (str_eqb_neq _ _)) by done. cbn [is_some orb]. by rewrite HasPrefix_lbracket.
  - rewrite Split_v6 by done. apply andb_true_iff in Hb as [Hl _]. cbn [is_some]. rewrite orb_false_r.
    rewrite HasPrefix_lbracket by done. rewrite (proj2 (str_eqb_neq _ _)); [done|]. by destruct a.
  - rewrite Split_bracketed_only by done. cbn [is_some]. rewrite orb_false_r.
    destruct (strip_brackets v) as [-> ->]. by rewrite (proj2 (str_eqb_neq _ _)).
  - rewrite Split_Join by done. by rewrite orb_true_r.
Qed.

Lemma address_parts host h p : address host h p -> no_brackets h = true /\ plain p = true.
Proof. intros []; split; try done. by apply andb_true_iff in H0 as [_ ?]. Qed.

(** C12: host addresses are normalised correctly.  Whatever way a host is
    written (a name or IPv4 address, an IPv6 address with or without brackets,
    or any of these with a port), the address that is dialled splits into that
    host and its port, 22 when none was given, and is itself normal. *)
Theorem normalizeHostAddress_correct host h p :
  address host h p ->
  SplitHostPort (normalizeHostAddress host) = Some (h, p) /\
  normalizeHostAddress (normalizeHostAddress host) = normalizeHostAddress host.
Proof.
  intros Ha. rewrite (normalize_address _ _ _ Ha). destruct (address_parts _ _ _ Ha) as [Hh Hp].
  split; [by apply Split_Join|]. by apply normalize_address, address_port.
Qed.

Lemma normalizeHostAddress_correct_witness :
  SplitHostPort (normalizeHostAddress "[2001:db8::1]") = Some ("2001:db8::1", "22") /\
  normalizeHostAddress "[2001:db8::1]" = "[2001:db8::1]:22".
Proof.
  split; [|vm_compute; reflexivity].
  apply (normalizeHostAddress_correct "[2001:db8::1]"). by apply (address_bracketed "2001:db8::1").
Defined.

(** ** Every connection is released *)

Inductive handle := TcpConn (n : nat) | SshClient (n : nat) | SftpSession (n : nat).

#[export] Instance handle_eq_dec : EqDecision handle.
Proof. solve_decision. Defined.

Fixpoint release (h : handle) (l : list handle) : list handle :=
  match l with
  | [] => []
  | h' :: l => if decide (h = h') then l else h' :: release h l
  end.

(** The handles the program holds after one more effect.  A successful
    handshake turns the TCP connection into the SSH client that owns it. *)
Definition held_after {R} (e : NetE R) : R -> list handle -> list handle :=
  match e in NetE R return R -> list handle -> list handle with
  | DialTCP _ _ => fun x l => match x with inr c => TcpConn c :: l | inl _ => l end
  | CloseConn c => fun _ l => release (TcpConn c) l
  | NewClientConn c _ _ => fun x l => match x with inr s => SshClient s :: release (TcpConn c) l | inl _ => l end
  | CloseSSH s => fun _ l => release (SshClient s) l
  | NewSFTPClient _ => fun x l => match x with inr f => SftpSession f :: l | inl _ => l end
  | CloseSFTP f => fun _ l => release (SftpSession f) l
  | _ => fun _ l => l
  end.

Definition held (tr : trace NetE) : list handle :=
  fold_left (fun l ev => held_after (ev_eff ev) (ev_resp ev) l) tr [].

Lemma held_snoc {R} tr (e : NetE R) x : held (tr ++ [Ev e x]) = held_after e x (held tr).
Proof. unfold held. by rewrite fold_left_app. Qed.

Lemma release_head h l : release h (h :: l) = l.
Proof. cbn. by rewrite decide_True. Qed.

Ltac held_done := rewrite ?held_snoc; cbn [held_after]; rewrite ?release_head; congruence.

Section facts.
  Context `{UnicodeTables}.

(** A dialled connection is the only thing a dial leaves behind. *)
Definition dialled (l : list handle) (r : goerror + nat) (l' : list handle) : Prop :=
  l' = match r with inr c => TcpConn c :: l | inl _ => l end.

Lemma proxyDial_held u addr tr :
  wpg no_guard (proxyDialContext u addr) tr (fun tr' r => dialled (held tr) r (held tr')).
Proof.
  unfold proxyDialContext, dialled. wp_step. wp_step; [done|]. destruct r as [e|c]; cbn beta iota.
  { cbn. held_done. }
  wp_step. wp_step; [done|]. wp_step.
  eapply (wpg_mono _ _ _ (fun tr' _ => held tr' = TcpConn c :: held tr)).
  { destruct r; cbn; [split; [done|intros]|]; held_done. }
  intros tr1 [] _ Hl. wp_step. wp_step; [done|]. destruct r0 as [e|].
  { wp_step. wp_step; [done|]. cbn. rewrite !held_snoc, Hl. cbn [held_after]. by rewrite release_head. }
  wp_step. wp_step; [done|]. destruct r0 as [e|[code status]].
  { wp_step. wp_step; [done|]. cbn. rewrite !held_snoc, Hl. cbn [held_after]. by rewrite release_head. }
  destruct (negb _); wp_step; wp_step; try done; cbn; rewrite !held_snoc, Hl; cbn [held_after];
    by rewrite ?release_head.
Qed.

Lemma netDial_held addr tr :
  wpg no_guard (netDial addr) tr (fun tr' r => dialled (held tr) r (held tr')).
Proof.
  unfold netDial. wp_step. eapply (wpg_mono _ _ _ (fun tr' _ => held tr' = held tr)).
  { unfold getProxyURLForAddr. destruct (default _ _) as [h p]. wp_step. wp_step; [done|].
    destruct r as [e|[u|]]; cbn; [held_done|held_done|]. split; [done|]. intros. held_done. }
  intros tr1 [e|[u|]] _ Hl; cbn beta iota.
  - cbn. done.
  - rewrite <-Hl. apply proxyDial_held.
  - wp_step; [done|]. unfold dialled. rewrite held_snoc, Hl. done.
Qed.

Lemma check_held u p h : wpg no_guard (checkSFTPConnection u p h) [] (fun tr _ => held tr = []).
Proof.
  unfold checkSFTPConnection. wp_step. eapply wpg_mono; [apply netDial_held|]. cbn beta.
  intros tr [e|c] _ Hl; unfold dialled in Hl; change (held []) with (@nil handle) in Hl; [done|].
  wp_step. wp_step; [done|]. destruct r as [e|s].
  { wp_step. wp_step; [done|]. rewrite !held_snoc, Hl. cbn [held_after]. by rewrite release_head. }
  wp_step. unfold verifySFTPSubsystem. wp_step. wp_step; [done|]. destruct r as [e|f]; cbn beta iota.
  - cbn [wpg]. wp_step. wp_step; [done|]. rewrite !held_snoc, Hl. cbn [held_after]. by rewrite !release_head.
  - wp_step. wp_step; [done|]. wp_step. wp_step; [done|].
    rewrite !held_snoc, Hl. cbn [held_after]. by rewrite !release_head.
Qed.

(** ** Wrapping keeps an error transient *)

Lemma errors_Is_Errorf_w t m e :
  (forall m es, t (wrapError m es) = false) -> errors_Is t (Errorf_w m e) = errors_Is t e.
Proof. intros Ht. unfold errors_Is. rewrite errors_As_Errorf_w; [done|]. intros. by rewrite Ht. Qed.

Lemma IsTransientError_Errorf_w m e : IsTransientError (Errorf_w m e) = IsTransientError e.
Proof. unfold IsTransientError. by rewrite !errors_Is_Errorf_w, errors_As_Errorf_w. Qed.

(** The error an effect answered. *)
Definition answered_error (ev : event NetE) : option goerror :=
  (match ev_eff ev in NetE R return R -> option goerror with
   | ProxyFunc _ _ => fun x => match x with inl e => Some e | _ => None end
   | DialTCP _ _ => fun x => match x with inl e => Some e | _ => None end
   | ConnWrite _ _ => fun x => x
   | ReadResponse _ => fun x => match x with inl e => Some e | _ => None end
   | NewClientConn _ _ _ => fun x => match x with inl e => Some e | _ => None end
   | NewSFTPClient _ => fun x => match x with inl e => Some e | _ => None end
   | _ => fun _ => None
   end) (ev_resp ev).

(** The error a failure goes back to: what the network answered, or a proxy
    that refused the tunnel. *)
Definition root_cause (tr : trace NetE) (e : goerror) : Prop :=
  (exists ev, ev ∈ tr /\ answered_error ev = Some e) \/ IsTransientError e = false.

Definition reported (tr : trace NetE) (err : goerror) : Prop :=
  exists e, root_cause tr e /\ IsTransientError err = IsTransientError e.

Lemma reported_prefix tr tr' err : tr `prefix_of` tr' -> reported tr err -> reported tr' err.
Proof.
  intros [l ->] (e & [(ev & Hev & He)|He] & Ht); exists e; (split; [|done]); [left|by right].
  exists ev. split; [|done]. apply elem_of_app. by left.
Qed.

Lemma reported_last {R} tr (x : R) (eff : NetE R) e :
  answered_error (Ev eff x) = Some e -> reported (tr ++ [Ev eff x]) e.
Proof.
  intros He. exists e. split; [|done]. left. exists (Ev eff x). split; [|done].
  apply elem_of_app. right. by apply list_elem_of_singleton.
Qed.

Lemma reported_wrap tr m e : reported tr e -> reported tr (Errorf_w m e).
Proof. intros (c & Hc & Ht). exists c. split; [done|]. by rewrite IsTransientError_Errorf_w. Qed.

Definition left_reported {A} (tr : trace NetE) (r : goerror + A) : Prop :=
  match r with inl e => reported tr e | inr _ => True end.

Lemma proxyDial_reported u addr tr : wpg no_guard (proxyDialContext u addr) tr left_reported.
Proof.
  unfold proxyDialContext. wp_step. wp_step; [done|]. destruct r as [e|c].
  { cbn. by apply reported_wrap, reported_last. }
  wp_step. wp_step; [done|]. wp_step.
  eapply (wpg_mono _ _ _ (fun _ _ => True)); [by destruct r|]. intros tr1 [] _ _.
  wp_step. wp_step; [done|]. destruct r0 as [e|].
  { cbn. split; [done|]. intros []. eapply reported_prefix, reported_wrap, reported_last; [by eexists|done]. }
  wp_step. wp_step; [done|]. destruct r0 as [e|[code status]].
  { cbn. split; [done|]. intros []. eapply reported_prefix, reported_wrap, reported_last; [by eexists|done]. }
  destruct (negb _); cbn; split; try done. intros [].
  exists (errorString ""). split; [by right|done].
Qed.

Lemma netDial_reported addr tr : wpg no_guard (netDial addr) tr left_reported.
Proof.
  unfold netDial. wp_step. eapply (wpg_mono _ _ _ left_reported).
  { unfold getProxyURLForAddr. destruct (default _ _) as [h p]. wp_step. wp_step; [done|].
    destruct r as [e|[u|]]; cbn; [by apply reported_last|done|]. split; [done|].
    intros [e|u]; cbn; [by apply reported_last|done]. }
  intros tr1 [e|[u|]] _ Hr; cbn beta iota.
  - by apply reported_wrap.
  - apply proxyDial_reported.
  - wp_step; [done|]. destruct r; cbn; [by apply reported_last|done].
Qed.

Lemma check_reported u p h :
  wpg no_guard (checkSFTPConnection u p h) []
    (fun tr res => match res with Some err => reported tr err | None => True end).
Proof.
  unfold checkSFTPConnection. wp_step. eapply wpg_mono; [apply netDial_reported|]. cbn beta.
  intros tr [e|c] _ Hr; [by apply reported_wrap|].
  wp_step. wp_step; [done|]. destruct r as [e|s].
  { cbn. split; [done|]. intros []. eapply reported_prefix, reported_wrap, reported_last; [by eexists|done]. }
  wp_step. unfold verifySFTPSubsystem. wp_step. wp_step; [done|]. destruct r as [e|f]; cbn.
  - split; [done|]. intros []. eapply reported_prefix, reported_wrap, reported_last; [by eexists|done].
  - done.
Qed.

End facts.

(** A network that lets the tunnel be set up and then rejects the user. *)
Definition demo_network : handler NetE nat :=
  fun R e n =>
    match e in NetE R return R * nat with
    | ProxyFunc _ _ => (inr (Some (mkProxyURL "http" "proxy.example.com" (Some ("pu", "pp")))), n)
    | DialTCP _ _ => (inr n, S n)
    | CtxDeadline => (None, n)
    | SetDeadline _ _ => (tt, n)
    | ConnWrite _ _ => (None, n)
    | ReadResponse _ => (inr (200%Z, "200 OK"), n)
    | CloseConn _ => (tt, n)
    | NewClientConn _ _ _ => (inl (errorString "ssh: unable to authenticate"), n)
    | CloseSSH _ => (tt, n)
    | NewSFTPClient _ => (inr n, S n)
    | CloseSFTP _ => (tt, n)
    end.

Definition no_tables : UnicodeTables := {| uni_ToLower s := s; uni_Quote s := s |}.



(** ** The CONNECT request *)

Definition lf : ascii := byte_of 10.

Lemma base64_char_not_lf n : Ascii.eqb (base64_char n) lf = false.
Proof.
  unfold base64_char. destruct (nth_in_or_default (N.to_nat n) base64_alphabet "A"%char) as [Hin|Hd].
  - assert (forallb (fun c => negb (Ascii.eqb c lf)) base64_alphabet = true) as Ha by (vm_compute; reflexivity).
    rewrite List.forallb_forall in Ha. apply Ha in Hin. by apply negb_true_iff in Hin.
  - rewrite Hd. reflexivity.
Qed.

Lemma base64_no_lf s : without lf (base64_encode s) = true.
Proof.
  assert (forall n s, (String.length s <= n)%nat -> without lf (base64_encode s) = true) as H.
  { clear s. induction n as [|n IH]; intros [|a [|b [|c s]]] Hn; cbn [String.length] in Hn; try lia;
      cbn [base64_encode without all_bytes]; rewrite ?base64_char_not_lf; cbn [negb andb]; try done.
    apply IH. lia. }
  by apply (H (String.length s)).
Qed.

(** The lines of a request, each still with its carriage return. *)
Definition request_lines (req : string) : list string := split_byte lf req.

Definition cr : string := bytes [13%N].

(** The lines the proxy reads when the address has none of its own. *)
Definition connect_lines (u : ProxyURL) (addr : string) : list string :=
  ["CONNECT " +:+ addr +:+ " HTTP/1.1" +:+ cr; "Host: " +:+ addr +:+ cr]
  ++ (match pu_User u with
      | Some (name, password) => ["Proxy-Authorization: Basic " +:+ base64_encode (name +:+ ":" +:+ password) +:+ cr]
      | None => []
      end)
  ++ [cr; ""].

Lemma request_lines_app s t :
  without lf s = true -> request_lines (s +:+ crlf +:+ t) = (s +:+ cr) :: request_lines t.
Proof.
  intros Hs. unfold request_lines.
  replace (s +:+ crlf +:+ t) with ((s +:+ cr) +:+ String lf t) by (rewrite append_assoc; reflexivity).
  rewrite split_byte_app, (split_byte_none lf (s +:+ cr)); [done|].
  change (without lf (s +:+ cr) = true). by rewrite without_append, Hs.
Qed.

(** The CONNECT request.  For an address without a line feed, the bytes
    sent to the proxy are exactly the request line and the [Host] header for
    that address, the [Proxy-Authorization] header when and only when the proxy
    URL names a user, and the empty line that ends the request. *)
Theorem connectReq_lines u addr :
  without lf addr = true -> request_lines (connectReq u addr) = connect_lines u addr.
Proof.
  intros Ha. unfold connect_lines.
  set (auth := match pu_User u with
               | Some (name, password) => "Proxy-Authorization: Basic " +:+ base64_encode (name +:+ ":" +:+ password) +:+ crlf
               | None => ""
               end).
  assert (connectReq u addr = ("CONNECT " +:+ addr +:+ " HTTP/1.1") +:+ crlf +:+ ("Host: " +:+ addr) +:+ crlf
            +:+ (auth +:+ crlf)) as -> by (unfold connectReq; by rewrite !append_assoc).
  rewrite !request_lines_app by by rewrite !without_append, Ha.
  rewrite !append_assoc. cbn [app]. do 2 f_equal. unfold auth.
  destruct (pu_User u) as [[name password]|]; [|reflexivity].
  replace (("Proxy-Authorization: Basic " +:+ base64_encode (name +:+ ":" +:+ password) +:+ crlf) +:+ crlf)
    with (("Proxy-Authorization: Basic " +:+ base64_encode (name +:+ ":" +:+ password)) +:+ crlf +:+ crlf)
    by by rewrite !append_assoc.
  rewrite request_lines_app by by rewrite without_append, base64_no_lf. by rewrite append_assoc.
Qed.

Lemma connectReq_lines_witness :
  request_lines (connectReq (mkProxyURL "http" "proxy" (Some ("alice", "secret"))) "sftp.example.com:22")
  = ["CONNECT sftp.example.com:22 HTTP/1.1" +:+ cr; "Host: sftp.example.com:22" +:+ cr;
     "Proxy-Authorization: Basic YWxpY2U6c2VjcmV0" +:+ cr; cr; ""].
Proof. rewrite connectReq_lines; vm_compute; reflexivity. Defined.

(** A line in the middle of a text is one of its lines. *)
Lemma inner_line a line b :
  without lf line = true -> (line +:+ cr) ∈ request_lines (a +:+ crlf +:+ line +:+ crlf +:+ b).
Proof.
  intros Hl. unfold request_lines.
  replace (a +:+ crlf +:+ line +:+ crlf +:+ b) with ((a +:+ cr) +:+ String lf (line +:+ crlf +:+ b))
    by (rewrite append_assoc; reflexivity).
  rewrite split_byte_app. apply elem_of_app. right. change (split_byte lf) with request_lines.
  rewrite request_lines_app by done. left.
Qed.

(** Normalisation keeps a host that has no opening bracket. *)
Lemma normalize_around host :
  strings_HasPrefix host "[" = false -> exists p q, normalizeHostAddress host = p +:+ host +:+ q.
Proof.
  intros Hb. unfold normalizeHostAddress. destruct ((host =?s "") || containsPort host).
  { exists "", "". by rewrite append_nil_r. }
  rewrite Hb. unfold JoinHostPort. cbn [andb]. cbv zeta. destruct (is_some (indexByte colon host)).
  - by exists "[", ("]:" +:+ sftpDefaultPort).
  - by exists "", (":" +:+ sftpDefaultPort).
Qed.

(** C16: the host of the custom resource is not checked for line breaks.  Whatever
    line stands between two line breaks of a host that has no opening bracket in
    front, it is, as it is, a line of the request the operator sends to the proxy:
    the author of the resource chooses headers of that request. *)
Theorem host_can_inject_a_header u a line b :
  let host := a +:+ crlf +:+ line +:+ crlf +:+ b in
  strings_HasPrefix host "[" = false -> without lf line = true ->
  (line +:+ cr) ∈ request_lines (connectReq u (normalizeHostAddress host)).
Proof.
  intros host Hb Hl. destruct (normalize_around host Hb) as (p & q & ->). subst host. unfold connectReq.
  pose proof (inner_line ("CONNECT " +:+ p +:+ a) line
    (b +:+ q +:+ " HTTP/1.1" +:+ crlf +:+ "Host: " +:+ (p +:+ (a +:+ crlf +:+ line +:+ crlf +:+ b) +:+ q) +:+ crlf
     +:+ match pu_User u with
         | Some (username, password) => "Proxy-Authorization: Basic " +:+ base64_encode (username +:+ ":" +:+ password) +:+ crlf
         | None => ""
         end +:+ crlf) Hl) as Hin.
  rewrite !append_assoc in Hin. rewrite !append_assoc. exact Hin.
Qed.

Lemma host_can_inject_a_header_witness :
  ("X-Injected: yes" +:+ cr) ∈
    request_lines (connectReq (mkProxyURL "http" "proxy" None)
      (normalizeHostAddress ("h:22 HTTP/1.1" +:+ crlf +:+ "X-Injected: yes" +:+ crlf +:+ "X-Rest: x"))).
Proof. apply host_can_inject_a_header; vm_compute; reflexivity. Defined.
