(* ===== verification/SftpTiming.v ===== *)
(** * What is timed in the trial connection

    Deadlines of the connections [checkSFTPConnection] makes: the dialling has a time limit
    of its own, the exchange with a proxy the one of the context if it has one, and the
    SSH handshake and the SFTP session have none. *)

From S2P Require Import Prelude GoStrings GoErrors GoTime Effects SftpValidation SftpDialing SftpDialingFacts.

(** ** Deadlines *)

(** [SetDeadline] with the zero time clears the deadline. *)
Definition limit (t : Time) : option Time := if Time_IsZero t then None else Some t.

(** The deadline of a connection after one more effect; a new one has none. *)
Definition deadline_after (c : nat) {R} (e : NetE R) : R -> option Time -> option Time :=
  match e in NetE R return R -> option Time -> option Time with
  | DialTCP _ _ => fun x d => match x with inr c' => if decide (c' = c) then None else d | inl _ => d end
  | SetDeadline c' t => fun _ d => if decide (c' = c) then limit t else d
  | _ => fun _ d => d
  end.

Definition conn_deadline (tr : trace NetE) (c : nat) : option Time :=
  fold_left (fun d ev => deadline_after c (ev_eff ev) (ev_resp ev) d) tr None.

(** The deadline of the context, as far as it was asked for. *)
Definition context_after {R} (e : NetE R) : R -> option Time -> option Time :=
  match e in NetE R return R -> option Time -> option Time with
  | CtxDeadline => fun x _ => t ← x; limit t
  | _ => fun _ d => d
  end.

Definition context_deadline (tr : trace NetE) : option Time :=
  fold_left (fun d ev => context_after (ev_eff ev) (ev_resp ev) d) tr None.

(** The time limit each request runs under. *)
Definition timed : guard NetE := fun tr R e =>
  match e with
  | DialTCP _ timeout => timeout = sshDialTimeout
  | ConnWrite c _ | ReadResponse c => conn_deadline tr c = context_deadline tr
  | NewClientConn _ _ _ | NewSFTPClient _ => forall c, conn_deadline tr c = None
  | _ => True
  end.

(** ** Proofs *)

Lemma conn_deadline_snoc {R} tr (e : NetE R) x c :
  conn_deadline (tr ++ [Ev e x]) c = deadline_after c e x (conn_deadline tr c).
Proof. unfold conn_deadline. by rewrite fold_left_app. Qed.

Lemma context_deadline_snoc {R} tr (e : NetE R) x :
  context_deadline (tr ++ [Ev e x]) = context_after e x (context_deadline tr).
Proof. unfold context_deadline. by rewrite fold_left_app. Qed.

(** No connection has a deadline, and the context was not asked for its own. *)
Definition untimed (tr : trace NetE) : Prop :=
  (forall c, conn_deadline tr c = None) /\ context_deadline tr = None.

Definition not_timed (tr : trace NetE) : Prop := forall c, conn_deadline tr c = None.

Ltac timed_simpl :=
  rewrite ?conn_deadline_snoc, ?context_deadline_snoc; cbn [deadline_after context_after];
  repeat case_decide; simplify_eq; try congruence; auto.

Section facts.
  Context `{UnicodeTables}.

(** What a dial leaves behind has no deadline. *)
Definition dialled_untimed (tr : trace NetE) (r : goerror + nat) : Prop :=
  match r with inr _ => not_timed tr | inl _ => True end.

Lemma getProxyURL_timed addr tr :
  untimed tr -> wpg timed (getProxyURLForAddr addr) tr (fun tr' _ => untimed tr').
Proof.
  intros [Hc Hx]. unfold getProxyURLForAddr. destruct (default _ _) as [h p].
  wp_step. wp_step; [done|]. destruct r as [e|[u|]]; cbn [wpg].
  1, 2: by split; intros; timed_simpl.
  split; [done|]. intros r. by split; intros; timed_simpl.
Qed.

Lemma proxyDial_timed u addr tr :
  untimed tr -> wpg timed (proxyDialContext u addr) tr dialled_untimed.
Proof.
  intros [Hc Hx]. unfold proxyDialContext. wp_step. wp_step; [done|]. destruct r as [e|c]; cbn beta iota; [done|].
  wp_step. wp_step; [done|]. rename r into deadline.
  set (tr1 := (tr ++ _) ++ _).
  assert (context_deadline tr1 = t ← deadline; limit t) as Hx1 by (unfold tr1; timed_simpl).
  assert (forall c', conn_deadline tr1 c' = None) as Hc1 by (intros c'; unfold tr1; timed_simpl).
  wp_step.
  eapply (wpg_mono _ _ _ (fun tr' _ => conn_deadline tr' c = context_deadline tr' /\
    forall c', c' <> c -> conn_deadline tr' c' = None)).
  { destruct deadline as [t|]; cbn [wpg]; [split; [done|intros []]|]; split; intros; timed_simpl. by rewrite Hc1, Hx1. }
  intros tr2 [] _ [Hd Ho]. wp_step. wp_step; [done|]. destruct r as [e|]; [by cbn|].
  wp_step. wp_step; [unfold timed; by timed_simpl|]. destruct r as [e|[code status]]; [by cbn|].
  destruct (negb _); [by cbn|]. wp_step. wp_step; [done|]. cbn. intros c'.
  timed_simpl.
Qed.

Lemma netDial_timed addr tr : untimed tr -> wpg timed (netDial addr) tr dialled_untimed.
Proof.
  intros Hu. unfold netDial. wp_step. eapply wpg_mono; [by apply getProxyURL_timed|]. cbn beta.
  intros tr1 [e|[u|]] _ Hu1; [done|by apply proxyDial_timed|].
  wp_step; [done|]. destruct Hu1 as [Hc _]. destruct r as [e|c]; [done|]. cbn. intros c'. timed_simpl.
Qed.

Lemma check_timed u p h : wpg timed (checkSFTPConnection u p h) [] (fun _ _ => True).
Proof.
  unfold checkSFTPConnection. wp_step. eapply wpg_mono; [by apply netDial_timed|]. cbn beta.
  intros tr [e|c] _ Hd; [done|]. wp_step. wp_step; [exact Hd|]. destruct r as [e|s]; [done|].
  wp_step. unfold verifySFTPSubsystem. wp_step. wp_step; [intros c'; unfold dialled_untimed, not_timed in Hd; timed_simpl|].
  by destruct r.
Qed.
End facts.

(** A network behind a proxy, under a context with a deadline. *)
Definition timed_network : handler NetE nat :=
  fun R e n =>
    match e in NetE R return R * nat with
    | CtxDeadline => (Some (mkTime 1700000000 0 0), n)
    | e => demo_network _ e n
    end.

(** C15: The SSH session has no time limit.  Whatever the network answers, the requests of
    [checkSFTPConnection] are timed as follows: each TCP connection is dialled under
    [sshDialTimeout]; what is written to a proxy and read from it is under the deadline of
    the context, if it has one; and the SSH handshake and the start of the SFTP session
    run when no connection has a deadline.  A host that accepts the connection and then stays
    silent is waited for without end: the [Timeout] of the SSH configuration is for
    dialling alone, which this code does not leave to the SSH library. *)
Theorem ssh_session_has_no_deadline `{UnicodeTables} u p h tr res :
  exec (checkSFTPConnection u p h) tr res -> guarded timed tr.
Proof. intros He. by destruct (wpg_sound _ _ _ _ _ (check_timed u p h) He). Qed.

(** The deadline of the context is set, and cleared before the handshake. *)
Lemma ssh_session_has_no_deadline_witness :
  let tr := run_trace timed_network (@checkSFTPConnection no_tables "u" "p" "sftp.example.com") 7 in
  conn_deadline (take 5 tr) 7 = Some (mkTime 1700000000 0 0) /\
  exists pre config x post, tr = pre ++ Ev (NewClientConn 7 "sftp.example.com:22" config) x :: post /\
    cc_Timeout config = (5 * Second)%Z /\ conn_deadline pre 7 = None.
Proof.
  intros tr.
  assert (guarded timed tr) as Hg.
  { exact (@ssh_session_has_no_deadline no_tables "u" "p" "sftp.example.com" tr _
      (run_exec timed_network (@checkSFTPConnection no_tables "u" "p" "sftp.example.com") 7)). }
  split; [vm_compute; reflexivity|].
  exists (take 7 tr), (buildSSHConfig "u" "p" InsecureIgnoreHostKey), (inl (errorString "ssh: unable to authenticate")), (drop 8 tr).
  assert (tr = take 7 tr ++ Ev (NewClientConn 7 "sftp.example.com:22" (buildSSHConfig "u" "p" InsecureIgnoreHostKey))
    (inl (errorString "ssh: unable to authenticate")) :: drop 8 tr) as Htr by (vm_compute; reflexivity).
  split; [exact Htr|]. split; [reflexivity|]. exact (Hg _ _ _ Htr 7%nat).
Defined.
