(* ===== verification/AdmissionPolicy.v ===== *)
(** * The admission policy, [controllers/mustgather/admission_policy.go]

    At start-up the operator installs a [ValidatingAdmissionPolicy] that keeps
    custom resources out of the platform's namespaces.  The first half is the
    policy and its installation; the second states what the policy does, given
    an evaluator of CEL expressions that behaves as documented on the two forms
    the policy uses. *)

From S2P Require Import Prelude GoStrings GoErrors GoTime K8sTypes MustGatherV1 Effects KubeEffects.
From S2P Require Import ApiServer MemCluster Template OperatorUtils TrustedCA Cleanup SftpValidation.
From S2P Require Import MustGatherUtil Reconcile Demo.

Definition blockMustGatherRestrictedNamespacesPolicyName : string := "block-mustgather-restricted-namespaces".

Definition validation (expression message : string) : AdmissionValidation :=
  mkValidation expression message None "".

Definition policyRule : NamedRuleWithOperations :=
  mkRule [] ["CREATE"] ["operator.openshift.io"] ["v1alpha1"; "v1"] ["mustgathers"] None.

Definition blockMustGatherRestrictedNamespacesPolicy : ValidatingAdmissionPolicy :=
  mkVAP (mkMeta blockMustGatherRestrictedNamespacesPolicyName "" "" "" 0 None ∅ [] [])
    (mkVAPSpec None
       (Some (mkMatchResources None None [policyRule] [] None))
       [validation "object.metadata.namespace != 'openshift'"
          "MustGather resources cannot be created in the openshift namespace.";
        validation "!object.metadata.namespace.startsWith('openshift-')"
          "MustGather resources cannot be created in openshift-* namespaces.";
        validation "object.metadata.namespace != 'kube'"
          "MustGather resources cannot be created in the kube namespace.";
        validation "!object.metadata.namespace.startsWith('kube-')"
          "MustGather resources cannot be created in kube-* namespaces.";
        validation "object.metadata.namespace != 'hypershift'"
          "MustGather resources cannot be created in the hypershift namespace.";
        validation "!object.metadata.namespace.startsWith('hypershift-')"
          "MustGather resources cannot be created in hypershift-* namespaces."]
       (Some "Fail") [] [] []).

Definition blockMustGatherRestrictedNamespacesPolicyBinding : ValidatingAdmissionPolicyBinding :=
  mkVAPB (mkMeta blockMustGatherRestrictedNamespacesPolicyName "" "" "" 0 None ∅ [] [])
    (mkVAPBSpec blockMustGatherRestrictedNamespacesPolicyName None None ["Deny"]).

(** ** Installation *)

Definition ensureVAP : kprog (option goerror) :=
  let vap := blockMustGatherRestrictedNamespacesPolicy in
  let* res := call (Get KValidatingAdmissionPolicy
                     (@ObjectKeyFromObject KValidatingAdmissionPolicy vap)) in
  match res with
  | inl err =>
      if IsNotFound err then call (Create KValidatingAdmissionPolicy vap) else Ret (Some err)
  | inr existing =>
      if negb (bool_decide (vap_Spec existing = vap_Spec vap)) then
        let* res := call (Update KValidatingAdmissionPolicy (mkVAP (vap_ObjectMeta existing) (vap_Spec vap))) in
        Ret match res with inl err => Some err | inr _ => None end
      else Ret None
  end.

Definition ensureVAPBinding : kprog (option goerror) :=
  let binding := blockMustGatherRestrictedNamespacesPolicyBinding in
  let* res := call (Get KValidatingAdmissionPolicyBinding
                     (@ObjectKeyFromObject KValidatingAdmissionPolicyBinding binding)) in
  match res with
  | inl err =>
      if IsNotFound err then call (Create KValidatingAdmissionPolicyBinding binding) else Ret (Some err)
  | inr existing =>
      if negb (bool_decide (vapb_Spec existing = vapb_Spec binding)) then
        let* res := call (Update KValidatingAdmissionPolicyBinding
                           (mkVAPB (vapb_ObjectMeta existing) (vapb_Spec binding))) in
        Ret match res with inl err => Some err | inr _ => None end
      else Ret None
  end.

(** Both failures are logged and dropped. *)
Definition ensureAdmissionPolicy : kprog (option goerror) :=
  let* _ := ensureVAP in
  let* _ := ensureVAPBinding in
  Ret None.

(** ** What the policy means *)

(** An evaluator of CEL expressions over [object.metadata.namespace], correct
    on a comparison with a literal and on [startsWith] of a literal. *)
Class Cel := {
  cel_eval : string -> string -> bool;
  cel_neq lit ns : all_bytes (fun c => negb (Ascii.eqb c (byte_of 39))) lit = true ->
    cel_eval ("object.metadata.namespace != '" +:+ lit +:+ "'") ns = (ns <>?s lit);
  cel_startsWith lit ns : all_bytes (fun c => negb (Ascii.eqb c (byte_of 39))) lit = true ->
    cel_eval ("!object.metadata.namespace.startsWith('" +:+ lit +:+ "')") ns = negb (strings_HasPrefix ns lit);
}.

Record AdmissionRequest := mkRequest {
  ar_Operation : string; ar_Group : string; ar_Version : string; ar_Resource : string; ar_Namespace : string;
}.

Definition elem (x : string) (l : list string) : bool := existsb (str_eqb x) l.

(** A rule without resource names, scope or wildcards. *)
Definition rule_matches (r : NamedRuleWithOperations) (q : AdmissionRequest) : bool :=
  elem (ar_Operation q) (rule_Operations r) && elem (ar_Group q) (rule_APIGroups r)
  && elem (ar_Version q) (rule_APIVersions r) && elem (ar_Resource q) (rule_Resources r).

Definition policy_matches (p : ValidatingAdmissionPolicy) (q : AdmissionRequest) : bool :=
  match vap_MatchConstraints (vap_Spec p) with
  | None => false
  | Some mr => existsb (fun r => rule_matches r q) (mr_ResourceRules mr)
               && negb (existsb (fun r => rule_matches r q) (mr_ExcludeResourceRules mr))
  end.

(** Denied by a policy under a binding: the binding names the policy and denies,
    the policy matches, and some validation is false. *)
Definition denied `{Cel} (p : ValidatingAdmissionPolicy) (b : ValidatingAdmissionPolicyBinding)
    (q : AdmissionRequest) : bool :=
  (vapb_PolicyName (vapb_Spec b) =?s om_Name (vap_ObjectMeta p))
  && elem "Deny" (vapb_ValidationActions (vapb_Spec b))
  && policy_matches p q
  && existsb (fun v => negb (cel_eval (v_Expression v) (ar_Namespace q))) (vap_Validations (vap_Spec p)).

(** The platform's namespaces. *)
Definition restricted_namespace (ns : string) : Prop :=
  exists p, p ∈ ["openshift"; "kube"; "hypershift"] /\ (ns = p \/ exists rest, ns = p +:+ "-" +:+ rest).

Lemma elem_spec x l : elem x l = true <-> x ∈ l.
Proof.
  unfold elem. rewrite List.existsb_exists. split.
  - intros (y & Hy & <-%str_eqb_eq). by apply list_elem_of_In.
  - intros Hx. exists x. split; [by apply list_elem_of_In|]. apply str_eqb_refl.
Qed.

Lemma HasPrefix_spec s p : strings_HasPrefix s p = true <-> exists rest, s = p +:+ rest.
Proof. unfold strings_HasPrefix. apply prefix_append. Qed.

Section meaning.
  Context `{Cel}.

Lemma validations_false ns :
  existsb (fun v => negb (cel_eval (v_Expression v) ns))
    (vap_Validations (vap_Spec blockMustGatherRestrictedNamespacesPolicy)) = true <->
  restricted_namespace ns.
Proof.
  cbn [blockMustGatherRestrictedNamespacesPolicy vap_Spec vap_Validations existsb v_Expression validation].
  rewrite (cel_neq "openshift" ns eq_refl : cel_eval "object.metadata.namespace != 'openshift'" ns = _),
    (cel_neq "kube" ns eq_refl : cel_eval "object.metadata.namespace != 'kube'" ns = _),
    (cel_neq "hypershift" ns eq_refl : cel_eval "object.metadata.namespace != 'hypershift'" ns = _),
    (cel_startsWith "openshift-" ns eq_refl
      : cel_eval "!object.metadata.namespace.startsWith('openshift-')" ns = _),
    (cel_startsWith "kube-" ns eq_refl : cel_eval "!object.metadata.namespace.startsWith('kube-')" ns = _),
    (cel_startsWith "hypershift-" ns eq_refl
      : cel_eval "!object.metadata.namespace.startsWith('hypershift-')" ns = _).
  rewrite !orb_true_iff, !negb_involutive, !str_eqb_eq, !HasPrefix_spec. unfold restricted_namespace.
  split.
  - intros [->|[[x ->]|[->|[[x ->]|[->|[[x ->]|?]]]]]]; [| | | | | |done];
      [exists "openshift"|exists "openshift"|exists "kube"|exists "kube"|exists "hypershift"|exists "hypershift"];
      (split; [set_solver|]); first [by left|right; by exists x].
  - intros (p & Hp & Hns). repeat apply elem_of_cons in Hp as [->|Hp]; [..|by apply elem_of_nil in Hp];
      destruct Hns as [->|[rest ->]]; eauto 10.
Qed.

Lemma policy_matches_iff q :
  policy_matches blockMustGatherRestrictedNamespacesPolicy q = true <->
  ar_Operation q = "CREATE" /\ ar_Group q = "operator.openshift.io" /\
  (ar_Version q = "v1alpha1" \/ ar_Version q = "v1") /\ ar_Resource q = "mustgathers".
Proof.
  cbn [policy_matches blockMustGatherRestrictedNamespacesPolicy vap_Spec vap_MatchConstraints mr_ResourceRules
       mr_ExcludeResourceRules existsb].
  unfold rule_matches. cbn [policyRule rule_Operations rule_APIGroups rule_APIVersions rule_Resources].
  rewrite andb_true_r, orb_false_r, !andb_true_iff, !elem_spec. set_solver.
Qed.

End meaning.

(** C17: the policy blocks exactly the platform's namespaces.  With any
    evaluator that is right about the two forms of expression, the installed
    policy and its binding deny a request if and only if it creates a
    [MustGather], in either API version, in a namespace that is [openshift],
    [kube] or [hypershift] or begins with one of these and a dash. *)
Theorem policy_denies_iff `{Cel} q :
  denied blockMustGatherRestrictedNamespacesPolicy blockMustGatherRestrictedNamespacesPolicyBinding q = true <->
  ar_Operation q = "CREATE" /\ ar_Group q = "operator.openshift.io" /\
  (ar_Version q = "v1alpha1" \/ ar_Version q = "v1") /\ ar_Resource q = "mustgathers" /\
  restricted_namespace (ar_Namespace q).
Proof.
  unfold denied. rewrite !andb_true_iff, policy_matches_iff, validations_false.
  split; [tauto|]. intros (? & ? & ? & ? & ?). repeat split; try done.
Qed.

(** An evaluator of exactly these forms. *)
Definition unquote (pre post e : string) : option string :=
  if strings_HasPrefix e pre && strings_HasSuffix e post
  then Some (String.substring (String.length pre) (String.length e - String.length pre - String.length post) e)
  else None.

Definition demo_cel_eval (e ns : string) : bool :=
  match unquote "object.metadata.namespace != '" "'" e with
  | Some lit => ns <>?s lit
  | None =>
      match unquote "!object.metadata.namespace.startsWith('" "')" e with
      | Some lit => negb (strings_HasPrefix ns lit)
      | None => false
      end
  end.

Lemma unquote_quoted pre lit post : unquote pre post (pre +:+ lit +:+ post) = Some lit.
Proof.
  unfold unquote. rewrite HasPrefix_append.
  replace (pre +:+ lit +:+ post) with ((pre +:+ lit) +:+ post) at 1 by by rewrite append_assoc.
  rewrite HasSuffix_append. cbn [andb]. f_equal. rewrite !length_append.
  replace (String.length pre + (String.length lit + String.length post) - String.length pre - String.length post)%nat
    with (String.length lit) by lia.
  by apply substring_middle.
Qed.

#[export, refine] Instance demo_Cel : Cel := {| cel_eval := demo_cel_eval |}.
Proof.
  - intros lit ns _. unfold demo_cel_eval. by rewrite unquote_quoted.
  - intros lit ns _. unfold demo_cel_eval.
    assert (unquote "object.metadata.namespace != '" "'"
              ("!object.metadata.namespace.startsWith('" +:+ lit +:+ "')") = None) as -> by reflexivity.
    by rewrite unquote_quoted.
Defined.

Lemma policy_denies_iff_witness :
  let q := mkRequest "CREATE" "operator.openshift.io" "v1" "mustgathers" "openshift-monitoring" in
  @denied demo_Cel blockMustGatherRestrictedNamespacesPolicy
    blockMustGatherRestrictedNamespacesPolicyBinding q = true.
Proof.
  apply (@policy_denies_iff demo_Cel). split_and!; try done; [by right|].
  exists "openshift". split; [set_solver|]. right. by exists "monitoring".
Defined.

(** ** What the installation does *)

(** The writes of a history. *)
Definition is_write (ev : event KubeE) : bool :=
  match ev_eff ev with
  | Create _ _ | Update _ _ | Delete _ _ | StatusUpdate _ => true
  | _ => false
  end.

Definition vap_key : NamespacedName := mkKey "" blockMustGatherRestrictedNamespacesPolicyName.

(** The installation as a table: what is read, what is written, what is returned. *)
Inductive vap_installed : trace KubeE -> option goerror -> Prop :=
| vap_unreadable e : IsNotFound e = false ->
    vap_installed [Ev (Get KValidatingAdmissionPolicy vap_key) (inl e)] (Some e)
| vap_created e res : IsNotFound e = true ->
    vap_installed
      [Ev (Get KValidatingAdmissionPolicy vap_key) (inl e);
       Ev (Create KValidatingAdmissionPolicy blockMustGatherRestrictedNamespacesPolicy) res] res
| vap_current existing : vap_Spec existing = vap_Spec blockMustGatherRestrictedNamespacesPolicy ->
    vap_installed [Ev (Get KValidatingAdmissionPolicy vap_key) (inr existing)] None
| vap_updated existing res : vap_Spec existing <> vap_Spec blockMustGatherRestrictedNamespacesPolicy ->
    vap_installed
      [Ev (Get KValidatingAdmissionPolicy vap_key) (inr existing);
       Ev (Update KValidatingAdmissionPolicy
             (mkVAP (vap_ObjectMeta existing) (vap_Spec blockMustGatherRestrictedNamespacesPolicy))) res]
      (match res with inl e => Some e | inr _ => None end).

(** The installation of the policy.  [ensureVAP] reads the policy once; it
    creates it when it is absent, overwrites its spec and nothing else when the
    spec differs, and writes nothing when the spec is as it should be; every
    failure is returned. *)
Theorem ensureVAP_installs tr res : exec ensureVAP tr res -> vap_installed tr res.
Proof.
  intros He. apply exec_inv in He as ([e|existing] & tr1 & -> & He); cbn [prog_bind] in He.
  - destruct (IsNotFound e) eqn:Hnf.
    + apply exec_inv in He as (r & tr2 & -> & He). apply exec_inv in He as [-> ->]. by constructor.
    + apply exec_inv in He as [-> ->]. by constructor.
  - destruct (bool_decide_reflect (vap_Spec existing = vap_Spec blockMustGatherRestrictedNamespacesPolicy))
      as [Heq|Hne]; cbn [negb] in He.
    + apply exec_inv in He as [-> ->]. by constructor.
    + apply exec_inv in He as (r & tr2 & -> & He). apply exec_inv in He as [-> ->]. by constructor.
Qed.

Lemma ensureVAP_installs_witness :
  let c := demo_cluster (demo_objects [] [] []) [] in
  vap_installed (run_trace mem_handle ensureVAP c) (run mem_handle ensureVAP c).1 /\
  existsb is_write (run_trace mem_handle ensureVAP c) = true /\
  existsb is_write (run_trace mem_handle ensureVAP (run mem_handle ensureVAP c).2) = false.
Proof.
  intros c. split; [apply ensureVAP_installs, run_exec|]. split; vm_compute; reflexivity.
Defined.
