(* ===== verification/Watches.v ===== *)
(** * Watches: what wakes the reconciler

    The predicates of [controllers/mustgather/predicates.go], the watches
    [SetupWithManager] registers, and the vendored event handlers behind [For]
    and [Owns]: together they map an event on an object to the requests that
    reach [Reconcile]. *)

From S2P Require Import Prelude GoStrings GoErrors GoTime K8sTypes MustGatherV1 Effects KubeEffects.
From S2P Require Import ApiServer MemCluster Conditions OperatorUtils TrustedCA Cleanup SftpValidation.
From S2P Require Import Template MustGatherUtil Reconcile Demo.

(** A [client.Object]; [None] is the nil interface. *)
Definition client_object : Type := option {k : Kind & objOf k}.

Definition obj {k : Kind} (o : objOf k) : client_object := Some (existT k o).

Inductive watch_event :=
| CreateEvent (o : client_object)
| UpdateEvent (objectOld objectNew : client_object)
| DeleteEvent (o : client_object)
| GenericEvent (o : client_object).

(** ** Predicates *)

(** [predicate.Funcs]: a nil function lets the event pass. *)
Record Funcs := mkFuncs {
  CreateFunc : option (client_object -> bool);
  UpdateFunc : option (client_object -> client_object -> bool);
  DeleteFunc : option (client_object -> bool);
  GenericFunc : option (client_object -> bool);
}.

Definition passes (p : Funcs) (ev : watch_event) : bool :=
  match ev with
  | CreateEvent o => match CreateFunc p with Some f => f o | None => true end
  | UpdateEvent old new => match UpdateFunc p with Some f => f old new | None => true end
  | DeleteEvent o => match DeleteFunc p with Some f => f o | None => true end
  | GenericEvent o => match GenericFunc p with Some f => f o | None => true end
  end.

(** The type assertion [o.( *batchv1.Job )]. *)
Definition as_Job (o : client_object) : option Job :=
  match o with
  | Some (existT KJob j) => Some j
  | _ => None
  end.

Definition isStateUpdated : Funcs :=
  mkFuncs
    (Some (fun _ => false))
    (Some (fun objectOld objectNew =>
       match as_Job objectOld with
       | None => false
       | Some oldJob =>
           match as_Job objectNew with
           | None => false
           | Some newJob => negb (bool_decide (job_Status oldJob = job_Status newJob))
           end
       end))
    (Some (fun _ => false))
    (Some (fun _ => false)).

Definition object_meta (o : {k : Kind & objOf k}) : ObjectMeta := meta_of (projT2 o).

(** [GetName] of a nil interface panics; the watches deliver objects. *)
Definition GetName (o : client_object) : string :=
  match o with Some o => om_Name (object_meta o) | None => "" end.

Definition isNameEquals (objectName : string) : Funcs :=
  mkFuncs
    (Some (fun o => GetName o =?s objectName))
    (Some (fun objectOld _ => GetName objectOld =?s objectName))
    (Some (fun o => GetName o =?s objectName))
    (Some (fun o => GetName o =?s objectName)).

Definition resourceGenerationOrFinalizerChangedPredicate : Funcs :=
  mkFuncs None
    (Some (fun objectOld objectNew =>
       match objectOld with
       | None => false
       | Some old =>
           match objectNew with
           | None => false
           | Some new =>
               if (om_Generation (object_meta new) =? om_Generation (object_meta old))%Z
                  && bool_decide (om_Finalizers (object_meta new) = om_Finalizers (object_meta old))
               then false else true
           end
       end))
    None None.

(** ** Event handlers *)

Definition object_key (o : {k : Kind & objOf k}) : NamespacedName :=
  mkKey (om_Namespace (object_meta o)) (om_Name (object_meta o)).

(** [EnqueueRequestForObject]. *)
Definition enqueue_object (ev : watch_event) : list NamespacedName :=
  match ev with
  | CreateEvent (Some o) | DeleteEvent (Some o) | GenericEvent (Some o) => [object_key o]
  | UpdateEvent _ (Some new) => [object_key new]
  | UpdateEvent (Some old) None => [object_key old]
  | _ => []
  end.

Section owner.
  (** The REST mapper: whether [MustGather] is namespaced in a version of its
      group, [None] being an error. *)
  Variable RESTMapping : string -> option bool.

(** [getOwnersReferences] with [OnlyControllerOwner]. *)
Definition getOwnersReferences (o : client_object) : list OwnerReference :=
  match o with
  | None => []
  | Some o => match GetControllerOf (object_meta o) with Some ref => [ref] | None => [] end
  end.

Definition ownerGroup : string := "operator.openshift.io".

(** The loop of [getOwnerReconcileRequest]; an error ends it. *)
Fixpoint owner_requests (namespace : string) (refs : list OwnerReference) (result : gset NamespacedName)
    : gset NamespacedName :=
  match refs with
  | [] => result
  | ref :: refs =>
      match ParseGroupVersion (or_APIVersion ref) with
      | None => result
      | Some (group, version) =>
          if (or_Kind ref =?s MustGatherKind) && (group =?s ownerGroup) then
            match RESTMapping version with
            | None => result
            | Some namespaced =>
                owner_requests namespace refs
                  ({[mkKey (if namespaced then namespace else "") (or_Name ref)]} ∪ result)
            end
          else owner_requests namespace refs result
      end
  end.

Definition getOwnerReconcileRequest (o : client_object) (result : gset NamespacedName) : gset NamespacedName :=
  owner_requests (match o with Some o => om_Namespace (object_meta o) | None => "" end)
    (getOwnersReferences o) result.

(** [EnqueueRequestForOwner]. *)
Definition enqueue_owner (ev : watch_event) : gset NamespacedName :=
  match ev with
  | CreateEvent o | DeleteEvent o | GenericEvent o => getOwnerReconcileRequest o ∅
  | UpdateEvent old new => getOwnerReconcileRequest new (getOwnerReconcileRequest old ∅)
  end.

(** ** SetupWithManager *)

Inductive watch_handler := ForObject | OwnsObject.

Record watch := mkWatch { w_kind : Kind; w_predicate : Funcs; w_handler : watch_handler }.

Definition SetupWithManager_watches (r : MustGatherReconciler) : list watch :=
  [mkWatch KMustGather resourceGenerationOrFinalizerChangedPredicate ForObject;
   mkWatch KJob isStateUpdated OwnsObject]
  ++ (if r_TrustedCAConfigMap r <>?s ""
      then [mkWatch KConfigMap (isNameEquals (r_TrustedCAConfigMap r)) OwnsObject] else []).

(** The requests of one watch for an event on an object of its kind. *)
Definition watch_requests (w : watch) (ev : watch_event) : gset NamespacedName :=
  if passes (w_predicate w) ev then
    match w_handler w with
    | ForObject => list_to_set (enqueue_object ev)
    | OwnsObject => enqueue_owner ev
    end
  else ∅.

(** All requests an event on an object of kind [k] gives rise to. *)
Definition wakes (r : MustGatherReconciler) (k : Kind) (ev : watch_event) : gset NamespacedName :=
  ⋃ (map (fun w => watch_requests w ev) (List.filter (fun w => bool_decide (w_kind w = k)) (SetupWithManager_watches r))).

(** ** Facts *)

Lemma wakes_MustGather r ev :
  wakes r KMustGather ev
  = if passes resourceGenerationOrFinalizerChangedPredicate ev then list_to_set (enqueue_object ev) else ∅.
Proof.
  unfold wakes, SetupWithManager_watches, watch_requests. destruct (_ <>?s _); cbn; set_solver.
Qed.

Lemma wakes_Job r ev : wakes r KJob ev = if passes isStateUpdated ev then enqueue_owner ev else ∅.
Proof.
  unfold wakes, SetupWithManager_watches, watch_requests. destruct (_ <>?s _); cbn; set_solver.
Qed.

Lemma owns_requests k p ev : watch_requests (mkWatch k p OwnsObject) ev ⊆ enqueue_owner ev.
Proof. unfold watch_requests. cbn [w_predicate w_handler]. destruct (passes p ev); set_solver. Qed.

Lemma wakes_ConfigMap r ev : wakes r KConfigMap ev ⊆ enqueue_owner ev.
Proof.
  unfold wakes, SetupWithManager_watches. destruct (_ <>?s _); cbn -[watch_requests]; [|set_solver].
  pose proof (owns_requests KConfigMap (isNameEquals (r_TrustedCAConfigMap r)) ev). set_solver.
Qed.

(** The request for the owner of an object the instance controls. *)
Lemma controlled_request m (o : {k : Kind & objOf k}) result :
  RESTMapping "v1" = Some true ->
  om_OwnerReferences (object_meta o) = [controllerRef (mg_ObjectMeta m)] ->
  om_Namespace (object_meta o) = mg_Namespace m ->
  getOwnerReconcileRequest (Some o) result = {[mkKey (mg_Namespace m) (mg_Name m)]} ∪ result.
Proof.
  intros Hm Hr Hn. unfold getOwnerReconcileRequest, getOwnersReferences, GetControllerOf.
  rewrite Hr, Hn. cbn [List.find is_controller controllerRef or_Controller default from_option id owner_requests
    or_APIVersion or_Kind or_Name].
  change (ParseGroupVersion MustGatherAPIVersion) with (Some ("operator.openshift.io", "v1")).
  cbn beta iota. rewrite !str_eqb_refl. cbn [andb]. by rewrite Hm.
Qed.

End owner.

(** An owner list in which nobody is the controller. *)
Definition no_controller (refs : list OwnerReference) : Prop := Forall (fun ref => is_controller ref = false) refs.

Lemma no_controller_none m : no_controller (om_OwnerReferences m) -> GetControllerOf m = None.
Proof.
  unfold GetControllerOf. induction 1 as [|ref refs Hr Hrs IH]; [done|]. cbn. by rewrite Hr.
Qed.

(** The owners the operator gives to the CA copy. *)
Lemma new_copy_no_controller name m src : no_controller (cm_owners (newTrustedCAConfigMap name m src)).
Proof. by repeat constructor. Qed.

Lemma no_controller_app l m : no_controller l -> no_controller (l ++ [instanceOwnerRef m]).
Proof. intros Hl. apply Forall_app. split; [done|]. by repeat constructor. Qed.

Lemma no_controller_remove uid l : no_controller l -> no_controller (remove_owner uid l).
Proof.
  induction 1 as [|ref l Hr Hl IH]; cbn [remove_owner]; [constructor|].
  destruct (or_UID ref <>?s uid); [by constructor|done].
Qed.

Lemma no_controller_no_request RESTMapping (cm : ConfigMap) result :
  no_controller (cm_owners cm) ->
  getOwnerReconcileRequest RESTMapping (obj (k:=KConfigMap) cm) result = result.
Proof.
  intros Hc. unfold getOwnerReconcileRequest.
  assert (getOwnersReferences (obj (k:=KConfigMap) cm) = []) as ->; [|done].
  pose proof (no_controller_none (cm_ObjectMeta cm) Hc) as Hn.
  change (match GetControllerOf (cm_ObjectMeta cm) with Some ref => [ref] | None => [] end = []). by rewrite Hn.
Qed.

Lemma no_controller_never_wakes RESTMapping r (cm cm' : ConfigMap) :
  no_controller (cm_owners cm) -> no_controller (cm_owners cm') ->
  Forall (fun ev => wakes RESTMapping r KConfigMap ev = ∅)
    [CreateEvent (obj (k:=KConfigMap) cm); UpdateEvent (obj (k:=KConfigMap) cm') (obj (k:=KConfigMap) cm);
     DeleteEvent (obj (k:=KConfigMap) cm)].
Proof.
  intros Hc Hc'.
  assert (forall ev, enqueue_owner RESTMapping ev = ∅ -> wakes RESTMapping r KConfigMap ev = ∅) as He.
  { intros ev Hev. pose proof (wakes_ConfigMap RESTMapping r ev). set_solver. }
  repeat constructor; apply He; cbn [enqueue_owner]; by rewrite !no_controller_no_request.
Qed.

(** C19: what wakes the reconciler.  A Job that the instance controls wakes it,
    and it alone, exactly by an update that changes the Job's status; a change
    of the instance wakes it unless generation and finalizers are unchanged,
    so the reconciler's own status writes never do; its creation and deletion
    always do.  The CA copy never does: the owner references the operator writes are not
    controller references (the copy it creates has none, adding and removing owners
    introduces none), and for a ConfigMap without one no event (creation, update,
    deletion) wakes any instance. *)
Theorem watches_wake_the_owner RESTMapping r m (old new : Job) (m' : MustGather) name src uid (cm cm' : ConfigMap) :
  RESTMapping "v1" = Some true ->
  om_OwnerReferences (job_ObjectMeta old) = [controllerRef (mg_ObjectMeta m)] ->
  om_OwnerReferences (job_ObjectMeta new) = [controllerRef (mg_ObjectMeta m)] ->
  om_Namespace (job_ObjectMeta old) = mg_Namespace m -> om_Namespace (job_ObjectMeta new) = mg_Namespace m ->
  let key := mkKey (mg_Namespace m) (mg_Name m) in
  let wakes := wakes RESTMapping r in
  (wakes KJob (UpdateEvent (obj (k:=KJob) old) (obj (k:=KJob) new))
   = if decide (job_Status old = job_Status new) then ∅ else {[key]}) /\
  wakes KJob (CreateEvent (obj (k:=KJob) new)) = ∅ /\ wakes KJob (DeleteEvent (obj (k:=KJob) old)) = ∅ /\
  wakes KMustGather (CreateEvent (obj (k:=KMustGather) m)) = {[key]} /\
  wakes KMustGather (DeleteEvent (obj (k:=KMustGather) m)) = {[key]} /\
  (wakes KMustGather (UpdateEvent (obj (k:=KMustGather) m') (obj (k:=KMustGather) m))
   = if decide (om_Generation (mg_ObjectMeta m) = om_Generation (mg_ObjectMeta m') /\
                mg_Finalizers m = mg_Finalizers m') then ∅ else {[key]}) /\
  no_controller (cm_owners (newTrustedCAConfigMap name m src)) /\
  (no_controller (cm_owners cm) ->
   no_controller (cm_owners cm ++ [instanceOwnerRef m]) /\ no_controller (remove_owner uid (cm_owners cm))) /\
  (no_controller (cm_owners cm) -> no_controller (cm_owners cm') ->
   Forall (fun ev => wakes KConfigMap ev = ∅)
     [CreateEvent (obj (k:=KConfigMap) cm); UpdateEvent (obj (k:=KConfigMap) cm') (obj (k:=KConfigMap) cm);
      DeleteEvent (obj (k:=KConfigMap) cm)]).
Proof.
  intros Hmap Hro Hrn Hno Hnn key wk. unfold wk. rewrite !wakes_Job, !wakes_MustGather.
  cbn [passes isStateUpdated CreateFunc UpdateFunc DeleteFunc as_Job obj
       resourceGenerationOrFinalizerChangedPredicate enqueue_object].
  split_and!;
    [| | | | | |apply new_copy_no_controller|
     intros Hc; split; [by apply no_controller_app|by apply no_controller_remove]|by apply no_controller_never_wakes];
    try done; try set_solver.
  - destruct (decide (job_Status old = job_Status new)) as [E|E];
      [by rewrite bool_decide_eq_true_2|rewrite bool_decide_eq_false_2 by done]. cbn [negb enqueue_owner].
    rewrite (controlled_request RESTMapping m (existT KJob old)), (controlled_request RESTMapping m (existT KJob new)) by done.
    fold key. set_solver.
  - change (om_Finalizers (object_meta (existT KMustGather m))) with (mg_Finalizers m).
    change (om_Finalizers (object_meta (existT KMustGather m'))) with (mg_Finalizers m').
    change (object_meta (existT KMustGather m)) with (mg_ObjectMeta m).
    change (object_meta (existT KMustGather m')) with (mg_ObjectMeta m').
    destruct (Z.eqb_spec (om_Generation (mg_ObjectMeta m)) (om_Generation (mg_ObjectMeta m')));
      destruct (bool_decide_reflect (mg_Finalizers m = mg_Finalizers m')); cbn [andb];
      case_decide; try tauto; set_solver.
Qed.

Lemma watches_wake_the_owner_witness :
  let m := demo_mustgather [] demo_spec in
  let old := demo_job (job_status 1 0 0) in
  let new := demo_job (job_status 0 1 0) in
  wakes (fun _ => Some true) demo_reconciler KJob (UpdateEvent (obj (k:=KJob) old) (obj (k:=KJob) new)) = {[demo_key]} /\
  wakes (fun _ => Some true) demo_reconciler KConfigMap
    (DeleteEvent (obj (k:=KConfigMap) (newTrustedCAConfigMap "trusted-ca" m demo_ca))) = ∅.
Proof.
  intros m old new.
  pose (cm := newTrustedCAConfigMap "trusted-ca" m demo_ca).
  destruct (watches_wake_the_owner (fun _ => Some true) demo_reconciler m old new m "trusted-ca" demo_ca "" cm cm)
    as (Hw & _ & _ & _ & _ & _ & Hn & _ & Hca); [reflexivity..|]. specialize (Hca Hn Hn). rewrite !Forall_cons in Hca.
  split; [|tauto]. rewrite Hw. rewrite decide_False; [reflexivity|].
  unfold old, new, demo_job, job_status. cbn. congruence.
Defined.
