(* ===== verification/Startup.v ===== *)
(** * Start-up: [main.go], [pkg/k8sutil] and [pkg/mustgatherutil/obfuscate.go]

    How the process finds its namespace, its image and its service account,
    becomes the leader and starts the manager; and the [obfuscate] subcommand.
    The flag package, the leader lock, the manager and the obfuscation tool
    answer from outside. *)

From S2P Require Import Prelude GoStrings GoErrors GoTime Effects K8sTypes MustGatherV1 KubeEffects.

(** The command line flags of the operator, and of the subcommand. *)
Record Flags := mkFlags { fl_ProbeAddr : string; fl_LeaderElect : bool; fl_TrustedCAConfigMap : string }.
Record ObfuscateFlags := mkObfuscateFlags { of_input : string; of_output : string; of_config : string }.

(** A failed read answers whether the file does not exist, and the text of the
    operating system's error. *)
Inductive SysE : Type -> Type :=
| Args : SysE (list string)
| Env (name : string) : SysE (option string)
| ReadFile (path : string) : SysE ((bool * string) + string)
| ParseFlags : SysE Flags
| ParseObfuscateFlags (args : list string) (defaultConfig : string) : SysE (goerror + ObfuscateFlags)
| RunCleaner (config input output : string) (deleteOutputFolder : bool) (reportingFolder : string)
    (workerCount : Z) : SysE (option goerror)
| NewManager (f : Flags) : SysE (option goerror)
| BecomeLeader (lock : string) : SysE (option goerror)
| SetupController (r : MustGatherReconciler) : SysE (option goerror)
| ConfigureMetrics (namespace name : string) : SysE (option goerror)
| AddHealthzCheck (name : string) : SysE (option goerror)
| AddReadyzCheck (name : string) : SysE (option goerror)
| StartManager : SysE (option goerror).

Abbreviation sprog := (prog SysE).

Definition sysGetenv (name : string) : sprog string := let* v := call (Env name) in Ret (default "" v).

(** ** k8sutil *)

Definition ForceRunModeEnv : string := "OSDK_FORCE_RUN_MODE".
Definition LocalRunMode : string := "local".
Definition OperatorNameEnvVar : string := "OPERATOR_NAME".
Definition OperatorNamespaceEnvVar : string := "OPERATOR_NAMESPACE".
Definition namespaceFile : string := "/var/run/secrets/kubernetes.io/serviceaccount/namespace".

Definition ErrNoNamespace : goerror := sentinel "ErrNoNamespace" "namespace not found for current environment".
Definition ErrRunLocal : goerror := sentinel "ErrRunLocal" "operator run mode forced to local".

Definition isRunModeLocal : sprog bool :=
  let* v := sysGetenv ForceRunModeEnv in Ret (v =?s LocalRunMode).

Definition GetOperatorNamespace : sprog (goerror + string) :=
  let* operatorNamespace := call (Env OperatorNamespaceEnvVar) in
  match operatorNamespace with
  | Some ns => Ret (inr ns)
  | None =>
      let* isLocal := isRunModeLocal in
      if isLocal then Ret (inl ErrRunLocal) else
      let* nsBytes := call (ReadFile namespaceFile) in
      match nsBytes with
      | inl (isNotExist, message) => Ret (inl (if (isNotExist : bool) then ErrNoNamespace else errorString message))
      | inr bytes => Ret (inr (strings_TrimSpace bytes))
      end
  end.

Definition GetOperatorName : sprog (goerror + string) :=
  let* operatorName := call (Env OperatorNameEnvVar) in
  Ret match operatorName with
      | None => inl (errorString (OperatorNameEnvVar +:+ " must be set"))
      | Some name =>
          if name =?s "" then inl (errorString (OperatorNameEnvVar +:+ " must not be empty")) else inr name
      end.

(** ** The obfuscate subcommand *)

Definition DefaultObfuscateConfigPath : string := "/etc/must-gather-clean/default-config.yaml".
Definition ObfuscateWorkerCount : Z := 4.

Definition RunObfuscate (args : list string) : sprog Z :=
  let* parsed := call (ParseObfuscateFlags args DefaultObfuscateConfigPath) in
  match parsed with
  | inl _ => Ret 1%Z
  | inr fs =>
      if (of_input fs =?s "") || (of_output fs =?s "") then Ret 1%Z
      else
        let* err := call (RunCleaner (of_config fs) (of_input fs) (of_output fs) true (of_output fs)
                            ObfuscateWorkerCount) in
        Ret match err with Some _ => 1%Z | None => 0%Z end
  end.

(** ** main *)

Definition DefaultMustGatherNamespace : string := "default".
Definition DefaultMustGatherImageEnv : string := "DEFAULT_MUST_GATHER_IMAGE".
Definition OperatorServiceAccountEnv : string := "OPERATOR_SERVICE_ACCOUNT".
Definition OperatorName : string := "must-gather-operator".
Definition leaderLock : string := "must-gather-operator-lock".

Section main.
  Context `{UnicodeTables}.

(** [strings.ToLower(os.Getenv(ForceRunModeEnv)) == LocalRunMode]. *)
Definition forcedLocal : sprog bool :=
  let* v := sysGetenv ForceRunModeEnv in Ret (strings_ToLower v =?s LocalRunMode).

(** The leader lock, skipped in local mode; [Some] is the error that exits. *)
Definition becomeLeader : sprog (option goerror) :=
  let* isLocal := forcedLocal in
  if isLocal then Ret None else call (BecomeLeader leaderLock).

(** The operator's namespace; [None] exits. *)
Definition operatorNamespace : sprog (option string) :=
  let* r := GetOperatorNamespace in
  Ret match r with
      | inr ns => Some ns
      | inl err => if is_sentinel "ErrRunLocal" err then Some DefaultMustGatherNamespace else None
      end.

Definition operatorSAName : sprog (option string) :=
  let* name := sysGetenv OperatorServiceAccountEnv in
  if name =?s "" then
    let* isLocal := forcedLocal in
    Ret (if isLocal then Some OperatorName else None)
  else Ret (Some name).

(** Health checks, then the manager until it stops. *)
Definition startManager : sprog Z :=
  let* err := call (AddHealthzCheck "healthz") in
  match err with
  | Some _ => Ret 1%Z
  | None =>
      let* err := call (AddReadyzCheck "readyz") in
      match err with
      | Some _ => Ret 1%Z
      | None =>
          let* err := call StartManager in
          Ret match err with Some _ => 1%Z | None => 0%Z end
      end
  end.

(** The operator proper, with the exit code of the process. *)
Definition runOperator : sprog Z :=
  let* flags := call ParseFlags in
  let* err := call (NewManager flags) in
  match err with
  | Some _ => Ret 1%Z
  | None =>
      let* err := becomeLeader in
      match err with
      | Some _ => Ret 1%Z
      | None =>
          let* ns := operatorNamespace in
          match ns with
          | None => Ret 1%Z
          | Some ns =>
              let* image := call (Env DefaultMustGatherImageEnv) in
              match image with
              | None => Ret 1%Z
              | Some image =>
                  let* sa := operatorSAName in
                  match sa with
                  | None => Ret 1%Z
                  | Some sa =>
                      let* err := call (SetupController (mkReconciler (fl_TrustedCAConfigMap flags) ns image sa)) in
                      match err with
                      | Some _ => Ret 1%Z
                      | None =>
                          let* _ := call (ConfigureMetrics ns OperatorName) in
                          startManager
                      end
                  end
              end
          end
      end
  end.

Definition main : sprog Z :=
  let* args := call Args in
  match args with
  | _ :: cmd :: rest => if cmd =?s "obfuscate" then RunObfuscate rest else runOperator
  | _ => runOperator
  end.

End main.

(** ** What start-up guarantees *)

Definition did {R} (tr : trace SysE) (e : SysE R) (x : R) : Prop := Ev e x ∈ tr.

Lemma did_prefix {R} tr tr' (e : SysE R) x : tr `prefix_of` tr' -> did tr e x -> did tr' e x.
Proof. intros [l ->] Hd. apply elem_of_app. by left. Qed.

Lemma did_last {R} tr (e : SysE R) x : did (tr ++ [Ev e x]) e x.
Proof. apply elem_of_app. right. by apply list_elem_of_singleton. Qed.

(** The namespace of the operator.  [GetOperatorNamespace] is, in order:
    the variable [OPERATOR_NAMESPACE] if it is set, even to the empty string;
    the error [ErrRunLocal] if the run mode is forced to [local]; otherwise the
    service account's namespace file without surrounding space, and
    [ErrNoNamespace] exactly if that file does not exist. *)
Theorem GetOperatorNamespace_precedence tr res :
  exec GetOperatorNamespace tr res ->
  (exists ns, tr = [Ev (Env OperatorNamespaceEnvVar) (Some ns)] /\ res = inr ns) \/
  (tr = [Ev (Env OperatorNamespaceEnvVar) None; Ev (Env ForceRunModeEnv) (Some LocalRunMode)] /\
   res = inl ErrRunLocal) \/
  (exists mode file, mode <> Some LocalRunMode /\
   tr = [Ev (Env OperatorNamespaceEnvVar) None; Ev (Env ForceRunModeEnv) mode; Ev (ReadFile namespaceFile) file] /\
   res = match file with
         | inr text => inr (strings_TrimSpace text)
         | inl (true, _) => inl ErrNoNamespace
         | inl (false, message) => inl (errorString message)
         end).
Proof.
  intros He. apply exec_inv in He as ([ns|] & tr1 & -> & He); cbn [prog_bind] in He.
  { apply exec_inv in He as [-> ->]. left. eauto. }
  right. apply exec_inv in He as (mode & tr2 & -> & He). cbn [prog_bind] in He.
  str_case (default "" mode) LocalRunMode.
  - apply exec_inv in He as [-> ->]. left. split; [|done]. destruct mode as [m|]; cbn in *; by subst.
  - apply exec_inv in He as (file & tr3 & -> & He). cbn [prog_bind] in He.
    right. exists mode, file. destruct file as [[[] err]|text]; apply exec_inv in He as [-> ->];
      (split_and!; [by intros ->|done|done]).
Qed.

Lemma GetOperatorNamespace_precedence_witness :
  let tr := [Ev (Env OperatorNamespaceEnvVar) None; Ev (Env ForceRunModeEnv) None;
             Ev (ReadFile namespaceFile) (inr (" my-ns" +:+ nl))] in
  (exists ns, tr = [Ev (Env OperatorNamespaceEnvVar) (Some ns)] /\ inr "my-ns" = @inr goerror string ns) \/
  (tr = [Ev (Env OperatorNamespaceEnvVar) None; Ev (Env ForceRunModeEnv) (Some LocalRunMode)] /\
   @inr goerror string "my-ns" = inl ErrRunLocal) \/
  (exists mode file, mode <> Some LocalRunMode /\
   tr = [Ev (Env OperatorNamespaceEnvVar) None; Ev (Env ForceRunModeEnv) mode; Ev (ReadFile namespaceFile) file] /\
   inr "my-ns" = match file with
         | inr text => inr (strings_TrimSpace text)
         | inl (true, _) => inl ErrNoNamespace
         | inl (false, message) => inl (errorString message)
         end).
Proof.
  intros tr. apply GetOperatorNamespace_precedence. unfold tr, GetOperatorNamespace.
  constructor. cbn [prog_bind]. constructor. cbn [prog_bind]. constructor. cbn [prog_bind]. constructor.
Defined.

Section ready.
  Context `{UnicodeTables}.

(** The run mode read was [local], in any case. *)
Definition local_mode (tr : trace SysE) : Prop :=
  exists mode, did tr (Env ForceRunModeEnv) mode /\ strings_ToLower (default "" mode) = LocalRunMode.

Definition leads (tr : trace SysE) : Prop := did tr (BecomeLeader leaderLock) None \/ local_mode tr.

Definition namespace_found (tr : trace SysE) (ns : string) : Prop :=
  did tr (Env OperatorNamespaceEnvVar) (Some ns) \/
  (did tr (Env OperatorNamespaceEnvVar) None /\
   ((did tr (Env ForceRunModeEnv) (Some LocalRunMode) /\ ns = DefaultMustGatherNamespace) \/
    exists text, did tr (ReadFile namespaceFile) (inr text) /\ ns = strings_TrimSpace text)).

Definition sa_found (tr : trace SysE) (sa : string) : Prop :=
  (did tr (Env OperatorServiceAccountEnv) (Some sa) /\ sa <> "") \/ (local_mode tr /\ sa = OperatorName).

(** What has to have happened before the manager starts. *)
Definition ready (tr : trace SysE) : Prop :=
  exists flags ns image sa,
    did tr ParseFlags flags /\ did tr (NewManager flags) None /\ leads tr /\ namespace_found tr ns /\
    did tr (Env DefaultMustGatherImageEnv) (Some image) /\ sa_found tr sa /\
    did tr (SetupController (mkReconciler (fl_TrustedCAConfigMap flags) ns image sa)) None /\
    did tr (AddHealthzCheck "healthz") None /\ did tr (AddReadyzCheck "readyz") None.

Definition on_start : guard SysE := fun tr R e => match e with StartManager => ready tr | _ => True end.

Lemma local_mode_prefix tr tr' : tr `prefix_of` tr' -> local_mode tr -> local_mode tr'.
Proof. intros Hp (m & ? & ?). exists m. eauto using did_prefix. Qed.

Lemma namespace_found_prefix tr tr' ns : tr `prefix_of` tr' -> namespace_found tr ns -> namespace_found tr' ns.
Proof.
  intros Hp [?|[? [[? ?]|(t & ? & ?)]]]; [left; by eapply did_prefix|right|right]; (split; [by eapply did_prefix|]).
  - left. eauto using did_prefix.
  - right. exists t. eauto using did_prefix.
Qed.

Lemma sa_found_prefix tr tr' sa : tr `prefix_of` tr' -> sa_found tr sa -> sa_found tr' sa.
Proof. intros Hp [[? ?]|[? ?]]; [left|right]; eauto using did_prefix, local_mode_prefix. Qed.

Lemma becomeLeader_wp tr :
  wpg on_start becomeLeader tr (fun tr' err => err = None -> leads tr').
Proof.
  unfold becomeLeader, forcedLocal, sysGetenv. wp_step. wp_step. wp_step. wp_step; [done|]. cbn [wpg].
  str_case (strings_ToLower (default "" r)) LocalRunMode; cbn [wpg].
  - intros _. right. exists r. split; [apply did_last|done].
  - wp_step; [done|]. intros ->. left. apply did_last.
Qed.

Lemma operatorNamespace_wp tr :
  wpg on_start operatorNamespace tr (fun tr' ns => forall n, ns = Some n -> namespace_found tr' n).
Proof.
  unfold operatorNamespace, GetOperatorNamespace, isRunModeLocal, sysGetenv.
  wp_step. wp_step. wp_step; [done|]. destruct r as [ns|]; cbn [wpg].
  { intros n [= <-]. left. apply did_last. }
  wp_step. wp_step. wp_step. wp_step; [done|]. cbn [wpg].
  str_case (default "" r) LocalRunMode; cbn [wpg].
  - cbn. intros n [= <-]. right. split; [eapply did_prefix; [|apply did_last]; prefix_go|].
    left. split; [|done]. destruct r as [m|]; cbn in *; [subst; apply did_last|done].
  - wp_step. wp_step; [done|]. destruct r0 as [[[] err]|text]; cbn; [done|done|].
    intros ns [= <-]. right. split; [eapply did_prefix; [|apply did_last]; prefix_go|].
    right. exists text. split; [apply did_last|done].
Qed.

Lemma operatorSAName_wp tr :
  wpg on_start operatorSAName tr (fun tr' sa => forall n, sa = Some n -> sa_found tr' n).
Proof.
  unfold operatorSAName, forcedLocal, sysGetenv. wp_step. wp_step. wp_step; [done|]. cbn [wpg].
  destruct (str_eqb_spec (default "" r) "") as [E|E].
  - wp_step. wp_step. wp_step. wp_step; [done|]. cbn [wpg].
    str_case (strings_ToLower (default "" r0)) LocalRunMode; [|done].
    intros n [= <-]. right. split; [|done]. exists r0. split; [apply did_last|done].
  - cbn. intros n [= <-]. left. split; [|done]. destruct r as [m|]; [apply did_last|done].
Qed.

(** The manager started, or the subcommand's tool ran, when the code is 0. *)
Definition worked (tr : trace SysE) (code : Z) : Prop :=
  code = 1%Z \/ (code = 0%Z /\
    (did tr StartManager None \/ exists c i o, did tr (RunCleaner c i o true o ObfuscateWorkerCount) None)).

Lemma startManager_wp tr :
  (forall tr', tr `prefix_of` tr' -> did tr' (AddHealthzCheck "healthz") None ->
     did tr' (AddReadyzCheck "readyz") None -> ready tr') ->
  wpg on_start startManager tr worked.
Proof.
  intros Hr. unfold startManager. wp_step. wp_step; [done|]. destruct r as [e|]; [by left|].
  wp_step. wp_step; [done|]. destruct r as [e|]; [by left|]. wp_step. wp_step.
  - apply Hr; [prefix_go| |apply did_last]. eapply did_prefix; [|apply did_last]. prefix_go.
  - destruct r as [e|]; [by left|right]. split; [done|]. left. apply did_last.
Qed.

Lemma runOperator_wp tr : wpg on_start runOperator tr worked.
Proof.
  unfold runOperator. wp_step. wp_step; [done|]. rename r into flags. wp_step. wp_step; [done|].
  destruct r as [e|]; [by left|]. set (tr1 := _ ++ [_]).
  assert (did tr1 ParseFlags flags) as Hf by (eapply did_prefix; [|apply did_last]; unfold tr1; prefix_go).
  assert (did tr1 (NewManager flags) None) as Hm by apply did_last. clearbody tr1.
  wp_step. eapply wpg_mono; [apply becomeLeader_wp|]. cbn beta. intros tr2 [e|] Hp2 Hl; [by left|].
  specialize (Hl eq_refl). wp_step. eapply wpg_mono; [apply operatorNamespace_wp|]. cbn beta.
  intros tr3 [ns|] Hp3 Hns; [|by left]. specialize (Hns ns eq_refl).
  wp_step. wp_step; [done|]. destruct r as [image|]; [|by left].
  wp_step. eapply wpg_mono; [apply operatorSAName_wp|]. cbn beta.
  intros tr4 [sa|] Hp4 Hsa; [|by left]. specialize (Hsa sa eq_refl).
  wp_step. wp_step; [done|]. destruct r as [e|]; [by left|]. wp_step. wp_step; [done|].
  apply startManager_wp. intros tr5 Hp5 Hh Hrd. exists flags, ns, image, sa.
  assert (tr1 `prefix_of` tr5) as H15 by prefix_go.
  split_and!; try done; try (by eapply did_prefix).
  - destruct Hl; [left; eapply did_prefix|right; eapply local_mode_prefix]; [|done| |done]; prefix_go.
  - eapply namespace_found_prefix; [|done]. prefix_go.
  - eapply did_prefix; [|apply did_last]. prefix_go.
  - eapply sa_found_prefix; [|done]. prefix_go.
  - eapply did_prefix; [|apply did_last]. prefix_go.
Qed.

Lemma main_wp : wpg on_start main [] worked.
Proof.
  unfold main. wp_step. wp_step; [done|].
  assert (forall rest tr, wpg on_start (RunObfuscate rest) tr worked) as Ho.
  { intros rest tr. unfold RunObfuscate. wp_step. wp_step; [done|]. destruct r0 as [e|fs]; [by left|].
    destruct (_ || _); [by left|]. wp_step. wp_step; [done|]. destruct r0 as [e|]; [by left|].
    right. split; [done|]. right. do 3 eexists. apply did_last. }
  destruct r as [|arg0 [|cmd rest]]; try apply runOperator_wp.
  destruct (cmd =?s "obfuscate"); [apply Ho|apply runOperator_wp].
Qed.

End ready.


(** A run in the cluster. *)
Definition demo_system : handler SysE unit :=
  fun R e s =>
    (match e in SysE R return R with
     | Args => ["manager"]
     | Env name => if name =?s ForceRunModeEnv then None else Some ("value of " +:+ name)
     | ReadFile _ => inl (true, "no such file")
     | ParseFlags => mkFlags ":8081" true "trusted-ca"
     | ParseObfuscateFlags _ c => inr (mkObfuscateFlags "in" "out" c)
     | RunCleaner _ _ _ _ _ _ => None
     | NewManager _ => None
     | BecomeLeader _ => None
     | SetupController _ => None
     | ConfigureMetrics _ _ => None
     | AddHealthzCheck _ => None
     | AddReadyzCheck _ => None
     | StartManager => None
     end, s).


(** The run mode is read in two ways.  [main] compares the run mode
    without regard to case, [GetOperatorNamespace] exactly: with the mode
    [Local] and no [OPERATOR_NAMESPACE] the operator skips the leader lock as
    in local mode, but does not fall back to the default namespace, and exits
    where there is no namespace file. *)
Theorem local_mode_case_mismatch `{UnicodeTables} :
  exec becomeLeader [Ev (Env ForceRunModeEnv) (Some "Local")] None /\
  exec operatorNamespace
    [Ev (Env OperatorNamespaceEnvVar) None; Ev (Env ForceRunModeEnv) (Some "Local");
     Ev (ReadFile namespaceFile) (inl (true, "no such file"))] None /\
  exec operatorNamespace
    [Ev (Env OperatorNamespaceEnvVar) None; Ev (Env ForceRunModeEnv) (Some "local")]
    (Some DefaultMustGatherNamespace).
Proof. split_and!; repeat (constructor; cbn [prog_bind]). Qed.
