(* ===== verification/JobPhases.v ===== *)
(** * How an existing Job is handled

    The three phases of a Job as [Reconcile] sees them, what each one leads to,
    and what happens when there is no Job any more. *)

From S2P Require Import Prelude GoStrings GoErrors GoTime K8sTypes MustGatherV1 Effects KubeEffects.
From S2P Require Import ApiServer MemCluster Conditions OperatorUtils Template MustGatherUtil TrustedCA.
From S2P Require Import Cleanup SftpValidation Reconcile Demo ReconcileSafety.

(** ** Specification *)

Inductive phase := Running | Succeeded | Failed.

(** Active pods keep the Job running; then one success is a success, and more
    failures than the limit a failure. *)
Definition job_phase (job : Job) : phase :=
  let st := job_Status job in
  if (0 <? js_Active st)%Z then Running
  else if (0 <? js_Succeeded st)%Z then Succeeded
  else if (default 0 (jsp_BackoffLimit (job_Spec job)) <? js_Failed st)%Z then Failed
  else Running.

(** The requests of a phase up to its first status write, and that status. *)
Inductive phase_start (m : MustGather) (job : Job) : phase -> trace KubeE -> MustGather -> Prop :=
| start_running now :
    phase_start m job Running [Ev TimeNow now]
      (let m1 := mg_with_Status m (Some (mgs_with_Completed (status_of m)
                   (Some (negb (metav1_IsZero (js_CompletionTime (job_Status job))))))) in
       put_condition m1 (successCondition m1 now))
| start_succeeded :
    phase_start m job Succeeded [] (completed "Completed" "MustGather Job pods succeeded" m)
| start_failed :
    phase_start m job Failed [Ev (MetricInc MetricMustGatherErrors) tt]
      (completed "Failed" "MustGather Job pods failed" m).

(** What follows an accepted status write: nothing while running, otherwise the
    cleanup unless resources are retained; its error is reported. *)
Inductive phase_end (r : MustGatherReconciler) (m' : MustGather) : phase -> trace KubeE -> Outcome -> Prop :=
| end_running : phase_end r m' Running [] (emptyResult, None)
| end_retained ph : ph <> Running -> cleanup_wanted m' = false -> phase_end r m' ph [] (emptyResult, None)
| end_cleaned ph tr : ph <> Running -> cleanup_wanted m' = true ->
    exec (cleanupMustGatherResources r m') tr None -> phase_end r m' ph tr (emptyResult, None)
| end_failed ph tr tr' e o : ph <> Running -> cleanup_wanted m' = true ->
    exec (cleanupMustGatherResources r m') tr (Some e) -> exec (ManageError m' e) tr' o ->
    phase_end r m' ph (tr ++ tr') o.

Section phases.
  Context `{UnicodeTables}.
  Variable r : MustGatherReconciler.

(** After the status write of [handleJobCompletion]. *)
Lemma handleJobCompletion_phases m s t ph tr o :
  ph <> Running -> exec (handleJobCompletion r m s t) tr o ->
  exists res rest, tr = Ev (StatusUpdate (completed s t m)) res :: rest /\
    match res with
    | inl e => is_Some o.2
    | inr m' => phase_end r m' ph rest o
    end.
Proof.
  intros Hph He. apply exec_inv in He as (res & rest & -> & He). exists res, rest. split; [done|].
  cbn [prog_bind] in He. destruct res as [e|m'].
  - destruct (wpg_sound no_guard (ManageError (completed s t m) e) (fun _ o => is_Some o.2) rest o) as [_ Ho]; [|done..].
    unfold ManageError, ManageErrorWithRequeue. wp_go; by eexists.
  - destruct (cleanup_wanted m') eqn:Hw.
    + apply exec_bind_inv in He as (tr1 & tr2 & [e|] & -> & H1 & H2).
      * by econstructor.
      * apply exec_inv in H2 as [-> ->]. rewrite app_nil_r. by constructor.
    + apply exec_inv in He as [-> ->]. by constructor.
Qed.

Lemma reconcileJob_phases m job tr o :
  exec (reconcileJob r m job) tr o ->
  exists before m1 res rest,
    tr = before ++ Ev (StatusUpdate m1) res :: rest /\
    phase_start m job (job_phase job) before m1 /\
    match res with
    | inl e => is_Some o.2
    | inr m' => phase_end r m' (job_phase job) rest o
    end.
Proof.
  assert (forall tr, exec (updateStatus m job) tr o ->
    exists before m1 res rest, tr = before ++ Ev (StatusUpdate m1) res :: rest /\
      phase_start m job Running before m1 /\
      match res with inl e => is_Some o.2 | inr m' => phase_end r m' Running rest o end) as Hrun.
  { intros tr' He. apply exec_inv in He as (now & tr1 & -> & He). cbn [prog_bind] in He.
    apply exec_inv in He as (res & tr2 & -> & He). cbn [prog_bind] in He.
    exists [Ev TimeNow now]. eexists _, res, tr2. split; [done|]. split; [apply start_running|].
    destruct res; apply exec_inv in He as [-> ->]; [by eexists|constructor]. }
  unfold reconcileJob, job_phase. intros He.
  destruct (0 <? js_Active (job_Status job))%Z; [by apply Hrun|].
  destruct (0 <? js_Succeeded (job_Status job))%Z.
  { apply (handleJobCompletion_phases _ _ _ Succeeded) in He as (res & rest & -> & Ho); [|done].
    exists []. eexists _, res, rest. split; [done|]. split; [constructor|done]. }
  destruct (default 0 (jsp_BackoffLimit (job_Spec job)) <? js_Failed (job_Status job))%Z; [|by apply Hrun].
  apply exec_inv in He as ([] & tr1 & -> & He). cbn [prog_bind] in He.
  apply (handleJobCompletion_phases _ _ _ Failed) in He as (res & rest & -> & Ho); [|done].
  exists [Ev (MetricInc MetricMustGatherErrors) tt]. eexists _, res, rest.
  split; [done|]. split; [constructor|done].
Qed.

End phases.

(** An existing Job is handled by its phase.  While it runs (active pods,
    or failures within the back-off limit) one status write refreshes
    [Completed] and the success condition.  Once it has succeeded, or failed
    more often than the limit allows, the status records the completion first
    (the error counter going up before it for a failure), and only when that
    write was accepted the cleanup of the accepted instance follows, unless
    resources are retained; a refused write, or a failed cleanup, is reported. *)
Theorem existing_job_handled_by_phase `{UnicodeTables} r m job tr o :
  exec (reconcileJob r m job) tr o ->
  exists before m1 res rest,
    tr = before ++ Ev (StatusUpdate m1) res :: rest /\
    phase_start m job (job_phase job) before m1 /\
    match res with
    | inl e => is_Some o.2
    | inr m' => phase_end r m' (job_phase job) rest o
    end.
Proof. apply reconcileJob_phases. Qed.

Lemma existing_job_handled_by_phase_witness :
  let job := demo_job (job_status 0 0 4) in
  let m := demo_mustgather [mustGatherFinalizer] demo_spec in
  let c := demo_cluster (demo_objects [m] [job] [demo_pod]) [] in
  job_phase job = Failed /\
  exists before m1 res rest,
    run_trace mem_handle (reconcileJob demo_reconciler m job) c = before ++ Ev (StatusUpdate m1) res :: rest /\
    phase_start m job Failed before m1.
Proof.
  intros job m c. split; [reflexivity|].
  destruct (@existing_job_handled_by_phase ascii_tables demo_reconciler m job _ _
    (run_exec mem_handle (reconcileJob demo_reconciler m job) c)) as (b & m1 & res & rest & Ht & Hs & _).
  by exists b, m1, res, rest.
Defined.

(** ** No Job any more *)

(** Exactly one Job is asked for. *)
Definition created_jobs (tr : trace KubeE) : nat := length (filter (fun ev => is_create_job ev = true) tr).

(** [answer x] gives the next request of an execution the answer [x]. *)
Ltac answer x := apply exec_Vis with (r := x); cbn [prog_bind].

Ltac in_history := repeat (first [apply list_elem_of_here|apply list_elem_of_further]).

(** C25: a completed gather is started again.  Nothing in [Reconcile] looks at
    [Completed].  Take any instance that carries the finalizer and needs neither
    CA copy, obfuscation ConfigMap, image stream nor SFTP, and whose status says
    that the gather is complete.  When it is reconciled and its Job is not
    there, as after the cleanup that follows completion, there is an execution
    in which every other request is answered normally, one Job is created, the
    counter of gathers goes up, and success is reported. *)
Theorem completed_gather_is_started_again `{UnicodeTables} r req m0 st (op : string) (now : Time) (sa : ServiceAccount) :
  let m := mg_with_Status m0 (Some (mgs_with_Completed st (Some true))) in
  r_TrustedCAConfigMap r = "" -> active r m ->
  getObfuscateConfigMapRefName (spec_Obfuscate (mg_Spec m)) = "" ->
  spec_ImageStreamRef (mg_Spec m) = None -> sftp_of m = None ->
  exists tr job, exec (Reconcile r req) tr (emptyResult, None) /\
    saw tr (Get KMustGather req) (inr m) /\ saw tr (Get KJob (jobKey m)) (inl (NewNotFound "")) /\
    saw tr (Create KJob job) None /\ saw tr (MetricInc MetricMustGatherTotal) tt /\
    created_jobs tr = 1%nat.
Proof.
  intros m Hca (Hdel & Hfin & Hsa) Hobf His Hsftp. do 2 eexists. split.
  { unfold Reconcile. answer (@inr goerror MustGather m). rewrite Hdel, Hfin, Hsa.
    cbn [has negb]. unfold reconcileActive, prepare. rewrite Hca, Hobf, str_eqb_refl. cbn [negb prog_bind].
    answer (@inl goerror Job (NewNotFound "")). rewrite IsNotFound_NewNotFound. cbn [negb].
    unfold reconcileCreate, getJobFromInstance, getMustGatherImage. rewrite His. cbn [prog_bind call].
    answer (Some op). answer now. unfold GenerateMustGatherDirectoryName, getClusterIDSuffix. cbn [prog_bind call].
    answer (@inl goerror ClusterVersion (NewNotFound "")). answer 0%Z.
    unfold getJobTemplate, ReadProxyVarsFromEnv. cbn [prog_bind call readProxyVars ProxyEnvNames].
    answer (@None string). answer (@None string). answer (@None string).
    answer (@inr goerror ServiceAccount sa).
    unfold checkSecretAndSFTP. rewrite Hsftp. cbn [prog_bind call CreateResourceIfNotExists].
    answer (@None goerror). answer tt. unfold ManageSuccess, ManageSuccessWithRequeue. cbn [prog_bind call].
    answer now. answer (@inr goerror MustGather m). constructor. }
  unfold saw. split_and!; [in_history..|]. reflexivity.
Qed.

Lemma completed_gather_is_started_again_witness :
  let r := mkReconciler "" "operator-ns" "image" "operator-sa" in
  let spec := mkMustGatherSpec "default" None None None None None None None in
  let st := mkMustGatherStatus [] (Some "Completed") None (Some "MustGather Job pods succeeded") None in
  exists tr job, exec (@Reconcile ascii_tables r demo_key) tr (emptyResult, None) /\
    saw tr (Create KJob job) None.
Proof.
  intros r spec st.
  destruct (@completed_gather_is_started_again ascii_tables r demo_key
    (demo_mustgather [mustGatherFinalizer] spec) st "operator" (mkTime 0 0 0)
    (mkServiceAccount emptyMeta)) as (tr & job & He & _ & _ & Hc & _); try reflexivity; [by repeat split|].
  by exists tr, job.
Defined.
