(* ===== verification/Lifecycle.v ===== *)
(** * The life of a gather on a well-behaved API server

    The safety theorems say what [Reconcile] never does; this file says what it
    gets done.  Against any API server that keeps the laws of [ApiServer], with
    nobody else writing during the call: cleanup removes what the instance
    owns and nothing else, and deletion lets the instance go. *)

From S2P Require Import Prelude GoStrings GoErrors GoTime K8sTypes MustGatherV1 Effects KubeEffects.
From S2P Require Import ApiServer MemCluster Conditions OperatorUtils Template MustGatherUtil TrustedCA.
From S2P Require Import Cleanup SftpValidation Reconcile Demo TrustedCARefinement.

(** ** What cleanup leaves behind *)

Section cleaned.
  Context {St : Type} `{ApiServer St}.
  Variable r : MustGatherReconciler.

(** The Job under the instance's name, if the instance owns it. *)
Definition own_job (m : MustGather) (s : St) : option Job :=
  match api_lookup s KJob (jobKey m) with
  | Some job => if owned_by (mg_UID m) (om_OwnerReferences (job_ObjectMeta job)) then Some job else None
  | None => None
  end.

(** A pod of a Job, by the label the Job controller sets. *)
Definition pod_of (m : MustGather) (job : Job) (p : Pod) : Prop :=
  om_Namespace (pod_ObjectMeta p) = mg_Namespace m /\
  labels_match (jobPodLabels (om_UID (job_ObjectMeta job))) (pod_ObjectMeta p).

(** Whether the operator keeps a CA copy for the instance. *)
Definition ca_managed (m : MustGather) : Prop :=
  r_TrustedCAConfigMap r <> "" /\ mg_Namespace m <> r_OperatorNamespace r.

(** What cleanup relies on: no finalizer holds the Job or its pods, and the CA
    copy is in the state [ca_copy_refines_user_set] describes. *)
Record cleanable (m : MustGather) (s : St) : Prop := {
  cl_job job : own_job m s = Some job -> om_Finalizers (job_ObjectMeta job) = [];
  cl_pods job p : own_job m s = Some job -> pod_of m job p ->
    api_lookup s KPod (@ObjectKeyFromObject KPod p) = Some p -> om_Finalizers (pod_ObjectMeta p) = [];
  cl_ca : ca_managed m -> ca_inv r (mg_Namespace m) s;
}.

(** The objects cleanup may touch. *)
Definition in_cleanup (m : MustGather) (s : St) (k : Kind) (key : NamespacedName) : Prop :=
  match k with
  | KJob => key = jobKey m
  | KPod => exists job p, own_job m s = Some job /\ pod_of m job p /\
              key = @ObjectKeyFromObject KPod p /\ api_lookup s KPod key = Some p
  | KConfigMap => ca_managed m /\ key = copy_key r (mg_Namespace m)
  | _ => False
  end.

(** The store after cleanup. *)
Record cleaned (m : MustGather) (s s' : St) : Prop := {
  cd_job : own_job m s' = None;
  cd_pods job p : own_job m s = Some job -> pod_of m job p ->
    api_lookup s KPod (@ObjectKeyFromObject KPod p) = Some p ->
    api_lookup s' KPod (@ObjectKeyFromObject KPod p) = None;
  cd_ca : ca_managed m ->
    ca_inv r (mg_Namespace m) s' /\
    users r (mg_Namespace m) s'
    = if is_some (own_job m s) then users r (mg_Namespace m) s ∖ {[mg_UID m]} else users r (mg_Namespace m) s;
  cd_frame : (own_job m s = None -> unchanged api_lookup s s') /\
    forall k key, ~ in_cleanup m s k key -> api_lookup s' k key = api_lookup s k key;
}.

(** Deleting pods that are there and that no finalizer holds. *)
Lemma delete_all (pods : list Pod) (s : St) :
  NoDup (@ObjectKeyFromObject KPod <$> pods) ->
  (forall p, p ∈ pods -> api_lookup s KPod (@ObjectKeyFromObject KPod p) = Some p /\
     om_Finalizers (pod_ObjectMeta p) = []) ->
  exists s', run api_handle (DeleteResourcesIfExist (k:=KPod) pods) s = (None, s') /\
    (forall p, p ∈ pods -> api_lookup s' KPod (@ObjectKeyFromObject KPod p) = None) /\
    forall k key, ~ (k = KPod /\ exists p, p ∈ pods /\ key = @ObjectKeyFromObject KPod p) ->
      api_lookup s' k key = api_lookup s k key.
Proof.
  revert s. induction pods as [|p pods IH]; intros s Hnd Hin.
  { exists s. split_and!; [done|set_solver|done]. }
  cbn in Hnd. apply NoDup_cons in Hnd as [Hp Hnd].
  destruct (Hin p) as [Hl Hf]; [set_solver|].
  destruct (api_Delete_existing s KPod p p Hl Hf) as (s1 & Hrun & Hgone & Ho).
  assert (forall q, q ∈ pods -> @ObjectKeyFromObject KPod q <> @ObjectKeyFromObject KPod p) as Hne.
  { intros q Hq E. apply Hp, list_elem_of_fmap. by exists q. }
  destruct (IH s1 Hnd) as (s' & Hrun' & Hall & Hframe).
  { intros q Hq. destruct (Hin q) as [Hl' Hf']; [set_solver|]. split; [|done].
    rewrite Ho; [done|]. intros E. apply (Hne q Hq). congruence. }
  exists s'. split_and!.
  - unfold DeleteResourcesIfExist, DeleteResourceIfExists in *. cbn [for_each].
    rewrite run_bind. erewrite run_call by exact Hrun. exact Hrun'.
  - intros q [->|Hq]%elem_of_cons; [|by apply Hall].
    rewrite Hframe; [done|]. intros (_ & q & Hq & E). by apply (Hne q Hq).
  - intros k key Hk. rewrite Hframe by (intros (-> & q & Hq & ->); apply Hk; split; [done|]; exists q; set_solver).
    apply Ho. intros E. apply Hk. assert (k = KPod) as -> by congruence. split; [done|]. exists p. split; [set_solver|]. congruence.
Qed.

(** *** Cleanup *)

Lemma own_job_Some m s job : own_job m s = Some job ->
  api_lookup s KJob (jobKey m) = Some job /\
  owned_by (mg_UID m) (om_OwnerReferences (job_ObjectMeta job)) = true.
Proof. unfold own_job. intros Hj. by repeat case_match; simplify_eq. Qed.

(** The CA part of the store depends on the ConfigMaps alone. *)
Lemma ca_transport ns s s' :
  (forall key, api_lookup s' KConfigMap key = api_lookup s KConfigMap key) ->
  users r ns s' = users r ns s /\ (ca_inv r ns s -> ca_inv r ns s').
Proof. intros Hk. unfold ca_inv, users, the_copy. by rewrite !Hk. Qed.

(** Nothing owned, nothing done. *)
Lemma cleaned_refl m s : cleanable m s -> own_job m s = None -> cleaned m s s.
Proof. intros Hc Hj. split; rewrite ?Hj; try done. intros Hm. split; [by apply Hc|done]. Qed.

(** The last step of cleanup. *)
Lemma release_ca m s :
  (ca_managed m -> ca_inv r (mg_Namespace m) s) ->
  exists s', run api_handle (if r_TrustedCAConfigMap r <>?s "" then cleanupTrustedCAConfigMap r m else Ret None) s
    = (None, s') /\
    (ca_managed m -> simulates r (mg_Namespace m) s s' (users r (mg_Namespace m) s ∖ {[mg_UID m]})) /\
    (~ ca_managed m -> s' = s).
Proof.
  intros Hca. str_case (r_TrustedCAConfigMap r) ""; cbn [negb].
  { exists s. split_and!; [done| |done]. by intros [? _]. }
  destruct (decide (mg_Namespace m = r_OperatorNamespace r)) as [Hns|Hns].
  { exists s. unfold cleanupTrustedCAConfigMap. rewrite Hns, str_eqb_refl. split_and!; [done| |done].
    by intros [_ ?]. }
  destruct (cleanup_refines r (mg_Namespace m) Hns m s eq_refl) as (s' & Hrun & Hsim).
  { by apply Hca. }
  exists s'. split_and!; [done|done|]. intros Hm. exfalso. by apply Hm.
Qed.

(** The three deletions, from the listed pods to the CA copy. *)
Lemma cleanup_owned m s job :
  cleanable m s -> own_job m s = Some job ->
  exists s', run api_handle (cleanupMustGatherResources r m) s = (None, s') /\ cleaned m s s'.
Proof.
  intros [Hjf Hpf Hca] Hj. destruct (own_job_Some _ _ _ Hj) as [Hl Hown].
  pose proof (api_lookup_key s KJob _ _ Hl) as Hkey.
  unfold cleanupMustGatherResources. erewrite run_call by exact (api_Get_found s KJob _ _ Hl).
  cbn beta iota. rewrite Hown. cbn [negb].
  destruct (api_ListPods s (mg_Namespace m) (jobPodLabels (om_UID (job_ObjectMeta job))))
    as (pods & Hlist & Hnd & Hin).
  erewrite run_call by exact Hlist. cbn beta iota.
  destruct (delete_all pods s Hnd) as (s1 & Hrun1 & Hgone & Hframe1).
  { intros p Hp. apply Hin in Hp as (? & ? & ?). split; [done|]. by apply (Hpf job p Hj). }
  rewrite run_bind, Hrun1. cbn beta iota.
  assert (api_lookup s1 KJob (jobKey m) = Some job) as Hl1 by (rewrite Hframe1; [done|by intros [? _]]).
  destruct (api_Delete_existing s1 KJob job job) as (s2 & Hrun2 & Hgone2 & Hframe2);
    [by rewrite Hkey|by apply Hjf|]. rewrite Hkey in Hgone2, Hframe2.
  erewrite run_call by exact Hrun2. cbn beta iota.
  assert (forall key, api_lookup s2 KConfigMap key = api_lookup s KConfigMap key) as Hcm.
  { intros key. rewrite Hframe2 by congruence. apply Hframe1. by intros [? _]. }
  destruct (ca_transport (mg_Namespace m) s s2 Hcm) as [Hu Hi].
  destruct (release_ca m s2) as (s' & Hrun & Hsim & Hsame); [auto|].
  exists s'. split; [exact Hrun|].
  assert (forall k key, ~ (ca_managed m /\ k = KConfigMap /\ key = copy_key r (mg_Namespace m)) ->
            api_lookup s' k key = api_lookup s2 k key) as Hframe3.
  { intros k key Hk. destruct (decide (k = KConfigMap /\ key = copy_key r (mg_Namespace m))) as [[-> ->]|Hne].
    - rewrite Hsame; [done|]. intros Hm. by apply Hk.
    - destruct (decide (r_TrustedCAConfigMap r = "" \/ mg_Namespace m = r_OperatorNamespace r)) as [Hd|Hd].
      + rewrite Hsame; [done|]. intros [? ?]. tauto.
      + apply Hsim; [unfold ca_managed; tauto|]. intros E. apply Hne. split; congruence. }
  split.
  - unfold own_job. rewrite Hframe3 by (intros (_ & ? & _); done). by rewrite Hgone2.
  - intros job' p Hj' Hp Hlp. simplify_eq. rewrite Hframe3 by (intros (_ & ? & _); done).
    rewrite Hframe2 by congruence. apply Hgone, Hin. by destruct Hp.
  - intros Hm. destruct (Hsim Hm) as (Hu' & Hi' & _). rewrite Hj, Hu', Hu. done.
  - rewrite Hj. split; [done|]. intros k key Hk. rewrite Hframe3, Hframe2.
    + apply Hframe1. intros (-> & p & Hp & ->). apply Hk. cbn. apply Hin in Hp as (Hlp & ? & ?).
      exists job, p. split_and!; try done.
    + intros E. apply Hk. assert (k = KJob) as -> by congruence. cbn. congruence.
    + intros (Hm & -> & ->). by apply Hk.
Qed.

Lemma cleanup_completes m s :
  cleanable m s ->
  exists s', run api_handle (cleanupMustGatherResources r m) s = (None, s') /\ cleaned m s s'.
Proof.
  intros Hc. destruct (own_job m s) as [job|] eqn:Hj; [by eapply cleanup_owned|].
  exists s. split; [|by apply cleaned_refl]. unfold cleanupMustGatherResources.
  unfold own_job in Hj. destruct (api_lookup s KJob (jobKey m)) as [job|] eqn:Hl.
  - erewrite run_call by exact (api_Get_found s KJob _ _ Hl). cbn beta iota. by destruct (owned_by _ _).
  - destruct (api_Get_missing s KJob _ Hl) as (e & He & Hget). erewrite run_call by exact Hget.
    cbn beta iota. by rewrite He.
Qed.

(** *** Preparation *)

(** The CA copy before the Job: the instance becomes one of its users. *)
Definition prepared (m : MustGather) (s s' : St) : Prop :=
  (ca_managed m ->
   simulates r (mg_Namespace m) s s' (users r (mg_Namespace m) s ∪ {[mg_UID m]})) /\
  (~ ca_managed m -> s' = s).

Record preparable (m : MustGather) (s : St) : Prop := {
  pp_ca : ca_managed m -> ca_inv r (mg_Namespace m) s;
  pp_obfuscation name : getObfuscateConfigMapRefName (spec_Obfuscate (mg_Spec m)) = name -> name <> "" ->
    is_Some (api_lookup s KConfigMap (mkKey (mg_Namespace m) name));
}.

Lemma prepared_frame m s s' : prepared m s s' ->
  forall k key, (k, key) <> (KConfigMap, copy_key r (mg_Namespace m)) ->
    api_lookup s' k key = api_lookup s k key.
Proof.
  intros [Hm Hn] k key Hk. unfold ca_managed in *.
  destruct (decide (r_TrustedCAConfigMap r = "" \/ mg_Namespace m = r_OperatorNamespace r)) as [Hd|Hd].
  - rewrite Hn; [done|tauto].
  - by apply Hm; [tauto|].
Qed.

(** A ConfigMap that was there still is: the copy itself has a user now. *)
Lemma prepared_configmap m s s' key : prepared m s s' ->
  is_Some (api_lookup s KConfigMap key) -> is_Some (api_lookup s' KConfigMap key).
Proof.
  intros Hp Hk. destruct (decide (key = copy_key r (mg_Namespace m))) as [->|Hne].
  2: { rewrite (prepared_frame _ _ _ Hp); [done|congruence]. }
  destruct Hp as [Hm Hn]. unfold ca_managed in *.
  destruct (decide (r_TrustedCAConfigMap r = "" \/ mg_Namespace m = r_OperatorNamespace r)) as [Hd|Hd].
  - rewrite Hn; [done|tauto].
  - destruct Hm as (Hu & Hi & _); [tauto|]. apply (copy_exists_iff _ _ _ Hi). set_solver.
Qed.

Lemma prepare_completes `{UnicodeTables} m s :
  preparable m s -> exists s', run api_handle (prepare r m) s = (None, s') /\ prepared m s s'.
Proof.
  intros [Hca Hob].
  assert (exists s', run api_handle
            (if r_TrustedCAConfigMap r <>?s "" then ensureTrustedCAConfigMap r m else Ret None) s = (None, s') /\
            prepared m s s') as (s' & Hrun & Hp).
  { unfold prepared, ca_managed in *. str_case (r_TrustedCAConfigMap r) ""; cbn [negb].
    { exists s. split_and!; [done|tauto|done]. }
    destruct (decide (mg_Namespace m = r_OperatorNamespace r)) as [Hns|Hns].
    - exists s. unfold ensureTrustedCAConfigMap. rewrite Hns, str_eqb_refl. split_and!; [done|tauto|done].
    - destruct (ensure_refines r (mg_Namespace m) Hns m s eq_refl) as (s' & Hrun & Hsim); [by apply Hca|].
      exists s'. split_and!; [done|done|tauto]. }
  exists s'. split; [|done]. unfold prepare. rewrite run_bind, Hrun. cbn beta iota.
  str_case (getObfuscateConfigMapRefName (spec_Obfuscate (mg_Spec m))) ""; cbn [negb]; [done|].
  destruct (prepared_configmap _ _ _ _ Hp (Hob _ eq_refl n)) as [cm Hcm].
  by erewrite run_call by exact (api_Get_found s' KConfigMap _ cm Hcm).
Qed.

End cleaned.

(** ** Deletion *)

(** The finalizers of others. *)
Definition other_finalizers (m : MustGather) : list string :=
  filter (fun f => f <> mustGatherFinalizer) (mg_Finalizers m).

Lemma remove_finalizer_others m : mg_Finalizers (remove_finalizer m) = other_finalizers m.
Proof.
  unfold remove_finalizer, other_finalizers. cbn. unfold mg_Finalizers. set (l := om_Finalizers _).
  induction l as [|f l IH]; [done|]. cbn [List.filter]. rewrite filter_cons, IH.
  str_case f mustGatherFinalizer; case_decide; done.
Qed.

(** The instance once the operator's finalizer is off: gone with the last
    finalizer, and kept for the others. *)
Definition let_go (m : MustGather) (now_stored : option MustGather) : Prop :=
  match other_finalizers m with
  | [] => now_stored = None
  | fs => exists m', now_stored = Some m' /\ mg_Finalizers m' = fs /\ mg_Spec m' = mg_Spec m
  end.

Lemma remove_finalizer_update {St : Type} `{ApiServer St} m req (s : St) :
  api_lookup s KMustGather req = Some m -> is_Some (om_DeletionTimestamp (mg_ObjectMeta m)) ->
  exists s' m', api_handle _ (Update KMustGather (remove_finalizer m)) s = (inr m', s') /\
    let_go m (api_lookup s' KMustGather req) /\ only_changes api_lookup s s' KMustGather req.
Proof.
  intros Hl [t Ht]. pose proof (api_lookup_key s KMustGather _ _ Hl) as Hkey.
  assert (@ObjectKeyFromObject KMustGather (remove_finalizer m) = req) as Hk by done.
  destruct (api_Update_current s KMustGather (remove_finalizer m) m)
    as (s' & m' & Hrun & [Hmeta [Hspec _]] & _ & _ & Hgone & Ho); [by rewrite Hk|done..|].
  rewrite Hk in Hgone, Ho. exists s', m'. split_and!; [done| |done].
  unfold client_meta in Hmeta. injection Hmeta as _ _ _ _ Hf. unfold let_go, finalized in *.
  rewrite <-remove_finalizer_others.
  cbn in Hgone, Hf. rewrite Ht in Hgone. cbn. unfold mg_Finalizers in *.
  destruct (List.filter _ (om_Finalizers (mg_ObjectMeta m))) eqn:E; [done|]. by exists m'.
Qed.

(** The call that finds the instance marked for deletion. *)
Lemma Reconcile_deletes `{UnicodeTables} {St : Type} `{ApiServer St} r req m (s : St) :
  api_lookup s KMustGather req = Some m -> is_Some (om_DeletionTimestamp (mg_ObjectMeta m)) ->
  has_finalizer m = true -> (cleanup_wanted m = true -> cleanable r m s) ->
  exists s1 s', run api_handle (Reconcile r req) s = ((emptyResult, None), s') /\
    (if cleanup_wanted m then cleaned r m s s1 else s1 = s) /\
    let_go m (api_lookup s' KMustGather req) /\ only_changes api_lookup s1 s' KMustGather req.
Proof.
  intros Hl Hdel Hfin Hc. pose proof Hdel as [t Ht].
  assert (exists s1, run api_handle
            (if cleanup_wanted m then cleanupMustGatherResources r m else Ret None) s = (None, s1) /\
            (if cleanup_wanted m then cleaned r m s s1 else s1 = s) /\
            api_lookup s1 KMustGather req = Some m) as (s1 & Hrun & Hs1 & Hl1).
  { destruct (cleanup_wanted m); [|by exists s].
    destruct (cleanup_completes r m s (Hc eq_refl)) as (s1 & Hrun & Hcd).
    exists s1. split_and!; [done|done|]. rewrite <-Hl. apply Hcd. by intros []. }
  destruct (remove_finalizer_update m req s1 Hl1 Hdel) as (s' & m' & Hup & Hgo & Ho).
  exists s1, s'. split_and!; try done. unfold Reconcile.
  erewrite run_call by exact (api_Get_found s KMustGather _ _ Hl). cbn beta iota.
  rewrite Ht. cbn [has]. unfold reconcileDeletion. rewrite Hfin, run_bind, Hrun. cbn beta iota.
  by erewrite run_call by exact Hup.
Qed.


