(* ===== verification/Retry.v ===== *)
(** * What a retried cleanup repeats

    Cleanup deletes the Job before it releases the CA copy, and does nothing at
    all once the Job is gone.  A release that fails is therefore reported, but
    the retry no longer attempts it. *)

From S2P Require Import Prelude GoStrings GoErrors GoTime K8sTypes MustGatherV1 Effects KubeEffects.
From S2P Require Import ApiServer MemCluster Conditions OperatorUtils Template MustGatherUtil TrustedCA.
From S2P Require Import Cleanup SftpValidation Reconcile Demo TrustedCARefinement Lifecycle.

(** Without a Job of the instance cleanup makes one request and succeeds. *)
Lemma cleanup_without_job {St : Type} `{ApiServer St} r m (s : St) :
  own_job m s = None -> run api_handle (cleanupMustGatherResources r m) s = (None, s).
Proof.
  unfold own_job, cleanupMustGatherResources. intros Hj.
  destruct (api_lookup s KJob (jobKey m)) as [job|] eqn:Hl.
  - erewrite run_call by exact (api_Get_found s KJob _ _ Hl). cbn beta iota.
    by destruct (owned_by _ _).
  - destruct (api_Get_missing s KJob _ Hl) as (e & He & Hrun). erewrite run_call by exact Hrun. cbn beta iota.
    by rewrite He.
Qed.

(** C33: a failed release of the CA copy is not tried again.  Against any API
    server that keeps the interface's laws, take an instance marked for deletion
    whose Job is gone.  [Reconcile] succeeds and takes the finalizer off, and
    the users of the CA copy stay as they are: an instance whose release failed
    after its Job was deleted remains one of them. *)
Theorem failed_release_is_not_retried `{UnicodeTables} {St : Type} `{ApiServer St} r req m (s : St) :
  api_lookup s KMustGather req = Some m -> is_Some (om_DeletionTimestamp (mg_ObjectMeta m)) ->
  has_finalizer m = true -> own_job m s = None ->
  exists s', run api_handle (Reconcile r req) s = ((emptyResult, None), s') /\
    let_go m (api_lookup s' KMustGather req) /\ only_changes api_lookup s s' KMustGather req /\
    forall ns, users r ns s' = users r ns s.
Proof.
  intros Hl Hdel Hfin Hjob. pose proof Hdel as [t Ht].
  destruct (remove_finalizer_update m req s Hl Hdel) as (s' & m' & Hup & Hgo & Ho).
  exists s'. split_and!; [|done|done|].
  - unfold Reconcile. erewrite run_call by exact (api_Get_found s KMustGather _ _ Hl). cbn beta iota.
    rewrite Ht. cbn [has]. unfold reconcileDeletion. rewrite Hfin, run_bind.
    replace (run api_handle (if cleanup_wanted m then cleanupMustGatherResources r m else Ret None) s)
      with (@None goerror, s) by (destruct (cleanup_wanted m); [by rewrite cleanup_without_job|done]).
    cbn beta iota. by erewrite run_call by exact Hup.
  - intros ns. apply (ca_transport r ns s s'). intros key. apply Ho. congruence.
Qed.

(** A cluster that answers every write of a ConfigMap with a conflict. *)
Definition conflict_on_configmaps : handler KubeE cluster :=
  fun R e s =>
    match e in KubeE R return R * cluster -> R * cluster with
    | Update k o => fun a => if bool_decide (k = KConfigMap) then (inl (errorString "conflict"), s) else a
    | Delete k o => fun a => if bool_decide (k = KConfigMap) then (Some (errorString "conflict"), s) else a
    | _ => fun a => a
    end (mem_handle _ e s).

(** The release fails once, in the first call, which reports it; the second
    call, on a cluster in order, succeeds without releasing. *)
Lemma failed_release_is_not_retried_witness :
  let m := mkMustGather (mg_TypeMeta (demo_mustgather [] demo_spec))
             (mkMeta "demo" "user-ns" "mg-uid" "1" 1 (Some zeroTime) ∅ [] [mustGatherFinalizer]) demo_spec None in
  let shared := mkConfigMap (om_with_OwnerReferences (meta_named "user-ns" "trusted-ca" "copy-uid")
                  [instanceOwnerRef m]) ∅ ∅ None in
  let objects : store := fun k => match k with
                                  | KConfigMap => [demo_ca; shared]
                                  | KMustGather => [m]
                                  | KJob => [demo_job (job_status 0 1 0)]
                                  | KPod => [demo_pod]
                                  | _ => []
                                  end in
  let p := @Reconcile ascii_tables demo_reconciler demo_key in
  let first := run conflict_on_configmaps p (demo_cluster objects []) in
  is_some first.1.2 = true /\
  exists s', run mem_handle p first.2 = ((emptyResult, None), s') /\
    api_lookup (ApiServer:=mem_ApiServer) s' KMustGather demo_key = None /\
    "mg-uid" ∈ users (H:=mem_ApiServer) demo_reconciler "user-ns" s'.
Proof.
  intros m shared objects p first. split; [vm_compute; reflexivity|].
  destruct (failed_release_is_not_retried (H:=ascii_tables) (H0:=mem_ApiServer) demo_reconciler demo_key m first.2)
    as (s' & Hrun & Hgo & _ & Hu).
  - vm_compute. reflexivity.
  - by eexists.
  - reflexivity.
  - vm_compute. reflexivity.
  - exists s'. split_and!; [exact Hrun|exact Hgo|]. rewrite Hu. vm_compute. reflexivity.
Defined.
