(* ===== verification/Progress.v ===== *)
(** * Progress: from a new instance to a completed one

    What [Reconcile] gets done for an instance that is not being deleted,
    against any API server that keeps the laws of [ApiServer]: with its
    prerequisites in place the gather is started, and a finished one is
    recorded and cleaned up. *)

From S2P Require Import Prelude GoStrings GoErrors GoTime K8sTypes MustGatherV1 Effects KubeEffects.
From S2P Require Import ApiServer MemCluster Conditions OperatorUtils Template MustGatherUtil TrustedCA.
From S2P Require Import Cleanup SftpValidation Reconcile Demo ReconcileSafety TrustedCARefinement.
From S2P Require Import JobPhases Lifecycle.

(** Two versions of one instance. *)
Record same_instance (m m' : MustGather) : Prop := {
  si_name : mg_Name m' = mg_Name m;
  si_namespace : mg_Namespace m' = mg_Namespace m;
  si_uid : mg_UID m' = mg_UID m;
  si_spec : mg_Spec m' = mg_Spec m;
}.

(** Neither marked for deletion nor without a finalizer it had. *)
Record same_life (m m' : MustGather) : Prop := {
  sl_deletion : om_DeletionTimestamp (mg_ObjectMeta m') = om_DeletionTimestamp (mg_ObjectMeta m);
  sl_finalizers : mg_Finalizers m' = mg_Finalizers m;
}.

(** Requests that write no object. *)
Definition reads_only (R : Type) (e : KubeE R) : Prop :=
  match e with
  | Create _ _ | Update _ _ | StatusUpdate _ | Delete _ _ => False
  | _ => True
  end.

Section progress.
  Context `{UnicodeTables} {St : Type} `{ApiServer St}.
  Variable r : MustGatherReconciler.

Lemma unchanged_refl (s : St) : unchanged api_lookup s s.
Proof. by intros ??. Qed.

Lemma unchanged_trans (s1 s2 s3 : St) :
  unchanged api_lookup s1 s2 -> unchanged api_lookup s2 s3 -> unchanged api_lookup s1 s3.
Proof. intros H1 H2 k key. by rewrite H2, H1. Qed.

(** A program that only reads leaves every object as it is. *)
Lemma reads_only_unchanged {A} (p : kprog A) (s : St) :
  everywhere reads_only p -> unchanged api_lookup s (run api_handle p s).2.
Proof.
  revert s. induction p as [a|R e k IH]; intros s Hp; [by apply unchanged_refl|].
  destruct Hp as [He Hk]. cbn. destruct (api_handle R e s) as [x s1] eqn:Hrun.
  apply (unchanged_trans s s1); [|by apply IH].
  replace s1 with (api_handle R e s).2 by by rewrite Hrun.
  destruct e as [k' key|ns ls| | | | | | | | | |]; try done.
  - destruct (api_lookup s k' key) as [o|] eqn:Hl.
    + by rewrite (api_Get_found s k' key o Hl).
    + by destruct (api_Get_missing s k' key Hl) as (? & _ & ->).
  - by destruct (api_ListPods s ns ls) as (? & -> & _).
  - apply api_RecordEvent.
  - apply api_MetricInc.
  - apply api_LookupEnv.
  - apply api_TimeNow.
  - apply api_RandInt63.
  - apply api_SftpDial.
Qed.

(** One request, and one program, that only read. *)
Lemma read_call {R} (e : KubeE R) (s : St) :
  reads_only R e -> exists x s1, api_handle _ e s = (x, s1) /\ unchanged api_lookup s s1.
Proof.
  intros He. pose proof (reads_only_unchanged (call e) s) as Hu. cbn in Hu.
  destruct (api_handle R e s) as [x s1]. exists x, s1. split; [done|]. by apply Hu.
Qed.

Lemma read_prog {A} (p : kprog A) (s : St) :
  everywhere reads_only p -> exists x s1, run api_handle p s = (x, s1) /\ unchanged api_lookup s s1.
Proof.
  intros Hp. pose proof (reads_only_unchanged p s Hp) as Hu.
  destruct (run api_handle p s) as [x s1]. by exists x, s1.
Qed.

(** Writing the status of the stored version. *)
Lemma write_status m m1 req (s : St) :
  api_lookup s KMustGather req = Some m -> mg_ObjectMeta m1 = mg_ObjectMeta m ->
  exists s' m', api_handle _ (StatusUpdate m1) s = (inr m', s') /\
    api_lookup s' KMustGather req = Some m' /\ same_instance m m' /\ same_life m m' /\
    mg_Status m' = mg_Status m1 /\ only_changes api_lookup s s' KMustGather req.
Proof.
  intros Hl Hm. pose proof (api_lookup_key s KMustGather _ _ Hl) as Hkey.
  assert (@ObjectKeyFromObject KMustGather m1 = req) as Hk.
  { rewrite <-Hkey. unfold ObjectKeyFromObject. cbn. by rewrite Hm. }
  destruct (api_StatusUpdate s m1 m) as (s' & m' & Hrun & [Hmeta [Hspec _]] & Hst & Huid & Hdel & Hl' & Ho);
    [by rewrite Hk|by rewrite Hm|].
  unfold client_meta in Hmeta. cbn in Hmeta. injection Hmeta as Hn Hns _ _ Hf.
  rewrite Hk in Hl', Ho. exists s', m'. by split_and!.
Qed.

(** Cleanup of one version is cleanup of the other. *)
Lemma cleaned_same m m' (s s' : St) : same_instance m m' -> cleaned r m' s s' -> cleaned r m s s'.
Proof.
  intros [Hn Hns Hu _] [H1' H2' H3' H4'].
  assert (forall s, own_job m' s = own_job m s) as Hj by (intros; unfold own_job, jobKey; by rewrite Hn, Hns, Hu).
  assert (forall job p, pod_of m' job p <-> pod_of m job p) as Hp by (intros; unfold pod_of; by rewrite Hns).
  assert (forall k key, in_cleanup r m' s k key -> in_cleanup r m s k key) as Hin.
  { intros [] key; cbn; unfold ca_managed, jobKey; rewrite ?Hn, ?Hns; try done.
    intros (job & p & Hjob & Hpod & ?). exists job, p. by rewrite <-Hj, <-Hp. }
  unfold ca_managed in *. rewrite Hns, Hu, Hj in H3'. rewrite Hj in H1'. rewrite Hj in H4'. constructor.
  - done.
  - intros job p Hjob Hpod. apply (H2' job p); [by rewrite Hj|by apply Hp].
  - done.
  - split; [apply H4'|]. intros k key Hk. apply H4'. intros Hk'. by apply Hk, Hin.
Qed.

Lemma cleanable_same m m' (s : St) : same_instance m m' -> cleanable r m s -> cleanable r m' s.
Proof.
  intros [Hn Hns Hu _] [H1' H2' H3'].
  assert (own_job m' s = own_job m s) as Hj by (unfold own_job, jobKey; by rewrite Hn, Hns, Hu).
  unfold pod_of, ca_managed in *. constructor; unfold pod_of, ca_managed; rewrite ?Hj, ?Hns; try done.
Qed.

(** *** The completed gather *)

(** Status and reason a finished phase is recorded with. *)
Definition outcome_of (ph : phase) : option (string * string) :=
  match ph with
  | Running => None
  | Succeeded => Some ("Completed", "MustGather Job pods succeeded")
  | Failed => Some ("Failed", "MustGather Job pods failed")
  end.

(** The status that says so: the conditions are those of the instance. *)
Definition recorded (m : MustGather) (status reason : string) (m' : MustGather) : Prop :=
  exists st, mg_Status m' = Some st /\ mgs_Status st = Some status /\ mgs_Reason st = Some reason /\
    mgs_Completed st = Some true /\ mgs_Conditions st = GetConditions m.

(** What is cleanable stays so through the preparation and a status write. *)
Lemma cleanable_transport m (s s' : St) :
  (forall k key, k <> KConfigMap -> k <> KMustGather -> api_lookup s' k key = api_lookup s k key) ->
  (ca_managed r m -> ca_inv r (mg_Namespace m) s -> ca_inv r (mg_Namespace m) s') ->
  cleanable r m s -> cleanable r m s'.
Proof.
  intros Hk Hi [Hj Hp Hca].
  assert (own_job m s' = own_job m s) as Hown by (unfold own_job; by rewrite Hk).
  constructor; rewrite ?Hown; [done| |by auto].
  intros job p Hjob Hpod. rewrite Hk by done. by apply Hp with job.
Qed.

Lemma cleanable_prepared m (s s' : St) : prepared r m s s' -> cleanable r m s -> cleanable r m s'.
Proof.
  intros Hprep. apply cleanable_transport.
  - intros k key Hk _. apply (prepared_frame r m _ _ Hprep). congruence.
  - intros Hm _. apply (proj1 Hprep Hm).
Qed.

Lemma cleanable_written m req (s s' : St) :
  only_changes api_lookup s s' KMustGather req -> cleanable r m s -> cleanable r m s'.
Proof.
  intros Ho. apply cleanable_transport; [intros; apply Ho; congruence|].
  intros _. apply (ca_transport r (mg_Namespace m) s s'). intros key. apply Ho. congruence.
Qed.

Lemma active_same m m' : same_instance m m' -> same_life m m' -> active r m -> active r m'.
Proof.
  intros [_ Hns _ Hspec] [Hd Hf] (Hdel & Hfin & Hsa). split_and!; [by rewrite Hd| |].
  - unfold has_finalizer in *. by rewrite Hf.
  - unfold usesOperatorSA in *. by rewrite Hns, Hspec.
Qed.

Lemma handleJobCompletion_completes m req status reason (s : St) :
  api_lookup s KMustGather req = Some m -> (cleanup_wanted m = true -> cleanable r m s) ->
  exists s1 s' m', run api_handle (handleJobCompletion r m status reason) s = ((emptyResult, None), s') /\
    only_changes api_lookup s s1 KMustGather req /\
    (if cleanup_wanted m then cleaned r m s1 s' else s' = s1) /\
    api_lookup s' KMustGather req = Some m' /\ same_instance m m' /\ same_life m m' /\
    recorded m status reason m'.
Proof.
  intros Hl Hc.
  destruct (write_status m (completed status reason m) req s Hl eq_refl)
    as (s1 & m' & Hrun & Hl1 & Hsame & Hlife & Hst & Ho).
  assert (recorded m status reason m') as Hrec.
  { eexists. split; [exact Hst|]. unfold GetConditions, status_of. by destruct (mg_Status m). }
  assert (cleanup_wanted m' = cleanup_wanted m) as Hw by (unfold cleanup_wanted; by rewrite (si_spec _ _ Hsame)).
  unfold handleJobCompletion. erewrite run_call by exact Hrun. cbn beta iota. rewrite Hw.
  destruct (cleanup_wanted m) eqn:Hwm; [|by exists s1, s1, m'].
  pose proof (cleanable_written m req s s1 Ho (Hc eq_refl)) as Hc1.
  destruct (cleanup_completes r m' s1 (cleanable_same m m' s1 Hsame Hc1)) as (s' & Hrun' & Hcd).
  apply (cleaned_same m m' s1 s' Hsame) in Hcd.
  exists s1, s', m'. split_and!; try done.
  - by rewrite run_bind, Hrun'.
  - etransitivity; [|exact Hl1]. apply Hcd. by intros [].
Qed.

(** The way to an existing Job. *)
Lemma Reconcile_existing m req job (s : St) :
  api_lookup s KMustGather req = Some m -> active r m -> preparable r m s ->
  api_lookup s KJob (jobKey m) = Some job ->
  exists s1, prepared r m s s1 /\
    run api_handle (Reconcile r req) s = run api_handle (reconcileJob r m job) s1.
Proof.
  intros Hl (Hdel & Hfin & Hsa) Hp Hj.
  destruct (prepare_completes r m s Hp) as (s1 & Hrun & Hprep). exists s1. split; [done|].
  unfold Reconcile. erewrite run_call by exact (api_Get_found s KMustGather _ _ Hl). cbn beta iota.
  rewrite Hdel, Hfin, Hsa. cbn [has negb]. unfold reconcileActive. rewrite run_bind, Hrun. cbn beta iota.
  assert (api_lookup s1 KJob (jobKey m) = Some job) as Hj1.
  { rewrite (prepared_frame r m _ _ Hprep) by congruence. done. }
  by erewrite run_call by exact (api_Get_found s1 KJob _ _ Hj1).
Qed.

Lemma reconcileJob_finished m job status reason (s1 : St) :
  outcome_of (job_phase job) = Some (status, reason) ->
  exists s2, unchanged api_lookup s1 s2 /\
    run api_handle (reconcileJob r m job) s1 = run api_handle (handleJobCompletion r m status reason) s2.
Proof.
  unfold job_phase, reconcileJob. intros Ho.
  destruct (0 <? js_Active (job_Status job))%Z; [done|].
  destruct (0 <? js_Succeeded (job_Status job))%Z.
  { cbn in Ho. simplify_eq. exists s1. by split; [apply unchanged_refl|]. }
  destruct (_ <? js_Failed (job_Status job))%Z; [|done]. cbn in Ho. simplify_eq.
  destruct (read_call (MetricInc MetricMustGatherErrors) s1 I) as (x & s2 & Hrun & Hu).
  exists s2. split; [done|]. by erewrite run_call by exact Hrun.
Qed.

(** The call that finds the Job finished. *)
Lemma Reconcile_finishes req m job status reason (s : St) :
  api_lookup s KMustGather req = Some m -> active r m -> preparable r m s ->
  api_lookup s KJob (jobKey m) = Some job -> outcome_of (job_phase job) = Some (status, reason) ->
  (cleanup_wanted m = true -> cleanable r m s) ->
  exists s1 s2 s' m', run api_handle (Reconcile r req) s = ((emptyResult, None), s') /\
    prepared r m s s1 /\ only_changes api_lookup s1 s2 KMustGather req /\
    (if cleanup_wanted m then cleaned r m s2 s' else s' = s2) /\
    api_lookup s' KMustGather req = Some m' /\ same_instance m m' /\ same_life m m' /\
    recorded m status reason m'.
Proof.
  intros Hl Hact Hp Hj Hout Hc.
  destruct (Reconcile_existing m req job s Hl Hact Hp Hj) as (s1 & Hprep & ->).
  destruct (reconcileJob_finished m job status reason s1 Hout) as (s1' & Hu & ->).
  assert (api_lookup s1' KMustGather req = Some m) as Hl1.
  { rewrite Hu, (prepared_frame r m _ _ Hprep); [done|congruence]. }
  destruct (handleJobCompletion_completes m req status reason s1' Hl1)
    as (s2 & s' & m' & Hrun & Ho & Hcd & Hl' & Hsame & Hlife & Hst).
  { intros Hw. apply (cleanable_written m req s1); [intros ???; by apply Hu|].
    by apply (cleanable_prepared m s), Hc. }
  exists s1, s2, s', m'. split_and!; try done. intros k key Hk. by rewrite Ho, Hu.
Qed.

End progress.


