(* ===== verification/GatherStart.v ===== *)
(** * How a gather starts

    The way of [Reconcile] to a new Job: with its prerequisites in the cluster,
    an instance gets its Job in one call, and a new instance gets its finalizer
    in the call before. *)

From S2P Require Import Prelude GoStrings GoErrors GoTime K8sTypes MustGatherV1 Effects KubeEffects.
From S2P Require Import ApiServer MemCluster Conditions OperatorUtils Template MustGatherUtil TrustedCA.
From S2P Require Import Cleanup SftpValidation Reconcile Requests Demo ReconcileSafety TrustedCARefinement.
From S2P Require Import JobPhases Lifecycle Progress.

Section start.
  Context `{UnicodeTables} {St : Type} `{ApiServer St}.
  Variable r : MustGatherReconciler.

  (** What holds of the operator's surroundings (its environment variables, the
      SFTP server) whatever it requests. *)
  Variable surroundings : St -> Prop.

Definition steady : Prop :=
  forall R (e : KubeE R) s, surroundings s -> surroundings (api_handle R e s).2.

(** The image the instance asks for, as it stands in the cluster. *)
Definition image_available (m : MustGather) (s : St) (image : string) : Prop :=
  match spec_ImageStreamRef (mg_Spec m) with
  | None => image = r_DefaultMustGatherImage r
  | Some ref => exists stream t,
      api_lookup s KImageStream (mkKey (r_OperatorNamespace r) (istr_Name ref)) = Some stream /\
      find_tag (istr_Tag ref) (is_Status_Tags stream) = Some t /\ pullable_image t = Some image
  end.

(** A secret with credentials the SFTP server accepts. *)
Definition credentials_accepted (m : MustGather) (s : St) : Prop :=
  forall sftp, sftp_of m = Some sftp ->
  exists sec username password,
    api_lookup s KSecret (mkKey (mg_Namespace m) (lor_Name (sftp_CaseManagementAccountSecretRef sftp))) = Some sec /\
    sec_Data sec !! "username" = Some username /\ sec_Data sec !! "password" = Some password /\
    username <> "" /\ password <> "" /\
    forall s' : St, surroundings s' ->
      (api_handle _ (SftpDial username password (derefString (sftp_Host sftp))) s').1 = None.

(** What a gather needs before its Job is created. *)
Record startable (m : MustGather) (image operatorImage : string) (s : St) : Prop := {
  sb_prepare : preparable r m s;
  sb_no_job : api_lookup s KJob (jobKey m) = None;
  sb_image : image_available m s image;
  sb_operator : forall s' : St, surroundings s' ->
    (api_handle _ (LookupEnv OPERATOR_IMAGE) s').1 = Some operatorImage;
  sb_account : is_Some (api_lookup s KServiceAccount
                          (mkKey (mg_Namespace m) (spec_ServiceAccountName (mg_Spec m))));
  sb_credentials : credentials_accepted m s;
  sb_surroundings : surroundings s;
}.

(** The Job of the instance, as the server keeps it. *)
Definition the_job (m : MustGather) (image operatorImage : string) (job : Job) : Prop :=
  exists dir proxies,
    let template := jobTemplate image operatorImage m (r_TrustedCAConfigMap r) dir proxies in
    job_Spec job = job_Spec template /\ om_Finalizers (job_ObjectMeta job) = [] /\
    om_OwnerReferences (job_ObjectMeta job) = [controllerRef (mg_ObjectMeta m)].

Lemma run_steady {A} (p : kprog A) (s : St) :
  steady -> surroundings s -> surroundings (run api_handle p s).2.
Proof.
  intros Hst. revert s. induction p as [a|R e k IH]; intros s Hs; cbn; [done|].
  pose proof (Hst R e s Hs) as He. destruct (api_handle R e s) as [x s1]. by apply IH.
Qed.

(** A request for a value the surroundings fix. *)
Lemma read_value {R} (e : KubeE R) (s : St) x :
  reads_only R e -> (forall s' : St, surroundings s' -> (api_handle _ e s').1 = x) -> surroundings s ->
  exists s1, api_handle _ e s = (x, s1) /\ unchanged api_lookup s s1.
Proof.
  intros He Hx Hs. destruct (read_call e s He) as (y & s1 & Hrun & Hu). exists s1.
  specialize (Hx s Hs). rewrite Hrun in Hx. cbn in Hx. by subst.
Qed.

Lemma getMustGatherImage_runs m image (s : St) :
  image_available m s image -> run api_handle (getMustGatherImage r m) s = (inr image, s).
Proof.
  unfold image_available, getMustGatherImage. destruct (spec_ImageStreamRef (mg_Spec m)) as [ref|]; [|by intros ->].
  intros (stream & t & Hl & Ht & Hi).
  erewrite run_call by exact (api_Get_found s KImageStream _ _ Hl). cbn [run]. by rewrite Ht, Hi.
Qed.

(** The template is built from the image, the operator's image, some directory
    and some proxy settings. *)
Lemma getJobFromInstance_runs m image operatorImage (s : St) :
  startable m image operatorImage s ->
  exists s1 dir proxies, unchanged api_lookup s s1 /\
    run api_handle (getJobFromInstance r m) s
    = (inr (jobTemplate image operatorImage m (r_TrustedCAConfigMap r) dir proxies), s1).
Proof.
  intros [_ _ Hi Hop _ _ Hsur]. unfold getJobFromInstance.
  rewrite run_bind, (getMustGatherImage_runs m image s Hi). cbn beta iota.
  destruct (read_value (LookupEnv OPERATOR_IMAGE) s (Some operatorImage) I Hop Hsur) as (s1 & Hrun1 & Hu1).
  erewrite run_call by exact Hrun1. cbn beta iota.
  destruct (read_call TimeNow s1 I) as (now & s2 & Hrun2 & Hu2).
  erewrite run_call by exact Hrun2.
  destruct (read_prog (GenerateMustGatherDirectoryName now) s2) as (dir & s3 & Hrun3 & Hu3); [by_requests|].
  rewrite run_bind, Hrun3. unfold getJobTemplate, ReadProxyVarsFromEnv.
  destruct (read_prog (readProxyVars ProxyEnvNames) s3) as (envVars & s4 & Hrun4 & Hu4); [by_requests|].
  rewrite !run_bind, Hrun4. cbn [run]. exists s4. do 2 eexists. split; [|done].
  eauto using unchanged_trans.
Qed.

Lemma checkSecretAndSFTP_passes m (s : St) :
  credentials_accepted m s -> surroundings s ->
  exists s1, run api_handle (checkSecretAndSFTP m) s = (None, s1) /\ unchanged api_lookup s s1.
Proof.
  intros Hc Hsur. unfold checkSecretAndSFTP. destruct (sftp_of m) as [sftp|] eqn:Hs.
  2: { exists s. split; [done|by apply unchanged_refl]. }
  destruct (Hc sftp Hs) as (sec & u & p & Hl & Hu & Hp & Hune & Hpne & Hdial).
  erewrite run_call by exact (api_Get_found s KSecret _ _ Hl). cbn beta iota. rewrite Hu, Hp. cbn [default from_option id].
  apply str_eqb_neq in Hune, Hpne. rewrite Hune, Hpne.
  destruct (read_value (SftpDial u p (derefString (sftp_Host sftp))) s None I Hdial Hsur) as (s1 & Hrun & Hun).
  exists s1. split; [|done]. rewrite run_bind. unfold validateSFTPWithRetry, retry_loop, MaxSFTPValidationRetries.
  unfold validateSFTPCredentials. by erewrite run_call by exact Hrun.
Qed.

(** The Job that is sent, and the Job that is kept. *)
Lemma create_runs m image operatorImage dir proxies (s : St) :
  api_lookup s KJob (jobKey m) = None ->
  exists s' job,
    run api_handle (CreateResourceIfNotExists m (mg_Namespace m)
      (jobTemplate image operatorImage m (r_TrustedCAConfigMap r) dir proxies)) s = (None, s') /\
    api_lookup s' KJob (jobKey m) = Some job /\ the_job m image operatorImage job /\
    only_changes api_lookup s s' KJob (jobKey m).
Proof.
  intros Hn. set (template := jobTemplate image operatorImage m (r_TrustedCAConfigMap r) dir proxies).
  pose proof (jobTemplate_meta image operatorImage m (r_TrustedCAConfigMap r) dir proxies) as Hmeta. fold template in Hmeta.
  set (job := owned_job (mg_ObjectMeta m) (mg_Namespace m) template).
  assert (om_OwnerReferences (job_ObjectMeta job) = [controllerRef (mg_ObjectMeta m)]) as Hrefs
    by (apply owned_job_refs; by rewrite Hmeta).
  assert (om_Finalizers (job_ObjectMeta job) = []) as Hfin by (unfold job; by rewrite owned_job_finalizers, Hmeta).
  destruct (owned_job_key (mg_ObjectMeta m) (mg_Namespace m) template) as [Hname Hspec]. fold job in Hname, Hspec.
  assert (@ObjectKeyFromObject KJob job = jobKey m) as Hkey.
  { change (mkKey (om_Namespace (job_ObjectMeta job)) (om_Name (job_ObjectMeta job)) = jobKey m).
    rewrite Hname, Hmeta. unfold job. by rewrite owned_job_namespace by by rewrite Hmeta. }
  destruct (api_Create_new s KJob job) as (s' & job' & Hrun & [Hst Hsp] & _ & Hl & Ho); [by rewrite Hkey|].
  rewrite Hkey in Hl, Ho. exists s', job'. split_and!; [|done| |done].
  - unfold CreateResourceIfNotExists. by erewrite run_call by exact Hrun.
  - exists dir, proxies. cbn. unfold client_meta in Hst. injection Hst as _ _ _ Hr Hf.
    split_and!; [by rewrite Hsp|by rewrite <-Hfin|by rewrite <-Hrefs].
Qed.

Lemma ManageSuccess_runs m req (s : St) :
  api_lookup s KMustGather req = Some m ->
  exists s' m' now, run api_handle (ManageSuccess m) s = ((emptyResult, None), s') /\
    api_lookup s' KMustGather req = Some m' /\ same_instance m m' /\ same_life m m' /\
    mg_Status m' = mg_Status (put_condition m (successCondition m now)) /\
    only_changes api_lookup s s' KMustGather req.
Proof.
  intros Hl. destruct (read_call TimeNow s I) as (now & s1 & Hrun & Hu).
  unfold ManageSuccess, ManageSuccessWithRequeue. erewrite run_call by exact Hrun.
  destruct (write_status m (put_condition m (successCondition m now)) req s1)
    as (s' & m' & Hrun' & Hl' & Hsame & Hlife & Hst & Ho); [by rewrite Hu|done|].
  exists s', m', now. split_and!; try done; [by erewrite run_call by exact Hrun'|].
  intros k key Hk. by rewrite Ho, Hu.
Qed.

(** The branch without a Job, from the state after the preparation. *)
Lemma reconcileCreate_runs m req image operatorImage (s : St) :
  steady -> api_lookup s KMustGather req = Some m -> startable m image operatorImage s ->
  exists s' job m' now, run api_handle (reconcileCreate r m) s = ((emptyResult, None), s') /\
    api_lookup s' KJob (jobKey m) = Some job /\ the_job m image operatorImage job /\
    api_lookup s' KMustGather req = Some m' /\ same_instance m m' /\ same_life m m' /\
    mg_Status m' = mg_Status (put_condition m (successCondition m now)) /\
    forall k key, (k, key) <> (KJob, jobKey m) -> (k, key) <> (KMustGather, req) ->
      api_lookup s' k key = api_lookup s k key.
Proof.
  intros Hst Hl Hsb. destruct (getJobFromInstance_runs m image operatorImage s Hsb) as (s1 & dir & proxies & Hu1 & Hrun1).
  pose proof (run_steady (getJobFromInstance r m) s Hst (sb_surroundings _ _ _ _ Hsb)) as Hsur1. rewrite Hrun1 in Hsur1.
  destruct Hsb as [_ Hnj _ _ [sa Hsa] Hcred _]. unfold reconcileCreate. rewrite run_bind, Hrun1. cbn beta iota.
  rewrite <-Hu1 in Hl, Hnj, Hsa. erewrite run_call by exact (api_Get_found s1 KServiceAccount _ _ Hsa). cbn beta iota.
  destruct (checkSecretAndSFTP_passes m s1) as (s2 & Hrun2 & Hu2).
  { intros sftp Hsftp. destruct (Hcred sftp Hsftp) as (sec & u & p & Hsec & Hrest).
    exists sec, u, p. by rewrite Hu1. }
  { done. }
  rewrite run_bind, Hrun2. cbn beta iota. rewrite <-Hu2 in Hl, Hnj.
  destruct (create_runs m image operatorImage dir proxies s2 Hnj) as (s3 & job & Hrun3 & Hjob & Hthe & Ho3).
  rewrite run_bind, Hrun3. cbn beta iota.
  destruct (read_call (MetricInc MetricMustGatherTotal) s3 I) as (x & s4 & Hrun4 & Hu4).
  erewrite run_call by exact Hrun4.
  destruct (ManageSuccess_runs m req s4) as (s5 & m' & now & Hrun5 & Hl' & Hsame & Hlife & Hstatus & Ho5).
  { rewrite Hu4, Ho3 by congruence. done. }
  exists s5, job, m', now. split_and!; try done.
  - rewrite Ho5, Hu4 by congruence. done.
  - intros k key Hk1 Hk2. rewrite Ho5, Hu4, Ho3 by done. by rewrite Hu2, Hu1.
Qed.

(** What is startable stays so through the preparation. *)
Lemma startable_prepared m image operatorImage (s s' : St) :
  surroundings s' -> prepared r m s s' -> startable m image operatorImage s -> startable m image operatorImage s'.
Proof.
  intros Hsur Hprep [[Hca Hob] Hnj Hi Hop Hsa Hcred _].
  assert (forall k key, k <> KConfigMap -> api_lookup s' k key = api_lookup s k key) as Hk.
  { intros k key Hk. apply (prepared_frame r m _ _ Hprep). congruence. }
  split; rewrite ?Hk by done; try done.
  - split; [by intros Hm; apply (proj1 Hprep Hm)|]. intros name Hn Hne.
    apply (prepared_configmap r m s s' _ Hprep). by apply Hob.
  - unfold image_available in *. destruct (spec_ImageStreamRef (mg_Spec m)); [by rewrite Hk|done].
  - intros sftp Hs. rewrite Hk by done. by apply Hcred.
Qed.

Lemma Reconcile_starts m req image operatorImage (s : St) :
  steady -> api_lookup s KMustGather req = Some m -> active r m -> startable m image operatorImage s ->
  exists s1 s' job m' now, run api_handle (Reconcile r req) s = ((emptyResult, None), s') /\
    prepared r m s s1 /\ preparable r m s1 /\
    api_lookup s' KJob (jobKey m) = Some job /\ the_job m image operatorImage job /\
    api_lookup s' KMustGather req = Some m' /\ same_instance m m' /\ same_life m m' /\
    mg_Status m' = mg_Status (put_condition m (successCondition m now)) /\
    forall k key, (k, key) <> (KJob, jobKey m) -> (k, key) <> (KMustGather, req) ->
      api_lookup s' k key = api_lookup s1 k key.
Proof.
  intros Hst Hl (Hdel & Hfin & Hsa) Hsb.
  destruct (prepare_completes r m s (sb_prepare _ _ _ _ Hsb)) as (s1 & Hrun & Hprep).
  pose proof (run_steady (prepare r m) s Hst (sb_surroundings _ _ _ _ Hsb)) as Hsur1. rewrite Hrun in Hsur1.
  pose proof (startable_prepared _ _ _ _ _ Hsur1 Hprep Hsb) as Hsb1.
  destruct (reconcileCreate_runs m req image operatorImage s1 Hst) as (s' & job & m' & now & Hrun' & Hrest); [|done|].
  { rewrite (prepared_frame r m _ _ Hprep) by congruence. done. }
  exists s1, s', job, m', now.
  split; [|split; [done|split; [apply (sb_prepare _ _ _ _ Hsb1)|done]]]. unfold Reconcile.
  erewrite run_call by exact (api_Get_found s KMustGather _ _ Hl). cbn beta iota.
  rewrite Hdel, Hfin, Hsa. cbn [has negb]. unfold reconcileActive. rewrite run_bind, Hrun. cbn beta iota.
  destruct (api_Get_missing s1 KJob _ (sb_no_job _ _ _ _ Hsb1)) as (e & He & Hget).
  erewrite run_call by exact Hget. cbn beta iota. by rewrite He.
Qed.

(** *** The finalizer first *)

Lemma finalizer_added m req (s : St) :
  api_lookup s KMustGather req = Some m -> om_DeletionTimestamp (mg_ObjectMeta m) = None ->
  has_finalizer m = false ->
  exists s0 m0, run api_handle (Reconcile r req) s = ((emptyResult, None), s0) /\
    api_lookup s0 KMustGather req = Some m0 /\ same_instance m m0 /\
    om_DeletionTimestamp (mg_ObjectMeta m0) = None /\
    mg_Finalizers m0 = mg_Finalizers m ++ [mustGatherFinalizer] /\
    only_changes api_lookup s s0 KMustGather req.
Proof.
  intros Hl Hdel Hfin. pose proof (api_lookup_key s KMustGather _ _ Hl) as Hkey.
  set (m1 := mg_with_Finalizers m (mg_Finalizers m ++ [mustGatherFinalizer])).
  assert (@ObjectKeyFromObject KMustGather m1 = req) as Hk by done.
  destruct (api_Update_current s KMustGather m1 m)
    as (s0 & m0 & Hrun & [Hmeta [Hspec _]] & Huid & Hdel' & Hl' & Ho); [by rewrite Hk|done..|].
  rewrite Hk in Hl', Ho. unfold finalized in Hl'. cbn in Hl', Hdel'. rewrite Hdel in Hl', Hdel'.
  unfold client_meta in Hmeta. cbn in Hmeta. injection Hmeta as Hn Hns _ _ Hf.
  exists s0, m0. split_and!; try done.
  unfold Reconcile, addFinalizer. erewrite run_call by exact (api_Get_found s KMustGather _ _ Hl). cbn beta iota.
  rewrite Hdel, Hfin. cbn [has negb]. rewrite run_bind. by erewrite run_call by exact Hrun.
Qed.

Lemma startable_same m m0 req image operatorImage (s s0 : St) :
  surroundings s0 -> same_instance m m0 -> only_changes api_lookup s s0 KMustGather req ->
  startable m image operatorImage s -> startable m0 image operatorImage s0.
Proof.
  intros Hsur [Hn Hns Hu Hspec] Ho [[Hca Hob] Hnj Hi Hop Hsa Hcred _].
  assert (forall k key, k <> KMustGather -> api_lookup s0 k key = api_lookup s k key) as Hk
    by (intros; apply Ho; congruence).
  split.
  - unfold ca_managed in Hca. split; unfold ca_managed; rewrite Hns.
    + intros Hm. apply (ca_transport r (mg_Namespace m) s s0); [|by apply Hca]. intros key. by rewrite Hk.
    + intros name. rewrite Hspec. intros Hname Hne. rewrite Hk by done. by apply Hob.
  - unfold jobKey in *. by rewrite Hn, Hns, Hk.
  - unfold image_available in *. rewrite Hspec. destruct (spec_ImageStreamRef (mg_Spec m)); [by rewrite Hk|done].
  - done.
  - by rewrite Hns, Hspec, Hk.
  - intros sftp. unfold sftp_of. rewrite Hspec, Hns, Hk by done. apply Hcred.
  - done.
Qed.

(** From an instance with or without its finalizer. *)
Lemma instance_starts req m image operatorImage (s : St) :
  steady -> api_lookup s KMustGather req = Some m -> om_DeletionTimestamp (mg_ObjectMeta m) = None ->
  usesOperatorSA r m = false -> startable m image operatorImage s ->
  exists s0 m0 s1 s' job m' now,
    (if has_finalizer m then s0 = s /\ m0 = m
     else run api_handle (Reconcile r req) s = ((emptyResult, None), s0) /\
          mg_Finalizers m0 = mg_Finalizers m ++ [mustGatherFinalizer] /\
          only_changes api_lookup s s0 KMustGather req) /\
    run api_handle (Reconcile r req) s0 = ((emptyResult, None), s') /\
    prepared r m0 s0 s1 /\ preparable r m0 s1 /\ same_instance m m0 /\ active r m0 /\ same_instance m0 m' /\ same_life m0 m' /\
    api_lookup s' KJob (jobKey m) = Some job /\ the_job m0 image operatorImage job /\
    api_lookup s' KMustGather req = Some m' /\
    mg_Status m' = mg_Status (put_condition m0 (successCondition m0 now)) /\
    forall k key, (k, key) <> (KJob, jobKey m) -> (k, key) <> (KMustGather, req) ->
      api_lookup s' k key = api_lookup s1 k key.
Proof.
  intros Hst Hl Hdel Hsa Hsb. destruct (has_finalizer m) eqn:Hfin.
  - destruct (Reconcile_starts m req image operatorImage s Hst Hl) as (s1 & s' & job & m' & now & H1); [done..|].
    destruct H1 as (? & ? & ? & ? & ? & ? & ? & ? & ? & ?).
    exists s, m, s1, s', job, m', now. split_and!; done.
  - destruct (finalizer_added m req s Hl Hdel Hfin) as (s0 & m0 & Hrun0 & Hl0 & Hsame & Hdel0 & Hf0 & Ho0).
    pose proof (run_steady (Reconcile r req) s Hst (sb_surroundings _ _ _ _ Hsb)) as Hsur0.
    rewrite Hrun0 in Hsur0.
    pose proof (startable_same m m0 req image operatorImage s s0 Hsur0 Hsame Ho0 Hsb) as Hsb0.
    assert (active r m0) as Hact.
    { split_and!; [done| |].
      - unfold has_finalizer. rewrite Hf0, existsb_app. cbn. rewrite str_eqb_refl. by rewrite orb_true_r.
      - unfold usesOperatorSA in *. destruct Hsame as [_ -> _ ->]. done. }
    destruct (Reconcile_starts m0 req image operatorImage s0 Hst Hl0) as (s1 & s' & job & m' & now & H1); [exact Hact|done|].
    assert (jobKey m0 = jobKey m) as Hjk by (unfold jobKey; by destruct Hsame as [-> -> _ _]).
    rewrite Hjk in H1. destruct H1 as (? & ? & ? & ? & ? & ? & ? & ? & ? & ?).
    exists s0, m0, s1, s', job, m', now. split_and!; done.
Qed.

End start.

(** C28: a gather starts.  Against any API server that keeps the interface's
    laws, take an instance that is not being deleted and does not run as the
    operator, with everything in place: the CA bundle, the obfuscation
    ConfigMap, the image, the service account, and a secret whose credentials
    the SFTP server accepts, the operator's image variable and that server
    staying as they are.  A call of [Reconcile] adds the finalizer if it is
    missing, and the next one succeeds and leaves the instance's Job in the
    cluster, built by the template for that image and owned by the instance,
    the success condition on the instance, and otherwise only the CA copy
    changed. *)
Theorem gather_starts `{UnicodeTables} {St : Type} `{ApiServer St} r (surroundings : St -> Prop)
    req m image operatorImage (s : St) :
  steady surroundings -> api_lookup s KMustGather req = Some m -> om_DeletionTimestamp (mg_ObjectMeta m) = None ->
  usesOperatorSA r m = false -> startable r surroundings m image operatorImage s ->
  exists s0 m0 s1 s' job m' now,
    (if has_finalizer m then s0 = s /\ m0 = m
     else run api_handle (Reconcile r req) s = ((emptyResult, None), s0) /\
          mg_Finalizers m0 = mg_Finalizers m ++ [mustGatherFinalizer] /\
          only_changes api_lookup s s0 KMustGather req) /\
    run api_handle (Reconcile r req) s0 = ((emptyResult, None), s') /\
    prepared r m0 s0 s1 /\ same_instance m m0 /\ active r m0 /\ same_instance m0 m' /\ same_life m0 m' /\
    api_lookup s' KJob (jobKey m) = Some job /\ the_job r m0 image operatorImage job /\
    api_lookup s' KMustGather req = Some m' /\
    mg_Status m' = mg_Status (put_condition m0 (successCondition m0 now)) /\
    forall k key, (k, key) <> (KJob, jobKey m) -> (k, key) <> (KMustGather, req) ->
      api_lookup s' k key = api_lookup s1 k key.
Proof.
  intros Hst Hl Hdel Hsa Hsb.
  destruct (instance_starts r surroundings req m image operatorImage s Hst Hl Hdel Hsa Hsb)
    as (s0 & m0 & s1 & s' & job & m' & now & ? & ? & ? & _ & ?).
  by exists s0, m0, s1, s', job, m', now.
Qed.

(** The in-memory cluster with the operator's image set and an SFTP server that
    accepts everybody. *)
Definition demo_surroundings (c : cluster) : Prop :=
  cl_env c !! OPERATOR_IMAGE = Some "quay.io/operator:v1" /\ cl_dials c = [].

Lemma demo_steady : steady (H0:=mem_ApiServer) demo_surroundings.
Proof.
  intros R e c [He Hd]. unfold demo_surroundings.
  destruct e; cbn; unfold mem_create, mem_update, mem_status_update, mem_delete;
    repeat case_match; cbn; rewrite ?Hd; done.
Qed.

Lemma demo_startable :
  startable (H0:=mem_ApiServer) demo_reconciler demo_surroundings (demo_mustgather [] demo_spec)
    "quay.io/must-gather:latest" "quay.io/operator:v1" (demo_cluster (demo_objects [demo_mustgather [] demo_spec] [] []) []).
Proof.
  split.
  - split; [|by intros name <-]. intros _. split; [by eexists|]. by intros cm Hcm.
  - reflexivity.
  - reflexivity.
  - intros c [He _]. cbn. by rewrite He.
  - by eexists.
  - intros sftp Hs. injection Hs as <-. exists demo_secret, "alice", "secret".
    split_and!; try done. intros c [_ Hd]. cbn. by rewrite Hd.
  - split; reflexivity.
Qed.

(** A new instance, without its finalizer. *)
Lemma gather_starts_witness :
  let m := demo_mustgather [] demo_spec in
  let s := demo_cluster (demo_objects [m] [] []) [] in
  exists s0 s' job m0,
    run mem_handle (@Reconcile ascii_tables demo_reconciler demo_key) s = ((emptyResult, None), s0) /\
    run mem_handle (@Reconcile ascii_tables demo_reconciler demo_key) s0 = ((emptyResult, None), s') /\
    api_lookup (ApiServer:=mem_ApiServer) s' KJob demo_key = Some job /\
    the_job demo_reconciler m0 "quay.io/must-gather:latest" "quay.io/operator:v1" job.
Proof.
  intros m s.
  destruct (gather_starts (H:=ascii_tables) (H0:=mem_ApiServer) demo_reconciler demo_surroundings demo_key m
              "quay.io/must-gather:latest" "quay.io/operator:v1" s)
    as (s0 & m0 & s1 & s' & job & m' & now & (Hrun0 & _) & Hrun & _ & _ & _ & _ & _ & Hl & Hjob & _).
  - exact demo_steady.
  - reflexivity.
  - reflexivity.
  - reflexivity.
  - exact demo_startable.
  - exists s0, s', job, m0. split; [exact Hrun0|]. split; [exact Hrun|]. split; [exact Hl|exact Hjob].
Defined.
