(* ===== verification/WholeLife.v ===== *)
(** * The whole life of a gather

    The calls of [Reconcile] put together with what others do between them: the
    Job controller finishes the Job, a user deletes the instance.  From a new
    custom resource to none, on any API server that keeps the laws of
    [ApiServer]. *)

From S2P Require Import Prelude GoStrings GoErrors GoTime K8sTypes MustGatherV1 Effects KubeEffects.
From S2P Require Import ApiServer MemCluster Conditions OperatorUtils Template MustGatherUtil TrustedCA.
From S2P Require Import Cleanup SftpValidation Reconcile Demo ReconcileSafety TrustedCARefinement.
From S2P Require Import JobPhases Lifecycle Progress GatherStart.

Section life.
  Context `{UnicodeTables} {St : Type} `{ApiServer St}.
  Variable r : MustGatherReconciler.

(** ** The steps *)

(** A call of the reconciler that asks for nothing more. *)
Definition reconciles (req : NamespacedName) (s s' : St) : Prop :=
  run api_handle (Reconcile r req) s = ((emptyResult, None), s').

(** The Job controller brings the Job to its end and leaves pods of it that no
    finalizer holds; nothing but the Job's status and pods changes. *)
Record job_finishes (m : MustGather) (job : Job) (status reason : string) (s s' : St) : Prop := {
  jf_before : api_lookup s KJob (jobKey m) = Some job;
  jf_after : exists job', api_lookup s' KJob (jobKey m) = Some job' /\ job_ObjectMeta job' = job_ObjectMeta job /\
    job_Spec job' = job_Spec job /\ outcome_of (job_phase job') = Some (status, reason);
  jf_pods p : pod_of m job p -> api_lookup s' KPod (@ObjectKeyFromObject KPod p) = Some p ->
    om_Finalizers (pod_ObjectMeta p) = [];
  jf_frame k key : k <> KPod -> (k, key) <> (KJob, jobKey m) -> api_lookup s' k key = api_lookup s k key;
}.

(** A user deletes the instance: the server marks it. *)
Definition marked_for_deletion (req : NamespacedName) (m : MustGather) (s s' : St) : Prop :=
  only_changes api_lookup s s' KMustGather req /\
  exists m', api_lookup s' KMustGather req = Some m' /\ same_instance m m' /\
    is_Some (om_DeletionTimestamp (mg_ObjectMeta m')) /\ mg_Finalizers m' = mg_Finalizers m.

(** ** Nothing is left *)

Record nothing_left (m : MustGather) (job : Job) (s : St) : Prop := {
  nl_job : own_job m s = None;
  nl_pods p : pod_of m job p -> api_lookup s KPod (@ObjectKeyFromObject KPod p) <> Some p;
  nl_ca : ca_managed r m -> mg_UID m ∉ users r (mg_Namespace m) s;
}.

Lemma pod_of_dec m job p : Decision (pod_of m job p).
Proof. unfold pod_of. apply _. Defined.
#[local] Existing Instance pod_of_dec.

Lemma cleaned_nothing_left m job (s s' : St) :
  own_job m s = Some job -> cleaned r m s s' -> nothing_left m job s'.
Proof.
  intros Hj [Hgone Hpods Hca [_ Hframe]]. split; [done| |].
  - intros p Hp Hl. destruct (api_lookup s KPod (@ObjectKeyFromObject KPod p)) as [q|] eqn:Hq.
    + pose proof (api_lookup_key s KPod _ _ Hq) as Hkey. destruct (decide (pod_of m job q)) as [Hpq|Hpq].
      * rewrite <-Hkey in Hl, Hq. rewrite (Hpods job q Hj Hpq Hq) in Hl. done.
      * rewrite (Hframe KPod _) in Hl; [congruence|]. intros (job' & q' & Hj' & Hp' & _ & Hq').
        rewrite Hj in Hj'. apply Hpq. congruence.
    + rewrite (Hframe KPod _), Hq in Hl; [done|]. intros (job' & q' & _ & _ & _ & Hq'). congruence.
  - intros Hm. destruct (Hca Hm) as [_ ->]. rewrite Hj. cbn. set_solver.
Qed.

(** It stays so while only custom resources change. *)
Lemma nothing_left_frame m job (s s' : St) :
  (forall k key, k <> KMustGather -> api_lookup s' k key = api_lookup s k key) ->
  nothing_left m job s -> nothing_left m job s'.
Proof.
  intros Hk [Hj Hp Hca]. split.
  - unfold own_job in *. by rewrite Hk.
  - intros p Hpod. rewrite Hk by done. by apply Hp.
  - intros Hm. destruct (ca_transport r (mg_Namespace m) s s') as [-> _]; [intros key; by rewrite Hk|by apply Hca].
Qed.

(** ** The three calls *)

(** Versions of one instance agree on all of this. *)
Lemma nothing_left_same m m' job (s : St) : same_instance m m' -> nothing_left m' job s -> nothing_left m job s.
Proof.
  intros [Hn Hns Hu _] [Hj Hp Hca]. unfold own_job, jobKey, pod_of, ca_managed in *.
  rewrite Hn, Hns, Hu in *. split; unfold own_job, jobKey, pod_of, ca_managed; done.
Qed.

Lemma job_finishes_same m m' job status reason (s s' : St) :
  same_instance m m' -> job_finishes m job status reason s s' -> job_finishes m' job status reason s s'.
Proof.
  intros [Hn Hns _ _] [H1 H2 H3 H4]. unfold jobKey, pod_of in *.
  split; unfold jobKey, pod_of; rewrite ?Hn, ?Hns; done.
Qed.

Lemma same_instance_trans m1 m2 m3 : same_instance m1 m2 -> same_instance m2 m3 -> same_instance m1 m3.
Proof. intros [] []. split; congruence. Qed.

Lemma own_job_found m job (s : St) :
  api_lookup s KJob (jobKey m) = Some job -> owned_by (mg_UID m) (om_OwnerReferences (job_ObjectMeta job)) = true ->
  own_job m s = Some job.
Proof. unfold own_job. by intros -> ->. Qed.

(** What the finished Job leaves the next call with. *)
Lemma finished_cleanable m job status reason (s s' : St) :
  job_finishes m job status reason s s' -> owned_by (mg_UID m) (om_OwnerReferences (job_ObjectMeta job)) = true ->
  om_Finalizers (job_ObjectMeta job) = [] -> (ca_managed r m -> ca_inv r (mg_Namespace m) s) -> cleanable r m s'.
Proof.
  intros [_ (job' & Hj & Hm & _) Hpods Hframe] Hown Hf Hca.
  assert (own_job m s' = Some job') as Hjob by (apply own_job_found; by rewrite ?Hm). split.
  - intros job2 Hj2. rewrite Hjob in Hj2. simplify_eq. by rewrite Hm.
  - intros job2 p Hj2 Hp. rewrite Hjob in Hj2. simplify_eq. unfold pod_of in Hp. rewrite Hm in Hp. by apply Hpods.
  - intros Hman. apply (ca_transport r (mg_Namespace m) s s'); [|by apply Hca].
    intros key. apply Hframe; congruence.
Qed.

Lemma finished_preparable m job status reason (s s' : St) :
  job_finishes m job status reason s s' -> preparable r m s -> preparable r m s'.
Proof.
  intros [_ _ _ Hframe] [Hca Hob]. split.
  - intros Hman. apply (ca_transport r (mg_Namespace m) s s'); [|by apply Hca].
    intros key. apply Hframe; congruence.
  - intros name Hn Hne. rewrite Hframe by congruence. by apply Hob.
Qed.

Lemma preparable_same m m' (s s' : St) :
  same_instance m m' -> (forall key, api_lookup s' KConfigMap key = api_lookup s KConfigMap key) ->
  preparable r m s -> preparable r m' s'.
Proof.
  intros [_ Hns _ Hspec] Hk [Hca Hob]. unfold ca_managed in Hca. split; unfold ca_managed; rewrite Hns.
  - intros Hman. apply (ca_transport r (mg_Namespace m) s s' Hk). by apply Hca.
  - rewrite Hspec. intros name Hn Hne. rewrite Hk. by apply Hob.
Qed.

Lemma life_finishes req m job status reason (s s' : St) :
  api_lookup s KMustGather req = Some m -> active r m -> preparable r m s ->
  job_finishes m job status reason s s' -> owned_by (mg_UID m) (om_OwnerReferences (job_ObjectMeta job)) = true ->
  om_Finalizers (job_ObjectMeta job) = [] ->
  exists s3 m3, reconciles req s' s3 /\ api_lookup s3 KMustGather req = Some m3 /\
    same_instance m m3 /\ same_life m m3 /\ recorded m status reason m3 /\
    (cleanup_wanted m = true -> nothing_left m job s3) /\ (ca_managed r m -> ca_inv r (mg_Namespace m) s3).
Proof.
  intros Hl Hact Hprep Hfin Hown Hf.
  pose proof (finished_cleanable _ _ _ _ _ _ Hfin Hown Hf (pp_ca _ _ _ Hprep)) as Hcl.
  pose proof (finished_preparable _ _ _ _ _ _ Hfin Hprep) as Hprep'.
  destruct Hfin as [_ (job' & Hj & Hm & _ & Hout) _ Hframe].
  destruct (Reconcile_finishes r req m job' status reason s')
    as (sa & sb & s3 & m3 & Hrun & Hpr & Ho & Hcd & Hl3 & Hsame & Hlife & Hrec); try done.
  { rewrite Hframe; [done|congruence..]. }
  exists s3, m3. split_and!; try done.
  - intros Hw. rewrite Hw in Hcd.
    assert (own_job m sb = Some job') as Hjb.
    { apply own_job_found; [|by rewrite Hm]. rewrite Ho by congruence.
      rewrite (prepared_frame r m _ _ Hpr) by congruence. done. }
    destruct (cleaned_nothing_left _ _ _ _ Hjb Hcd) as [H1 H2 H3]. split; try done.
    intros p Hp. apply H2. unfold pod_of in *. by rewrite Hm.
  - intros Hman. destruct (cleanup_wanted m).
    + by apply (cd_ca _ _ _ _ Hcd).
    + subst. apply (ca_transport r (mg_Namespace m) sa sb); [intros key; apply Ho; congruence|].
      apply (proj1 Hpr Hman).
Qed.

Lemma life_ends req m (s s' : St) :
  marked_for_deletion req m s s' -> has_finalizer m = true ->
  (cleanup_wanted m = true -> own_job m s = None) -> (ca_managed r m -> ca_inv r (mg_Namespace m) s) ->
  exists s5, reconciles req s' s5 /\ (other_finalizers m = [] -> api_lookup s5 KMustGather req = None) /\
    forall k key, k <> KMustGather -> api_lookup s5 k key = api_lookup s k key.
Proof.
  intros (Ho & m' & Hl & Hsame & Hdel & Hfs) Hfin Hjob Hca.
  assert (cleanup_wanted m' = cleanup_wanted m) as Hw by (unfold cleanup_wanted; by rewrite (si_spec _ _ Hsame)).
  assert (own_job m s' = own_job m s) as Hoj.
  { unfold own_job. rewrite Ho; [done|congruence]. }
  assert (cleanup_wanted m' = true -> own_job m' s' = None) as Hjob'.
  { rewrite Hw. intros Hcw. rewrite <-(Hjob Hcw), <-Hoj. unfold own_job, jobKey.
    by rewrite (si_name _ _ Hsame), (si_namespace _ _ Hsame), (si_uid _ _ Hsame). }
  destruct (Reconcile_deletes r req m' s' Hl Hdel) as (s4 & s5 & Hrun & Hcd & Hgo & Ho5).
  { unfold has_finalizer in *. by rewrite Hfs. }
  { intros Hcw. rewrite Hw in Hcw. specialize (Hjob Hcw). apply (cleanable_same r m m' s' Hsame).
    split; [intros job Hj; congruence|intros job p Hj; congruence|].
    intros Hman. apply (ca_transport r (mg_Namespace m) s s'); [|by apply Hca]. intros key. apply Ho. congruence. }
  exists s5. split_and!; [done| |].
  - intros Hothers. unfold let_go, other_finalizers in *. by rewrite Hfs, Hothers in Hgo.
  - intros k key Hk. rewrite Ho5 by congruence. rewrite <-(Ho k key) by congruence.
    destruct (cleanup_wanted m') eqn:Hcw; [|by subst]. apply (proj1 (cd_frame _ _ _ _ Hcd)). by apply Hjob'.
Qed.

End life.


(** The steps of others on the in-memory cluster. *)
Definition mem_finish (job : Job) (st : JobStatus) (c : cluster) : cluster :=
  set_objects c (store_alter (k:=KJob) (put_object (k:=KJob) (mkJob (job_ObjectMeta job) (job_Spec job) st))
                   (cl_objects c)).

Lemma mem_finishes m job st status reason (c : cluster) :
  mem_lookup c KJob (jobKey m) = Some job -> cl_objects c KPod = [] ->
  outcome_of (job_phase (mkJob (job_ObjectMeta job) (job_Spec job) st)) = Some (status, reason) ->
  job_finishes (H0:=mem_ApiServer) m job status reason c (mem_finish job st c).
Proof.
  intros Hl Hp Hout. pose proof (api_lookup_key (ApiServer:=mem_ApiServer) c KJob _ _ Hl) as Hkey.
  destruct (put_at (k:=KJob) (mkJob (job_ObjectMeta job) (job_Spec job) st) (jobKey m) c) as [Hl' Ho]; [done|].
  split; [done| | |].
  - eexists. split; [exact Hl'|]. done.
  - intros p _ Hpod. exfalso. cbn in Hpod. unfold mem_lookup in Hpod. cbn in Hpod.
    rewrite store_alter_other in Hpod by done. rewrite Hp in Hpod. done.
  - intros k key _ Hne. by apply Ho.
Qed.

Definition mem_mark (m : MustGather) (t : Time) (c : cluster) : cluster :=
  let meta := mg_ObjectMeta m in
  set_objects c (store_alter (k:=KMustGather)
    (put_object (k:=KMustGather)
       (mkMustGather (mg_TypeMeta m) (server_meta c (om_UID meta) (Some t) meta) (mg_Spec m) (mg_Status m)))
    (cl_objects c)).

Lemma mem_marks req m t (c : cluster) :
  mem_lookup c KMustGather req = Some m -> marked_for_deletion (H0:=mem_ApiServer) req m c (mem_mark m t c).
Proof.
  intros Hl. pose proof (api_lookup_key (ApiServer:=mem_ApiServer) c KMustGather _ _ Hl) as Hkey.
  edestruct (put_at (k:=KMustGather)) as [Hl' Ho]; [|split; [exact Ho|]; eexists; split; [exact Hl'|]].
  - exact Hkey.
  - split; [by split|]. split; [by eexists|done].
Qed.

