(* ===== verification/Outcomes.v ===== *)
(** * What success means

    [Reconcile] returns a nil error on many paths.  This file lists what each of
    them has accomplished: there is no way to report success, and so not to be
    called again, without one of these. *)

From S2P Require Import Prelude GoStrings GoErrors GoTime K8sTypes MustGatherV1 Effects KubeEffects.
From S2P Require Import ApiServer MemCluster Conditions OperatorUtils Template MustGatherUtil TrustedCA.
From S2P Require Import Cleanup SftpValidation Reconcile Demo ReconcileSafety JobPhases.

Section outcomes.
  Context `{UnicodeTables}.
  Variable r : MustGatherReconciler.

(** ** Specification *)

(** Why a validation of the instance fails, with its type and its error. *)
Inductive invalid (m : MustGather) (tr : trace KubeE) : string -> goerror -> Prop :=
| invalid_operator_account : usesOperatorSA r m = true ->
    invalid m tr "Service Account" (operatorSARejected m)
| invalid_image tr' e : exec (getMustGatherImage r m) tr' (inl e) ->
    invalid m tr "ImageStream" (Errorf_w (Error errImageValidation +:+ ": " +:+ Error e) errImageValidation)
| invalid_account e :
    saw tr (Get KServiceAccount (mkKey (mg_Namespace m) (spec_ServiceAccountName (mg_Spec m)))) (inl e) ->
    IsNotFound e = true -> invalid m tr "Service Account" e
| invalid_credentials sftp sec field : sftp_of m = Some sftp ->
    saw tr (Get KSecret (mkKey (mg_Namespace m) (lor_Name (sftp_CaseManagementAccountSecretRef sftp)))) (inr sec) ->
    field ∈ ["username"; "password"] -> default "" (sec_Data sec !! field) = "" ->
    invalid m tr "SFTP credentials" (missingField (lor_Name (sftp_CaseManagementAccountSecretRef sftp)) field)
| invalid_connection sftp u p e : sftp_of m = Some sftp ->
    saw tr (SftpDial u p (derefString (sftp_Host sftp))) (Some e) ->
    invalid m tr "SFTP" (errorString "unable to connect to the SFTP server").

(** The failed validation is on the instance, in an event and in the status the
    server accepted. *)
Definition failure_reported (m : MustGather) (tr : trace KubeE) (vt : string) (err : goerror) : Prop :=
  exists now now' m',
    let m1 := validation_failed now now' (vt +:+ " validation failed: " +:+ Error err) m in
    saw tr (RecordEvent m1 "Warning" "ProcessingError" (vt +:+ " validation failed: " +:+ Error err)) tt /\
    saw tr (StatusUpdate m1) (inr m').

Definition success_recorded (m : MustGather) (tr : trace KubeE) : Prop :=
  exists now m', saw tr (StatusUpdate (put_condition m (successCondition m now))) (inr m').

Inductive accomplished (req : NamespacedName) (tr : trace KubeE) : Prop :=
| instance_gone e : saw tr (Get KMustGather req) (inl e) -> IsNotFound e = true -> accomplished req tr
| instance_let_go m : saw tr (Get KMustGather req) (inr m) -> is_Some (om_DeletionTimestamp (mg_ObjectMeta m)) ->
    (has_finalizer m = true -> exists m', saw tr (Update KMustGather (remove_finalizer m)) (inr m')) ->
    accomplished req tr
| instance_protected m m' : saw tr (Get KMustGather req) (inr m) ->
    saw tr (Update KMustGather (mg_with_Finalizers m (mg_Finalizers m ++ [mustGatherFinalizer]))) (inr m') ->
    accomplished req tr
| instance_rejected m vt err : saw tr (Get KMustGather req) (inr m) ->
    invalid m tr vt err -> failure_reported m tr vt err -> accomplished req tr
| gather_started m job answer : saw tr (Get KMustGather req) (inr m) ->
    saw tr (Create KJob job) answer -> (forall e, answer = Some e -> IsAlreadyExists e = true) ->
    success_recorded m tr -> accomplished req tr
| gather_followed m job before m1 m2 : saw tr (Get KMustGather req) (inr m) ->
    saw tr (Get KJob (jobKey m)) (inr job) ->
    phase_start m job (job_phase job) before m1 -> saw tr (StatusUpdate m1) (inr m2) -> accomplished req tr.

(** A program that has accomplished [P] whenever it reports success. *)
Definition achieves (P : trace KubeE -> Prop) (p : kprog Outcome) (tr : trace KubeE) : Prop :=
  wpg no_guard p tr (fun tr' o => o.2 = None -> o.1 = emptyResult /\ P tr').

(** ** Rules *)

Lemma achieves_mono P Q p tr :
  achieves P p tr -> (forall tr', tr `prefix_of` tr' -> P tr' -> Q tr') -> achieves Q p tr.
Proof. intros Hp HQ. eapply wpg_mono; [exact Hp|]. intros tr' o Hpre Ho Hn. destruct (Ho Hn). auto. Qed.

Lemma achieves_error P m e tr : achieves P (ManageError m e) tr.
Proof. unfold achieves, ManageError, ManageErrorWithRequeue. by wp_go. Qed.

Lemma achieves_success m tr : achieves (success_recorded m) (ManageSuccess m) tr.
Proof.
  unfold achieves, success_recorded, ManageSuccess, ManageSuccessWithRequeue. wp_go. intros _.
  split; [done|]. do 2 eexists. apply saw_last.
Qed.

Lemma achieves_validation m vt err tr :
  achieves (fun tr' => failure_reported m tr' vt err) (setValidationFailureStatus m vt err) tr.
Proof.
  unfold achieves, setValidationFailureStatus, failure_reported. wp_step. wp_step; [done|].
  wp_step. eapply wpg_mono; [apply wpg_self|]. cbn beta. intros tr1 now' _ _.
  wp_step. wp_step; [done|]. destruct r1. wp_step. wp_step; [done|]. destruct r1 as [e|m']; [apply achieves_error|].
  cbn. intros _. split; [done|]. exists r0, now', m'. split; [apply saw_snoc|]; apply saw_last.
Qed.

(** An early return, if there is one, has achieved [P]; [Q] holds of going on. *)
Definition achieves_early (P Q : trace KubeE -> Prop) (p : kprog (option Outcome)) (tr : trace KubeE) : Prop :=
  wpg no_guard p tr (fun tr' early =>
    match early with
    | Some o => o.2 = None -> o.1 = emptyResult /\ P tr'
    | None => Q tr'
    end).

Lemma achieves_return P Q (p : kprog Outcome) tr :
  achieves P p tr -> achieves_early P Q (let* o := p in Ret (Some o)) tr.
Proof. intros Hp. by apply wpg_bind. Qed.

(** ** The operations *)

Lemma retry_dialled n u p h e tr :
  (n <> 0)%nat ->
  wpg no_guard (retry_loop n u p h e) tr (fun tr' res => is_Some res -> exists e', saw tr' (SftpDial u p h) (Some e')).
Proof.
  revert e tr. induction n as [|n IH]; intros e tr Hn; [done|]. cbn [retry_loop].
  apply wpg_bind. split; [done|]. intros [err|]; cbn [wpg]; [|by intros []].
  destruct (IsTransientError err); cbn [negb wpg]; [|by eauto using saw_last].
  destruct n as [|n]; [cbn; eauto using saw_last|]. by apply IH.
Qed.

Lemma checkSecretAndSFTP_achieves m tr :
  achieves_early (fun tr' => exists vt err, invalid m tr' vt err /\ failure_reported m tr' vt err) (fun _ => True)
    (checkSecretAndSFTP m) tr.
Proof.
  unfold checkSecretAndSFTP. destruct (sftp_of m) as [sftp|] eqn:Hs; [|done].
  unfold achieves_early. wp_step. wp_step; [done|]. destruct r0 as [e|sec].
  { destruct (IsNotFound e); [apply achieves_return, achieves_error|by cbn]. }
  set (tr1 := tr ++ _).
  assert (saw tr1 (Get KSecret (mkKey (mg_Namespace m) (lor_Name (sftp_CaseManagementAccountSecretRef sftp)))) (inr sec))
    as Hsec by apply saw_last.
  str_case (default "" (sec_Data sec !! "username")) "".
  { apply achieves_return. eapply achieves_mono; [apply achieves_validation|]. intros tr2 Hp Hf.
    do 2 eexists. split; [|exact Hf]. eapply invalid_credentials; [done|by eapply saw_prefix|set_solver|done]. }
  str_case (default "" (sec_Data sec !! "password")) "".
  { apply achieves_return. eapply achieves_mono; [apply achieves_validation|]. intros tr2 Hp Hf.
    do 2 eexists. split; [|exact Hf]. eapply invalid_credentials; [done|by eapply saw_prefix|set_solver|done]. }
  apply wpg_bind. eapply wpg_mono; [by apply retry_dialled|]. cbn beta. intros tr2 [err|] _ Hd; [|done].
  destruct (Hd ltac:(by eexists)) as [e' He']. apply achieves_return.
  eapply achieves_mono; [apply achieves_validation|]. intros tr3 Hp Hf.
  do 2 eexists. split; [|exact Hf]. eapply invalid_connection; [done|by eapply saw_prefix].
Qed.

(** What the branch without a Job achieves. *)
Definition started_or_rejected (m : MustGather) (tr : trace KubeE) : Prop :=
  (exists vt err, invalid m tr vt err /\ failure_reported m tr vt err) \/
  (exists job answer, saw tr (Create KJob job) answer /\ (forall e, answer = Some e -> IsAlreadyExists e = true) /\
     success_recorded m tr).

(** Of [getJobFromInstance]: only an unresolved image wraps [errImageValidation]. *)
Lemma getJobFromInstance_image m tr :
  wpg no_guard (getJobFromInstance r m) tr (fun _ res =>
    match res with
    | inl err => errors_Is (is_sentinel "errImageValidation") err = true ->
        exists tr' e, exec (getMustGatherImage r m) tr' (inl e) /\
          err = Errorf_w (Error errImageValidation +:+ ": " +:+ Error e) errImageValidation
    | inr _ => True
    end).
Proof.
  unfold getJobFromInstance. apply wpg_bind. eapply wpg_mono; [apply wpg_self|]. cbn beta.
  intros tr1 [e|image] _ (l & _ & He); [cbn; eauto|].
  wp_step. wp_step; [done|]. destruct r0 as [op|]; [|by cbn].
  eapply wpg_mono; [apply wpg_self|]. cbn beta. intros tr2 [err|job] _ (l' & _ & He'); [|done].
  exfalso. apply exec_inv in He' as (now & t & -> & He'). cbn [prog_bind] in He'.
  apply exec_bind_inv in He' as (? & ? & dir & -> & _ & He').
  apply exec_bind_inv in He' as (? & ? & job & -> & _ & He'). by apply exec_inv in He' as [_ ?].
Qed.

Lemma reconcileCreate_achieves m tr : achieves (started_or_rejected m) (reconcileCreate r m) tr.
Proof.
  unfold reconcileCreate, started_or_rejected, achieves. apply wpg_bind.
  eapply wpg_mono; [apply getJobFromInstance_image|]. cbn beta. intros tr1 [err|job] _ Hres.
  { destruct (errors_Is _ err) eqn:His; [|apply achieves_error]. destruct (Hres eq_refl) as (tr' & e & He & ->).
    eapply achieves_mono; [apply achieves_validation|]. intros tr2 _ Hf. left. do 2 eexists.
    split; [by eapply invalid_image|exact Hf]. }
  wp_step. wp_step; [done|]. destruct r0 as [e|sa].
  { destruct (IsNotFound e) eqn:He; [|by cbn]. eapply achieves_mono; [apply achieves_validation|].
    intros tr2 Hp Hf. left. do 2 eexists. split; [|exact Hf].
    eapply invalid_account; [eapply saw_prefix, saw_last; done|done]. }
  apply wpg_bind. eapply wpg_mono; [apply checkSecretAndSFTP_achieves|]. cbn beta.
  intros tr2 [o|] _ Ho; [cbn; intros Hn; destruct (Ho Hn); auto|].
  apply wpg_bind. unfold CreateResourceIfNotExists. wp_step. wp_step; [done|]. set (job' := owned_job _ _ _).
  assert (forall tr3, (tr2 ++ [Ev (Create KJob job') r0]) `prefix_of` tr3 ->
            (forall e, r0 = Some e -> IsAlreadyExists e = true) ->
            achieves (started_or_rejected m) (let* _ := call (MetricInc MetricMustGatherTotal) in ManageSuccess m) tr3) as Hgo.
  { intros tr3 Hp Hr. unfold achieves. wp_step. wp_step; [done|].
    eapply achieves_mono; [apply achieves_success|]. intros tr4 Hp4 Hs. right. exists job', r0. split; [|done].
    eapply saw_prefix; [|apply saw_last]. etransitivity; [exact Hp|]. etransitivity; [|exact Hp4]. by eexists. }
  destruct r0 as [e|]; [destruct (IsAlreadyExists e) eqn:He|]; cbn [wpg];
    [apply Hgo; [done|by intros ? [= <-]]|apply achieves_error|by apply Hgo].
Qed.

Definition followed (m : MustGather) (job : Job) (tr : trace KubeE) : Prop :=
  exists before m1 m2, phase_start m job (job_phase job) before m1 /\ saw tr (StatusUpdate m1) (inr m2).

Lemma reconcileJob_achieves m job tr : achieves (followed m job) (reconcileJob r m job) tr.
Proof.
  eapply wpg_mono; [apply wpg_self|]. cbn beta. intros tr' o _ (l & -> & He) Hn.
  apply reconcileJob_phases in He as (before & m1 & res & rest & -> & Hst & Hres).
  destruct res as [e|m2]; [destruct Hres; congruence|]. split.
  - destruct Hres as [| | |ph tr1 tr2 e o _ _ _ He]; try done. exfalso.
    destruct (wpg_sound no_guard (ManageError m2 e) (fun _ o => o.2 <> None) tr2 o) as [_ Ho]; [|done..].
    unfold ManageError, ManageErrorWithRequeue. by wp_go.
  - exists before, m1, m2. split; [done|]. unfold saw. set_solver.
Qed.

Lemma reconcileDeletion_achieves m tr :
  achieves (fun tr' => has_finalizer m = true -> exists m', saw tr' (Update KMustGather (remove_finalizer m)) (inr m'))
    (reconcileDeletion r m) tr.
Proof.
  unfold achieves, reconcileDeletion. destruct (has_finalizer m); [|by cbn].
  apply wpg_bind. eapply wpg_mono; [apply wpg_self|]. cbn beta. intros tr1 [e|] _ _; [by cbn|].
  wp_step. wp_step; [done|]. destruct r0 as [e|m']; [apply achieves_error|]. cbn. intros _. split; [done|].
  intros _. exists m'. apply saw_last.
Qed.

Lemma invalid_prefix m tr tr' vt err : tr `prefix_of` tr' -> invalid m tr vt err -> invalid m tr' vt err.
Proof. intros Hp []; econstructor; eauto using saw_prefix. Qed.

Lemma reconcileActive_achieves m req tr :
  saw tr (Get KMustGather req) (inr m) -> achieves (accomplished req) (reconcileActive r m) tr.
Proof.
  intros Hm. unfold achieves, reconcileActive. apply wpg_bind.
  eapply wpg_mono; [apply wpg_self|]. cbn beta. intros tr1 [e|] Hp1 _; [apply achieves_error|].
  wp_step. wp_step; [done|].
  assert (forall x tr2, (tr1 ++ [Ev (Get KJob (jobKey m)) x]) `prefix_of` tr2 ->
            saw tr2 (Get KMustGather req) (inr m)) as Hm2.
  { intros x tr2 Hp. eapply saw_prefix; [|exact Hm]. etransitivity; [exact Hp1|]. etransitivity; [|exact Hp]. by eexists. }
  destruct r0 as [e|job].
  - destruct (IsNotFound e); cbn [negb]; [|apply achieves_error].
    eapply achieves_mono; [apply reconcileCreate_achieves|]. intros tr2 Hp [(vt & err & Hi & Hf)|(j & a & Hc & Ha & Hs)].
    + eapply instance_rejected; eauto.
    + eapply gather_started; eauto.
  - eapply achieves_mono; [apply reconcileJob_achieves|]. intros tr2 Hp (before & m1 & m2 & Hst & Hs).
    eapply gather_followed; [by eapply Hm2| |done|done]. eapply saw_prefix, saw_last. done.
Qed.

Lemma Reconcile_achieves req : achieves (accomplished req) (Reconcile r req) [].
Proof.
  unfold achieves, Reconcile. wp_step. wp_step; [done|]. destruct r0 as [e|m].
  { destruct (IsNotFound e) eqn:He; cbn; [|done]. intros _. split; [done|].
    eapply instance_gone; [apply (saw_last [])|done]. }
  assert (saw ([] ++ [Ev (Get KMustGather req) (inr m)]) (Get KMustGather req) (inr m)) as Hm by apply saw_last.
  revert Hm. generalize ([] ++ [Ev (Get KMustGather req) (inr m)]) as tr. intros tr Hm.
  destruct (om_DeletionTimestamp (mg_ObjectMeta m)) as [t|] eqn:Hdel; cbn [has].
  { eapply achieves_mono; [apply reconcileDeletion_achieves|]. intros tr' Hp Hup.
    apply (instance_let_go _ _ m); [by eapply saw_prefix|by rewrite Hdel|done]. }
  destruct (has_finalizer m); cbn [negb].
  2: { unfold addFinalizer. apply wpg_bind. apply wpg_bind. split; [done|]. intros [e|m']; cbn; [done|]. intros _.
       split; [done|]. eapply instance_protected; [by eapply saw_snoc|apply saw_last]. }
  destruct (usesOperatorSA r m) eqn:Hsa; [|by apply reconcileActive_achieves].
  eapply achieves_mono; [apply achieves_validation|]. intros tr' Hp Hf.
  eapply instance_rejected; [by eapply saw_prefix|by apply invalid_operator_account|exact Hf].
Qed.

End outcomes.

(** C29: success means something was accomplished.  Whenever [Reconcile]
    returns a nil error, whatever was answered, it asks for no requeue, and one
    of six things was done: the instance does not exist; it is being deleted,
    and the operator's finalizer was taken off it if it was on; the finalizer
    was put on it; one of the five validations failed, and an event and a status
    accepted by the server say which and why; its Job was created, or existed
    already, and the success condition was accepted; or its Job was there, and
    the status of the Job's phase was accepted. *)
Theorem success_is_an_accomplishment `{UnicodeTables} r req tr res :
  exec (Reconcile r req) tr (res, None) -> res = emptyResult /\ accomplished r req tr.
Proof. intros He. by destruct (wpg_sound _ _ _ _ _ (Reconcile_achieves r req) He) as [_ Ho]; apply Ho. Qed.

Lemma success_is_an_accomplishment_witness :
  let p := @Reconcile ascii_tables demo_reconciler demo_key in
  let s := demo_cluster (demo_objects [demo_mustgather [mustGatherFinalizer] demo_spec] [] [])
             [Some (netError "connection refused" false [])] in
  existsb is_status_update (run_trace mem_handle p s) = true /\
  accomplished (H:=ascii_tables) demo_reconciler demo_key (run_trace mem_handle p s).
Proof.
  intros p s. split; [vm_compute; reflexivity|].
  apply (success_is_an_accomplishment (H:=ascii_tables) demo_reconciler demo_key (run_trace mem_handle p s) emptyResult).
  replace (emptyResult, None) with (run mem_handle p s).1 by (vm_compute; reflexivity). apply run_exec.
Defined.
