(* ===== verification/GatherScript.v ===== *)
(** * What the gather container runs

    The command of the gather container, seen from the shell: which process a
    user's own command becomes, and which of its positional parameters the
    default script looks at. *)

From Stdlib Require Import Ascii.
From S2P Require Import Prelude GoStrings GoErrors GoTime K8sTypes MustGatherV1 Effects KubeEffects.
From S2P Require Import ApiServer MemCluster Conditions OperatorUtils Template MustGatherUtil TrustedCA.
From S2P Require Import Cleanup SftpValidation Reconcile Demo TemplateFacts.

Definition dollar : ascii := byte_of 36.

(** The characters that follow a [$] in a shell text. *)
Fixpoint dollar_uses (s : string) : list ascii :=
  match s with
  | "" => []
  | String c s' =>
      (if Ascii.eqb c dollar then match s' with String c' _ => [c'] | "" => [] end else []) ++ dollar_uses s'
  end.

(** [$@], [$*], [$#], [$0] to [$9], and [${...}], which could hold any of them. *)
Definition positional (c : ascii) : bool := negb (all_bytes (fun d => negb (Ascii.eqb d c)) "@*#0123456789{").

(** The argument vector of the process a container starts for the user: the
    command and its arguments themselves, or, for a shell script that begins by
    running its positional parameters, these. *)
Inductive runs (c : Container) : list string -> Prop :=
| runs_command : runs c (ctr_Command c ++ ctr_Args c)
| runs_parameters rest :
    ctr_Command c = ["/bin/bash"; "-c"; dq +:+ "$@" +:+ dq +:+ nl +:+ rest; "--"] -> runs c (ctr_Args c).

Lemma dollar_uses_append s1 s2 : without dollar s1 = true -> dollar_uses (s1 +:+ s2) = dollar_uses s2.
Proof.
  unfold without. induction s1 as [|c s1 IH]; cbn [all_bytes]; [done|]. rewrite append_String.
  intros [Hc Hs]%andb_true_iff. cbn [dollar_uses]. apply negb_true_iff in Hc. rewrite Hc. by apply IH.
Qed.

(** Numbers hold no [$]. *)
Lemma fmt_e_dollar digits n : without dollar digits = true -> without dollar (fmt_e digits n) = true.
Proof.
  intros Hd. assert (without dollar (pad_zero 2 (strconv_Itoa (Z.of_nat n))) = true) as Hp
    by (apply pad_zero_bytes; [done|by apply Itoa_bytes]).
  unfold fmt_e. destruct digits as [|c [|c' rest]]; [done|..];
    cbn [without all_bytes] in Hd; apply andb_true_iff in Hd as [Hc Hd];
    unfold without in *; rewrite !all_bytes_append; cbn [all_bytes]; rewrite Hc, Hp; try done.
  cbn [all_bytes] in Hd. by rewrite Hd.
Qed.

Lemma timeout_arg_dollar t : without dollar (timeout_arg t) = true.
Proof.
  unfold timeout_arg. destruct (ceil_f64 _) as [[neg n]|]; [|done].
  unfold fmt_v_integral. rewrite without_append. apply andb_true_iff. split; [by destruct neg|].
  destruct (_ <=? _)%nat; [apply fmt_e_dollar|]; by apply Itoa_bytes.
Qed.

Lemma gatherCommand_dollars timeout binary s :
  without dollar timeout = true -> without dollar binary = true ->
  dollar_uses (gatherCommand timeout binary +:+ s) = dollar_uses (gatherCommand "" "" +:+ s).
Proof.
  intros Ht Hb. unfold gatherCommand. rewrite !append_assoc.
  rewrite (dollar_uses_append "timeout "), (dollar_uses_append timeout) by done.
  rewrite (dollar_uses_append " bash -x -c -- '/usr/bin/"), (dollar_uses_append binary) by done. done.
Qed.

(** C30: the gather container runs what the spec asks for.  With a command in
    the spec, the process it starts has the spec's command and arguments as its
    argument vector, with and without obfuscation.  Without one, the default
    script runs the audit or the plain gather binary under the spec's timeout,
    and expands none of its positional parameters, so that the spec's
    arguments, which become those parameters, have no effect. *)
Theorem gather_runs_the_spec image m ca dir :
  let c := gather_of image m ca dir in
  let timeout := timeout_arg (ptr_deref (spec_MustGatherTimeout (mg_Spec m)) 0%Z) in
  (spec_command (mg_Spec m) <> [] -> runs c (spec_command (mg_Spec m) ++ spec_args (mg_Spec m))) /\
  (spec_command (mg_Spec m) = [] ->
   exists script rest, ctr_Command c = ["/bin/bash"; "-c"; script] /\ ctr_Args c = spec_args (mg_Spec m) /\
     script = "timeout " +:+ timeout +:+ " bash -x -c -- '/usr/bin/"
              +:+ (if spec_audit (mg_Spec m) then "gather_audit_logs" else "gather") +:+ rest /\
     Forall (fun d => positional d = false) (dollar_uses script)).
Proof.
  intros c timeout. unfold c, gather_of, getGatherContainer, gatherCommandArgs.
  destruct (spec_command (mg_Spec m)) as [|cmd cmds]; (split; [intros Hc|intros Hc]); try done.
  - set (binary := if spec_audit (mg_Spec m) then gatherCommandBinaryAudit else gatherCommandBinaryNoAudit).
    assert (forall s, dollar_uses (gatherCommand timeout binary +:+ s) = dollar_uses (gatherCommand "" "" +:+ s)) as Hd.
    { intros s. apply gatherCommand_dollars; [apply timeout_arg_dollar|]. unfold binary. by destruct (spec_audit _). }
    destruct (shouldAppendObfuscateChown _); cbn [ctr_Command ctr_Args].
    + do 2 eexists. split_and!; [done..|unfold gatherCommand; by rewrite !append_assoc|]. rewrite Hd.
      vm_compute. by repeat constructor.
    + exists (gatherCommand timeout binary). eexists. split_and!; [done..|].
      rewrite <-(append_nil_r (gatherCommand timeout binary)), Hd. vm_compute. by repeat constructor.
  - destruct (shouldAppendObfuscateChown _).
    + eapply runs_parameters. by cbn [ctr_Command].
    + apply runs_command.
Qed.

(** A custom command, and the default one with arguments. *)
Lemma gather_runs_the_spec_witness :
  let spec cmd args := mkMustGatherSpec "default" None
    (Some (mkGatherSpec None cmd args None None)) (Some (600 * Second)%Z) None None None None in
  let m cmd args := demo_mustgather [] (spec cmd args) in
  runs (gather_of "image" (m ["/bin/gather"] ["--all"]) "" "dir") ["/bin/gather"; "--all"] /\
  exists script rest, ctr_Command (gather_of "image" (m [] ["--all"]) "" "dir") = ["/bin/bash"; "-c"; script] /\
    script = "timeout 600 bash -x -c -- '/usr/bin/gather" +:+ rest.
Proof.
  intros spec m. split.
  - exact (proj1 (gather_runs_the_spec "image" (m ["/bin/gather"] ["--all"]) "" "dir") ltac:(done)).
  - destruct (proj2 (gather_runs_the_spec "image" (m [] ["--all"]) "" "dir") eq_refl) as (script & rest & Hc & _ & Hs & _).
    exists script, rest. split; [exact Hc|]. rewrite Hs.
    replace (timeout_arg (ptr_deref (spec_MustGatherTimeout (mg_Spec (m [] ["--all"]))) 0%Z)) with "600"
      by (vm_compute; reflexivity). reflexivity.
Defined.
