(* ===== verification/TimeoutArg.v ===== *)
(** * The timeout of the gather

    The template prints [math.Ceil(timeout.Seconds())] with [%v]: a duration
    becomes a double, the double an integer, the integer text.  For a whole
    number of seconds below a million all of that is exact. *)

From Stdlib Require Import ZArith Floats.SpecFloat DecimalString DecimalPos DecimalFacts Lia.
From S2P Require Import Prelude GoStrings GoErrors GoTime K8sTypes MustGatherV1 Effects KubeEffects Template.

Local Open Scope Z_scope.

(** ** Binary digits *)

Definition digits (p : positive) : Z := Zpos (digits2_pos p).

Lemma digits_bounds p : 2 ^ (digits p - 1) <= Zpos p < 2 ^ digits p.
Proof.
  unfold digits. induction p as [p IH|p IH|]; cbn [digits2_pos]; [| |cbn; lia];
    rewrite Pos2Z.inj_succ, Z.sub_1_r, Z.pred_succ;
    rewrite Z.pow_succ_r by lia; replace (Zpos (digits2_pos p)) with (Z.succ (Zpos (digits2_pos p) - 1)) at 1 by lia;
    rewrite Z.pow_succ_r by lia; lia.
Qed.

Lemma digits_small p : Zpos p < 2 ^ 53 -> digits p <= 53.
Proof.
  intros Hp. destruct (digits_bounds p) as [Hl _]. apply Z.lt_succ_r, Z.lt_pred_lt_succ.
  rewrite <-Z.sub_1_r. apply (Z.pow_lt_mono_r_iff 2); [lia|lia|]. lia.
Qed.

Lemma iter_xO p k : Zpos (Pos.iter xO p k) = Zpos p * 2 ^ Zpos k /\ digits (Pos.iter xO p k) = digits p + Zpos k.
Proof.
  induction k as [|k [IH1 IH2]] using Pos.peano_ind.
  - cbn. unfold digits. cbn [digits2_pos]. lia.
  - rewrite Pos.iter_succ. unfold digits in *. cbn [digits2_pos]. split.
    + rewrite Pos2Z.inj_xO, IH1, Pos2Z.inj_succ, Z.pow_succ_r by lia. lia.
    + rewrite Pos2Z.inj_succ, IH2, Pos2Z.inj_succ. lia.
Qed.

(** ** An integer as a double *)

(** A mantissa of 53 digits is kept. *)
Lemma round_aux_exact q e :
  digits q = 53 -> -1074 <= e <= 971 -> binary_round_aux 53 1024 false (Zpos q) e loc_Exact = S754_finite false q e.
Proof.
  intros Hd He. assert (shr_fexp 53 1024 (Zpos q) e loc_Exact = (Build_shr_record (Zpos q) false false, e)) as Hs.
  { unfold shr_fexp. cbn [Zdigits2]. fold (digits q). rewrite Hd. unfold fexp, emin.
    replace (Z.max (53 + e - 53) (3 - 1024 - 53) - e) with 0 by lia. done. }
  unfold binary_round_aux. rewrite Hs. cbn [shr_m loc_of_shr_record round_nearest_even]. rewrite Hs. cbn [shr_m].
  replace (e <=? 1024 - 53) with true; [done|]. symmetry. apply Z.leb_le. lia.
Qed.

(** An integer below [2^53] is a double, shifted to 53 digits. *)
Lemma f64_of_pos p : Zpos p < 2 ^ 53 ->
  exists q k, f64_of_Z (Zpos p) = S754_finite false q (- k) /\ 0 <= k /\ Zpos q = Zpos p * 2 ^ k.
Proof.
  intros Hp. pose proof (digits_small p Hp) as Hd. assert (0 < digits p) as Hd0 by done.
  unfold f64_of_Z. cbn [binary_normalize]. unfold binary_round. rewrite Z.add_0_r. fold (digits p).
  unfold fexp, emin. replace (Z.max (digits p - 53) (3 - 1024 - 53)) with (digits p - 53) by lia.
  unfold shl_align. rewrite Z.sub_0_r. destruct (digits p - 53) as [|?|k] eqn:Hk; [|lia|].
  - exists p, 0. split_and!; [|lia|lia]. apply round_aux_exact; lia.
  - exists (Pos.iter xO p k), (Zpos k). destruct (iter_xO p k) as [Hv Hdk]. split_and!; [|lia|done].
    change (- Zpos k) with (Zneg k). apply round_aux_exact; lia.
Qed.

Lemma ceil_f64_of_Z n : 0 <= n < 2 ^ 53 -> ceil_f64 (f64_of_Z n) = Some (false, n).
Proof.
  intros Hn. destruct n as [|p|p]; [done| |lia].
  destruct (f64_of_pos p (proj2 Hn)) as (q & k & -> & Hk & Hq). cbn [ceil_f64]. rewrite Z.opp_involutive, Hq.
  destruct (Z.leb_spec 0 (- k)) as [H0|H0].
  - replace k with 0 by lia. change (2 ^ 0) with 1. change (2 ^ (- 0)) with 1. by rewrite !Z.mul_1_r.
  - assert (0 < 2 ^ k) as H2 by lia. do 2 f_equal.
    replace (Zpos p * 2 ^ k + 2 ^ k - 1) with (Zpos p * 2 ^ k + (2 ^ k - 1)) by lia.
    rewrite Z.div_add_l by lia. rewrite Z.div_small by lia. lia.
Qed.

(** A whole number of seconds. *)
Lemma seconds_exact n : 0 <= n < 2 ^ 53 -> Duration_Seconds (n * Second) = f64_of_Z n.
Proof.
  intros Hn. unfold Duration_Seconds. rewrite Z.quot_mul, Z.rem_mul by done.
  assert (f64_div (f64_of_Z 0) (f64_of_Z 1000000000) = S754_zero false) as -> by reflexivity.
  destruct n as [|p|p]; [done| |lia]. destruct (f64_of_pos p (proj2 Hn)) as (q & k & -> & _). done.
Qed.

(** ** Its text *)

Lemma length_uint d : String.length (NilEmpty.string_of_uint d) = Decimal.nb_digits d.
Proof. induction d; cbn; by rewrite ?IHd. Qed.

(** More digits after an accumulated value multiply it. *)
Lemma of_uint_acc_ge d acc : (Zpos acc * 10 ^ Z.of_nat (Decimal.nb_digits d) <= Zpos (Pos.of_uint_acc d acc)).
Proof.
  revert acc. induction d; intros acc; cbn [Decimal.nb_digits Pos.of_uint_acc]; [cbn; lia|..];
    rewrite Nat2Z.inj_succ, Z.pow_succ_r by lia; (etransitivity; [|apply IHd]); nia.
Qed.

(** The digits of a positive number begin with a digit other than 0. *)
Lemma to_uint_head p d : Pos.to_uint p <> Decimal.D0 d.
Proof.
  intros E. assert (Decimal.unorm (Pos.to_uint p) = Pos.to_uint p) as Hn.
  { pose proof (Unsigned.to_of (Pos.to_uint p)) as H. rewrite Unsigned.of_to in H. by rewrite <-H. }
  rewrite E in Hn. unfold Decimal.unorm in Hn. cbn [Decimal.nzhead] in Hn.
  assert (forall d e, Decimal.nzhead d <> Decimal.D0 e) as Hz by (intros d0 e; induction d0; done).
  destruct (Decimal.nzhead d) eqn:Ed; try done.
  - injection Hn as <-. by apply (Unsigned.to_uint_nonzero p).
  - by eapply Hz.
Qed.

Lemma length_Itoa n k : 0 <= n < 10 ^ Z.of_nat k -> (0 < k)%nat -> (String.length (strconv_Itoa n) <= k)%nat.
Proof.
  intros Hn Hk. destruct n as [|p|p]; [by cbn; lia| |lia].
  unfold strconv_Itoa, NilZero.string_of_int, NilZero.string_of_uint. cbn [Z.to_int].
  pose proof (Unsigned.of_to p) as Hof. pose proof (to_uint_head p) as Hh. pose proof (Unsigned.to_uint_nonnil p) as Hnn.
  destruct (Pos.to_uint p) as [|d|d|d|d|d|d|d|d|d|d] eqn:Ep; [done|by destruct (Hh d)|..];
    rewrite length_uint; cbn [Decimal.nb_digits]; cbn [Pos.of_uint] in Hof; injection Hof as Hof;
    match type of Hof with Pos.of_uint_acc ?d ?a = _ => pose proof (of_uint_acc_ge d a) as Hge end;
    rewrite Hof in Hge;
    assert (Z.of_nat (Decimal.nb_digits d) < Z.of_nat k) by (apply (Z.pow_lt_mono_r_iff 10); lia); lia.
Qed.

(** C31: the timeout is exact.  A timeout of [n] whole seconds, for any [n]
    below a million (eleven days), reaches the [timeout] command as the decimal
    text of [n]: neither the division into a double nor the rounding up nor the
    formatting changes it. *)
Theorem timeout_arg_exact n : 0 <= n < 1000000 -> timeout_arg (n * Second) = strconv_Itoa n.
Proof.
  intros Hn. unfold timeout_arg. rewrite seconds_exact, ceil_f64_of_Z by lia. unfold fmt_v_integral.
  pose proof (length_Itoa n 6 Hn ltac:(lia)) as Hl.
  replace (shortest_g_exponent <=? String.length (strconv_Itoa n) - 1)%nat with false; [done|].
  symmetry. apply Nat.leb_gt. unfold shortest_g_exponent. lia.
Qed.

Lemma timeout_arg_exact_witness : timeout_arg 7200000000000 = "7200".
Proof. exact (timeout_arg_exact 7200 ltac:(lia)). Defined.
