(* ===== verification/NetworkLink.v ===== *)
(** * The reconciler on the network

    In the source the seam [sftpDialFunc] is [checkSFTPConnection]: the effect
    [SftpDial] of the reconciler stands for that program over the network's
    effects.  Here the two are put together, and what [Reconcile] does on the
    network is stated of the whole. *)

From S2P Require Import Prelude GoStrings GoErrors GoTime K8sTypes MustGatherV1 Effects KubeEffects.
From S2P Require Import ApiServer MemCluster Conditions OperatorUtils Template MustGatherUtil TrustedCA.
From S2P Require Import Cleanup SftpValidation Reconcile Requests Demo ReconcileSafety SftpNonInterference.
From S2P Require Import SftpDialing SftpDialingFacts.

(** Requests of either signature. *)
Inductive sumE (E F : Type -> Type) : Type -> Type :=
| inlE {R} (e : E R) : sumE E F R
| inrE {R} (f : F R) : sumE E F R.
Arguments inlE {E F R} e.
Arguments inrE {E F R} f.

Definition right_event {E F} (ev : event (sumE E F)) : option (event F) :=
  match ev with
  | Ev e x => match e in sumE _ _ R return R -> option (event F) with
              | inlE _ => fun _ => None
              | inrE f => fun x => Some (Ev f x)
              end x
  end.

Definition on_right {E F A} (p : prog F A) : prog (sumE E F) A := interp (fun R f => call (inrE f)) p.

Definition left_event {E F} (ev : event (sumE E F)) : option (event E) :=
  match ev with
  | Ev e x => match e in sumE _ _ R return R -> option (event E) with
              | inlE f => fun x => Some (Ev f x)
              | inrE _ => fun _ => None
              end x
  end.

(** What an execution exchanged with the cluster, and what it did on the
    network. *)
Definition on_cluster (tr : trace (sumE KubeE NetE)) : trace KubeE := omap left_event tr.
Definition network (tr : trace (sumE KubeE NetE)) : trace NetE := omap right_event tr.

Section link.
  Context `{UnicodeTables}.

(** [sftpDialFunc = checkSFTPConnection]. *)
Definition sftpDialFunc : forall R, KubeE R -> prog (sumE KubeE NetE) R :=
  fun R e =>
    match e in KubeE R return prog (sumE KubeE NetE) R with
    | SftpDial u p h => on_right (checkSFTPConnection u p h)
    | Get k key => call (inlE (Get k key))
    | ListPods ns l => call (inlE (ListPods ns l))
    | Create k o => call (inlE (Create k o))
    | Update k o => call (inlE (Update k o))
    | StatusUpdate m => call (inlE (StatusUpdate m))
    | Delete k o => call (inlE (Delete k o))
    | RecordEvent m t rn msg => call (inlE (RecordEvent m t rn msg))
    | MetricInc m => call (inlE (MetricInc m))
    | LookupEnv n => call (inlE (LookupEnv n))
    | TimeNow => call (inlE TimeNow)
    | RandInt63 => call (inlE RandInt63)
    end.

Definition ReconcileOnNetwork (r : MustGatherReconciler) (req : NamespacedName) : prog (sumE KubeE NetE) Outcome :=
  interp sftpDialFunc (Reconcile r req).

(** The network part of a linked program is the program's. *)
Lemma on_right_exec {E A} (p : prog NetE A) (tr : trace (sumE E NetE)) a :
  exec (on_right p) tr a -> exec p (omap right_event tr) a.
Proof.
  intros He. apply interp_exec in He as (pieces & Hp & -> & Hall).
  assert (omap right_event (concat (map snd pieces)) = map fst pieces) as ->; [|done].
  clear Hp. induction Hall as [|[[R e x] t] pieces Hx Hall IH]; [done|]. cbn in Hx |- *.
  apply exec_inv in Hx as (y & t' & -> & Hx). apply exec_inv in Hx as [-> ->]. cbn. by rewrite IH.
Qed.

Definition is_dial_event (ev : event KubeE) : bool :=
  match ev_eff ev with SftpDial _ _ _ => true | _ => false end.

(** One request of the reconciler, on the network and on the cluster. *)
Definition piece_of (ev : event KubeE) (t : trace (sumE KubeE NetE)) : Prop :=
  (match ev with
   | Ev e x => match e in KubeE R return R -> Prop with
               | SftpDial u p h => fun x => exec (checkSFTPConnection u p h) (network t) x
               | _ => fun _ => network t = []
               end x
   end) /\ (is_dial_event ev = false -> on_cluster t = [ev]).

Lemma sftpDialFunc_piece ev t : exec (sftpDialFunc _ (ev_eff ev)) t (ev_resp ev) -> piece_of ev t.
Proof.
  destruct ev as [R e x]; cbn. intros He. unfold piece_of.
  destruct e; try (apply exec_inv in He as (y & t' & -> & He); by apply exec_inv in He as [-> ->]).
  split; [by apply on_right_exec|done].
Qed.

(** A linked execution, piece by piece. *)
Lemma linked_exec {A} (p : kprog A) tr a :
  exec (interp sftpDialFunc p) tr a ->
  exists pieces : list (event KubeE * trace (sumE KubeE NetE)),
    exec p (map fst pieces) a /\ tr = concat (map snd pieces) /\ Forall (fun x => piece_of x.1 x.2) pieces.
Proof.
  intros He. apply interp_exec in He as (pieces & Hp & -> & Hall). exists pieces. split_and!; [done|done|].
  eapply Forall_impl; [exact Hall|]. intros [ev t]. apply sftpDialFunc_piece.
Qed.

(** Nothing of the exchange with the cluster is lost. *)
Lemma cluster_saw pieces ev :
  Forall (fun x => piece_of x.1 x.2) pieces -> ev ∈ map fst pieces -> is_dial_event ev = false ->
  ev ∈ on_cluster (concat (map snd pieces)).
Proof.
  intros Hall Hin Hd. apply (list_elem_of_fmap fst) in Hin as ([ev' t] & -> & Hin). cbn in Hd |- *.
  rewrite Forall_forall in Hall. destruct (Hall _ Hin) as [_ Hc]. apply list_elem_of_split in Hin as (l1 & l2 & ->).
  unfold on_cluster in *. rewrite map_app, concat_app, omap_app. cbn. rewrite omap_app. cbn in Hc. rewrite (Hc Hd).
  set_solver.
Qed.

(** ** The dials of a reconcile *)

Definition dials (tr : trace KubeE) : nat := length (List.filter is_dial_event tr).

(** A dial goes to the host of the spec with the credentials of its secret. *)
Definition dial_justified (req : NamespacedName) (tr : trace KubeE) (u p h : string) : Prop :=
  exists m sftp sec, saw tr (Get KMustGather req) (inr m) /\ sftp_of m = Some sftp /\
    saw tr (Get KSecret (mkKey (mg_Namespace m) (lor_Name (sftp_CaseManagementAccountSecretRef sftp)))) (inr sec) /\
    sec_Data sec !! "username" = Some u /\ sec_Data sec !! "password" = Some p /\
    h = derefString (sftp_Host sftp).

Definition on_dial (req : NamespacedName) : guard KubeE :=
  fun tr R e => match e with SftpDial u p h => dial_justified req tr u p h | _ => True end.

Lemma dials_app tr tr' : dials (tr ++ tr') = (dials tr + dials tr')%nat.
Proof. unfold dials. by rewrite List.filter_app, length_app. Qed.

Lemma wpg_free {A} req (p : kprog A) tr (Q : trace KubeE -> A -> Prop) :
  everywhere not_dial p -> (forall tr' a, tr `prefix_of` tr' -> dials tr' = dials tr -> Q tr' a) ->
  wpg (on_dial req) p tr Q.
Proof.
  intros Hp HQ.
  apply (everywhere_wpg _ not_dial _ _ (fun tr' => tr `prefix_of` tr' /\ dials tr' = dials tr)); auto.
  - intros tr' R e [Hpre Hd] He. split; [by destruct e|]. intros x. split; [by apply prefix_app_r|].
    rewrite dials_app, Hd. destruct e; try done; cbn; lia.
  - intros tr' a [? ?]. by apply HQ.
Qed.

Lemma retry_dials req n u p h e tr :
  (forall tr', tr `prefix_of` tr' -> dial_justified req tr' u p h) ->
  wpg (on_dial req) (retry_loop n u p h e) tr (fun tr' _ => tr `prefix_of` tr' /\ (dials tr' <= dials tr + n)%nat).
Proof.
  revert e tr. induction n as [|n IH]; intros e tr Hj; cbn [retry_loop]; [cbn; split; [done|lia]|].
  apply wpg_bind. split; [by apply Hj|]. intros x.
  assert (dials (tr ++ [Ev (SftpDial u p h) x]) = S (dials tr)) as Hd by (rewrite dials_app; cbn; lia).
  assert (tr `prefix_of` tr ++ [Ev (SftpDial u p h) x]) as Hp by by apply prefix_app_r.
  destruct x as [err|]; [|cbn; split; [done|lia]]. cbn [wpg].
  destruct (IsTransientError err); cbn [negb]; [|cbn; split; [done|lia]].
  eapply wpg_mono; [apply IH|].
  - intros tr' Htr. apply Hj. by etransitivity.
  - cbn beta. intros tr' res _ [Hpre Hle]. split; [by etransitivity|lia].
Qed.

Lemma dial_justified_prefix req tr tr' u p h :
  tr `prefix_of` tr' -> dial_justified req tr u p h -> dial_justified req tr' u p h.
Proof.
  intros Hp (m & sftp & sec & ? & ? & ? & ? & ? & ?). exists m, sftp, sec. split_and!; eauto using saw_prefix.
Qed.

Lemma checkSecretAndSFTP_dials req m tr :
  saw tr (Get KMustGather req) (inr m) ->
  wpg (on_dial req) (checkSecretAndSFTP m) tr
    (fun tr' _ => tr `prefix_of` tr' /\ (dials tr' <= dials tr + MaxSFTPValidationRetries)%nat).
Proof.
  intros Hm. unfold checkSecretAndSFTP. destruct (sftp_of m) as [sftp|] eqn:Hs; [|cbn; split; [done|lia]].
  wp_step. wp_step; [done|]. set (tr1 := tr ++ _).
  assert (tr `prefix_of` tr1 /\ dials tr1 = dials tr) as [Hp1 Hd1].
  { split; [by apply prefix_app_r|]. unfold tr1. rewrite dials_app. cbn. lia. }
  assert (forall p : kprog (option Outcome), everywhere not_dial p ->
            wpg (on_dial req) p tr1
              (fun tr' _ => tr `prefix_of` tr' /\ (dials tr' <= dials tr + MaxSFTPValidationRetries)%nat)) as Hfree.
  { intros p Hp. apply wpg_free; [done|]. intros tr' a Hpre Hd. split; [by etransitivity|lia]. }
  destruct r as [e|sec]; [apply Hfree; destruct (IsNotFound e); [|done]; ev_go; by_requests|].
  destruct (sec_Data sec !! "username") as [u|] eqn:Hu; cbn [from_option default id];
    [|rewrite str_eqb_refl; apply Hfree; ev_go; by_requests].
  str_case u ""; [apply Hfree; ev_go; by_requests|].
  destruct (sec_Data sec !! "password") as [p|] eqn:Hpw; cbn [from_option default id];
    [|rewrite str_eqb_refl; apply Hfree; ev_go; by_requests].
  str_case p ""; [apply Hfree; ev_go; by_requests|].
  apply wpg_bind. eapply wpg_mono; [apply retry_dials|].
  { intros tr' Hpre. exists m, sftp, sec. split_and!; try done.
    - eapply saw_prefix; [|exact Hm]. by etransitivity.
    - eapply saw_prefix; [exact Hpre|apply saw_last]. }
  cbn beta. intros tr2 res _ [Hp2 Hd2]. destruct res as [err|]; [|cbn; split; [by etransitivity|lia]].
  apply wpg_free; [ev_go; by_requests|]. intros tr' a Hpre Hd. split; [|lia].
  do 2 (etransitivity; [eassumption|]). done.
Qed.

(** ** The reconciler *)

(** At most three dials since a history without any. *)
Definition few_dials {A} : trace KubeE -> A -> Prop := fun tr _ => (dials tr <= MaxSFTPValidationRetries)%nat.

Lemma wpg_few {A} req (p : kprog A) tr :
  everywhere not_dial p -> (dials tr <= MaxSFTPValidationRetries)%nat -> wpg (on_dial req) p tr few_dials.
Proof. intros Hp Hd. apply wpg_free; [done|]. intros tr' a _ Hd'. unfold few_dials. lia. Qed.

Lemma reconcileCreate_dials r req m tr :
  saw tr (Get KMustGather req) (inr m) -> dials tr = 0%nat ->
  wpg (on_dial req) (reconcileCreate r m) tr few_dials.
Proof.
  intros Hm Hd. unfold reconcileCreate. apply wpg_bind, wpg_free; [eauto with mgo|].
  intros tr1 [e|job] Hp1 Hd1; [apply wpg_few; [by ev_go|lia]|].
  wp_step. wp_step; [done|]. set (tr2 := tr1 ++ _).
  assert (tr1 `prefix_of` tr2 /\ dials tr2 = dials tr1) as [Hp2 Hd2].
  { split; [by apply prefix_app_r|]. unfold tr2. rewrite dials_app. cbn. lia. }
  match goal with x : (goerror + _)%type |- _ => destruct x as [e|sa] end.
  { apply wpg_few; [by ev_go|lia]. }
  apply wpg_bind. eapply wpg_mono; [apply checkSecretAndSFTP_dials|].
  { eapply saw_prefix; [|exact Hm]. by etransitivity. }
  cbn beta. intros tr3 o _ [_ Hd3]. apply wpg_few; [unfold CreateResourceIfNotExists; by ev_go|lia].
Qed.

Lemma Reconcile_dials r req : wpg (on_dial req) (Reconcile r req) [] few_dials.
Proof.
  unfold Reconcile. wp_step. wp_step; [done|]. set (tr1 := [] ++ _).
  assert (dials tr1 = 0%nat) as Hd1 by done.
  match goal with x : (goerror + _)%type |- _ => destruct x as [e|m] end.
  { apply wpg_few; [by ev_go|lia]. }
  assert (saw tr1 (Get KMustGather req) (inr m)) as Hm by apply saw_last.
  destruct (has _); [apply wpg_few; [by ev_go|lia]|].
  destruct (has_finalizer m); cbn [negb]; [|apply wpg_few; [unfold addFinalizer; by ev_go|lia]].
  destruct (usesOperatorSA r m); [apply wpg_few; [by ev_go|lia]|].
  unfold reconcileActive. apply wpg_bind, wpg_free; [eauto with mgo|].
  intros tr2 [e|] Hp2 Hd2; [apply wpg_few; [by ev_go|lia]|].
  wp_step. wp_step; [done|]. set (tr3 := tr2 ++ _).
  assert (dials tr3 = 0%nat) as Hd3 by (unfold tr3; rewrite dials_app; cbn; lia).
  match goal with x : (goerror + _)%type |- _ => destruct x as [e|job] end.
  - destruct (IsNotFound e); cbn [negb]; [|apply wpg_few; [by ev_go|lia]].
    apply reconcileCreate_dials; [|done]. eapply saw_prefix; [|exact Hm].
    etransitivity; [exact Hp2|by apply prefix_app_r].
  - apply wpg_few; [by ev_go|lia].
Qed.

(** ** One trial connection *)

Definition is_tcp (ev : event NetE) : bool := match ev_eff ev with DialTCP _ _ => true | _ => false end.
Definition tcp_dials (tr : trace NetE) : nat := length (List.filter is_tcp tr).

Lemma tcp_dials_app tr tr' : tcp_dials (tr ++ tr') = (tcp_dials tr + tcp_dials tr')%nat.
Proof. unfold tcp_dials. by rewrite List.filter_app, length_app. Qed.

Definition not_tcp (R : Type) (e : NetE R) : Prop := match e with DialTCP _ _ => False | _ => True end.

Lemma wpg_not_tcp {A} (p : nprog A) tr n :
  everywhere not_tcp p -> (tcp_dials tr <= n)%nat -> wpg no_guard p tr (fun tr' _ => (tcp_dials tr' <= n)%nat).
Proof.
  intros Hp Hn. apply (everywhere_wpg _ not_tcp _ _ (fun tr' => (tcp_dials tr' <= n)%nat)); auto.
  intros tr' R e Hd He. split; [done|]. intros x. rewrite tcp_dials_app. destruct e; try done; cbn; lia.
Qed.

Lemma wpg_one_tcp {A} addr t (f : goerror + nat -> nprog A) tr n :
  (forall x, everywhere not_tcp (f x)) -> (S (tcp_dials tr) <= n)%nat ->
  wpg no_guard (prog_bind (call (DialTCP addr t)) f) tr (fun tr' _ => (tcp_dials tr' <= n)%nat).
Proof.
  intros Hf Hn. wp_step. wp_step; [done|]. apply wpg_not_tcp; [apply Hf|]. rewrite tcp_dials_app. cbn. lia.
Qed.

Lemma netDial_tcp addr : wpg no_guard (netDial addr) [] (fun tr' _ => (tcp_dials tr' <= 1)%nat).
Proof.
  unfold netDial. apply wpg_bind. eapply wpg_mono; [apply (wpg_not_tcp _ _ 0); [|done]|].
  { unfold getProxyURLForAddr. by ev_go. }
  cbn beta. intros tr [e|[u|]] _ Hd.
  - cbn. lia.
  - apply wpg_one_tcp; [|lia]. intros x. by ev_go.
  - split; [done|]. intros x. cbn. rewrite tcp_dials_app. cbn. lia.
Qed.

Lemma check_tcp u p h : wpg no_guard (checkSFTPConnection u p h) [] (fun tr _ => (tcp_dials tr <= 1)%nat).
Proof.
  unfold checkSFTPConnection. apply wpg_bind. eapply wpg_mono; [apply netDial_tcp|]. cbn beta.
  intros tr x _ Hd. apply wpg_not_tcp; [|done]. unfold verifySFTPSubsystem. by ev_go.
Qed.

(** Credentials are presented once the address is dialled, to it alone. *)
Definition presents (addr u p : string) (R : Type) (e : NetE R) : Prop :=
  match e with
  | NewClientConn _ a config => a = addr /\ config = buildSSHConfig u p InsecureIgnoreHostKey
  | _ => True
  end.

Lemma check_presents u p h : everywhere (presents (normalizeHostAddress h) u p) (checkSFTPConnection u p h).
Proof.
  unfold checkSFTPConnection, netDial, getProxyURLForAddr, proxyDialContext, verifySFTPSubsystem. by ev_go.
Qed.

(** ** Both together *)

Lemma piece_network ev t :
  piece_of ev t ->
  held (network t) = [] /\ (tcp_dials (network t) <= dials [ev])%nat /\
  forall ev', ev' ∈ network t ->
    exists u p h x, ev = Ev (SftpDial u p h) x /\ presents (normalizeHostAddress h) u p _ (ev_eff ev').
Proof.
  destruct ev as [R e x]. intros [Hn _]. cbn in Hn.
  destruct e as [| | | | | | | | | | |user password host]; try (rewrite Hn; split_and!; [done|cbn; lia|set_solver]).
  split_and!.
  - by destruct (wpg_sound _ _ _ _ _ (check_held user password host) Hn).
  - by destruct (wpg_sound _ _ _ _ _ (check_tcp user password host) Hn).
  - intros ev' Hin. exists user, password, host, x. split; [done|].
    eapply everywhere_exec in Hn; [|apply check_presents]. rewrite Forall_forall in Hn. by apply Hn.
Qed.

Lemma held_app tr tr' : held tr = [] -> held (tr ++ tr') = held tr'.
Proof. unfold held. intros Ht. by rewrite fold_left_app, Ht. Qed.

Lemma pieces_network pieces :
  Forall (fun x => piece_of x.1 x.2) pieces ->
  held (network (concat (map snd pieces))) = [] /\
  (tcp_dials (network (concat (map snd pieces))) <= dials (map fst pieces))%nat /\
  forall ev', ev' ∈ network (concat (map snd pieces)) ->
    exists u p h x, Ev (SftpDial u p h) x ∈ map fst pieces /\ presents (normalizeHostAddress h) u p _ (ev_eff ev').
Proof.
  induction 1 as [|[ev t] pieces Hx Hall (IH1 & IH2 & IH3)]; [split_and!; [done|done|set_solver]|].
  apply piece_network in Hx as (H1 & H2 & H3). unfold network in *. cbn [map fst snd concat] in *.
  rewrite omap_app. split_and!.
  - by rewrite held_app.
  - rewrite tcp_dials_app. change (ev :: map fst pieces) with ([ev] ++ map fst pieces). rewrite dials_app. lia.
  - intros ev' [Hin|Hin]%elem_of_app; [apply H3 in Hin|apply IH3 in Hin];
      destruct Hin as (u & p & h & x & Hev & Hp); exists u, p, h, x; (split; [|done]).
    + subst. by left.
    + by right.
Qed.

Lemma dial_justified_cluster req pieces tr u p h :
  Forall (fun x => piece_of x.1 x.2) pieces -> tr `prefix_of` map fst pieces -> dial_justified req tr u p h ->
  dial_justified req (on_cluster (concat (map snd pieces))) u p h.
Proof.
  intros Hall Hp (m & sftp & sec & H1 & H2 & H3 & H4).
  exists m, sftp, sec. split_and!; try apply H4; [|done|]; apply cluster_saw; try done;
    by eapply saw_prefix.
Qed.

End link.

(** C32: what a reconcile does on the network.  Let the trial connection of the
    reconciler be [checkSFTPConnection] itself.  Whatever the cluster and the
    network answer, a call of [Reconcile] dials TCP at most three times and
    holds no connection or session when it returns.  Each SSH handshake
    goes to the normalised host of the SFTP target that the custom resource
    read in this call names, and presents exactly the user and password of the
    Secret it references, read in this call from its own namespace, whatever host key
    the server shows. *)
Theorem reconcile_on_the_network `{UnicodeTables} r req tr out :
  exec (ReconcileOnNetwork r req) tr out ->
  held (network tr) = [] /\ (tcp_dials (network tr) <= MaxSFTPValidationRetries)%nat /\
  forall c addr config x, Ev (NewClientConn c addr config) x ∈ network tr ->
    exists u p h, dial_justified req (on_cluster tr) u p h /\ addr = normalizeHostAddress h /\
      config = buildSSHConfig u p InsecureIgnoreHostKey.
Proof.
  intros He. apply linked_exec in He as (pieces & He & -> & Hall).
  destruct (wpg_sound _ _ _ _ _ (Reconcile_dials r req) He) as [Hg Hd]. unfold few_dials in Hd.
  destruct (pieces_network _ Hall) as (H1 & H2 & H3). split_and!; [done|lia|].
  intros c addr config x Hin. apply H3 in Hin as (u & p & h & x' & Hin & -> & ->).
  exists u, p, h. split; [|done]. apply list_elem_of_split in Hin as (pre & post & Hsplit).
  eapply dial_justified_cluster; [done| |exact (Hg _ _ _ Hsplit)]. rewrite Hsplit. by eexists.
Qed.

(** The demonstration's cluster and network side by side. *)
Definition demo_world : handler (sumE KubeE NetE) (MemCluster.cluster * nat) :=
  fun R e s =>
    match e in sumE _ _ R return R * (MemCluster.cluster * nat) with
    | inlE f => let '(x, c) := mem_handle _ f s.1 in (x, (c, s.2))
    | inrE f => let '(x, n) := demo_network _ f s.2 in (x, (s.1, n))
    end.

Definition is_handshake (ev : event NetE) : bool :=
  match ev_eff ev with NewClientConn _ _ _ => true | _ => false end.

(** A proxy lets the tunnel through and the server rejects the user. *)
Lemma reconcile_on_the_network_witness :
  let tr := run_trace demo_world (@ReconcileOnNetwork ascii_tables demo_reconciler demo_key) (demo_start, 0%nat) in
  existsb is_handshake (network tr) = true /\ held (network tr) = [] /\ (tcp_dials (network tr) <= 3)%nat.
Proof.
  intros tr.
  destruct (@reconcile_on_the_network ascii_tables demo_reconciler demo_key tr
    (run demo_world (@ReconcileOnNetwork ascii_tables demo_reconciler demo_key) (demo_start, 0%nat)).1) as (H1 & H2 & _).
  { exact (run_exec demo_world (@ReconcileOnNetwork ascii_tables demo_reconciler demo_key) (demo_start, 0%nat)). }
  split_and!; [vm_compute; reflexivity|exact H1|exact H2].
Defined.
