(* ===== verification/MustGatherV1alpha1.v ===== *)
(** * The deprecated version, [api/v1alpha1/mustgather_types.go]

    The types of [v1alpha1], which the API server still serves from the same
    stored objects as [v1], without a conversion webhook.  Where [v1] has a
    pointer, [v1alpha1] often has a plain value.  The names carry the version;
    fields carry an [a]. *)

From S2P Require Import Prelude GoStrings GoTime K8sTypes MustGatherV1.

Record ImageStreamTagRef_v1alpha1 := mkImageStreamTagRefA { aistr_Name : string; aistr_Tag : string }.

Record GatherSpec_v1alpha1 := mkGatherSpecA {
  ags_Audit : bool;
  ags_Command : list string;
  ags_Args : list string;
  ags_Since : option Duration;
  ags_SinceTime : option Time;
}.

Record SFTPSpec_v1alpha1 := mkSFTPSpecA {
  asftp_CaseID : string;
  asftp_CaseManagementAccountSecretRef : LocalObjectReference;
  asftp_InternalUser : bool;
  asftp_Host : string;
}.

Definition UploadType_v1alpha1 := string.
Definition UploadTypeSFTP_v1alpha1 : UploadType_v1alpha1 := "SFTP".

Record UploadTargetSpec_v1alpha1 := mkUploadTargetSpecA {
  aut_Type : UploadType_v1alpha1;
  aut_SFTP : option SFTPSpec_v1alpha1;
}.

Definition StorageType_v1alpha1 := string.
Definition StorageTypePersistentVolume_v1alpha1 : StorageType_v1alpha1 := "PersistentVolume".

Record PersistentVolumeClaimReference_v1alpha1 := mkPVCRefA { apvc_Name : string }.

Record PersistentVolumeConfig_v1alpha1 := mkPVConfigA {
  apv_Claim : PersistentVolumeClaimReference_v1alpha1;
  apv_SubPath : string;
}.

Record Storage_v1alpha1 := mkStorageA {
  ast_Type : StorageType_v1alpha1;
  ast_PersistentVolume : PersistentVolumeConfig_v1alpha1;
}.

Record ObfuscateConfig_v1alpha1 := mkObfuscateConfigA {
  aoc_Enabled : option bool;
  aoc_ObfuscationConfigRef : option LocalObjectReference;
  aoc_Source : option PersistentVolumeConfig_v1alpha1;
}.

Record MustGatherSpec_v1alpha1 := mkMustGatherSpecA {
  aspec_ServiceAccountName : string;
  aspec_ImageStreamRef : option ImageStreamTagRef_v1alpha1;
  aspec_GatherSpec : option GatherSpec_v1alpha1;
  aspec_MustGatherTimeout : option Duration;
  aspec_UploadTarget : option UploadTargetSpec_v1alpha1;
  aspec_RetainResourcesOnCompletion : option bool;
  aspec_Storage : option Storage_v1alpha1;
  aspec_Obfuscate : option ObfuscateConfig_v1alpha1;
}.

Record MustGatherStatus_v1alpha1 := mkMustGatherStatusA {
  amgs_Status : string;
  amgs_LastUpdate : Time;
  amgs_Reason : string;
  amgs_Conditions : list Condition;
  amgs_Completed : bool;
}.

Record MustGather_v1alpha1 := mkMustGatherA {
  amg_TypeMeta : TypeMeta;
  amg_ObjectMeta : ObjectMeta;
  amg_Spec : MustGatherSpec_v1alpha1;
  amg_Status : MustGatherStatus_v1alpha1;
}.

Definition GetConditions_v1alpha1 (m : MustGather_v1alpha1) : list Condition := amgs_Conditions (amg_Status m).

Definition SetConditions_v1alpha1 (m : MustGather_v1alpha1) (conditions : list Condition) : MustGather_v1alpha1 :=
  let s := amg_Status m in
  mkMustGatherA (amg_TypeMeta m) (amg_ObjectMeta m) (amg_Spec m)
    (mkMustGatherStatusA (amgs_Status s) (amgs_LastUpdate s) (amgs_Reason s) conditions (amgs_Completed s)).
