(* ===== verification/ApiWire.v ===== *)
(** * The stored form of a spec, and how either version reads and writes it

    A stored spec is what structural validation and pruning leave: the fields
    of the schema, each there or not.  A wire record has an [option] for each
    field that may be absent; a duration and a time are the values their format
    gives them, the way the schema's rules compare them.  [encode] and [decode]
    follow [encoding/json] on the struct tags of the two versions: [omitempty]
    drops false, empty strings, empty lists and nil pointers and never a
    struct, [omitzero] drops a zero struct, an absent field leaves the zero
    value. *)

From S2P Require Import Prelude GoStrings GoTime K8sTypes MustGatherV1 MustGatherV1alpha1.

(** ** The stored form *)

(** Seconds and nanoseconds since the epoch. *)
Definition instant : Type := (Z * Z)%type.

Record WImageStream := mkWImageStream { w_name : option string; w_tag : option string }.
Record WGather := mkWGather {
  w_audit : option bool;
  w_command : option (list string);
  w_args : option (list string);
  w_since : option Duration;
  w_sinceTime : option instant;
}.
Record WRef := mkWRef { w_refName : option string }.
Record WSFTP := mkWSFTP {
  w_caseID : option string;
  w_secretRef : option WRef;
  w_internalUser : option bool;
  w_host : option string;
}.
Record WUpload := mkWUpload { w_uploadType : option string; w_sftp : option WSFTP }.
Record WClaim := mkWClaim { w_claimName : option string }.
Record WVolume := mkWVolume { w_claim : option WClaim; w_subPath : option string }.
Record WStorage := mkWStorage { w_storageType : option string; w_persistentVolume : option WVolume }.
Record WObfuscate := mkWObfuscate {
  w_enabled : option bool;
  w_configRef : option WRef;
  w_source : option WVolume;
}.
Record WSpec := mkWSpec {
  w_serviceAccountName : option string;
  w_imageStreamRef : option WImageStream;
  w_gatherSpec : option WGather;
  w_mustGatherTimeout : option Duration;
  w_uploadTarget : option WUpload;
  w_retain : option bool;
  w_storage : option WStorage;
  w_obfuscate : option WObfuscate;
}.

(** ** [encoding/json] *)

Definition omit_string (s : string) : option string := if s =?s "" then None else Some s.
Definition omit_list {A} (l : list A) : option (list A) := match l with [] => None | _ => Some l end.
Definition omit_bool (b : bool) : option bool := if b then Some true else None.

(** [metav1.Time]: whole seconds, and nothing for the zero time.  Reading gives
    the instant in the process's zone. *)
Definition encode_time (t : Time) : option instant := if Time_IsZero t then None else Some (t_sec t, 0%Z).
Definition decode_time (local : Z) (i : instant) : Time := mkTime i.1 i.2 local.

(** [corev1.LocalObjectReference], the same in both versions. *)
Definition encode_ref (r : LocalObjectReference) : WRef := mkWRef (omit_string (lor_Name r)).
Definition decode_ref (w : WRef) : LocalObjectReference := mkLocalRef (default "" (w_refName w)).

(** ** Version v1 *)

Definition encode_imagestream (r : ImageStreamTagRef) : WImageStream :=
  mkWImageStream (omit_string (istr_Name r)) (omit_string (istr_Tag r)).
Definition decode_imagestream (w : WImageStream) : ImageStreamTagRef :=
  mkImageStreamTagRef (default "" (w_name w)) (default "" (w_tag w)).

Definition encode_gather (g : GatherSpec) : WGather :=
  mkWGather (gs_Audit g) (omit_list (gs_Command g)) (omit_list (gs_Args g)) (gs_Since g)
    (gs_SinceTime g ≫= encode_time).
Definition decode_gather (local : Z) (w : WGather) : GatherSpec :=
  mkGatherSpec (w_audit w) (default [] (w_command w)) (default [] (w_args w)) (w_since w)
    (decode_time local <$> w_sinceTime w).

Definition encode_sftp (s : SFTPSpec) : WSFTP :=
  mkWSFTP (omit_string (sftp_CaseID s)) (Some (encode_ref (sftp_CaseManagementAccountSecretRef s)))
    (sftp_InternalUser s) (sftp_Host s).
Definition decode_sftp (w : WSFTP) : SFTPSpec :=
  mkSFTPSpec (default "" (w_caseID w)) (default (mkLocalRef "") (decode_ref <$> w_secretRef w))
    (w_internalUser w) (w_host w).

Definition encode_upload (u : UploadTargetSpec) : WUpload :=
  mkWUpload (omit_string (ut_Type u)) (encode_sftp <$> ut_SFTP u).
Definition decode_upload (w : WUpload) : UploadTargetSpec :=
  mkUploadTargetSpec (default "" (w_uploadType w)) (decode_sftp <$> w_sftp w).

Definition encode_claim (c : PersistentVolumeClaimReference) : WClaim := mkWClaim (omit_string (pvc_Name c)).
Definition decode_claim (w : WClaim) : PersistentVolumeClaimReference := mkPVCRef (default "" (w_claimName w)).

Definition encode_volume (p : PersistentVolumeConfig) : WVolume :=
  mkWVolume (if pvc_Name (pv_Claim p) =?s "" then None else Some (encode_claim (pv_Claim p))) (pv_SubPath p).
Definition decode_volume (w : WVolume) : PersistentVolumeConfig :=
  mkPVConfig (default (mkPVCRef "") (decode_claim <$> w_claim w)) (w_subPath w).

Definition volume_IsZero (p : PersistentVolumeConfig) : bool :=
  (pvc_Name (pv_Claim p) =?s "") && negb (has (pv_SubPath p)).

Definition encode_storage (s : Storage) : WStorage :=
  mkWStorage (omit_string (st_Type s))
    (if volume_IsZero (st_PersistentVolume s) then None else Some (encode_volume (st_PersistentVolume s))).
Definition decode_storage (w : WStorage) : Storage :=
  mkStorage (default "" (w_storageType w))
    (default (mkPVConfig (mkPVCRef "") None) (decode_volume <$> w_persistentVolume w)).

Definition encode_obfuscate (o : ObfuscateConfig) : WObfuscate :=
  mkWObfuscate (oc_Enabled o) (encode_ref <$> oc_ObfuscationConfigRef o) (encode_volume <$> oc_Source o).
Definition decode_obfuscate (w : WObfuscate) : ObfuscateConfig :=
  mkObfuscateConfig (w_enabled w) (decode_ref <$> w_configRef w) (decode_volume <$> w_source w).

Definition encode (s : MustGatherSpec) : WSpec :=
  mkWSpec (omit_string (spec_ServiceAccountName s)) (encode_imagestream <$> spec_ImageStreamRef s)
    (encode_gather <$> spec_GatherSpec s) (spec_MustGatherTimeout s) (encode_upload <$> spec_UploadTarget s)
    (spec_RetainResourcesOnCompletion s) (encode_storage <$> spec_Storage s)
    (encode_obfuscate <$> spec_Obfuscate s).
Definition decode (local : Z) (w : WSpec) : MustGatherSpec :=
  mkMustGatherSpec (default "" (w_serviceAccountName w)) (decode_imagestream <$> w_imageStreamRef w)
    (decode_gather local <$> w_gatherSpec w) (w_mustGatherTimeout w) (decode_upload <$> w_uploadTarget w)
    (w_retain w) (decode_storage <$> w_storage w) (decode_obfuscate <$> w_obfuscate w).

(** ** Version v1alpha1 *)

Definition encode_imagestreamA (r : ImageStreamTagRef_v1alpha1) : WImageStream :=
  mkWImageStream (Some (aistr_Name r)) (Some (aistr_Tag r)).
Definition decode_imagestreamA (w : WImageStream) : ImageStreamTagRef_v1alpha1 :=
  mkImageStreamTagRefA (default "" (w_name w)) (default "" (w_tag w)).

Definition encode_gatherA (g : GatherSpec_v1alpha1) : WGather :=
  mkWGather (omit_bool (ags_Audit g)) (omit_list (ags_Command g)) (omit_list (ags_Args g)) (ags_Since g)
    (ags_SinceTime g ≫= encode_time).
Definition decode_gatherA (local : Z) (w : WGather) : GatherSpec_v1alpha1 :=
  mkGatherSpecA (default false (w_audit w)) (default [] (w_command w)) (default [] (w_args w)) (w_since w)
    (decode_time local <$> w_sinceTime w).

Definition encode_sftpA (s : SFTPSpec_v1alpha1) : WSFTP :=
  mkWSFTP (Some (asftp_CaseID s)) (Some (encode_ref (asftp_CaseManagementAccountSecretRef s)))
    (omit_bool (asftp_InternalUser s)) (omit_string (asftp_Host s)).
Definition decode_sftpA (w : WSFTP) : SFTPSpec_v1alpha1 :=
  mkSFTPSpecA (default "" (w_caseID w)) (default (mkLocalRef "") (decode_ref <$> w_secretRef w))
    (default false (w_internalUser w)) (default "" (w_host w)).

Definition encode_uploadA (u : UploadTargetSpec_v1alpha1) : WUpload :=
  mkWUpload (Some (aut_Type u)) (encode_sftpA <$> aut_SFTP u).
Definition decode_uploadA (w : WUpload) : UploadTargetSpec_v1alpha1 :=
  mkUploadTargetSpecA (default "" (w_uploadType w)) (decode_sftpA <$> w_sftp w).

Definition encode_volumeA (p : PersistentVolumeConfig_v1alpha1) : WVolume :=
  mkWVolume (Some (mkWClaim (Some (apvc_Name (apv_Claim p))))) (omit_string (apv_SubPath p)).
Definition decode_volumeA (w : WVolume) : PersistentVolumeConfig_v1alpha1 :=
  mkPVConfigA (mkPVCRefA (default "" (w_claim w ≫= w_claimName))) (default "" (w_subPath w)).

Definition encode_storageA (s : Storage_v1alpha1) : WStorage :=
  mkWStorage (Some (ast_Type s)) (Some (encode_volumeA (ast_PersistentVolume s))).
Definition decode_storageA (w : WStorage) : Storage_v1alpha1 :=
  mkStorageA (default "" (w_storageType w))
    (default (mkPVConfigA (mkPVCRefA "") "") (decode_volumeA <$> w_persistentVolume w)).

Definition encode_obfuscateA (o : ObfuscateConfig_v1alpha1) : WObfuscate :=
  mkWObfuscate (aoc_Enabled o) (encode_ref <$> aoc_ObfuscationConfigRef o) (encode_volumeA <$> aoc_Source o).
Definition decode_obfuscateA (w : WObfuscate) : ObfuscateConfig_v1alpha1 :=
  mkObfuscateConfigA (w_enabled w) (decode_ref <$> w_configRef w) (decode_volumeA <$> w_source w).

Definition encodeA (s : MustGatherSpec_v1alpha1) : WSpec :=
  mkWSpec (Some (aspec_ServiceAccountName s)) (encode_imagestreamA <$> aspec_ImageStreamRef s)
    (encode_gatherA <$> aspec_GatherSpec s) (aspec_MustGatherTimeout s) (encode_uploadA <$> aspec_UploadTarget s)
    (aspec_RetainResourcesOnCompletion s) (encode_storageA <$> aspec_Storage s)
    (encode_obfuscateA <$> aspec_Obfuscate s).
Definition decodeA (local : Z) (w : WSpec) : MustGatherSpec_v1alpha1 :=
  mkMustGatherSpecA (default "" (w_serviceAccountName w)) (decode_imagestreamA <$> w_imageStreamRef w)
    (decode_gatherA local <$> w_gatherSpec w) (w_mustGatherTimeout w) (decode_uploadA <$> w_uploadTarget w)
    (w_retain w) (decode_storageA <$> w_storage w) (decode_obfuscateA <$> w_obfuscate w).

(** ** The API server: defaults, validation, immutability *)

Definition sftpDefaultHost : string := "sftp.access.redhat.com".

Definition default_ref (w : WRef) : WRef := mkWRef (Some (default "" (w_refName w))).

Definition default_sftp (w : WSFTP) : WSFTP :=
  mkWSFTP (w_caseID w) (default_ref <$> w_secretRef w) (Some (default false (w_internalUser w)))
    (Some (default sftpDefaultHost (w_host w))).

(** The [default] markers, the same in both versions; a default is filled in
    where the object around it is there. *)
Definition defaulted (w : WSpec) : WSpec :=
  mkWSpec (w_serviceAccountName w) (w_imageStreamRef w) (w_gatherSpec w) (w_mustGatherTimeout w)
    ((fun u => mkWUpload (w_uploadType u) (default_sftp <$> w_sftp u)) <$> w_uploadTarget w)
    (Some (default false (w_retain w))) (w_storage w)
    ((fun o => mkWObfuscate (Some (default false (w_enabled o))) (default_ref <$> w_configRef o) (w_source o))
       <$> w_obfuscate w).

Inductive version := V1 | V1alpha1.

(** [MinLength=1] where only [v1] has it. *)
Definition min_length_v1 (v : version) (s : string) : bool :=
  match v with V1 => s <>?s "" | V1alpha1 => true end.

(** A required field. *)
Definition req {A} (f : A -> bool) (o : option A) : bool := match o with Some a => f a | None => false end.

Definition nonempty (s : string) : bool := s <>?s "".

Definition schema_imagestream (v : version) (w : WImageStream) : bool :=
  req (min_length_v1 v) (w_name w) && req (min_length_v1 v) (w_tag w).

Definition max_items (o : option (list string)) : bool := opt_all (fun l => (length l <=? 256)%nat) o.

Definition schema_gather (w : WGather) : bool :=
  negb (has (w_since w) && has (w_sinceTime w)) && max_items (w_command w) && max_items (w_args w).

Definition schema_sftp (v : version) (w : WSFTP) : bool :=
  req (fun s => min_length_v1 v s && nonempty s) (w_caseID w)
  && req (fun r => req nonempty (w_refName r)) (w_secretRef w).

Definition schema_upload (v : version) (w : WUpload) : bool :=
  req (fun t => t =?s UploadTypeSFTP) (w_uploadType w)
  && (if req (fun t => t =?s UploadTypeSFTP) (w_uploadType w) then has (w_sftp w) else negb (has (w_sftp w)))
  && opt_all (schema_sftp v) (w_sftp w).

Definition schema_claim (v : version) (w : WClaim) : bool :=
  req (fun n => min_length_v1 v n && dns1123_subdomain n) (w_claimName w).

Definition schema_volume (v : version) (w : WVolume) : bool :=
  opt_all (fun s => negb (strings_Contains s "..")) (w_subPath w) && req (schema_claim v) (w_claim w).

Definition schema_storage (v : version) (w : WStorage) : bool :=
  req (fun t => t =?s StorageTypePersistentVolume) (w_storageType w)
  && req (schema_volume v) (w_persistentVolume w).

Definition schema_obfuscate (v : version) (w : WObfuscate) : bool :=
  opt_all (fun r => req nonempty (w_refName r)) (w_configRef w) && opt_all (schema_volume v) (w_source w).

(** The terms of the rules on the whole spec. *)
Definition has_audit (w : WSpec) : bool := req (fun g => req (fun b => b) (w_audit g)) (w_gatherSpec w).
Definition has_command (w : WSpec) : bool := req (fun g => has (w_command g)) (w_gatherSpec w).
Definition some_command (w : WSpec) : bool := req (fun g => req has_list (w_command g)) (w_gatherSpec w).
Definition has_enabled (w : WSpec) : bool := req (fun o => req (fun b => b) (w_enabled o)) (w_obfuscate w).
Definition has_source (w : WSpec) : bool := req (fun o => has (w_source o)) (w_obfuscate w).

Definition cel_rules (w : WSpec) : bool :=
  negb (has (w_imageStreamRef w) && has_audit w)
  && negb (negb (has (w_imageStreamRef w)) && some_command w && has_audit w)
  && negb (has_enabled w && negb (has (w_uploadTarget w) || has_source w || has (w_storage w)))
  && negb (has_source w && negb (has_enabled w))
  && negb (has_source w && negb (has (w_uploadTarget w)))
  && negb (has_source w && (has (w_imageStreamRef w) || (has_command w || has_audit w))).

Definition schema (v : version) (w : WSpec) : bool :=
  req nonempty (w_serviceAccountName w) && cel_rules w
  && opt_all (schema_imagestream v) (w_imageStreamRef w) && opt_all schema_gather (w_gatherSpec w)
  && opt_all (schema_upload v) (w_uploadTarget w) && opt_all (schema_storage v) (w_storage w)
  && opt_all (schema_obfuscate v) (w_obfuscate w).

(** What the server keeps: a spec it has defaulted and admitted. *)
Definition stored_spec (w : WSpec) : Prop := defaulted w = w /\ schema V1 w = true.

(** [!has(oldSelf.spec) || self.spec == oldSelf.spec]: an update with the spec
    [w'] of an object with the stored spec [w] is let through. *)
Definition update_allowed (w w' : WSpec) : Prop := defaulted w' = w.
