(* ===== verification/ApiVersions.v ===== *)
(** * One stored object, two versions

    How the Go model of a spec relates to the stored form; what the rule that a
    spec never changes makes of the operator's own updates, and of a client's
    that still uses [v1alpha1]; and how far the schemas of the two versions
    agree. *)

From Stdlib Require Import Btauto.
From S2P Require Import Prelude GoStrings GoTime K8sTypes MustGatherV1 Template MustGatherV1alpha1 ApiWire.

(** ** Validation *)

Lemma req_default (f : string -> bool) o : f "" = false -> req f o = f (default "" o).
Proof. by destruct o. Qed.

Lemma nonempty_req o : req nonempty o = nonempty (default "" o).
Proof. by apply req_default. Qed.

Lemma req_omit (f : string -> bool) s : f "" = false -> req f (omit_string s) = f s.
Proof. unfold omit_string. intros Hf. by str_case s ""; cbn; subst. Qed.

Lemma dns1123_empty : dns1123_subdomain "" = false.
Proof. reflexivity. Qed.

Lemma claim_rule n : min_length_v1 V1 n && dns1123_subdomain n = (n <>?s "") && dns1123_subdomain n.
Proof. done. Qed.

Section versions.
  Variable local : Z.

(** Each part of the schema on the stored form is the rule on the Go value. *)
Lemma schema_imagestream_decode w : schema_imagestream V1 w = rule_imagestream (decode_imagestream w).
Proof. destruct w as [[n|] [t|]]; cbn; by rewrite ?andb_false_r. Qed.

Lemma schema_gather_decode w : schema_gather w = rule_gather (decode_gather local w).
Proof.
  destruct w as [a c args s t]. unfold schema_gather, rule_gather, rule_since, max_items. cbn.
  destruct c, args, t; cbn; by rewrite ?andb_true_r.
Qed.

Lemma schema_sftp_decode w : schema_sftp V1 w = rule_sftp (decode_sftp w).
Proof.
  unfold schema_sftp, rule_sftp. destruct w as [c [[n]|] i h]; cbn; rewrite ?nonempty_req; unfold nonempty.
  - destruct c as [c|]; cbn; [|done]. by str_case c "".
  - by rewrite !andb_false_r.
Qed.

Lemma schema_upload_decode w : schema_upload V1 w = rule_upload (decode_upload w).
Proof.
  unfold schema_upload, rule_upload. destruct w as [[t|] s]; cbn; [|by destruct s].
  destruct s as [s|]; cbn; by rewrite ?schema_sftp_decode.
Qed.

Lemma schema_volume_decode w : schema_volume V1 w = rule_pv (decode_volume w).
Proof.
  unfold schema_volume, rule_pv. destruct w as [[[[n|]]|] [s|]]; cbn; by rewrite ?andb_false_r.
Qed.

Lemma schema_storage_decode w : schema_storage V1 w = rule_storage (decode_storage w).
Proof.
  unfold schema_storage, rule_storage. destruct w as [[t|] [p|]]; cbn; rewrite ?schema_volume_decode; done.
Qed.

Lemma schema_obfuscate_decode w : schema_obfuscate V1 w = rule_obfuscate (decode_obfuscate w).
Proof.
  unfold schema_obfuscate, rule_obfuscate. destruct w as [e [[n]|] [p|]]; cbn;
    rewrite ?schema_volume_decode, ?nonempty_req; done.
Qed.

Lemma opt_all_decode {A B} (f : A -> bool) (g : B -> bool) (d : A -> B) o :
  (forall a, f a = g (d a)) -> opt_all f o = opt_all g (d <$> o).
Proof. destruct o; cbn; auto. Qed.

(** The rules on the whole spec; on the stored form an empty list is present. *)
Lemma cel_rules_decode w :
  cel_rules w =
  rule_audit_default_image (decode local w) && rule_audit_no_command (decode local w)
  && rule_obfuscate_target (decode local w) && rule_source_enabled (decode local w)
  && rule_source_upload (decode local w) && rule_source_no_gather (decode local w)
  && negb (has_source w && has_command w && negb (some_command w)).
Proof.
  unfold cel_rules, rule_audit_default_image, rule_audit_no_command, rule_obfuscate_target, rule_source_enabled,
    rule_source_upload, rule_source_no_gather.
  assert (gather_audit (decode local w) = has_audit w) as ->.
  { unfold gather_audit, has_audit. cbn. destruct (w_gatherSpec w) as [[[[]|] ? ? ? ?]|]; done. }
  assert (gather_command (decode local w) = some_command w) as ->.
  { unfold gather_command, some_command. cbn. destruct (w_gatherSpec w) as [[? [[]|] ? ? ?]|]; done. }
  assert (obfuscate_enabled (decode local w) = has_enabled w) as ->.
  { unfold obfuscate_enabled, has_enabled. cbn. destruct (w_obfuscate w) as [[[[]|] ? ?]|]; done. }
  assert (obfuscate_source (decode local w) = has_source w) as ->.
  { unfold obfuscate_source, has_source. cbn. destruct (w_obfuscate w) as [[? ? []]|]; done. }
  assert (some_command w = true -> has_command w = true) as Hc.
  { unfold some_command, has_command. by destruct (w_gatherSpec w) as [[? [|] ? ? ?]|]. }
  cbn. destruct (w_imageStreamRef w), (w_uploadTarget w), (w_storage w); cbn;
    destruct (has_audit w), (has_command w), (some_command w), (has_enabled w), (has_source w); cbn in *;
    try done; by specialize (Hc eq_refl).
Qed.

Lemma schema_decode w :
  schema V1 w = valid_spec (decode local w) && negb (has_source w && has_command w && negb (some_command w)).
Proof.
  unfold schema, valid_spec. rewrite cel_rules_decode, nonempty_req. unfold nonempty. cbn.
  rewrite (opt_all_decode _ _ _ _ schema_imagestream_decode), (opt_all_decode _ _ _ _ schema_gather_decode),
    (opt_all_decode _ _ _ _ schema_upload_decode), (opt_all_decode _ _ _ _ schema_storage_decode),
    (opt_all_decode _ _ _ _ schema_obfuscate_decode).
  btauto.
Qed.

(** ** Reading and writing back *)

Lemma omit_default o : o <> Some "" -> omit_string (default "" o) = o.
Proof. destruct o as [s|]; [|done]. intros Hs. unfold omit_string. cbn. str_case s ""; [congruence|done]. Qed.

Lemma omit_back o : omit_string (default "" o) = o <-> o <> Some "".
Proof. split; [|apply omit_default]. unfold omit_string. intros Ho ->. done. Qed.

Lemma req_nonempty (f : string -> bool) o : f "" = false -> req f o = true -> exists s, o = Some s /\ s <> "".
Proof. destruct o as [s|]; [|done]. intros Hf Hs. exists s. split; [done|]. intros ->. cbn in Hs. congruence. Qed.

Lemma omit_req (f : string -> bool) o : f "" = false -> req f o = true -> omit_string (default "" o) = o.
Proof. intros Hf Ho. apply omit_default. destruct (req_nonempty f o Hf Ho) as (s & -> & Hs). congruence. Qed.

(** A time the wire keeps: whole seconds, and not Go's zero time. *)
Definition time_kept (i : instant) : Prop := i.2 = 0%Z /\ i.1 <> t_sec zeroTime.

(** A gather spec that [v1] writes back as it read it. *)
Definition gather_kept (w : WGather) : Prop :=
  w_command w <> Some [] /\ w_args w <> Some [] /\ forall i, w_sinceTime w = Some i -> time_kept i.

Lemma time_back i : encode_time (decode_time local i) = Some i <-> time_kept i.
Proof.
  destruct i as [sec nsec]. unfold encode_time, decode_time, Time_IsZero, time_kept. cbn.
  destruct (Z.eqb_spec sec (-62135596800)), (Z.eqb_spec nsec 0); cbn; split; intros; simplify_eq; try done; naive_solver.
Qed.

Lemma list_back {A} (o : option (list A)) : omit_list (default [] o) = o <-> o <> Some [].
Proof. destruct o as [[|]|]; cbn; split; congruence. Qed.

Lemma gather_back w : encode_gather (decode_gather local w) = w <-> gather_kept w.
Proof.
  unfold gather_kept. rewrite <-!list_back. destruct w as [a c args s t]. unfold encode_gather. cbn. split.
  - intros [= Hc Ha Ht]. split_and!; try done. intros i ->. by apply time_back.
  - intros (Hc & Ha & Ht). f_equal; try done. destruct t as [i|]; [|done]. cbn. by apply time_back, Ht.
Qed.

Lemma imagestream_back w : schema_imagestream V1 w = true -> encode_imagestream (decode_imagestream w) = w.
Proof.
  intros [Hn Ht]%andb_true_iff. destruct w as [n t]. unfold encode_imagestream. cbn in *.
  by rewrite (omit_req _ _ (eq_refl : min_length_v1 V1 "" = false) Hn), (omit_req _ _ (eq_refl : min_length_v1 V1 "" = false) Ht).
Qed.

Lemma ref_back w : req nonempty (w_refName w) = true -> encode_ref (decode_ref w) = w.
Proof. destruct w as [n]. unfold encode_ref. cbn. intros Hn. by rewrite (omit_req nonempty). Qed.

Lemma sftp_back w : schema_sftp V1 w = true -> encode_sftp (decode_sftp w) = w.
Proof.
  unfold schema_sftp. destruct w as [c [r|] i h]; [|cbn; by rewrite andb_false_r]. intros [Hc Hr]%andb_true_iff. unfold encode_sftp. cbn in *.
  rewrite (ref_back r Hr). by rewrite (omit_req _ c (eq_refl : (min_length_v1 V1 "" && nonempty "") = false) Hc).
Qed.

Lemma upload_back w : schema_upload V1 w = true -> encode_upload (decode_upload w) = w.
Proof.
  destruct w as [t [s|]]; intros [[Ht _]%andb_true_iff Hs]%andb_true_iff; unfold encode_upload; cbn in *;
    rewrite (omit_req (fun t => t =?s UploadTypeSFTP) t eq_refl Ht); [by rewrite sftp_back|done].
Qed.

Lemma volume_claim v w : schema_volume v w = true ->
  exists n, w_claim w = Some (mkWClaim (Some n)) /\ n <> "".
Proof.
  destruct w as [[[[n|]]|] p]; intros [_ Hc]%andb_true_iff; try done. exists n. split; [done|]. intros ->.
  cbn in Hc. by rewrite andb_false_r in Hc.
Qed.

Lemma volume_back w : schema_volume V1 w = true -> encode_volume (decode_volume w) = w.
Proof.
  intros Hw. destruct (volume_claim V1 w Hw) as (n & Hc & Hn). destruct w as [c p]. cbn in Hc. subst.
  unfold encode_volume, encode_claim, omit_string. cbn. by rewrite (proj2 (str_eqb_neq _ _) Hn).
Qed.

Lemma storage_back w : schema_storage V1 w = true -> encode_storage (decode_storage w) = w.
Proof.
  unfold schema_storage. destruct w as [t [p|]]; [|cbn; by rewrite andb_false_r]. intros [Ht Hp]%andb_true_iff. unfold encode_storage. cbn in *.
  rewrite (omit_req (fun t => t =?s StorageTypePersistentVolume) t eq_refl Ht), volume_back by done.
  destruct (volume_claim V1 p Hp) as (n & Hc & Hn). unfold volume_IsZero. destruct p as [c sp]. cbn in Hc. subst.
  cbn. by rewrite (proj2 (str_eqb_neq _ _) Hn).
Qed.

Lemma obfuscate_back w : schema_obfuscate V1 w = true -> encode_obfuscate (decode_obfuscate w) = w.
Proof.
  destruct w as [e r p]. intros [Hr Hp]%andb_true_iff. unfold encode_obfuscate. cbn in *. f_equal.
  - destruct r; [|done]. cbn in *. by rewrite ref_back.
  - destruct p; [|done]. cbn in *. by rewrite volume_back.
Qed.

Lemma opt_back {A B} (e : A -> B) (d : B -> A) (f : B -> bool) o :
  (forall b, f b = true -> e (d b) = b) -> opt_all f o = true -> e <$> (d <$> o) = o.
Proof. destruct o; cbn; intros He Hf; [by rewrite He|done]. Qed.

(** ** The rule that a spec never changes *)

Definition set_gather (w : WSpec) (g : option WGather) : WSpec :=
  mkWSpec (w_serviceAccountName w) (w_imageStreamRef w) g (w_mustGatherTimeout w) (w_uploadTarget w)
    (w_retain w) (w_storage w) (w_obfuscate w).

Lemma set_gather_eq w g : set_gather w g = w <-> g = w_gatherSpec w.
Proof. destruct w. unfold set_gather. cbn. split; [by intros [= ->]|by intros ->]. Qed.

(** The parts of a valid spec. *)
Lemma schema_parts v w : schema v w = true ->
  req nonempty (w_serviceAccountName w) = true /\
  opt_all (schema_imagestream v) (w_imageStreamRef w) = true /\ opt_all schema_gather (w_gatherSpec w) = true /\
  opt_all (schema_upload v) (w_uploadTarget w) = true /\ opt_all (schema_storage v) (w_storage w) = true /\
  opt_all (schema_obfuscate v) (w_obfuscate w) = true.
Proof. unfold schema. rewrite !andb_true_iff. tauto. Qed.

(** Only the gather spec may come back changed. *)
Lemma write_back w : schema V1 w = true ->
  encode (decode local w) = set_gather w (encode_gather <$> (decode_gather local <$> w_gatherSpec w)).
Proof.
  intros (Hs & Hi & _ & Hu & Hst & Ho)%schema_parts. destruct w. unfold encode, set_gather. cbn in *.
  by rewrite (omit_req nonempty _ eq_refl Hs), (opt_back _ _ _ _ imagestream_back Hi), (opt_back _ _ _ _ upload_back Hu),
    (opt_back _ _ _ _ storage_back Hst), (opt_back _ _ _ _ obfuscate_back Ho).
Qed.

Definition own_kept (w : WSpec) : Prop := forall g, w_gatherSpec w = Some g -> gather_kept g.

Lemma own_update_kept w : stored_spec w -> update_allowed w (encode (decode local w)) <-> own_kept w.
Proof.
  intros [Hd Hs]. unfold update_allowed, own_kept. rewrite write_back by done.
  transitivity (set_gather w (encode_gather <$> (decode_gather local <$> w_gatherSpec w)) = w).
  { rewrite <-Hd at 2. unfold set_gather, defaulted in *. destruct w. cbn in *.
    injection Hd as Hu Hr Ho. split; intros [= Hg]; f_equal; congruence. }
  rewrite set_gather_eq. destruct (w_gatherSpec w) as [g|]; cbn.
  - split.
    + intros [= Hg] g' [= <-]. by apply gather_back.
    + intros Hg. f_equal. by apply gather_back, Hg.
  - split; [by intros _ g|done].
Qed.

(** ** The same by a client of [v1alpha1] *)

(** What a client of [v1alpha1] writes back as it read it. *)
Record kept_by_v1alpha1 (w : WSpec) : Prop := {
  ka_gather : own_kept w;
  ka_audit g : w_gatherSpec w = Some g -> w_audit g <> Some false;
  ka_host u s : w_uploadTarget w = Some u -> w_sftp u = Some s -> w_host s <> Some "";
  ka_storage s p : w_storage w = Some s -> w_persistentVolume s = Some p -> w_subPath p <> Some "";
  ka_source o p : w_obfuscate w = Some o -> w_source o = Some p -> w_subPath p <> Some "";
}.

Lemma gatherA_back w :
  encode_gatherA (decode_gatherA local w) = w <-> gather_kept w /\ w_audit w <> Some false.
Proof.
  rewrite <-gather_back. destruct w as [a c args s t]. unfold encode_gatherA, encode_gather. cbn.
  assert (omit_bool (default false a) = a <-> a <> Some false) as Ha by (destruct a as [[]|]; cbn; naive_solver).
  rewrite <-Ha. split; [intros [= H1 H2 H3 H4]; split; congruence|intros [[= H1 H2 H3] H4]; congruence].
Qed.

Lemma imagestreamA_back w : schema_imagestream V1 w = true -> encode_imagestreamA (decode_imagestreamA w) = w.
Proof. unfold schema_imagestream. destruct w as [[n|] [t|]]; cbn; by rewrite ?andb_false_r. Qed.

Lemma sftp_parts w : schema_sftp V1 w = true -> default_sftp w = w ->
  exists c r i h, w = mkWSFTP (Some c) (Some (mkWRef (Some r))) (Some i) (Some h) /\ r <> "".
Proof.
  unfold schema_sftp, default_sftp. destruct w as [[c|] [[[r|]]|] [i|] [h|]]; cbn; rewrite ?andb_false_r; try done.
  intros [_ Hr]%andb_true_iff _. exists c, r, i, h. split; [done|]. by intros ->.
Qed.

Lemma sftpA_back w : schema_sftp V1 w = true -> default_sftp w = w ->
  default_sftp (encode_sftpA (decode_sftpA w)) = w <-> w_host w <> Some "".
Proof.
  intros Hs Hd. destruct (sftp_parts w Hs Hd) as (c & r & i & h & -> & Hr).
  unfold default_sftp, encode_sftpA, encode_ref, default_ref, omit_string. cbn.
  rewrite (proj2 (str_eqb_neq _ _) Hr). cbn.
  assert (Some (default false (omit_bool i)) = Some i) as -> by by destruct i.
  str_case h ""; cbn; [|split; [intros _ [= ?]; congruence|done]].
  subst. unfold sftpDefaultHost. split; [intros [=]|done].
Qed.

Lemma volumeA_back w : schema_volume V1 w = true ->
  encode_volumeA (decode_volumeA w) = w <-> w_subPath w <> Some "".
Proof.
  intros Hw. destruct (volume_claim V1 w Hw) as (n & Hc & _). destruct w as [c p]. cbn in Hc. subst.
  unfold encode_volumeA. cbn. rewrite <-(omit_back p). split; [by intros [= ->]|by intros ->].
Qed.

Lemma fmap_back {A B} (e : B -> A) (d : A -> B) o :
  e <$> (d <$> o) = o <-> forall a, o = Some a -> e (d a) = a.
Proof. destruct o as [a|]; cbn; [|done]. split; [intros [= Ha] a' [= <-]; done|intros Ha; by rewrite Ha]. Qed.

Lemma fmap_all {A} (f : A -> A) o (P : A -> Prop) :
  (forall a, o = Some a -> (f a = a <-> P a)) -> (f <$> o = o <-> forall a, o = Some a -> P a).
Proof.
  intros HP. destruct o as [a|]; cbn; [|done]. split.
  - intros [= Hf] a' [= <-]. by apply HP.
  - intros Hf. f_equal. by apply HP, Hf.
Qed.

Definition default_upload (u : WUpload) : WUpload := mkWUpload (w_uploadType u) (default_sftp <$> w_sftp u).
Definition default_obfuscate (o : WObfuscate) : WObfuscate :=
  mkWObfuscate (Some (default false (w_enabled o))) (default_ref <$> w_configRef o) (w_source o).

Lemma uploadA_back u : schema_upload V1 u = true -> default_upload u = u ->
  default_upload (encode_uploadA (decode_uploadA u)) = u <->
  forall s, w_sftp u = Some s -> w_host s <> Some "".
Proof.
  destruct u as [[t|] [s|]]; unfold default_upload, encode_uploadA; cbn; try done.
  intros [_ Hs]%andb_true_iff [= Hd]. pose proof (sftpA_back s Hs Hd) as Hb. split.
  - intros [= Hback] s' [= <-]. by apply Hb.
  - intros Hh. f_equal. f_equal. apply Hb. by apply Hh.
Qed.

Lemma storageA_back w : schema_storage V1 w = true ->
  encode_storageA (decode_storageA w) = w <-> forall p, w_persistentVolume w = Some p -> w_subPath p <> Some "".
Proof.
  unfold schema_storage. destruct w as [[t|] [p|]]; cbn; rewrite ?andb_false_r; try done.
  intros [_ Hp]%andb_true_iff. unfold encode_storageA. cbn. pose proof (volumeA_back p Hp) as Hb. split.
  - intros [= Hback] p' [= <-]. by apply Hb.
  - intros Hs. f_equal. f_equal. apply Hb. by apply Hs.
Qed.

Lemma obfuscateA_back w : schema_obfuscate V1 w = true -> default_obfuscate w = w ->
  default_obfuscate (encode_obfuscateA (decode_obfuscateA w)) = w <->
  forall p, w_source w = Some p -> w_subPath p <> Some "".
Proof.
  destruct w as [e r p]. intros [Hr Hp]%andb_true_iff Hd. unfold default_obfuscate, encode_obfuscateA in *. cbn in *.
  injection Hd as He Hdr. rewrite He.
  assert (default_ref <$> (encode_ref <$> (decode_ref <$> r)) = r) as ->.
  { destruct r as [r|]; [|done]. cbn in *. by rewrite ref_back. }
  transitivity (encode_volumeA <$> (decode_volumeA <$> p) = p); [split; [by intros [=]|by intros ->]|].
  rewrite fmap_back. destruct p as [p|]; [|done]. cbn in Hp. pose proof (volumeA_back p Hp) as Hb.
  split; intros H1 p' [= <-]; apply Hb; by apply H1.
Qed.

Lemma v1alpha1_update_kept w : stored_spec w ->
  update_allowed w (encodeA (decodeA local w)) <-> kept_by_v1alpha1 w.
Proof.
  intros [Hd Hs]. pose proof (schema_parts V1 w Hs) as (Hsa & Hi & _ & Hu & Hst & Ho).
  unfold update_allowed, defaulted in *. fold default_upload default_obfuscate in *.
  destruct w as [sa i g t u r st o]. unfold encodeA. cbn in *. injection Hd as Hdu Hr Hdo. rewrite Hr.
  assert (Some (default "" sa) = sa) as -> by by destruct sa.
  rewrite (opt_back _ _ _ _ imagestreamA_back Hi).
  transitivity ((encode_gatherA <$> (decode_gatherA local <$> g) = g) /\
    (default_upload <$> (encode_uploadA <$> (decode_uploadA <$> u)) = u) /\
    (encode_storageA <$> (decode_storageA <$> st) = st) /\
    (default_obfuscate <$> (encode_obfuscateA <$> (decode_obfuscateA <$> o)) = o)).
  { split; [by intros [=]|by intros (-> & -> & -> & ->)]. }
  rewrite <-!option_fmap_compose.
  rewrite (fmap_all _ g (fun g => gather_kept g /\ w_audit g <> Some false)) by (intros; apply gatherA_back).
  rewrite (fmap_all _ u (fun u => forall s, w_sftp u = Some s -> w_host s <> Some ""))
    by (intros ? ->; injection Hdu; intros; by apply uploadA_back).
  rewrite (fmap_all _ st (fun s => forall p, w_persistentVolume s = Some p -> w_subPath p <> Some ""))
    by (intros ? ->; by apply storageA_back).
  rewrite (fmap_all _ o (fun o => forall p, w_source o = Some p -> w_subPath p <> Some ""))
    by (intros ? ->; injection Hdo; intros; by apply obfuscateA_back).
  split.
  - intros (H1 & H2 & H3 & H4). split; unfold own_kept; cbn; [intros g' Hg; by apply H1|intros g' Hg; by apply H1| | |];
      intros x y Hx; [apply (H2 x Hx)|apply (H3 x Hx)|apply (H4 x Hx)].
  - intros [H1 H2 H3 H4 H5]. cbn in *. split_and!; intros x Hx; [split; [by apply H1|by apply H2]| | |]; intros y;
      [by apply H3|by apply H4|by apply H5].
Qed.

End versions.

(** ** What a client of [v1alpha1] asks for *)

(** The request in a spec, field by field, with pointers followed. *)
Record same_request (a : MustGatherSpec_v1alpha1) (s : MustGatherSpec) : Prop := {
  sr_account : spec_ServiceAccountName s = aspec_ServiceAccountName a;
  sr_image : (fun r => (istr_Name r, istr_Tag r)) <$> spec_ImageStreamRef s
             = (fun r => (aistr_Name r, aistr_Tag r)) <$> aspec_ImageStreamRef a;
  sr_gather : (fun g => (ptr_deref (gs_Audit g) false, gs_Command g, gs_Args g, gs_Since g, t_sec <$> gs_SinceTime g))
                <$> spec_GatherSpec s
              = (fun g => (ags_Audit g, ags_Command g, ags_Args g, ags_Since g,
                           t_sec <$> (ags_SinceTime g ≫= fun t => if Time_IsZero t then None else Some t)))
                <$> aspec_GatherSpec a;
  sr_timeout : spec_MustGatherTimeout s = aspec_MustGatherTimeout a;
  sr_upload : (fun u => (ut_Type u,
                 (fun f => (sftp_CaseID f, lor_Name (sftp_CaseManagementAccountSecretRef f),
                            ptr_deref (sftp_InternalUser f) false, derefString (sftp_Host f))) <$> ut_SFTP u))
                <$> spec_UploadTarget s
              = (fun u => (aut_Type u,
                 (fun f => (asftp_CaseID f, lor_Name (asftp_CaseManagementAccountSecretRef f), asftp_InternalUser f,
                            if asftp_Host f =?s "" then sftpDefaultHost else asftp_Host f)) <$> aut_SFTP u))
                <$> aspec_UploadTarget a;
  sr_retain : ptr_deref (spec_RetainResourcesOnCompletion s) false
              = ptr_deref (aspec_RetainResourcesOnCompletion a) false;
  sr_storage : (fun t => (st_Type t, pvc_Name (pv_Claim (st_PersistentVolume t)),
                          derefString (pv_SubPath (st_PersistentVolume t)))) <$> spec_Storage s
               = (fun t => (ast_Type t, apvc_Name (apv_Claim (ast_PersistentVolume t)),
                            apv_SubPath (ast_PersistentVolume t))) <$> aspec_Storage a;
  sr_obfuscate : (fun o => (ptr_deref (oc_Enabled o) false, lor_Name <$> oc_ObfuscationConfigRef o,
                   (fun p => (pvc_Name (pv_Claim p), derefString (pv_SubPath p))) <$> oc_Source o)) <$> spec_Obfuscate s
                 = (fun o => (ptr_deref (aoc_Enabled o) false, lor_Name <$> aoc_ObfuscationConfigRef o,
                     (fun p => (apvc_Name (apv_Claim p), apv_SubPath p)) <$> aoc_Source o)) <$> aspec_Obfuscate a;
}.

Lemma default_omit s : default "" (omit_string s) = s.
Proof. unfold omit_string. by str_case s ""; subst. Qed.

Lemma deref_omit s : derefString (omit_string s) = s.
Proof. unfold omit_string. by str_case s ""; subst. Qed.

Lemma default_omit_list {A} (l : list A) : default [] (omit_list l) = l.
Proof. by destruct l. Qed.

Lemma ref_name_back r : lor_Name (decode_ref (default_ref (encode_ref r))) = lor_Name r.
Proof. destruct r as [n]. cbn. apply default_omit. Qed.

(** ** The schemas *)

Lemma schema_sftp_v v w : schema_sftp v w = schema_sftp V1 w.
Proof. unfold schema_sftp. destruct v, (w_caseID w) as [c|]; try done. cbn. unfold nonempty. by str_case c "". Qed.

Lemma schema_volume_v v w : schema_volume v w = schema_volume V1 w.
Proof.
  unfold schema_volume, schema_claim. destruct v, (w_claim w) as [[[n|]]|]; try done. cbn. f_equal.
  str_case n ""; [by subst|done].
Qed.

Lemma opt_all_ext {A} (f g : A -> bool) o : (forall a, f a = g a) -> opt_all f o = opt_all g o.
Proof. destruct o; cbn; auto. Qed.

Lemma schema_upload_v v w : schema_upload v w = schema_upload V1 w.
Proof. unfold schema_upload. f_equal. apply opt_all_ext, schema_sftp_v. Qed.

Lemma schema_storage_v v w : schema_storage v w = schema_storage V1 w.
Proof. unfold schema_storage. f_equal. destruct (w_persistentVolume w); [apply schema_volume_v|done]. Qed.

Lemma schema_obfuscate_v v w : schema_obfuscate v w = schema_obfuscate V1 w.
Proof. unfold schema_obfuscate. f_equal. apply opt_all_ext, schema_volume_v. Qed.

Definition named_imagestream (w : WImageStream) : bool := req nonempty (w_name w) && req nonempty (w_tag w).

Lemma schema_imagestream_v w : schema_imagestream V1 w = schema_imagestream V1alpha1 w && named_imagestream w.
Proof. unfold schema_imagestream, named_imagestream. destruct w as [[n|] [t|]]; cbn; by rewrite ?andb_false_r. Qed.

(** ** The properties *)


Definition demo_wire (g : WGather) : WSpec :=
  mkWSpec (Some "default") None (Some g) None None (Some false) None None.


(** Whatever a client of [v1alpha1] writes, once the server has defaulted it the
    operator reads the same request from it. *)
Lemma v1alpha1_request_kept local a : same_request a (decode local (defaulted (encodeA a))).
Proof.
  destruct a as [sa i g t u r st o]. split; cbn; try done.
  - by destruct i as [[]|].
  - destruct g as [[au c args s ti]|]; [|done]. cbn. rewrite !default_omit_list.
    assert (default false (omit_bool au) = au) as -> by by destruct au.
    do 2 f_equal. destruct ti as [ti|]; [|done]. cbn. unfold encode_time. by destruct (Time_IsZero ti).
  - destruct u as [[ty [[c ref iu h]|]]|]; try done. cbn. rewrite default_omit.
    assert (default false (omit_bool iu) = iu) as -> by by destruct iu.
    unfold omit_string. by destruct (h =?s "").
  - destruct st as [[ty [[n] sp]]|]; [|done]. cbn. by rewrite deref_omit.
  - destruct o as [[e ref src]|]; [|done]. cbn.
    destruct ref as [ref|], src as [[[n] sp]|]; cbn; by rewrite ?default_omit, ?deref_omit.
Qed.

