(* ===== verification/Heap.v ===== *)
(** * Objects in memory

    A Go struct holds pointers, slices and maps: what it means depends on the
    heap, and two structs can share parts.  This file has a heap of cells, the
    memory operations as programs that can fail on a dangling pointer, and the
    class [Deep] of the types whose values can be read from the heap and copied
    in depth.  The instances build it up: flat values, pointers, slices. *)

From S2P Require Import Prelude.

Abbreviation loc := positive.

(** The cells of the heap, of which [X] is one kind. *)
Class Cell (C X : Type) := {
  box : X -> C;
  unbox : C -> option X;
  unbox_box x : unbox (box x) = Some x;
}.

Section heap.
  Context {C : Type}.

Abbreviation heap := (gmap positive C).

(** A program on the heap; [None] is the panic of a bad pointer. *)
Definition mem (A : Type) : Type := heap -> option (A * heap).

Definition mem_ret {A} (a : A) : mem A := fun h => Some (a, h).
Definition mem_bind {A B} (m : mem A) (f : A -> mem B) : mem B :=
  fun h => match m h with Some (a, h') => f a h' | None => None end.

Definition load {X} `{Cell C X} (l : loc) : mem X :=
  fun h => match h !! l ≫= unbox with Some x => Some (x, h) | None => None end.

(** [new(T)], filled with [x]. *)
Definition alloc {X} `{Cell C X} (x : X) : mem loc :=
  fun h => let l := fresh (dom h) in Some (l, <[l := box x]> h).

(** What is true after a program that does not fail. *)
Definition mem_ok {A} (m : mem A) (h : heap) (Q : A -> heap -> Prop) : Prop :=
  exists a h', m h = Some (a, h') /\ Q a h'.

Lemma mem_ok_ret {A} (a : A) h (Q : A -> heap -> Prop) : Q a h -> mem_ok (mem_ret a) h Q.
Proof. intros HQ. by exists a, h. Qed.

Lemma mem_ok_bind {A B} (m : mem A) (f : A -> mem B) h Q :
  mem_ok m h (fun a h' => mem_ok (f a) h' Q) -> mem_ok (mem_bind m f) h Q.
Proof.
  intros (a & h' & Hm & b & h'' & Hf & HQ). exists b, h''. split; [|done]. unfold mem_bind. by rewrite Hm.
Qed.

Lemma mem_ok_mono {A} (m : mem A) h (Q Q' : A -> heap -> Prop) :
  mem_ok m h Q -> (forall a h', Q a h' -> Q' a h') -> mem_ok m h Q'.
Proof. intros (a & h' & Hm & HQ) HQ'. exists a, h'. split; [done|auto]. Qed.

Lemma load_ok {X} `{Cell C X} l x (h : heap) (Q : X -> heap -> Prop) :
  h !! l ≫= unbox = Some x -> Q x h -> mem_ok (load l) h Q.
Proof. intros Hl HQ. exists x, h. split; [|done]. unfold load. by rewrite Hl. Qed.

Lemma alloc_ok {X} `{Cell C X} (x : X) (h : heap) (Q : loc -> heap -> Prop) :
  (forall l, l ∉ dom h -> Q l (<[l := box x]> h)) -> mem_ok (alloc x) h Q.
Proof. intros HQ. exists (fresh (dom h)), (<[fresh (dom h) := box x]> h). split; [done|]. apply HQ, is_fresh. Qed.

(** ** Values in the heap *)

(** [read h x] is the value [x] stands for in the heap [h], [reach h x] the
    locations it consists of, [deep_copy x] a copy of it. *)
Class Deep (X A : Type) := {
  read : heap -> X -> option A;
  reach : heap -> X -> gset loc;
  deep_copy : X -> mem X;

  (** A value is all in the heap, and depends on what it reaches alone. *)
  reach_dom h x a : read h x = Some a -> reach h x ⊆ dom h;
  read_frame h h' x a :
    read h x = Some a -> (forall l, l ∈ reach h x -> h' !! l = h !! l) ->
    read h' x = Some a /\ reach h' x = reach h x;

  (** The copy has the value, in new locations; nothing else changes. *)
  copy_spec h x a : read h x = Some a ->
    mem_ok (deep_copy x) h (fun x' h' => h ⊆ h' /\ read h' x' = Some a /\ reach h' x' ## dom h);
}.

Lemma read_mono {X A} `{Deep X A} h h' x a :
  h ⊆ h' -> read h x = Some a -> read h' x = Some a /\ reach h' x = reach h x.
Proof.
  intros Hh Hr. apply (read_frame h h' x a Hr). intros l Hl.
  pose proof (reach_dom h x a Hr l Hl) as [c Hc]%elem_of_dom. rewrite Hc. by eapply lookup_weaken.
Qed.

(** One field of a struct: what its copy stands for stays true in every later
    heap. *)
Lemma copy_field {X A B} `{Deep X A} (f : X -> mem B) h0 h x a (Q : B -> heap -> Prop) :
  h0 ⊆ h -> read h0 x = Some a ->
  (forall x' h', h0 ⊆ h' -> h ⊆ h' ->
     (forall h'', h' ⊆ h'' -> read h'' x' = Some a /\ reach h'' x' ## dom h0) -> mem_ok (f x') h' Q) ->
  mem_ok (mem_bind (deep_copy x) f) h Q.
Proof.
  intros Hh Hr Hf. destruct (read_mono _ _ _ _ Hh Hr) as [Hr' _]. apply mem_ok_bind.
  eapply mem_ok_mono; [by apply copy_spec|]. cbn beta. intros x' h' (Hh' & Hx & Hd).
  apply Hf; [by etransitivity|done|]. intros h'' Hh''.
  destruct (read_mono _ _ _ _ Hh'' Hx) as [-> ->]. split; [done|].
  assert (dom h0 ⊆ dom h) by by apply subseteq_dom. set_solver.
Qed.

(** ** Flat values *)

Definition flat_deep {X} : Deep X X.
Proof.
  refine {| read := fun _ x => Some x; reach := fun _ _ => ∅; deep_copy := mem_ret |}.
  - set_solver.
  - done.
  - intros h x a Hr. apply mem_ok_ret. split_and!; [done|done|set_solver].
Defined.

(** ** Pointers *)

Definition ptr (X : Type) : Type := option loc.

(** [if in.F != nil { out.F = new(T); copy *in.F into it }]. *)
Definition copy_ptr {X A} `{Cell C X} `{Deep X A} (p : ptr X) : mem (ptr X) :=
  match p with
  | None => mem_ret None
  | Some l => mem_bind (load l) (fun x => mem_bind (deep_copy x) (fun x' => mem_bind (alloc x') (fun l' => mem_ret (Some l'))))
  end.

Definition read_ptr {X A} `{Cell C X} `{Deep X A} (h : heap) (p : ptr X) : option (option A) :=
  match p with
  | None => Some None
  | Some l => match h !! l ≫= unbox with
              | Some x => match read h x with Some a => Some (Some a) | None => None end
              | None => None
              end
  end.

Definition reach_ptr {X A} `{Cell C X} `{Deep X A} (h : heap) (p : ptr X) : gset loc :=
  match p with
  | None => ∅
  | Some l => {[l]} ∪ match h !! l ≫= unbox with Some x => reach h x | None => ∅ end
  end.

#[export, refine] Instance ptr_deep {X A} `{Cell C X} `{Deep X A} : Deep (ptr X) (option A) :=
  {| read := read_ptr; reach := reach_ptr; deep_copy := copy_ptr |}.
Proof.
  - intros h [l|] a; cbn; [|set_solver]. destruct (h !! l ≫= unbox) as [x|] eqn:Hl; cbn; [|done].
    destruct (read h x) as [b|] eqn:Hr; [|done]. intros _. pose proof (reach_dom h x b Hr).
    assert (l ∈ dom h) by (apply elem_of_dom; destruct (h !! l); [by eexists|done]). set_solver.
  - intros h h' [l|] a; cbn; [|done]. destruct (h !! l ≫= unbox) as [x|] eqn:Hl; cbn; [|done].
    destruct (read h x) as [b|] eqn:Hr; [|done]. intros [= <-] Hsame.
    rewrite (Hsame l) by set_solver. rewrite Hl.
    destruct (read_frame h h' x b Hr) as [-> ->]; [|done]. intros l' Hl'. apply Hsame. set_solver.
  - intros h [l|] a; cbn; [|intros [= <-]; apply mem_ok_ret; split_and!; [done|done|set_solver]].
    destruct (h !! l ≫= unbox) as [x|] eqn:Hl; cbn; [|done].
    destruct (read h x) as [b|] eqn:Hr; [|done]. intros [= <-].
    apply mem_ok_bind, (load_ok l x); [done|]. apply mem_ok_bind.
    eapply mem_ok_mono; [by apply copy_spec|]. cbn beta. intros x' h' (Hh & Hx & Hd).
    apply mem_ok_bind, alloc_ok. intros l' Hl'. apply mem_ok_ret. cbn.
    assert (h' ⊆ <[l' := box x']> h') as Hh' by by apply insert_subseteq, not_elem_of_dom.
    rewrite lookup_insert_eq. cbn. rewrite unbox_box. destruct (read_mono _ _ _ _ Hh' Hx) as [-> ->].
    split_and!; [by etransitivity|done|]. assert (dom h ⊆ dom h') by by apply subseteq_dom. set_solver.
Defined.
(** The same values seen through a function. *)
Definition deep_map {X A B} (f : A -> B) (D : Deep X A) : Deep X B.
Proof.
  refine {| read := fun h x => f <$> read h x; reach := reach; deep_copy := deep_copy |}.
  - intros h x b (a & Ha & _)%fmap_Some. exact (reach_dom h x a Ha).
  - intros h h' x b (a & Hr & ->)%fmap_Some Hsame. by destruct (read_frame h h' x a Hr Hsame) as [-> ->].
  - intros h x b (a & Hr & ->)%fmap_Some. eapply mem_ok_mono; [by apply copy_spec|]. cbn beta.
    intros x' h' (Hh & -> & Hd). done.
Defined.

(** ** Arrays, slices and maps *)

Fixpoint read_list {X A} `{Deep X A} (h : heap) (l : list X) : option (list A) :=
  match l with
  | [] => Some []
  | x :: l => a ← read h x; r ← read_list h l; Some (a :: r)
  end.

Fixpoint reach_list {X A} `{Deep X A} (h : heap) (l : list X) : gset loc :=
  match l with [] => ∅ | x :: l => reach h x ∪ reach_list h l end.

(** [for i := range in { in[i].DeepCopyInto(&out[i]) }]. *)
Fixpoint copy_list {X A} `{Deep X A} (l : list X) : mem (list X) :=
  match l with
  | [] => mem_ret []
  | x :: l => mem_bind (deep_copy x) (fun x' => mem_bind (copy_list l) (fun r => mem_ret (x' :: r)))
  end.

#[export, refine] Instance list_deep {X A} `{Deep X A} : Deep (list X) (list A) :=
  {| read := read_list; reach := reach_list; deep_copy := copy_list |}.
Proof.
  - intros h l. induction l as [|x l IH]; intros a; cbn; [set_solver|].
    intros (b & Hb & (r & Hr & _)%bind_Some)%bind_Some. apply reach_dom in Hb. specialize (IH r Hr). set_solver.
  - intros h h' l. induction l as [|x l IH]; intros a; cbn; [done|].
    intros (b & Hb & (r & Hr & [= <-])%bind_Some)%bind_Some Hsame.
    destruct (read_frame h h' x b Hb) as [-> ->]; [intros; apply Hsame; set_solver|]. cbn.
    destruct (IH r Hr) as [-> ->]; [intros; apply Hsame; set_solver|]. done.
  - intros h0 l a Hr. enough (forall h, h0 ⊆ h ->
      mem_ok (copy_list l) h (fun l' h' => h ⊆ h' /\ forall h'', h' ⊆ h'' ->
        read_list h'' l' = Some a /\ reach_list h'' l' ## dom h0)) as Hc.
    { eapply mem_ok_mono; [by apply Hc|]. cbn beta. intros l' h' [Hh Hl]. split; [done|]. by apply Hl. }
    revert a Hr. induction l as [|x l IH]; intros a Hr h Hh; cbn in *.
    { simplify_eq. apply mem_ok_ret. split; [done|]. intros. split; [done|set_solver]. }
    apply bind_Some in Hr as (b & Hb & (r & Hr & [= <-])%bind_Some).
    apply (copy_field _ h0 h x b _ Hh Hb). intros x' h1 Hh1 Hhh1 Hx. apply mem_ok_bind.
    eapply mem_ok_mono; [by apply (IH r Hr h1)|]. cbn beta. intros l' h2 [Hh2 Hl]. apply mem_ok_ret.
    split; [by etransitivity|]. intros h'' Hh''. cbn.
    destruct (Hx h'') as [-> Hdx]; [by etransitivity|]. destruct (Hl h'' Hh'') as [-> Hdl]. split; [done|]. set_solver.
Defined.

(** A slice is nil or a backing array; a map is nil or a table of flat values.
    Nil stands for the empty one. *)
Definition slice (X : Type) : Type := option loc.
Definition gomap (X : Type) : Type := option loc.

#[export] Instance slice_deep {X A} `{Cell C (list X)} `{Deep X A} : Deep (slice X) (list A) :=
  deep_map (default []) (ptr_deep (X:=list X)).

Definition gomap_deep {X} `{Cell C (gmap string X)} : Deep (gomap X) (gmap string X) :=
  deep_map (default ∅) (ptr_deep (H0:=flat_deep)).

End heap.

#[global] Typeclasses Opaque ptr slice gomap.
Arguments mem C A : clear implicits.

Notation "'let!' x := m 'in' k" := (mem_bind m (fun x => k))
  (at level 10, x pattern, m at level 200, k at level 200) : mgo_scope.

(** ** Structs

    A struct is read and copied field by field; these tactics prove its laws
    from those of its fields. *)
Ltac deep_fields :=
  repeat match goal with H : _ ≫= _ = Some _ |- _ => apply bind_Some in H as (? & ? & H) end; simplify_eq.

Ltac deep_reach_dom :=
  intros h x a Hr; deep_fields;
  repeat match goal with H : read _ _ = Some _ |- _ => apply reach_dom in H end; set_solver.

Ltac deep_frame :=
  intros h h' x a Hr Hsame; deep_fields;
  repeat match goal with
  | H : read h ?y = Some _ |- _ =>
      apply (read_frame h h') in H as [-> ->]; [|intros; apply Hsame; set_solver]; cbn [mbind option_bind]
  end; done.

(** A chain of inclusions. *)
Ltac heap_chain := repeat first [done | assumption | etransitivity; [eassumption|]].

Ltac deep_copy_struct :=
  intros h x a Hr; deep_fields;
  assert (h ⊆ h) as Hh by done;
  repeat (eapply (copy_field _ h); [eassumption|eassumption|];
    let x' := fresh "y" in let h1 := fresh "h" in let H1 := fresh "Hh" in let H2 := fresh "Hs" in
    let Hx := fresh "Hx" in intros x' h1 H1 H2 Hx);
  apply mem_ok_ret;
  lazymatch goal with
  | |- _ ⊆ ?hn /\ _ =>
      repeat match goal with
      | Hx : forall h'', ?h1 ⊆ h'' -> _ |- _ => destruct (Hx hn) as [? ?]; [heap_chain|]; clear Hx
      end
  end;
  split; [assumption|];
  repeat match goal with
  | H : read ?hn ?y = Some _ |- context [read ?hn ?e] => assert_fails (constr_eq e y); unify e y; change (read hn e) with (read hn y)
  | H : reach ?hn ?y ## _ |- context [reach ?hn ?e] => assert_fails (constr_eq e y); unify e y; change (reach hn e) with (reach hn y)
  end;
  split;
  [repeat match goal with H : read _ _ = Some _ |- _ => rewrite H; clear H end; done
  |set_solver].
