(* ===== verification/HeapTypes.v ===== *)
(** * The API objects in memory

    The structs of [api/v1] and [api/v1alpha1], and those of apimachinery they
    hold, as they lie in memory: pointers, slices and maps are addresses.  One
    type of cells serves both versions.  The copies of apimachinery's own structs
    come first, since both versions call them.  The metadata fields are those the
    rest of the development has. *)

From S2P Require Import Prelude GoStrings GoTime K8sTypes MustGatherV1 MustGatherV1alpha1 Heap.

(** ** apimachinery *)

Record HOwnerReference := mkHOwnerRef {
  hor_APIVersion : string; hor_Kind : string; hor_Name : string; hor_UID : string;
  hor_Controller : ptr bool; hor_BlockOwnerDeletion : ptr bool;
}.

Record HObjectMeta := mkHMeta {
  hom_Name : string; hom_Namespace : string; hom_UID : string; hom_ResourceVersion : string;
  hom_Generation : Z;
  hom_DeletionTimestamp : ptr Time;
  hom_Labels : gomap string;
  hom_OwnerReferences : slice HOwnerReference;
  hom_Finalizers : slice string;
}.

Record HListMeta := mkHListMeta {
  hlm_ResourceVersion : string; hlm_Continue : string; hlm_RemainingItemCount : ptr Z;
}.

Record ListMeta := mkListMeta {
  lm_ResourceVersion : string; lm_Continue : string; lm_RemainingItemCount : option Z;
}.

(** ** [v1] *)

Record HGatherSpec := mkHGatherSpec {
  hgs_Audit : ptr bool;
  hgs_Command : slice string;
  hgs_Args : slice string;
  hgs_Since : ptr Duration;
  hgs_SinceTime : ptr Time;
}.

Record HSFTPSpec := mkHSFTPSpec {
  hsftp_CaseID : string;
  hsftp_SecretRef : LocalObjectReference;
  hsftp_InternalUser : ptr bool;
  hsftp_Host : ptr string;
}.

Record HUploadTargetSpec := mkHUploadTargetSpec { hut_Type : UploadType; hut_SFTP : ptr HSFTPSpec }.

Record HPersistentVolumeConfig := mkHPVConfig {
  hpv_Claim : PersistentVolumeClaimReference;
  hpv_SubPath : ptr string;
}.

Record HStorage := mkHStorage { hst_Type : StorageType; hst_PersistentVolume : HPersistentVolumeConfig }.

Record HObfuscateConfig := mkHObfuscateConfig {
  hoc_Enabled : ptr bool;
  hoc_ObfuscationConfigRef : ptr LocalObjectReference;
  hoc_Source : ptr HPersistentVolumeConfig;
}.

Record HMustGatherSpec := mkHMustGatherSpec {
  hspec_ServiceAccountName : string;
  hspec_ImageStreamRef : ptr ImageStreamTagRef;
  hspec_GatherSpec : ptr HGatherSpec;
  hspec_MustGatherTimeout : ptr Duration;
  hspec_UploadTarget : ptr HUploadTargetSpec;
  hspec_RetainResourcesOnCompletion : ptr bool;
  hspec_Storage : ptr HStorage;
  hspec_Obfuscate : ptr HObfuscateConfig;
}.

Record HMustGatherStatus := mkHMustGatherStatus {
  hmgs_Conditions : slice Condition;
  hmgs_Status : ptr string;
  hmgs_LastUpdate : ptr Time;
  hmgs_Reason : ptr string;
  hmgs_Completed : ptr bool;
}.

Record HMustGather := mkHMustGather {
  hmg_TypeMeta : TypeMeta;
  hmg_ObjectMeta : HObjectMeta;
  hmg_Spec : HMustGatherSpec;
  hmg_Status : ptr HMustGatherStatus;
}.

Record HMustGatherList := mkHMustGatherList {
  hmgl_TypeMeta : TypeMeta; hmgl_ListMeta : HListMeta; hmgl_Items : slice HMustGather;
}.

(** ** [v1alpha1] *)

Record HGatherSpec_v1alpha1 := mkHGatherSpecA {
  hags_Audit : bool;
  hags_Command : slice string;
  hags_Args : slice string;
  hags_Since : ptr Duration;
  hags_SinceTime : ptr Time;
}.

Record HUploadTargetSpec_v1alpha1 := mkHUploadTargetSpecA {
  haut_Type : UploadType_v1alpha1;
  haut_SFTP : ptr SFTPSpec_v1alpha1;
}.

Record HObfuscateConfig_v1alpha1 := mkHObfuscateConfigA {
  haoc_Enabled : ptr bool;
  haoc_ObfuscationConfigRef : ptr LocalObjectReference;
  haoc_Source : ptr PersistentVolumeConfig_v1alpha1;
}.

Record HMustGatherSpec_v1alpha1 := mkHMustGatherSpecA {
  haspec_ServiceAccountName : string;
  haspec_ImageStreamRef : ptr ImageStreamTagRef_v1alpha1;
  haspec_GatherSpec : ptr HGatherSpec_v1alpha1;
  haspec_MustGatherTimeout : ptr Duration;
  haspec_UploadTarget : ptr HUploadTargetSpec_v1alpha1;
  haspec_RetainResourcesOnCompletion : ptr bool;
  haspec_Storage : ptr Storage_v1alpha1;
  haspec_Obfuscate : ptr HObfuscateConfig_v1alpha1;
}.

Record HMustGatherStatus_v1alpha1 := mkHMustGatherStatusA {
  hamgs_Status : string;
  hamgs_LastUpdate : Time;
  hamgs_Reason : string;
  hamgs_Conditions : slice Condition;
  hamgs_Completed : bool;
}.

Record HMustGather_v1alpha1 := mkHMustGatherA {
  hamg_TypeMeta : TypeMeta;
  hamg_ObjectMeta : HObjectMeta;
  hamg_Spec : HMustGatherSpec_v1alpha1;
  hamg_Status : HMustGatherStatus_v1alpha1;
}.

Record HMustGatherList_v1alpha1 := mkHMustGatherListA {
  hamgl_TypeMeta : TypeMeta; hamgl_ListMeta : HListMeta; hamgl_Items : slice HMustGather_v1alpha1;
}.

(** ** The cells *)

#[global] Typeclasses Opaque Duration.

Inductive cell :=
| CBool (x : bool)
| CString (x : string)
| CInt64 (x : Z)
| CDuration (x : Duration)
| CTime (x : Time)
| CStrings (x : list string)
| CLabels (x : gmap string string)
| CLocalRef (x : LocalObjectReference)
| CConditions (x : list Condition)
| COwners (x : list HOwnerReference)
| CImageStream (x : ImageStreamTagRef)
| CGather (x : HGatherSpec)
| CSFTP (x : HSFTPSpec)
| CUpload (x : HUploadTargetSpec)
| CVolume (x : HPersistentVolumeConfig)
| CStorage (x : HStorage)
| CObfuscate (x : HObfuscateConfig)
| CSpec (x : HMustGatherSpec)
| CStatus (x : HMustGatherStatus)
| CClaim (x : PersistentVolumeClaimReference)
| CMustGather (x : HMustGather)
| CMustGathers (x : list HMustGather)
| CMustGatherList (x : HMustGatherList)
| CImageStreamA (x : ImageStreamTagRef_v1alpha1)
| CGatherA (x : HGatherSpec_v1alpha1)
| CSFTPA (x : SFTPSpec_v1alpha1)
| CUploadA (x : HUploadTargetSpec_v1alpha1)
| CVolumeA (x : PersistentVolumeConfig_v1alpha1)
| CStorageA (x : Storage_v1alpha1)
| CClaimA (x : PersistentVolumeClaimReference_v1alpha1)
| CObfuscateA (x : HObfuscateConfig_v1alpha1)
| CSpecA (x : HMustGatherSpec_v1alpha1)
| CStatusA (x : HMustGatherStatus_v1alpha1)
| CMustGatherA (x : HMustGather_v1alpha1)
| CMustGathersA (x : list HMustGather_v1alpha1)
| CMustGatherListA (x : HMustGatherList_v1alpha1).

#[export, refine] Instance Cell_bool : Cell cell bool :=
  {| box := CBool; unbox c := match c with CBool x => Some x | _ => None end |}.
Proof. done. Defined.
#[export, refine] Instance Cell_string : Cell cell string :=
  {| box := CString; unbox c := match c with CString x => Some x | _ => None end |}.
Proof. done. Defined.
#[export, refine] Instance Cell_int64 : Cell cell Z :=
  {| box := CInt64; unbox c := match c with CInt64 x => Some x | _ => None end |}.
Proof. done. Defined.
#[export, refine] Instance Cell_duration : Cell cell Duration :=
  {| box := CDuration; unbox c := match c with CDuration x => Some x | _ => None end |}.
Proof. done. Defined.
#[export, refine] Instance Cell_Time : Cell cell Time :=
  {| box := CTime; unbox c := match c with CTime x => Some x | _ => None end |}.
Proof. done. Defined.
#[export, refine] Instance Cell_strings : Cell cell (list string) :=
  {| box := CStrings; unbox c := match c with CStrings x => Some x | _ => None end |}.
Proof. done. Defined.
#[export, refine] Instance Cell_labels : Cell cell (gmap string string) :=
  {| box := CLabels; unbox c := match c with CLabels x => Some x | _ => None end |}.
Proof. done. Defined.
#[export, refine] Instance Cell_ref : Cell cell LocalObjectReference :=
  {| box := CLocalRef; unbox c := match c with CLocalRef x => Some x | _ => None end |}.
Proof. done. Defined.
#[export, refine] Instance Cell_conditions : Cell cell (list Condition) :=
  {| box := CConditions; unbox c := match c with CConditions x => Some x | _ => None end |}.
Proof. done. Defined.
#[export, refine] Instance Cell_owners : Cell cell (list HOwnerReference) :=
  {| box := COwners; unbox c := match c with COwners x => Some x | _ => None end |}.
Proof. done. Defined.
#[export, refine] Instance Cell_imagestream : Cell cell ImageStreamTagRef :=
  {| box := CImageStream; unbox c := match c with CImageStream x => Some x | _ => None end |}.
Proof. done. Defined.
#[export, refine] Instance Cell_gather : Cell cell HGatherSpec :=
  {| box := CGather; unbox c := match c with CGather x => Some x | _ => None end |}.
Proof. done. Defined.
#[export, refine] Instance Cell_sftp : Cell cell HSFTPSpec :=
  {| box := CSFTP; unbox c := match c with CSFTP x => Some x | _ => None end |}.
Proof. done. Defined.
#[export, refine] Instance Cell_upload : Cell cell HUploadTargetSpec :=
  {| box := CUpload; unbox c := match c with CUpload x => Some x | _ => None end |}.
Proof. done. Defined.
#[export, refine] Instance Cell_volume : Cell cell HPersistentVolumeConfig :=
  {| box := CVolume; unbox c := match c with CVolume x => Some x | _ => None end |}.
Proof. done. Defined.
#[export, refine] Instance Cell_storage : Cell cell HStorage :=
  {| box := CStorage; unbox c := match c with CStorage x => Some x | _ => None end |}.
Proof. done. Defined.
#[export, refine] Instance Cell_obfuscate : Cell cell HObfuscateConfig :=
  {| box := CObfuscate; unbox c := match c with CObfuscate x => Some x | _ => None end |}.
Proof. done. Defined.
#[export, refine] Instance Cell_spec : Cell cell HMustGatherSpec :=
  {| box := CSpec; unbox c := match c with CSpec x => Some x | _ => None end |}.
Proof. done. Defined.
#[export, refine] Instance Cell_status : Cell cell HMustGatherStatus :=
  {| box := CStatus; unbox c := match c with CStatus x => Some x | _ => None end |}.
Proof. done. Defined.
#[export, refine] Instance Cell_claim : Cell cell PersistentVolumeClaimReference :=
  {| box := CClaim; unbox c := match c with CClaim x => Some x | _ => None end |}.
Proof. done. Defined.
#[export, refine] Instance Cell_mustgather : Cell cell HMustGather :=
  {| box := CMustGather; unbox c := match c with CMustGather x => Some x | _ => None end |}.
Proof. done. Defined.
#[export, refine] Instance Cell_mustgathers : Cell cell (list HMustGather) :=
  {| box := CMustGathers; unbox c := match c with CMustGathers x => Some x | _ => None end |}.
Proof. done. Defined.
#[export, refine] Instance Cell_list : Cell cell HMustGatherList :=
  {| box := CMustGatherList; unbox c := match c with CMustGatherList x => Some x | _ => None end |}.
Proof. done. Defined.
#[export, refine] Instance Cell_imagestream_a : Cell cell ImageStreamTagRef_v1alpha1 :=
  {| box := CImageStreamA; unbox c := match c with CImageStreamA x => Some x | _ => None end |}.
Proof. done. Defined.
#[export, refine] Instance Cell_gather_a : Cell cell HGatherSpec_v1alpha1 :=
  {| box := CGatherA; unbox c := match c with CGatherA x => Some x | _ => None end |}.
Proof. done. Defined.
#[export, refine] Instance Cell_sftp_a : Cell cell SFTPSpec_v1alpha1 :=
  {| box := CSFTPA; unbox c := match c with CSFTPA x => Some x | _ => None end |}.
Proof. done. Defined.
#[export, refine] Instance Cell_upload_a : Cell cell HUploadTargetSpec_v1alpha1 :=
  {| box := CUploadA; unbox c := match c with CUploadA x => Some x | _ => None end |}.
Proof. done. Defined.
#[export, refine] Instance Cell_volume_a : Cell cell PersistentVolumeConfig_v1alpha1 :=
  {| box := CVolumeA; unbox c := match c with CVolumeA x => Some x | _ => None end |}.
Proof. done. Defined.
#[export, refine] Instance Cell_storage_a : Cell cell Storage_v1alpha1 :=
  {| box := CStorageA; unbox c := match c with CStorageA x => Some x | _ => None end |}.
Proof. done. Defined.
#[export, refine] Instance Cell_claim_a : Cell cell PersistentVolumeClaimReference_v1alpha1 :=
  {| box := CClaimA; unbox c := match c with CClaimA x => Some x | _ => None end |}.
Proof. done. Defined.
#[export, refine] Instance Cell_obfuscate_a : Cell cell HObfuscateConfig_v1alpha1 :=
  {| box := CObfuscateA; unbox c := match c with CObfuscateA x => Some x | _ => None end |}.
Proof. done. Defined.
#[export, refine] Instance Cell_spec_a : Cell cell HMustGatherSpec_v1alpha1 :=
  {| box := CSpecA; unbox c := match c with CSpecA x => Some x | _ => None end |}.
Proof. done. Defined.
#[export, refine] Instance Cell_status_a : Cell cell HMustGatherStatus_v1alpha1 :=
  {| box := CStatusA; unbox c := match c with CStatusA x => Some x | _ => None end |}.
Proof. done. Defined.
#[export, refine] Instance Cell_mustgather_a : Cell cell HMustGather_v1alpha1 :=
  {| box := CMustGatherA; unbox c := match c with CMustGatherA x => Some x | _ => None end |}.
Proof. done. Defined.
#[export, refine] Instance Cell_mustgathers_a : Cell cell (list HMustGather_v1alpha1) :=
  {| box := CMustGathersA; unbox c := match c with CMustGathersA x => Some x | _ => None end |}.
Proof. done. Defined.
#[export, refine] Instance Cell_list_a : Cell cell HMustGatherList_v1alpha1 :=
  {| box := CMustGatherListA; unbox c := match c with CMustGatherListA x => Some x | _ => None end |}.
Proof. done. Defined.

(** Values without pointers: [*out = *in] copies them whole. *)
#[export] Instance bool_deep : Deep (C:=cell) bool bool := flat_deep.
#[export] Instance string_deep : Deep (C:=cell) string string := flat_deep.
#[export] Instance int64_deep : Deep (C:=cell) Z Z := flat_deep.
#[export] Instance duration_deep : Deep (C:=cell) Duration Duration := flat_deep.
#[export] Instance Time_deep : Deep (C:=cell) Time Time := flat_deep.
#[export] Instance ref_deep : Deep (C:=cell) LocalObjectReference LocalObjectReference := flat_deep.
#[export] Instance condition_deep : Deep (C:=cell) Condition Condition := flat_deep.
#[export] Instance imagestream_deep : Deep (C:=cell) ImageStreamTagRef ImageStreamTagRef := flat_deep.
#[export] Instance claim_deep : Deep (C:=cell) PersistentVolumeClaimReference PersistentVolumeClaimReference := flat_deep.
#[export] Instance imagestream_a_deep : Deep (C:=cell) ImageStreamTagRef_v1alpha1 ImageStreamTagRef_v1alpha1 := flat_deep.
#[export] Instance sftp_a_deep : Deep (C:=cell) SFTPSpec_v1alpha1 SFTPSpec_v1alpha1 := flat_deep.
#[export] Instance volume_a_deep : Deep (C:=cell) PersistentVolumeConfig_v1alpha1 PersistentVolumeConfig_v1alpha1 := flat_deep.
#[export] Instance storage_a_deep : Deep (C:=cell) Storage_v1alpha1 Storage_v1alpha1 := flat_deep.
#[export] Instance claim_a_deep : Deep (C:=cell) PersistentVolumeClaimReference_v1alpha1 PersistentVolumeClaimReference_v1alpha1 := flat_deep.
#[export] Instance labels_deep : Deep (C:=cell) (gomap string) (gmap string string) := gomap_deep.

Abbreviation hp := (gmap positive cell).

(** ** Copies of metadata, [apimachinery/pkg/apis/meta/v1/zz_generated.deepcopy.go]

    Field by field, for the fields there are here; annotations, managed fields and
    the other metadata are copied by the same patterns and have no field in [ObjectMeta]. *)

Definition read_OwnerReference (h : hp) (i : HOwnerReference) : option OwnerReference :=
  controller ← read h (hor_Controller i); block ← read h (hor_BlockOwnerDeletion i);
  Some (mkOwnerRef (hor_APIVersion i) (hor_Kind i) (hor_Name i) (hor_UID i) controller block).
Definition reach_OwnerReference (h : hp) (i : HOwnerReference) : gset loc :=
  reach h (hor_Controller i) ∪ reach h (hor_BlockOwnerDeletion i).
Definition OwnerReference_DeepCopyInto (i : HOwnerReference) : mem cell HOwnerReference :=
  let! controller := deep_copy (hor_Controller i) in
  let! block := deep_copy (hor_BlockOwnerDeletion i) in
  mem_ret (mkHOwnerRef (hor_APIVersion i) (hor_Kind i) (hor_Name i) (hor_UID i) controller block).
#[export, refine] Instance OwnerReference_deep : Deep HOwnerReference OwnerReference :=
  {| read := read_OwnerReference; reach := reach_OwnerReference; deep_copy := OwnerReference_DeepCopyInto |}.
Proof.
  all: unfold read_OwnerReference, reach_OwnerReference, OwnerReference_DeepCopyInto.
  all: [> deep_reach_dom | deep_frame | deep_copy_struct].
Defined.

Definition read_ObjectMeta (h : hp) (i : HObjectMeta) : option ObjectMeta :=
  deleted ← read h (hom_DeletionTimestamp i); labels ← read h (hom_Labels i); owners ← read h (hom_OwnerReferences i); finalizers ← read h (hom_Finalizers i);
  Some (mkMeta (hom_Name i) (hom_Namespace i) (hom_UID i) (hom_ResourceVersion i) (hom_Generation i) deleted labels owners finalizers).
Definition reach_ObjectMeta (h : hp) (i : HObjectMeta) : gset loc :=
  reach h (hom_DeletionTimestamp i) ∪ reach h (hom_Labels i) ∪ reach h (hom_OwnerReferences i) ∪ reach h (hom_Finalizers i).
Definition ObjectMeta_DeepCopyInto (i : HObjectMeta) : mem cell HObjectMeta :=
  let! deleted := deep_copy (hom_DeletionTimestamp i) in
  let! labels := deep_copy (hom_Labels i) in
  let! owners := deep_copy (hom_OwnerReferences i) in
  let! finalizers := deep_copy (hom_Finalizers i) in
  mem_ret (mkHMeta (hom_Name i) (hom_Namespace i) (hom_UID i) (hom_ResourceVersion i) (hom_Generation i) deleted labels owners finalizers).
#[export, refine] Instance ObjectMeta_deep : Deep HObjectMeta ObjectMeta :=
  {| read := read_ObjectMeta; reach := reach_ObjectMeta; deep_copy := ObjectMeta_DeepCopyInto |}.
Proof.
  all: unfold read_ObjectMeta, reach_ObjectMeta, ObjectMeta_DeepCopyInto.
  all: [> deep_reach_dom | deep_frame | deep_copy_struct].
Defined.

Definition read_ListMeta (h : hp) (i : HListMeta) : option ListMeta :=
  remaining ← read h (hlm_RemainingItemCount i);
  Some (mkListMeta (hlm_ResourceVersion i) (hlm_Continue i) remaining).
Definition reach_ListMeta (h : hp) (i : HListMeta) : gset loc :=
  reach h (hlm_RemainingItemCount i).
Definition ListMeta_DeepCopyInto (i : HListMeta) : mem cell HListMeta :=
  let! remaining := deep_copy (hlm_RemainingItemCount i) in
  mem_ret (mkHListMeta (hlm_ResourceVersion i) (hlm_Continue i) remaining).
#[export, refine] Instance ListMeta_deep : Deep HListMeta ListMeta :=
  {| read := read_ListMeta; reach := reach_ListMeta; deep_copy := ListMeta_DeepCopyInto |}.
Proof.
  all: unfold read_ListMeta, reach_ListMeta, ListMeta_DeepCopyInto.
  all: [> deep_reach_dom | deep_frame | deep_copy_struct].
Defined.
