(* ===== verification/DeepCopyV1.v ===== *)
(** * Deep copies of [v1] objects, [api/v1/zz_generated.deepcopy.go]

    [DeepCopyInto] of every struct of [api/v1], field by field as generated, on the
    heap of HeapTypes.  Each is an instance of [Deep]: what is read from the
    heap are the values of MustGatherV1, which the rest of the development works
    with, and the copy of a struct with pointers goes through the copies of what it
    points to.  [DeepCopy] is the copy of a pointer: nil for nil, otherwise a new
    struct.  A struct of plain values has [*out = *in] for its copy. *)

From S2P Require Import Prelude GoStrings GoTime K8sTypes MustGatherV1 Heap HeapTypes.

Definition ImageStreamTagRef_DeepCopyInto (i : ImageStreamTagRef) : mem cell ImageStreamTagRef := mem_ret i.
Definition PersistentVolumeClaimReference_DeepCopyInto (i : PersistentVolumeClaimReference)
    : mem cell PersistentVolumeClaimReference := mem_ret i.

Definition read_GatherSpec (h : hp) (i : HGatherSpec) : option GatherSpec :=
  audit ← read h (hgs_Audit i); command ← read h (hgs_Command i); args ← read h (hgs_Args i); since ← read h (hgs_Since i); sinceTime ← read h (hgs_SinceTime i);
  Some (mkGatherSpec audit command args since sinceTime).
Definition reach_GatherSpec (h : hp) (i : HGatherSpec) : gset loc :=
  reach h (hgs_Audit i) ∪ reach h (hgs_Command i) ∪ reach h (hgs_Args i) ∪ reach h (hgs_Since i) ∪ reach h (hgs_SinceTime i).
Definition GatherSpec_DeepCopyInto (i : HGatherSpec) : mem cell HGatherSpec :=
  let! audit := deep_copy (hgs_Audit i) in
  let! command := deep_copy (hgs_Command i) in
  let! args := deep_copy (hgs_Args i) in
  let! since := deep_copy (hgs_Since i) in
  let! sinceTime := deep_copy (hgs_SinceTime i) in
  mem_ret (mkHGatherSpec audit command args since sinceTime).
#[export, refine] Instance GatherSpec_deep : Deep HGatherSpec GatherSpec :=
  {| read := read_GatherSpec; reach := reach_GatherSpec; deep_copy := GatherSpec_DeepCopyInto |}.
Proof.
  all: unfold read_GatherSpec, reach_GatherSpec, GatherSpec_DeepCopyInto.
  all: [> deep_reach_dom | deep_frame | deep_copy_struct].
Defined.

Definition read_SFTPSpec (h : hp) (i : HSFTPSpec) : option SFTPSpec :=
  internal ← read h (hsftp_InternalUser i); host ← read h (hsftp_Host i);
  Some (mkSFTPSpec (hsftp_CaseID i) (hsftp_SecretRef i) internal host).
Definition reach_SFTPSpec (h : hp) (i : HSFTPSpec) : gset loc :=
  reach h (hsftp_InternalUser i) ∪ reach h (hsftp_Host i).
Definition SFTPSpec_DeepCopyInto (i : HSFTPSpec) : mem cell HSFTPSpec :=
  let! internal := deep_copy (hsftp_InternalUser i) in
  let! host := deep_copy (hsftp_Host i) in
  mem_ret (mkHSFTPSpec (hsftp_CaseID i) (hsftp_SecretRef i) internal host).
#[export, refine] Instance SFTPSpec_deep : Deep HSFTPSpec SFTPSpec :=
  {| read := read_SFTPSpec; reach := reach_SFTPSpec; deep_copy := SFTPSpec_DeepCopyInto |}.
Proof.
  all: unfold read_SFTPSpec, reach_SFTPSpec, SFTPSpec_DeepCopyInto.
  all: [> deep_reach_dom | deep_frame | deep_copy_struct].
Defined.

Definition read_UploadTargetSpec (h : hp) (i : HUploadTargetSpec) : option UploadTargetSpec :=
  sftp ← read h (hut_SFTP i);
  Some (mkUploadTargetSpec (hut_Type i) sftp).
Definition reach_UploadTargetSpec (h : hp) (i : HUploadTargetSpec) : gset loc :=
  reach h (hut_SFTP i).
Definition UploadTargetSpec_DeepCopyInto (i : HUploadTargetSpec) : mem cell HUploadTargetSpec :=
  let! sftp := deep_copy (hut_SFTP i) in
  mem_ret (mkHUploadTargetSpec (hut_Type i) sftp).
#[export, refine] Instance UploadTargetSpec_deep : Deep HUploadTargetSpec UploadTargetSpec :=
  {| read := read_UploadTargetSpec; reach := reach_UploadTargetSpec; deep_copy := UploadTargetSpec_DeepCopyInto |}.
Proof.
  all: unfold read_UploadTargetSpec, reach_UploadTargetSpec, UploadTargetSpec_DeepCopyInto.
  all: [> deep_reach_dom | deep_frame | deep_copy_struct].
Defined.

Definition read_PersistentVolumeConfig (h : hp) (i : HPersistentVolumeConfig) : option PersistentVolumeConfig :=
  subPath ← read h (hpv_SubPath i);
  Some (mkPVConfig (hpv_Claim i) subPath).
Definition reach_PersistentVolumeConfig (h : hp) (i : HPersistentVolumeConfig) : gset loc :=
  reach h (hpv_SubPath i).
Definition PersistentVolumeConfig_DeepCopyInto (i : HPersistentVolumeConfig) : mem cell HPersistentVolumeConfig :=
  let! subPath := deep_copy (hpv_SubPath i) in
  mem_ret (mkHPVConfig (hpv_Claim i) subPath).
#[export, refine] Instance PersistentVolumeConfig_deep : Deep HPersistentVolumeConfig PersistentVolumeConfig :=
  {| read := read_PersistentVolumeConfig; reach := reach_PersistentVolumeConfig; deep_copy := PersistentVolumeConfig_DeepCopyInto |}.
Proof.
  all: unfold read_PersistentVolumeConfig, reach_PersistentVolumeConfig, PersistentVolumeConfig_DeepCopyInto.
  all: [> deep_reach_dom | deep_frame | deep_copy_struct].
Defined.

Definition read_Storage (h : hp) (i : HStorage) : option Storage :=
  volume ← read h (hst_PersistentVolume i);
  Some (mkStorage (hst_Type i) volume).
Definition reach_Storage (h : hp) (i : HStorage) : gset loc :=
  reach h (hst_PersistentVolume i).
Definition Storage_DeepCopyInto (i : HStorage) : mem cell HStorage :=
  let! volume := deep_copy (hst_PersistentVolume i) in
  mem_ret (mkHStorage (hst_Type i) volume).
#[export, refine] Instance Storage_deep : Deep HStorage Storage :=
  {| read := read_Storage; reach := reach_Storage; deep_copy := Storage_DeepCopyInto |}.
Proof.
  all: unfold read_Storage, reach_Storage, Storage_DeepCopyInto.
  all: [> deep_reach_dom | deep_frame | deep_copy_struct].
Defined.

Definition read_ObfuscateConfig (h : hp) (i : HObfuscateConfig) : option ObfuscateConfig :=
  enabled ← read h (hoc_Enabled i); config ← read h (hoc_ObfuscationConfigRef i); source ← read h (hoc_Source i);
  Some (mkObfuscateConfig enabled config source).
Definition reach_ObfuscateConfig (h : hp) (i : HObfuscateConfig) : gset loc :=
  reach h (hoc_Enabled i) ∪ reach h (hoc_ObfuscationConfigRef i) ∪ reach h (hoc_Source i).
Definition ObfuscateConfig_DeepCopyInto (i : HObfuscateConfig) : mem cell HObfuscateConfig :=
  let! enabled := deep_copy (hoc_Enabled i) in
  let! config := deep_copy (hoc_ObfuscationConfigRef i) in
  let! source := deep_copy (hoc_Source i) in
  mem_ret (mkHObfuscateConfig enabled config source).
#[export, refine] Instance ObfuscateConfig_deep : Deep HObfuscateConfig ObfuscateConfig :=
  {| read := read_ObfuscateConfig; reach := reach_ObfuscateConfig; deep_copy := ObfuscateConfig_DeepCopyInto |}.
Proof.
  all: unfold read_ObfuscateConfig, reach_ObfuscateConfig, ObfuscateConfig_DeepCopyInto.
  all: [> deep_reach_dom | deep_frame | deep_copy_struct].
Defined.

Definition read_MustGatherSpec (h : hp) (i : HMustGatherSpec) : option MustGatherSpec :=
  image ← read h (hspec_ImageStreamRef i); gather ← read h (hspec_GatherSpec i); timeout ← read h (hspec_MustGatherTimeout i); target ← read h (hspec_UploadTarget i); retain ← read h (hspec_RetainResourcesOnCompletion i); storage ← read h (hspec_Storage i); obfuscate ← read h (hspec_Obfuscate i);
  Some (mkMustGatherSpec (hspec_ServiceAccountName i) image gather timeout target retain storage obfuscate).
Definition reach_MustGatherSpec (h : hp) (i : HMustGatherSpec) : gset loc :=
  reach h (hspec_ImageStreamRef i) ∪ reach h (hspec_GatherSpec i) ∪ reach h (hspec_MustGatherTimeout i) ∪ reach h (hspec_UploadTarget i) ∪ reach h (hspec_RetainResourcesOnCompletion i) ∪ reach h (hspec_Storage i) ∪ reach h (hspec_Obfuscate i).
Definition MustGatherSpec_DeepCopyInto (i : HMustGatherSpec) : mem cell HMustGatherSpec :=
  let! image := deep_copy (hspec_ImageStreamRef i) in
  let! gather := deep_copy (hspec_GatherSpec i) in
  let! timeout := deep_copy (hspec_MustGatherTimeout i) in
  let! target := deep_copy (hspec_UploadTarget i) in
  let! retain := deep_copy (hspec_RetainResourcesOnCompletion i) in
  let! storage := deep_copy (hspec_Storage i) in
  let! obfuscate := deep_copy (hspec_Obfuscate i) in
  mem_ret (mkHMustGatherSpec (hspec_ServiceAccountName i) image gather timeout target retain storage obfuscate).
#[export, refine] Instance MustGatherSpec_deep : Deep HMustGatherSpec MustGatherSpec :=
  {| read := read_MustGatherSpec; reach := reach_MustGatherSpec; deep_copy := MustGatherSpec_DeepCopyInto |}.
Proof.
  all: unfold read_MustGatherSpec, reach_MustGatherSpec, MustGatherSpec_DeepCopyInto.
  all: [> deep_reach_dom | deep_frame | deep_copy_struct].
Defined.

Definition read_MustGatherStatus (h : hp) (i : HMustGatherStatus) : option MustGatherStatus :=
  conditions ← read h (hmgs_Conditions i); status ← read h (hmgs_Status i); lastUpdate ← read h (hmgs_LastUpdate i); reason ← read h (hmgs_Reason i); completed ← read h (hmgs_Completed i);
  Some (mkMustGatherStatus conditions status lastUpdate reason completed).
Definition reach_MustGatherStatus (h : hp) (i : HMustGatherStatus) : gset loc :=
  reach h (hmgs_Conditions i) ∪ reach h (hmgs_Status i) ∪ reach h (hmgs_LastUpdate i) ∪ reach h (hmgs_Reason i) ∪ reach h (hmgs_Completed i).
Definition MustGatherStatus_DeepCopyInto (i : HMustGatherStatus) : mem cell HMustGatherStatus :=
  let! conditions := deep_copy (hmgs_Conditions i) in
  let! status := deep_copy (hmgs_Status i) in
  let! lastUpdate := deep_copy (hmgs_LastUpdate i) in
  let! reason := deep_copy (hmgs_Reason i) in
  let! completed := deep_copy (hmgs_Completed i) in
  mem_ret (mkHMustGatherStatus conditions status lastUpdate reason completed).
#[export, refine] Instance MustGatherStatus_deep : Deep HMustGatherStatus MustGatherStatus :=
  {| read := read_MustGatherStatus; reach := reach_MustGatherStatus; deep_copy := MustGatherStatus_DeepCopyInto |}.
Proof.
  all: unfold read_MustGatherStatus, reach_MustGatherStatus, MustGatherStatus_DeepCopyInto.
  all: [> deep_reach_dom | deep_frame | deep_copy_struct].
Defined.

Definition read_MustGather (h : hp) (i : HMustGather) : option MustGather :=
  meta ← read h (hmg_ObjectMeta i); spec ← read h (hmg_Spec i); status ← read h (hmg_Status i);
  Some (mkMustGather (hmg_TypeMeta i) meta spec status).
Definition reach_MustGather (h : hp) (i : HMustGather) : gset loc :=
  reach h (hmg_ObjectMeta i) ∪ reach h (hmg_Spec i) ∪ reach h (hmg_Status i).
Definition MustGather_DeepCopyInto (i : HMustGather) : mem cell HMustGather :=
  let! meta := deep_copy (hmg_ObjectMeta i) in
  let! spec := deep_copy (hmg_Spec i) in
  let! status := deep_copy (hmg_Status i) in
  mem_ret (mkHMustGather (hmg_TypeMeta i) meta spec status).
#[export, refine] Instance MustGather_deep : Deep HMustGather MustGather :=
  {| read := read_MustGather; reach := reach_MustGather; deep_copy := MustGather_DeepCopyInto |}.
Proof.
  all: unfold read_MustGather, reach_MustGather, MustGather_DeepCopyInto.
  all: [> deep_reach_dom | deep_frame | deep_copy_struct].
Defined.

Record MustGatherList := mkMustGatherList {
  mgl_TypeMeta : TypeMeta; mgl_ListMeta : ListMeta; mgl_Items : list MustGather;
}.

Definition read_MustGatherList (h : hp) (i : HMustGatherList) : option MustGatherList :=
  meta ← read h (hmgl_ListMeta i); items ← read h (hmgl_Items i);
  Some (mkMustGatherList (hmgl_TypeMeta i) meta items).
Definition reach_MustGatherList (h : hp) (i : HMustGatherList) : gset loc :=
  reach h (hmgl_ListMeta i) ∪ reach h (hmgl_Items i).
Definition MustGatherList_DeepCopyInto (i : HMustGatherList) : mem cell HMustGatherList :=
  let! meta := deep_copy (hmgl_ListMeta i) in
  let! items := deep_copy (hmgl_Items i) in
  mem_ret (mkHMustGatherList (hmgl_TypeMeta i) meta items).
#[export, refine] Instance MustGatherList_deep : Deep HMustGatherList MustGatherList :=
  {| read := read_MustGatherList; reach := reach_MustGatherList; deep_copy := MustGatherList_DeepCopyInto |}.
Proof.
  all: unfold read_MustGatherList, reach_MustGatherList, MustGatherList_DeepCopyInto.
  all: [> deep_reach_dom | deep_frame | deep_copy_struct].
Defined.

(** ** Copies of pointers *)

Definition ImageStreamTagRef_DeepCopy (i : ptr ImageStreamTagRef) : mem cell (ptr ImageStreamTagRef) := deep_copy i.
Definition PersistentVolumeClaimReference_DeepCopy (i : ptr PersistentVolumeClaimReference) : mem cell (ptr PersistentVolumeClaimReference) := deep_copy i.
Definition GatherSpec_DeepCopy (i : ptr HGatherSpec) : mem cell (ptr HGatherSpec) := deep_copy i.
Definition SFTPSpec_DeepCopy (i : ptr HSFTPSpec) : mem cell (ptr HSFTPSpec) := deep_copy i.
Definition UploadTargetSpec_DeepCopy (i : ptr HUploadTargetSpec) : mem cell (ptr HUploadTargetSpec) := deep_copy i.
Definition PersistentVolumeConfig_DeepCopy (i : ptr HPersistentVolumeConfig) : mem cell (ptr HPersistentVolumeConfig) := deep_copy i.
Definition Storage_DeepCopy (i : ptr HStorage) : mem cell (ptr HStorage) := deep_copy i.
Definition ObfuscateConfig_DeepCopy (i : ptr HObfuscateConfig) : mem cell (ptr HObfuscateConfig) := deep_copy i.
Definition MustGatherSpec_DeepCopy (i : ptr HMustGatherSpec) : mem cell (ptr HMustGatherSpec) := deep_copy i.
Definition MustGatherStatus_DeepCopy (i : ptr HMustGatherStatus) : mem cell (ptr HMustGatherStatus) := deep_copy i.
Definition MustGather_DeepCopy (i : ptr HMustGather) : mem cell (ptr HMustGather) := deep_copy i.
Definition MustGatherList_DeepCopy (i : ptr HMustGatherList) : mem cell (ptr HMustGatherList) := deep_copy i.

(** [runtime.Object]: an interface is nil or a struct's address.  A nil copy is
    returned as the nil interface, not as an interface that holds a nil pointer. *)
Inductive Object := ObjNil | ObjMustGather (p : ptr HMustGather) | ObjMustGatherList (p : ptr HMustGatherList).

Definition MustGather_DeepCopyObject (i : ptr HMustGather) : mem cell Object :=
  let! c := MustGather_DeepCopy i in
  match c with Some _ => mem_ret (ObjMustGather c) | None => mem_ret ObjNil end.
Definition MustGatherList_DeepCopyObject (i : ptr HMustGatherList) : mem cell Object :=
  let! c := MustGatherList_DeepCopy i in
  match c with Some _ => mem_ret (ObjMustGatherList c) | None => mem_ret ObjNil end.
