(* ===== verification/DeepCopyV1alpha1.v ===== *)
(** * Deep copies of [v1alpha1] objects, [api/v1alpha1/zz_generated.deepcopy.go]

    As in DeepCopyV1.  More of the structs of this version are plain values, which
    [*out = *in] copies. *)

From S2P Require Import Prelude GoStrings GoTime K8sTypes MustGatherV1 MustGatherV1alpha1 Heap HeapTypes.

Definition ImageStreamTagRef_v1alpha1_DeepCopyInto (i : ImageStreamTagRef_v1alpha1) : mem cell ImageStreamTagRef_v1alpha1 := mem_ret i.
Definition PersistentVolumeClaimReference_v1alpha1_DeepCopyInto (i : PersistentVolumeClaimReference_v1alpha1) : mem cell PersistentVolumeClaimReference_v1alpha1 := mem_ret i.
Definition PersistentVolumeConfig_v1alpha1_DeepCopyInto (i : PersistentVolumeConfig_v1alpha1) : mem cell PersistentVolumeConfig_v1alpha1 := mem_ret i.
Definition SFTPSpec_v1alpha1_DeepCopyInto (i : SFTPSpec_v1alpha1) : mem cell SFTPSpec_v1alpha1 := mem_ret i.
Definition Storage_v1alpha1_DeepCopyInto (i : Storage_v1alpha1) : mem cell Storage_v1alpha1 := mem_ret i.

Definition read_GatherSpec_v1alpha1 (h : hp) (i : HGatherSpec_v1alpha1) : option GatherSpec_v1alpha1 :=
  command ← read h (hags_Command i); args ← read h (hags_Args i); since ← read h (hags_Since i); sinceTime ← read h (hags_SinceTime i);
  Some (mkGatherSpecA (hags_Audit i) command args since sinceTime).
Definition reach_GatherSpec_v1alpha1 (h : hp) (i : HGatherSpec_v1alpha1) : gset loc :=
  reach h (hags_Command i) ∪ reach h (hags_Args i) ∪ reach h (hags_Since i) ∪ reach h (hags_SinceTime i).
Definition GatherSpec_v1alpha1_DeepCopyInto (i : HGatherSpec_v1alpha1) : mem cell HGatherSpec_v1alpha1 :=
  let! command := deep_copy (hags_Command i) in
  let! args := deep_copy (hags_Args i) in
  let! since := deep_copy (hags_Since i) in
  let! sinceTime := deep_copy (hags_SinceTime i) in
  mem_ret (mkHGatherSpecA (hags_Audit i) command args since sinceTime).
#[export, refine] Instance GatherSpec_v1alpha1_deep : Deep HGatherSpec_v1alpha1 GatherSpec_v1alpha1 :=
  {| read := read_GatherSpec_v1alpha1; reach := reach_GatherSpec_v1alpha1; deep_copy := GatherSpec_v1alpha1_DeepCopyInto |}.
Proof.
  all: unfold read_GatherSpec_v1alpha1, reach_GatherSpec_v1alpha1, GatherSpec_v1alpha1_DeepCopyInto.
  all: [> deep_reach_dom | deep_frame | deep_copy_struct].
Defined.

Definition read_UploadTargetSpec_v1alpha1 (h : hp) (i : HUploadTargetSpec_v1alpha1) : option UploadTargetSpec_v1alpha1 :=
  sftp ← read h (haut_SFTP i);
  Some (mkUploadTargetSpecA (haut_Type i) sftp).
Definition reach_UploadTargetSpec_v1alpha1 (h : hp) (i : HUploadTargetSpec_v1alpha1) : gset loc :=
  reach h (haut_SFTP i).
Definition UploadTargetSpec_v1alpha1_DeepCopyInto (i : HUploadTargetSpec_v1alpha1) : mem cell HUploadTargetSpec_v1alpha1 :=
  let! sftp := deep_copy (haut_SFTP i) in
  mem_ret (mkHUploadTargetSpecA (haut_Type i) sftp).
#[export, refine] Instance UploadTargetSpec_v1alpha1_deep : Deep HUploadTargetSpec_v1alpha1 UploadTargetSpec_v1alpha1 :=
  {| read := read_UploadTargetSpec_v1alpha1; reach := reach_UploadTargetSpec_v1alpha1; deep_copy := UploadTargetSpec_v1alpha1_DeepCopyInto |}.
Proof.
  all: unfold read_UploadTargetSpec_v1alpha1, reach_UploadTargetSpec_v1alpha1, UploadTargetSpec_v1alpha1_DeepCopyInto.
  all: [> deep_reach_dom | deep_frame | deep_copy_struct].
Defined.

Definition read_ObfuscateConfig_v1alpha1 (h : hp) (i : HObfuscateConfig_v1alpha1) : option ObfuscateConfig_v1alpha1 :=
  enabled ← read h (haoc_Enabled i); config ← read h (haoc_ObfuscationConfigRef i); source ← read h (haoc_Source i);
  Some (mkObfuscateConfigA enabled config source).
Definition reach_ObfuscateConfig_v1alpha1 (h : hp) (i : HObfuscateConfig_v1alpha1) : gset loc :=
  reach h (haoc_Enabled i) ∪ reach h (haoc_ObfuscationConfigRef i) ∪ reach h (haoc_Source i).
Definition ObfuscateConfig_v1alpha1_DeepCopyInto (i : HObfuscateConfig_v1alpha1) : mem cell HObfuscateConfig_v1alpha1 :=
  let! enabled := deep_copy (haoc_Enabled i) in
  let! config := deep_copy (haoc_ObfuscationConfigRef i) in
  let! source := deep_copy (haoc_Source i) in
  mem_ret (mkHObfuscateConfigA enabled config source).
#[export, refine] Instance ObfuscateConfig_v1alpha1_deep : Deep HObfuscateConfig_v1alpha1 ObfuscateConfig_v1alpha1 :=
  {| read := read_ObfuscateConfig_v1alpha1; reach := reach_ObfuscateConfig_v1alpha1; deep_copy := ObfuscateConfig_v1alpha1_DeepCopyInto |}.
Proof.
  all: unfold read_ObfuscateConfig_v1alpha1, reach_ObfuscateConfig_v1alpha1, ObfuscateConfig_v1alpha1_DeepCopyInto.
  all: [> deep_reach_dom | deep_frame | deep_copy_struct].
Defined.

Definition read_MustGatherSpec_v1alpha1 (h : hp) (i : HMustGatherSpec_v1alpha1) : option MustGatherSpec_v1alpha1 :=
  image ← read h (haspec_ImageStreamRef i); gather ← read h (haspec_GatherSpec i); timeout ← read h (haspec_MustGatherTimeout i); target ← read h (haspec_UploadTarget i); retain ← read h (haspec_RetainResourcesOnCompletion i); storage ← read h (haspec_Storage i); obfuscate ← read h (haspec_Obfuscate i);
  Some (mkMustGatherSpecA (haspec_ServiceAccountName i) image gather timeout target retain storage obfuscate).
Definition reach_MustGatherSpec_v1alpha1 (h : hp) (i : HMustGatherSpec_v1alpha1) : gset loc :=
  reach h (haspec_ImageStreamRef i) ∪ reach h (haspec_GatherSpec i) ∪ reach h (haspec_MustGatherTimeout i) ∪ reach h (haspec_UploadTarget i) ∪ reach h (haspec_RetainResourcesOnCompletion i) ∪ reach h (haspec_Storage i) ∪ reach h (haspec_Obfuscate i).
Definition MustGatherSpec_v1alpha1_DeepCopyInto (i : HMustGatherSpec_v1alpha1) : mem cell HMustGatherSpec_v1alpha1 :=
  let! image := deep_copy (haspec_ImageStreamRef i) in
  let! gather := deep_copy (haspec_GatherSpec i) in
  let! timeout := deep_copy (haspec_MustGatherTimeout i) in
  let! target := deep_copy (haspec_UploadTarget i) in
  let! retain := deep_copy (haspec_RetainResourcesOnCompletion i) in
  let! storage := deep_copy (haspec_Storage i) in
  let! obfuscate := deep_copy (haspec_Obfuscate i) in
  mem_ret (mkHMustGatherSpecA (haspec_ServiceAccountName i) image gather timeout target retain storage obfuscate).
#[export, refine] Instance MustGatherSpec_v1alpha1_deep : Deep HMustGatherSpec_v1alpha1 MustGatherSpec_v1alpha1 :=
  {| read := read_MustGatherSpec_v1alpha1; reach := reach_MustGatherSpec_v1alpha1; deep_copy := MustGatherSpec_v1alpha1_DeepCopyInto |}.
Proof.
  all: unfold read_MustGatherSpec_v1alpha1, reach_MustGatherSpec_v1alpha1, MustGatherSpec_v1alpha1_DeepCopyInto.
  all: [> deep_reach_dom | deep_frame | deep_copy_struct].
Defined.

Definition read_MustGatherStatus_v1alpha1 (h : hp) (i : HMustGatherStatus_v1alpha1) : option MustGatherStatus_v1alpha1 :=
  lastUpdate ← read h (hamgs_LastUpdate i); conditions ← read h (hamgs_Conditions i);
  Some (mkMustGatherStatusA (hamgs_Status i) lastUpdate (hamgs_Reason i) conditions (hamgs_Completed i)).
Definition reach_MustGatherStatus_v1alpha1 (h : hp) (i : HMustGatherStatus_v1alpha1) : gset loc :=
  reach h (hamgs_LastUpdate i) ∪ reach h (hamgs_Conditions i).
Definition MustGatherStatus_v1alpha1_DeepCopyInto (i : HMustGatherStatus_v1alpha1) : mem cell HMustGatherStatus_v1alpha1 :=
  let! lastUpdate := deep_copy (hamgs_LastUpdate i) in
  let! conditions := deep_copy (hamgs_Conditions i) in
  mem_ret (mkHMustGatherStatusA (hamgs_Status i) lastUpdate (hamgs_Reason i) conditions (hamgs_Completed i)).
#[export, refine] Instance MustGatherStatus_v1alpha1_deep : Deep HMustGatherStatus_v1alpha1 MustGatherStatus_v1alpha1 :=
  {| read := read_MustGatherStatus_v1alpha1; reach := reach_MustGatherStatus_v1alpha1; deep_copy := MustGatherStatus_v1alpha1_DeepCopyInto |}.
Proof.
  all: unfold read_MustGatherStatus_v1alpha1, reach_MustGatherStatus_v1alpha1, MustGatherStatus_v1alpha1_DeepCopyInto.
  all: [> deep_reach_dom | deep_frame | deep_copy_struct].
Defined.

Definition read_MustGather_v1alpha1 (h : hp) (i : HMustGather_v1alpha1) : option MustGather_v1alpha1 :=
  meta ← read h (hamg_ObjectMeta i); spec ← read h (hamg_Spec i); status ← read h (hamg_Status i);
  Some (mkMustGatherA (hamg_TypeMeta i) meta spec status).
Definition reach_MustGather_v1alpha1 (h : hp) (i : HMustGather_v1alpha1) : gset loc :=
  reach h (hamg_ObjectMeta i) ∪ reach h (hamg_Spec i) ∪ reach h (hamg_Status i).
Definition MustGather_v1alpha1_DeepCopyInto (i : HMustGather_v1alpha1) : mem cell HMustGather_v1alpha1 :=
  let! meta := deep_copy (hamg_ObjectMeta i) in
  let! spec := deep_copy (hamg_Spec i) in
  let! status := deep_copy (hamg_Status i) in
  mem_ret (mkHMustGatherA (hamg_TypeMeta i) meta spec status).
#[export, refine] Instance MustGather_v1alpha1_deep : Deep HMustGather_v1alpha1 MustGather_v1alpha1 :=
  {| read := read_MustGather_v1alpha1; reach := reach_MustGather_v1alpha1; deep_copy := MustGather_v1alpha1_DeepCopyInto |}.
Proof.
  all: unfold read_MustGather_v1alpha1, reach_MustGather_v1alpha1, MustGather_v1alpha1_DeepCopyInto.
  all: [> deep_reach_dom | deep_frame | deep_copy_struct].
Defined.

Record MustGatherList_v1alpha1 := mkMustGatherListA {
  amgl_TypeMeta : TypeMeta; amgl_ListMeta : ListMeta; amgl_Items : list MustGather_v1alpha1;
}.

Definition read_MustGatherList_v1alpha1 (h : hp) (i : HMustGatherList_v1alpha1) : option MustGatherList_v1alpha1 :=
  meta ← read h (hamgl_ListMeta i); items ← read h (hamgl_Items i);
  Some (mkMustGatherListA (hamgl_TypeMeta i) meta items).
Definition reach_MustGatherList_v1alpha1 (h : hp) (i : HMustGatherList_v1alpha1) : gset loc :=
  reach h (hamgl_ListMeta i) ∪ reach h (hamgl_Items i).
Definition MustGatherList_v1alpha1_DeepCopyInto (i : HMustGatherList_v1alpha1) : mem cell HMustGatherList_v1alpha1 :=
  let! meta := deep_copy (hamgl_ListMeta i) in
  let! items := deep_copy (hamgl_Items i) in
  mem_ret (mkHMustGatherListA (hamgl_TypeMeta i) meta items).
#[export, refine] Instance MustGatherList_v1alpha1_deep : Deep HMustGatherList_v1alpha1 MustGatherList_v1alpha1 :=
  {| read := read_MustGatherList_v1alpha1; reach := reach_MustGatherList_v1alpha1; deep_copy := MustGatherList_v1alpha1_DeepCopyInto |}.
Proof.
  all: unfold read_MustGatherList_v1alpha1, reach_MustGatherList_v1alpha1, MustGatherList_v1alpha1_DeepCopyInto.
  all: [> deep_reach_dom | deep_frame | deep_copy_struct].
Defined.

(** ** Copies of pointers *)

Definition ImageStreamTagRef_v1alpha1_DeepCopy (i : ptr ImageStreamTagRef_v1alpha1) : mem cell (ptr ImageStreamTagRef_v1alpha1) := deep_copy i.
Definition PersistentVolumeClaimReference_v1alpha1_DeepCopy (i : ptr PersistentVolumeClaimReference_v1alpha1) : mem cell (ptr PersistentVolumeClaimReference_v1alpha1) := deep_copy i.
Definition PersistentVolumeConfig_v1alpha1_DeepCopy (i : ptr PersistentVolumeConfig_v1alpha1) : mem cell (ptr PersistentVolumeConfig_v1alpha1) := deep_copy i.
Definition SFTPSpec_v1alpha1_DeepCopy (i : ptr SFTPSpec_v1alpha1) : mem cell (ptr SFTPSpec_v1alpha1) := deep_copy i.
Definition Storage_v1alpha1_DeepCopy (i : ptr Storage_v1alpha1) : mem cell (ptr Storage_v1alpha1) := deep_copy i.
Definition GatherSpec_v1alpha1_DeepCopy (i : ptr HGatherSpec_v1alpha1) : mem cell (ptr HGatherSpec_v1alpha1) := deep_copy i.
Definition UploadTargetSpec_v1alpha1_DeepCopy (i : ptr HUploadTargetSpec_v1alpha1) : mem cell (ptr HUploadTargetSpec_v1alpha1) := deep_copy i.
Definition ObfuscateConfig_v1alpha1_DeepCopy (i : ptr HObfuscateConfig_v1alpha1) : mem cell (ptr HObfuscateConfig_v1alpha1) := deep_copy i.
Definition MustGatherSpec_v1alpha1_DeepCopy (i : ptr HMustGatherSpec_v1alpha1) : mem cell (ptr HMustGatherSpec_v1alpha1) := deep_copy i.
Definition MustGatherStatus_v1alpha1_DeepCopy (i : ptr HMustGatherStatus_v1alpha1) : mem cell (ptr HMustGatherStatus_v1alpha1) := deep_copy i.
Definition MustGather_v1alpha1_DeepCopy (i : ptr HMustGather_v1alpha1) : mem cell (ptr HMustGather_v1alpha1) := deep_copy i.
Definition MustGatherList_v1alpha1_DeepCopy (i : ptr HMustGatherList_v1alpha1) : mem cell (ptr HMustGatherList_v1alpha1) := deep_copy i.

Inductive Object_v1alpha1 :=
| ObjNilA | ObjMustGatherA (p : ptr HMustGather_v1alpha1) | ObjMustGatherListA (p : ptr HMustGatherList_v1alpha1).

Definition MustGather_v1alpha1_DeepCopyObject (i : ptr HMustGather_v1alpha1) : mem cell Object_v1alpha1 :=
  let! c := MustGather_v1alpha1_DeepCopy i in
  match c with Some _ => mem_ret (ObjMustGatherA c) | None => mem_ret ObjNilA end.
Definition MustGatherList_v1alpha1_DeepCopyObject (i : ptr HMustGatherList_v1alpha1) : mem cell Object_v1alpha1 :=
  let! c := MustGatherList_v1alpha1_DeepCopy i in
  match c with Some _ => mem_ret (ObjMustGatherListA c) | None => mem_ret ObjNilA end.
