(* ===== verification/DeepCopyFacts.v ===== *)
(** * Copies are apart

    What [DeepCopyObject] promises to those that call it: the client's cache hands
    out copies of the objects it holds, and the reconciler then writes to its
    [instance].  The writes must not show in the cache, nor the cache's in the
    instance. *)

From S2P Require Import Prelude GoStrings GoTime K8sTypes MustGatherV1 MustGatherV1alpha1 Heap HeapTypes.
From S2P Require Import DeepCopyV1 DeepCopyV1alpha1.

(** The heaps [h] and [h'] differ at most in the locations [s]. *)
Definition differ_at (s : gset loc) (h h' : hp) : Prop := forall l, l ∉ s -> h' !! l = h !! l.

(** The contract of a copy with results in [O], where [obj] makes a result of an
    address and [nil] is that of the nil pointer. *)
Definition copies_apart {X A O} `{Cell cell X} `{Deep cell X A}
    (copy : ptr X -> mem cell O) (obj : ptr X -> O) (nil : O) : Prop :=
  (forall h, copy None h = Some (nil, h)) /\
  (forall (h : hp) (l : loc) (a : A), read h (Some l : ptr X) = Some (Some a) ->
   exists (l' : loc) (h' : hp),
     copy (Some l) h = Some (obj (Some l'), h') /\
     h ⊆ h' /\
     read h' (Some l' : ptr X) = Some (Some a) /\
     reach h' (Some l' : ptr X) ## dom h /\
     (forall h'', differ_at (reach h' (Some l' : ptr X)) h' h'' -> read h'' (Some l : ptr X) = Some (Some a)) /\
     (forall h'', differ_at (dom h) h' h'' -> read h'' (Some l' : ptr X) = Some (Some a))).

(** A copy in new locations is apart from everything there was. *)
Lemma deep_copy_apart {X A O} `{Cell cell X} `{Deep cell X A} (copy : ptr X -> mem cell O) obj nil :
  (forall p h, copy p h = match deep_copy p h with
                          | Some (Some l, h') => Some (obj (Some l), h')
                          | Some (None, h') => Some (nil, h')
                          | None => None
                          end) ->
  copies_apart copy obj nil.
Proof.
  intros Hcopy. split; [intros h; by rewrite Hcopy|]. intros h l a Hr.
  destruct (copy_spec h (Some l : ptr X) (Some a) Hr) as (p' & h' & Hc & Hh & Hr' & Hd).
  destruct p' as [l'|]; [|done]. exists l', h'. rewrite Hcopy, Hc. split_and!; [done..| |].
  - intros h'' Hs. destruct (read_mono _ _ _ _ Hh Hr) as [Hl Hreach].
    refine (proj1 (read_frame h' h'' _ _ Hl _)). intros k Hk. apply Hs.
    rewrite Hreach in Hk. pose proof (reach_dom _ _ _ Hr k Hk). set_solver.
  - intros h'' Hs. refine (proj1 (read_frame h' h'' _ _ Hr' _)). intros k Hk. apply Hs. set_solver.
Qed.

(** C39: An object that [DeepCopyObject] copies, in either version and of either
    kind ([MustGather] and [MustGatherList]), is left as it was, with everything in
    the heap; the copy never fails on an object whose pointers are good, has the
    same value, lies in new locations alone, and no write to the original changes it;
    no write to the copy changes the original.  The copy of the nil pointer is the
    nil interface. *)
Theorem copies_are_apart :
  copies_apart MustGather_DeepCopyObject ObjMustGather ObjNil /\
  copies_apart MustGatherList_DeepCopyObject ObjMustGatherList ObjNil /\
  copies_apart MustGather_v1alpha1_DeepCopyObject ObjMustGatherA ObjNilA /\
  copies_apart MustGatherList_v1alpha1_DeepCopyObject ObjMustGatherListA ObjNilA.
Proof.
  split_and!; apply deep_copy_apart; intros p h;
    unfold MustGather_DeepCopyObject, MustGatherList_DeepCopyObject, MustGather_v1alpha1_DeepCopyObject,
      MustGatherList_v1alpha1_DeepCopyObject, mem_bind, MustGather_DeepCopy, MustGatherList_DeepCopy,
      MustGather_v1alpha1_DeepCopy, MustGatherList_v1alpha1_DeepCopy;
    by destruct (deep_copy p h) as [[[l|] h']|].
Qed.

(** ** An object that shares *)

(** Both slices of the gather have one backing array. *)
Definition shared_heap : hp :=
  list_to_map [
    (1%positive, CMustGather (mkHMustGather (mkTypeMeta "MustGather" "operator.openshift.io/v1")
       (mkHMeta "gather" "ns" "uid" "7" 1 None (Some 2%positive) None (Some 3%positive))
       (mkHMustGatherSpec "sa" None (Some 4%positive) (Some 6%positive) None None None None)
       (Some 7%positive)));
    (2%positive, CLabels {[ "app" := "mgo" ]});
    (3%positive, CStrings ["finalizer"]);
    (4%positive, CGather (mkHGatherSpec None (Some 5%positive) (Some 5%positive) None None));
    (5%positive, CStrings ["gather"]);
    (6%positive, CDuration 60%Z);
    (7%positive, CStatus (mkHMustGatherStatus None None None None None))].

Definition shared_gather : MustGather :=
  mkMustGather (mkTypeMeta "MustGather" "operator.openshift.io/v1")
    (mkMeta "gather" "ns" "uid" "7" 1 None {[ "app" := "mgo" ]} [] ["finalizer"])
    (mkMustGatherSpec "sa" None (Some (mkGatherSpec None ["gather"] ["gather"] None None)) (Some 60%Z) None None None None)
    (Some (mkMustGatherStatus [] None None None None)).

Example shared_heap_reads : read shared_heap (Some 1%positive : ptr HMustGather) = Some (Some shared_gather).
Proof. vm_compute. reflexivity. Qed.

Lemma copies_are_apart_witness :
  read shared_heap (Some 1%positive : ptr HMustGather) = Some (Some shared_gather) /\
  exists l' h', MustGather_DeepCopyObject (Some 1%positive) shared_heap = Some (ObjMustGather (Some l'), h') /\
    read h' (Some l' : ptr HMustGather) = Some (Some shared_gather) /\
    read (delete 5%positive h') (Some l' : ptr HMustGather) = Some (Some shared_gather).
Proof.
  split; [vm_compute; reflexivity|].
  destruct (proj2 (proj1 copies_are_apart) shared_heap 1%positive shared_gather) as (l' & h' & Hc & _ & Hr & _ & _ & Hw);
    [vm_compute; reflexivity|].
  exists l', h'. split; [exact Hc|]. split; [exact Hr|]. apply Hw. intros k Hk. apply lookup_delete_ne.
  intros <-. apply Hk, elem_of_dom. vm_compute. eauto.
Defined.
