(* ===== verification/Effort.v ===== *)
(** * How much one reconcile does

    [Reconcile] has loops (over the pods of a Job, over the attempts to connect, over
    owners, tags and variables), and it is called for every change: it must end,
    and its load on the API server must be bounded.  A price per kind of request
    and a budget: every request is paid from the budget, and a list of pods pays in
    advance for the deletion of each.  One budget for all prices bounds every kind
    of request at once. *)

From S2P Require Import Prelude GoStrings GoErrors GoTime K8sTypes MustGatherV1 Effects KubeEffects.
From S2P Require Import Conditions OperatorUtils Template MustGatherUtil TrustedCA Cleanup SftpValidation Reconcile.
From S2P Require Import MemCluster Demo.

(** ** Kinds of request *)

Inductive Request :=
| QGet | QList | QCreate | QUpdate | QStatus | QDelete | QDeletePod
| QEvent | QMetric | QEnv | QClock | QRandom | QDial.

#[export] Instance Request_eq_dec : EqDecision Request.
Proof. solve_decision. Defined.

Definition request_of {R} (e : KubeE R) : Request :=
  match e with
  | Get _ _ => QGet
  | ListPods _ _ => QList
  | Create _ _ => QCreate
  | Update _ _ => QUpdate
  | StatusUpdate _ => QStatus
  | Delete KPod _ => QDeletePod
  | Delete _ _ => QDelete
  | RecordEvent _ _ _ _ => QEvent
  | MetricInc _ => QMetric
  | LookupEnv _ => QEnv
  | TimeNow => QClock
  | RandInt63 => QRandom
  | SftpDial _ _ _ => QDial
  end.

(** The pods an answer lists. *)
Definition pods_in {R} (e : KubeE R) : R -> nat :=
  match e in KubeE R return R -> nat with
  | ListPods _ _ => fun x => match x with inr l => length l | inl _ => 0 end
  | _ => fun _ => 0
  end.

Fixpoint pods_listed (tr : trace KubeE) : nat :=
  match tr with [] => 0 | ev :: tr => pods_in (ev_eff ev) (ev_resp ev) + pods_listed tr end.

Fixpoint requests (q : Request) (tr : trace KubeE) : nat :=
  match tr with
  | [] => 0
  | ev :: tr => (if decide (request_of (ev_eff ev) = q) then 1 else 0) + requests q tr
  end.

(** ** Prices and budgets *)

Section budget.
  Variable price : Request -> nat.

Fixpoint total (tr : trace KubeE) : nat :=
  match tr with [] => 0 | ev :: tr => price (request_of (ev_eff ev)) + total tr end.

(** The budget [n] is enough for the program. *)
Fixpoint costs {A} (n : nat) (p : kprog A) : Prop :=
  match p with
  | Ret _ => True
  | Vis e k => price (request_of e) <= n /\
               forall x, costs (n - price (request_of e) + price QDeletePod * pods_in e x) (k x)
  end.

Lemma costs_mono {A} n n' (p : kprog A) : costs n p -> n <= n' -> costs n' p.
Proof.
  revert n n'. induction p as [a|R e k IH]; intros n n'; cbn; [done|]. intros [He Hk] Hn. split; [lia|].
  intros x. eapply IH; [apply Hk|]. lia.
Qed.

Lemma costs_bind {A B} n1 n (p : kprog A) (f : A -> kprog B) :
  costs n1 p -> (forall a, costs (n - n1) (f a)) -> n1 <= n -> costs n (prog_bind p f).
Proof.
  intros Hp Hf Hn. revert n1 n Hp Hf Hn. induction p as [a|R e k IH]; intros n1 n Hp Hf Hn; cbn in *.
  { eapply costs_mono; [apply Hf|]. lia. }
  destruct Hp as [He Hk]. split; [lia|]. intros x. eapply IH; [apply Hk| |lia].
  intros a. eapply costs_mono; [apply Hf|]. lia.
Qed.

Lemma costs_call {R B} n (e : KubeE R) (f : R -> kprog B) :
  price (request_of e) <= n ->
  (forall x, costs (n - price (request_of e) + price QDeletePod * pods_in e x) (f x)) ->
  costs n (prog_bind (call e) f).
Proof. done. Qed.

Lemma costs_assoc {A B D} n (p : kprog A) (f : A -> kprog B) (g : B -> kprog D) :
  costs n (prog_bind p (fun a => prog_bind (f a) g)) -> costs n (prog_bind (prog_bind p f) g).
Proof.
  revert n. induction p as [a|R e k IH]; intros n; cbn; [done|]. intros [He Hk]. split; [done|]. auto.
Qed.

Lemma costs_for_each {A X} n (f : A -> kprog (option X)) l :
  (forall a, costs n (f a)) -> costs (length l * n) (for_each f l).
Proof.
  intros Hf. induction l as [|a l IH]; cbn; [done|]. eapply costs_bind; [apply Hf| |lia].
  intros [x|]; [done|]. eapply costs_mono; [exact IH|]. lia.
Qed.

(** Soundness: what an execution costs. *)
Lemma costs_exec {A} n (p : kprog A) tr a :
  costs n p -> exec p tr a -> total tr <= n + price QDeletePod * pods_listed tr.
Proof.
  intros Hc He. revert n Hc. induction He as [a|R e x k tr a _ IH]; intros n; cbn; [lia|].
  intros [Hp Hk]. specialize (IH _ (Hk x)). lia.
Qed.

(** ** The operations *)

Create HintDb cost.

Ltac cost_step :=
  lazymatch goal with
  | |- costs _ (Ret _) => exact I
  | |- costs _ (prog_bind (call _) _) => apply costs_call; [cbn [request_of]; lia|intros ?; cbn [request_of pods_in]]
  | |- costs _ (prog_bind (Ret _) _) => cbn [prog_bind]
  | |- costs _ (prog_bind (prog_bind _ _) _) => apply costs_assoc
  | |- costs _ (prog_bind (match ?x with _ => _ end) _) => destruct x
  | |- costs _ (prog_bind _ _) => eapply costs_bind; [solve [eauto 2 with cost]|intros ?|lia]
  | |- costs _ (match ?x with _ => _ end) => destruct x
  | |- costs _ (let _ := _ in _) => cbv zeta
  | |- costs _ _ => eapply costs_mono; [solve [eauto 2 with cost]|lia]
  end.
Ltac cost_go := repeat (cost_step; cbn beta iota).

Context `{UnicodeTables}.
Variable r : MustGatherReconciler.

Lemma ManageError_costs m e : costs (price QEvent + price QClock + price QStatus) (ManageError m e).
Proof. unfold ManageError, ManageErrorWithRequeue. cost_go. Qed.
#[local] Hint Resolve ManageError_costs : cost.

Lemma ManageSuccess_costs m : costs (price QClock + price QStatus) (ManageSuccess m).
Proof. unfold ManageSuccess, ManageSuccessWithRequeue. cost_go. Qed.
#[local] Hint Resolve ManageSuccess_costs : cost.

Lemma ensure_costs m : costs (price QGet + price QGet + price QCreate + price QUpdate) (ensureTrustedCAConfigMap r m).
Proof. unfold ensureTrustedCAConfigMap. cost_go. Qed.
#[local] Hint Resolve ensure_costs : cost.

Lemma release_costs m : costs (price QGet + price QDelete + price QUpdate) (cleanupTrustedCAConfigMap r m).
Proof. unfold cleanupTrustedCAConfigMap. cost_go. Qed.
#[local] Hint Resolve release_costs : cost.

Lemma DeletePods_costs (pods : list Pod) : costs (length pods * price QDeletePod) (DeleteResourcesIfExist (k:=KPod) pods).
Proof. apply costs_for_each. intros pod. unfold DeleteResourceIfExists. cost_go. Qed.
#[local] Hint Resolve DeletePods_costs : cost.

Lemma cleanup_costs m :
  costs (2 * price QGet + price QList + 2 * price QDelete + price QUpdate) (cleanupMustGatherResources r m).
Proof. unfold cleanupMustGatherResources. cost_go. Qed.
#[local] Hint Resolve cleanup_costs : cost.

Lemma validation_costs m t e :
  costs (3 * price QClock + 2 * price QEvent + 2 * price QStatus) (setValidationFailureStatus m t e).
Proof. unfold setValidationFailureStatus. cost_go. Qed.
#[local] Hint Resolve validation_costs : cost.

Lemma handleJobCompletion_costs m s t :
  costs (2 * price QStatus + price QEvent + price QClock + 2 * price QGet + price QList + 2 * price QDelete
         + price QUpdate) (handleJobCompletion r m s t).
Proof. unfold handleJobCompletion. cost_go. Qed.
#[local] Hint Resolve handleJobCompletion_costs : cost.

Lemma reconcileJob_costs m job :
  costs (price QMetric + 2 * price QStatus + price QEvent + price QClock + 2 * price QGet + price QList
         + 2 * price QDelete + price QUpdate) (reconcileJob r m job).
Proof. unfold reconcileJob, updateStatus. cost_go. Qed.
#[local] Hint Resolve reconcileJob_costs : cost.

Lemma reconcileDeletion_costs m :
  costs (2 * price QGet + price QList + 2 * price QDelete + 2 * price QUpdate + price QEvent + price QClock
         + price QStatus) (reconcileDeletion r m).
Proof. unfold reconcileDeletion. cost_go. Qed.
#[local] Hint Resolve reconcileDeletion_costs : cost.

Lemma prepare_costs m : costs (3 * price QGet + price QCreate + price QUpdate) (prepare r m).
Proof. unfold prepare. cost_go. Qed.
#[local] Hint Resolve prepare_costs : cost.

Lemma readProxyVars_costs names : costs (length names * price QEnv) (readProxyVars names).
Proof.
  induction names as [|s names IH]; cbn [readProxyVars length]; [done|]. cost_step; cbn beta iota.
  eapply costs_bind; [exact IH|by intros|lia].
Qed.

Lemma getJobTemplate_costs image op m ca dir : costs (3 * price QEnv) (getJobTemplate image op m ca dir).
Proof. unfold getJobTemplate. eapply costs_bind; [apply readProxyVars_costs|by intros|cbn; lia]. Qed.
#[local] Hint Resolve getJobTemplate_costs : cost.

Lemma directoryName_costs now : costs (price QGet + price QRandom) (GenerateMustGatherDirectoryName now).
Proof. unfold GenerateMustGatherDirectoryName, getClusterIDSuffix, generateRandomSuffix. cbn. split; [lia|]. intros x. split; [lia|done]. Qed.
#[local] Hint Resolve directoryName_costs : cost.

Lemma getMustGatherImage_costs m : costs (price QGet) (getMustGatherImage r m).
Proof. unfold getMustGatherImage. cost_go. Qed.
#[local] Hint Resolve getMustGatherImage_costs : cost.

Lemma getJobFromInstance_costs m :
  costs (2 * price QGet + 4 * price QEnv + price QClock + price QRandom) (getJobFromInstance r m).
Proof. unfold getJobFromInstance. cost_go. Qed.
#[local] Hint Resolve getJobFromInstance_costs : cost.

Lemma retry_costs n u p h e : costs (n * price QDial) (retry_loop n u p h e).
Proof.
  revert e. induction n as [|n IH]; intros e; cbn [retry_loop]; [done|]. unfold validateSFTPCredentials.
  cost_step; cbn beta iota. destruct x as [err|]; [|done]. destruct (negb _); [done|]. eapply costs_mono; [apply IH|lia].
Qed.

Lemma validateSFTPWithRetry_costs u p h : costs (3 * price QDial) (validateSFTPWithRetry u p h).
Proof. apply retry_costs. Qed.
#[local] Hint Resolve validateSFTPWithRetry_costs : cost.

Lemma CreateResourceIfNotExists_costs m ns job : costs (price QCreate) (CreateResourceIfNotExists m ns job).
Proof. unfold CreateResourceIfNotExists. cost_go. Qed.
#[local] Hint Resolve CreateResourceIfNotExists_costs : cost.

Lemma checkSecretAndSFTP_costs m :
  costs (price QGet + 3 * price QDial + 3 * price QClock + 2 * price QEvent + 2 * price QStatus) (checkSecretAndSFTP m).
Proof. unfold checkSecretAndSFTP. cost_go. Qed.

(** A failed check of the secret ends the reconcile: its cost is not paid on top
    of the rest. *)
Lemma reconcileCreate_costs m :
  costs (4 * price QGet + 4 * price QEnv + 4 * price QClock + price QRandom + 3 * price QDial + 2 * price QEvent
         + 2 * price QStatus + price QCreate + price QMetric) (reconcileCreate r m).
Proof. unfold reconcileCreate, checkSecretAndSFTP. cost_go. Qed.
#[local] Hint Resolve reconcileCreate_costs : cost.

Lemma reconcileActive_costs m :
  costs (8 * price QGet + 2 * price QCreate + 2 * price QUpdate + 2 * price QDelete + price QList + 2 * price QStatus
         + 2 * price QEvent + 4 * price QClock + 4 * price QEnv + price QRandom + 3 * price QDial + price QMetric)
    (reconcileActive r m).
Proof. unfold reconcileActive. cost_go. Qed.
#[local] Hint Resolve reconcileActive_costs : cost.

Lemma Reconcile_costs req :
  costs (9 * price QGet + 2 * price QCreate + 2 * price QUpdate + 2 * price QDelete + price QList + 2 * price QStatus
         + 2 * price QEvent + 4 * price QClock + 4 * price QEnv + price QRandom + 3 * price QDial + price QMetric)
    (Reconcile r req).
Proof. unfold Reconcile, addFinalizer. cost_go. Qed.
End budget.

(** ** The bounds *)

(** The most one call makes of each kind, where [n] pods were listed. *)
Definition allowance (n : nat) (q : Request) : nat :=
  match q with
  | QGet => 9
  | QList => 1
  | QCreate => 2
  | QUpdate => 2
  | QStatus => 2
  | QDelete => 2
  | QDeletePod => n
  | QEvent => 2
  | QMetric => 1
  | QEnv => 4
  | QClock => 4
  | QRandom => 1
  | QDial => 3
  end.

Lemma total_requests q tr : total (fun q' => if decide (q' = q) then 1 else 0) tr = requests q tr.
Proof. induction tr as [|ev tr IH]; cbn; [done|]. by rewrite IH. Qed.

Lemma total_length tr : total (fun _ => 1) tr = length tr.
Proof. induction tr as [|ev tr IH]; cbn; [done|]. by rewrite IH. Qed.

Lemma Reconcile_within_allowance `{UnicodeTables} r req tr o :
  exec (Reconcile r req) tr o ->
  (forall q, requests q tr <= allowance (pods_listed tr) q) /\ length tr <= 33 + pods_listed tr.
Proof.
  intros He. split.
  - intros q. rewrite <-total_requests.
    pose proof (costs_exec (fun q' => if decide (q' = q) then 1 else 0) _ _ _ _ (Reconcile_costs _ r req) He) as Hb.
    cbn beta in Hb.
    destruct q; repeat (case_decide; try done); cbn [allowance]; lia.
  - rewrite <-total_length. pose proof (costs_exec (fun _ => 1) _ _ _ _ (Reconcile_costs _ r req) He) as Hb. cbn in Hb. lia.
Qed.

(** C40: Every call of [Reconcile] ends, whatever the environment answers: against any
    environment (a state and a function from requests to answers) the call runs to
    an outcome, and makes at most 33 requests and one more per pod listed.  Of
    these at most nine are reads of an object, two create, two update and two delete
    one, two write the status, two record an event, four read the clock, four the
    process environment, and three are trial connections; one listing of pods is
    made, and no more pods are deleted than it had. *)
Theorem reconcile_terminates `{UnicodeTables} r req {S : Type} (env : handler KubeE S) (s : S) :
  let tr := run_trace env (Reconcile r req) s in
  exec (Reconcile r req) tr (run env (Reconcile r req) s).1 /\
  (forall q, requests q tr <= allowance (pods_listed tr) q) /\
  length tr <= 33 + pods_listed tr.
Proof.
  intros tr. pose proof (run_exec env (Reconcile r req) s) as He. split; [exact He|].
  exact (Reconcile_within_allowance r req _ _ He).
Qed.

(** The start of a gather whose first trial connection timed out. *)
#[local] Existing Instance ascii_tables.
Example effort_of_a_start :
  let tr := run_trace mem_handle (Reconcile demo_reconciler demo_key) demo_start in
  length tr = 20 /\ requests QDial tr = 2 /\ requests QCreate tr = 2 /\ pods_listed tr = 0.
Proof. vm_compute. done. Qed.
