(* ===== verification/Metrics.v ===== *)
(** * The counters, [pkg/localmetrics]

    What one [Reconcile] adds to the two Prometheus counters, as a function of what
    the cluster answered it. *)

From S2P Require Import Prelude GoStrings GoErrors GoTime K8sTypes MustGatherV1 Effects KubeEffects.
From S2P Require Import ApiServer MemCluster Conditions OperatorUtils Template MustGatherUtil TrustedCA.
From S2P Require Import Cleanup SftpValidation Reconcile Requests Demo ReconcileSafety JobPhases Effort.

(** ** Specification *)

(** The increments of a counter. *)
Definition inc_of (m : Metric) {R} (e : KubeE R) : nat :=
  match e with MetricInc m' => if decide (m' = m) then 1 else 0 | _ => 0 end.

Fixpoint increments (m : Metric) (tr : trace KubeE) : nat :=
  match tr with [] => 0 | ev :: tr => inc_of m (ev_eff ev) + increments m tr end.

(** The creations of a Job after which one is there: those answered with success,
    and those answered that it was there already. *)
Definition job_there (ev : event KubeE) : nat :=
  match ev with
  | Ev e x =>
      match e in KubeE R return R -> nat with
      | Create KJob _ => fun err => match err with
                                    | None => 1
                                    | Some err => if IsAlreadyExists err then 1 else 0
                                    end
      | _ => fun _ => 0
      end x
  end.

Fixpoint jobs_there (tr : trace KubeE) : nat :=
  match tr with [] => 0 | ev :: tr => job_there ev + jobs_there tr end.

(** What the first request for the instance, and for its Job, were answered. *)
Definition instance_read (tr : trace KubeE) : option (goerror + MustGather) :=
  match tr with Ev (Get KMustGather _) x :: _ => Some x | _ => None end.

Definition job_answer (ev : event KubeE) : option (goerror + Job) :=
  match ev with
  | Ev e x => match e in KubeE R return R -> option (goerror + Job) with
              | Get KJob _ => fun x => Some x
              | _ => fun _ => None
              end x
  end.

Fixpoint job_read (tr : trace KubeE) : option (goerror + Job) :=
  match tr with
  | [] => None
  | ev :: tr => match job_answer ev with Some x => Some x | None => job_read tr end
  end.

(** A live instance whose Job has failed. *)
Definition failures_seen (tr : trace KubeE) : nat :=
  match instance_read tr, job_read tr with
  | Some (inr m), Some (inr job) =>
      if negb (has (om_DeletionTimestamp (mg_ObjectMeta m))) then
        match job_phase job with Failed => 1 | _ => 0 end
      else 0
  | _, _ => 0
  end.

(** ** Traces in parts *)

Lemma increments_app m tr tr' : increments m (tr ++ tr') = increments m tr + increments m tr'.
Proof. induction tr as [|ev tr IH]; cbn; [done|]. rewrite IH. lia. Qed.

Lemma jobs_there_app tr tr' : jobs_there (tr ++ tr') = jobs_there tr + jobs_there tr'.
Proof. induction tr as [|ev tr IH]; cbn; [done|]. rewrite IH. lia. Qed.

Lemma job_read_app tr tr' : job_read tr = None -> job_read (tr ++ tr') = job_read tr'.
Proof. induction tr as [|ev tr IH]; cbn; [done|]. destruct (job_answer ev); [done|auto]. Qed.

Lemma increments_requests tr :
  increments MetricMustGatherTotal tr + increments MetricMustGatherErrors tr = requests QMetric tr.
Proof.
  induction tr as [|[R e x] tr IH]; cbn; [done|]. rewrite <-IH.
  destruct e as [| | | | |[]| |[]| | | |]; cbn; repeat (case_decide; try done); lia.
Qed.

(** A trace that neither counts nor creates a Job. *)
Definition silent (tr : trace KubeE) : Prop := (forall m, increments m tr = 0) /\ jobs_there tr = 0.

Definition neither (R : Type) (e : KubeE R) : Prop :=
  match e with Create KJob _ | MetricInc _ => False | _ => True end.

Lemma silent_exec {A} (p : kprog A) tr a : everywhere neither p -> exec p tr a -> silent tr.
Proof.
  intros Hp He. assert (Forall (fun ev => neither _ (ev_eff ev)) tr) as Hn by by eapply everywhere_exec.
  clear He. induction Hn as [|[R e x] tr He _ [IHi IHj]]; [done|].
  split; [intros m; specialize (IHi m)|]; by destruct e as [| |[]| | | | | | | | |].
Qed.

(** For the parts that count nothing. *)
Ltac silence := eapply silent_exec; [|eassumption]; by_requests.

(** ** Requests for a Job *)

Definition not_get_job (R : Type) (e : KubeE R) : Prop :=
  match e with Get KJob _ => False | _ => True end.

Lemma job_read_none tr : Forall (fun ev => not_get_job _ (ev_eff ev)) tr -> job_read tr = None.
Proof. induction 1 as [|[R e x] tr He _ IH]; cbn; [done|]. by destruct e as [[]| | | | | | | | | | |]. Qed.

Section reconcile.
  Context `{UnicodeTables}.
  Variable r : MustGatherReconciler.

(** ** The parts that count *)

(** What a trace should have counted. *)
Definition counted (started failed : nat) (tr : trace KubeE) : Prop :=
  increments MetricMustGatherTotal tr = started /\ increments MetricMustGatherErrors tr = failed.

Lemma silent_counted tr : silent tr -> counted (jobs_there tr) 0 tr.
Proof. intros Hs. split; rewrite (proj1 Hs); [by rewrite (proj2 Hs)|done]. Qed.

Lemma counted_after tr tr' s f :
  silent tr -> counted s f tr' -> counted (jobs_there tr + s) f (tr ++ tr').
Proof.
  intros Hs [Ht He]. split; rewrite increments_app, (proj1 Hs); [rewrite (proj2 Hs)|]; lia.
Qed.

Lemma reconcileCreate_counted m tr o :
  exec (reconcileCreate r m) tr o -> counted (jobs_there tr) 0 tr.
Proof.
  intros He. unfold reconcileCreate in He. apply exec_bind_inv in He as (t1 & t2 & res & -> & H1 & He).
  rewrite jobs_there_app. apply counted_after; [silence|].
  destruct res as [err|job].
  { apply silent_counted. destruct (errors_Is _ _); silence. }
  apply exec_inv in He as ([e|sa] & t3 & -> & He); cbn [prog_bind] in He.
  { change (counted (jobs_there t3) 0 t3). apply silent_counted.
    destruct (IsNotFound e); [silence|]. by apply exec_inv in He as [-> _]. }
  change (counted (jobs_there t3) 0 t3).
  apply exec_bind_inv in He as (t4 & t5 & early & -> & H4 & He). rewrite jobs_there_app.
  apply counted_after; [silence|]. destruct early as [out|].
  { by apply exec_inv in He as [-> _]. }
  apply exec_inv in He as (x & t6 & -> & He); cbn [prog_bind] in He.
  destruct x as [e|]; [destruct (IsAlreadyExists e) eqn:Hae|]; cbn [prog_bind] in He.
  2: { assert (silent t6) as Hs by silence. pose proof (silent_counted _ Hs) as [Ht Hf].
       split; cbn; rewrite ?Hae; [exact Ht|exact Hf]. }
  all: apply exec_inv in He as ([] & t7 & -> & He); cbn [prog_bind] in He; assert (silent t7) as Hs by silence;
    pose proof (silent_counted _ Hs) as [Ht Hf]; split; cbn; rewrite ?Hae;
    [change (S (increments MetricMustGatherTotal t7) = S (jobs_there t7)); by rewrite Ht|exact Hf].
Qed.

Lemma reconcileJob_counted m job tr o :
  exec (reconcileJob r m job) tr o -> counted (jobs_there tr) (match job_phase job with Failed => 1 | _ => 0 end) tr.
Proof.
  intros He. unfold reconcileJob, updateStatus in He. unfold job_phase.
  destruct (0 <? js_Active _)%Z; [by apply silent_counted; silence|].
  destruct (0 <? js_Succeeded _)%Z; [by apply silent_counted; silence|].
  destruct (_ <? js_Failed _)%Z; [|by apply silent_counted; silence].
  apply exec_inv in He as ([] & t1 & -> & He); cbn [prog_bind] in He. assert (silent t1) as Hs by silence.
  pose proof (silent_counted _ Hs) as [Ht Hf]. split; cbn; [exact Ht|]. by rewrite Hf.
Qed.

(** ** The handler *)

Lemma job_read_of {A} (p : kprog A) tr a : everywhere not_get_job p -> exec p tr a -> job_read tr = None.
Proof. intros Hp He. apply job_read_none. by eapply everywhere_exec. Qed.

(** The failed Jobs a live instance with this trace has shown. *)
Definition failed_in (tr : trace KubeE) : nat :=
  match job_read tr with
  | Some (inr job) => match job_phase job with Failed => 1 | _ => 0 end
  | _ => 0
  end.

Lemma silent_none tr : silent tr -> job_read tr = None -> counted (jobs_there tr) (failed_in tr) tr.
Proof. intros Hs Hn. unfold failed_in. rewrite Hn. by apply silent_counted. Qed.

Lemma reconcileActive_counted m tr o :
  exec (reconcileActive r m) tr o -> counted (jobs_there tr) (failed_in tr) tr.
Proof.
  intros He. unfold reconcileActive in He. apply exec_bind_inv in He as (t1 & t2 & err & -> & H1 & He).
  assert (job_read t1 = None) as Hn by (eapply job_read_of, H1; by_requests).
  unfold failed_in. rewrite jobs_there_app, (job_read_app _ _ Hn). apply counted_after; [silence|].
  destruct err as [e|].
  { apply silent_none; [silence|]. eapply job_read_of, He; by_requests. }
  apply exec_inv in He as (res & t3 & -> & He); cbn [prog_bind] in He.
  change (job_read (Ev (Get KJob (jobKey m)) res :: t3)) with (Some res). destruct res as [e|job].
  - change (counted (jobs_there t3) 0 t3). destruct (negb (IsNotFound e)).
    + apply silent_counted. silence.
    + by eapply reconcileCreate_counted.
  - change (counted (jobs_there t3) (match job_phase job with Failed => 1 | _ => 0 end) t3).
    by eapply reconcileJob_counted.
Qed.

Lemma addFinalizer_counted m tr err : exec (addFinalizer m) tr err -> silent tr /\ job_read tr = None.
Proof. intros He. apply exec_inv in He as (res & t1 & -> & He). by apply exec_inv in He as [-> _]. Qed.

Lemma Reconcile_counted req tr o :
  exec (Reconcile r req) tr o -> counted (jobs_there tr) (failures_seen tr) tr.
Proof.
  intros He. apply exec_inv in He as (res & t1 & -> & He); cbn [prog_bind] in He.
  destruct res as [e|m].
  { destruct (IsNotFound e); by apply exec_inv in He as [-> _]. }
  change (counted (jobs_there t1)
    (match job_read t1 with
     | Some (inr job) => if negb (has (om_DeletionTimestamp (mg_ObjectMeta m)))
                         then match job_phase job with Failed => 1 | _ => 0 end else 0
     | _ => 0 end) t1).
  destruct (has (om_DeletionTimestamp _)); cbn [negb] in *.
  { replace (match job_read t1 with Some (inr _) => 0 | _ => 0 end) with 0 by by destruct (job_read t1) as [[|]|].
    apply silent_counted. silence. }
  change (counted (jobs_there t1) (failed_in t1) t1). destruct (has_finalizer m); cbn [negb] in He.
  - destruct (usesOperatorSA r m); [|by eapply reconcileActive_counted].
    apply silent_none; [silence|]. eapply job_read_of, He; by_requests.
  - apply exec_bind_inv in He as (t2 & t3 & err & -> & H2 & He). apply exec_inv in He as [-> _].
    rewrite app_nil_r. apply addFinalizer_counted in H2 as [? ?]. by apply silent_none.
Qed.
End reconcile.

(** C23: What the counters count.  Whatever the cluster answers, one [Reconcile] adds to
    the total exactly the creations of a Job after which one is there (accepted, or
    answered that it exists already), and adds one to the errors exactly when the
    instance it read is not marked for deletion and the answer to its first request
    for the Job is a Job in the phase [Failed]; it never adds to both, nor more than
    one. *)
Theorem counters_exact `{UnicodeTables} r req tr o :
  exec (Reconcile r req) tr o ->
  increments MetricMustGatherTotal tr = jobs_there tr /\
  increments MetricMustGatherErrors tr = failures_seen tr /\
  increments MetricMustGatherTotal tr + increments MetricMustGatherErrors tr <= 1.
Proof.
  intros He. destruct (Reconcile_counted r req tr o He) as [-> ->]. split_and!; [done..|].
  destruct (Reconcile_counted r req tr o He) as [<- <-]. rewrite increments_requests.
  exact (proj1 (Reconcile_within_allowance r req tr o He) QMetric).
Qed.

#[local] Existing Instance ascii_tables.

(** A gather that starts is counted once, and a failed one once. *)
Lemma counters_exact_witness :
  let p := Reconcile demo_reconciler demo_key in
  let failed := demo_cluster (demo_objects [demo_mustgather [mustGatherFinalizer] demo_spec]
                                [demo_job (job_status 0 0 4)] []) [] in
  increments MetricMustGatherTotal (run_trace mem_handle p demo_start) = 1 /\
  increments MetricMustGatherErrors (run_trace mem_handle p failed) = 1.
Proof.
  intros p failed.
  destruct (counters_exact demo_reconciler demo_key _ _ (run_exec mem_handle p demo_start)) as (Ht & _ & _).
  destruct (counters_exact demo_reconciler demo_key _ _ (run_exec mem_handle p failed)) as (_ & Hf & _).
  split; [etransitivity; [exact Ht|]|etransitivity; [exact Hf|]]; vm_compute; reflexivity.
Defined.
