(* ===== verification/WorkQueue.v ===== *)
(** * The work queue of the controller, [client-go/util/workqueue]

    The queue between the watches and the workers: [Typed] ([queue.go]), a FIFO
    without duplicates whose items are handed to one worker at a time; and the
    delaying queue around it ([delaying_queue.go], [rate_limiting_queue.go]), which
    adds an item when its time has come.  Each method holds the queue's lock, so it is
    one transition.  The heap of waiting items is a map from the item to its time: its
    shape only tells which entry is the earliest. *)

From S2P Require Import Prelude.

Section queue.
Context {T : Type} `{Countable T}.

(** ** The queue *)

Record Typed := mkTyped {
  q_queue : list T;
  q_dirty : gset T;
  q_processing : gset T;
  q_shuttingDown : bool;
}.

Definition newQueue : Typed := mkTyped [] ∅ ∅ false.

(** [DefaultQueue]: a slice, pushed at its end; [Touch] does nothing. *)
Definition Push (item : T) (queue : list T) : list T := queue ++ [item].
Definition Touch (item : T) (queue : list T) : list T := queue.

Definition Add (item : T) (q : Typed) : Typed :=
  if q_shuttingDown q then q
  else if decide (item ∈ q_dirty q) then
    if decide (item ∈ q_processing q) then q
    else mkTyped (Touch item (q_queue q)) (q_dirty q) (q_processing q) (q_shuttingDown q)
  else
    let dirty := {[item]} ∪ q_dirty q in
    if decide (item ∈ q_processing q) then mkTyped (q_queue q) dirty (q_processing q) (q_shuttingDown q)
    else mkTyped (Push item (q_queue q)) dirty (q_processing q) (q_shuttingDown q).

(** [None] while the caller waits; [Some (None, q)] is the answer that the queue has
    been shut down. *)
Definition Get_item (q : Typed) : option (option T * Typed) :=
  match q_queue q with
  | [] => if q_shuttingDown q then Some (None, q) else None
  | item :: queue =>
      Some (Some item, mkTyped queue (q_dirty q ∖ {[item]}) ({[item]} ∪ q_processing q) (q_shuttingDown q))
  end.

Definition Done (item : T) (q : Typed) : Typed :=
  let processing := q_processing q ∖ {[item]} in
  if decide (item ∈ q_dirty q)
  then mkTyped (Push item (q_queue q)) (q_dirty q) processing (q_shuttingDown q)
  else mkTyped (q_queue q) (q_dirty q) processing (q_shuttingDown q).

Definition ShutDown (q : Typed) : Typed := mkTyped (q_queue q) (q_dirty q) (q_processing q) true.

(** The promise in the comments of [Typed]: every element of the queue is dirty and is
    not being processed; nothing else waits for a worker, and no item twice. *)
Definition queue_ok (q : Typed) : Prop :=
  NoDup (q_queue q) /\ forall x, x ∈ q_queue q <-> x ∈ q_dirty q /\ x ∉ q_processing q.

Lemma newQueue_ok : queue_ok newQueue.
Proof. split; [constructor|]. set_solver. Qed.

Lemma NoDup_Push item queue : item ∉ queue -> NoDup queue -> NoDup (Push item queue).
Proof. intros Hn Hd. apply NoDup_app. split_and!; [done| |apply NoDup_singleton]. set_solver. Qed.

Lemma Add_ok item q : queue_ok q -> queue_ok (Add item q).
Proof.
  intros [Hnd Hq]. unfold Add, Touch. destruct (q_shuttingDown q); [done|].
  case_decide; [by case_decide; destruct q|]. case_decide; split; cbn; try done.
  - set_solver.
  - apply NoDup_Push; [rewrite Hq; set_solver|done].
  - intros x. unfold Push. rewrite elem_of_app, Hq. set_solver.
Qed.

Lemma Get_item_ok item q q' : queue_ok q -> Get_item q = Some (Some item, q') -> queue_ok q' /\ item ∉ q_processing q.
Proof.
  intros [Hnd Hq]. unfold Get_item. destruct (q_queue q) as [|x queue] eqn:Hqu; [by destruct (q_shuttingDown q)|].
  intros [= <- <-]. apply NoDup_cons in Hnd as [Hx Hnd]. split; [split; cbn; [done|]|].
  - intros y. specialize (Hq y). rewrite elem_of_cons in Hq. destruct (decide (y = x)); set_solver.
  - apply Hq. by left.
Qed.

Lemma Done_ok item q : queue_ok q -> item ∈ q_processing q -> queue_ok (Done item q).
Proof.
  intros [Hnd Hq] Hp. unfold Done. case_decide; split; cbn; try done.
  - apply NoDup_Push; [rewrite Hq; set_solver|done].
  - intros x. unfold Push. rewrite elem_of_app, Hq. destruct (decide (x = item)); set_solver.
  - intros x. rewrite Hq. destruct (decide (x = item)); set_solver.
Qed.

Lemma ShutDown_ok q : queue_ok q -> queue_ok (ShutDown q).
Proof. done. Qed.

(** An addition is a mark that stays until the item is handed out. *)
Lemma Add_dirty item q : q_shuttingDown q = false -> q_dirty (Add item q) = {[item]} ∪ q_dirty q.
Proof. intros Hs. unfold Add. rewrite Hs. repeat case_decide; cbn; set_solver. Qed.

Lemma Add_rest item q :
  q_processing (Add item q) = q_processing q /\ q_shuttingDown (Add item q) = q_shuttingDown q.
Proof. unfold Add. destruct (q_shuttingDown q) eqn:Hs; [done|]. by repeat case_decide; cbn; rewrite ?Hs. Qed.

Lemma Done_rest item q :
  q_dirty (Done item q) = q_dirty q /\ q_shuttingDown (Done item q) = q_shuttingDown q /\
  q_processing (Done item q) = q_processing q ∖ {[item]}.
Proof. unfold Done. by case_decide. Qed.

(** ** Delays *)

(** A [waitFor]: an item and the time at which it is to be added. *)
Record DelayingQueue := mkDelaying {
  dq_Typed : Typed;
  dq_waitingForAddCh : list (T * Z);
  dq_waiting : gmap T Z;
}.

Definition newDelayingQueue : DelayingQueue := mkDelaying newQueue [] ∅.

Definition on_Typed (f : Typed -> Typed) (d : DelayingQueue) : DelayingQueue :=
  mkDelaying (f (dq_Typed d)) (dq_waitingForAddCh d) (dq_waiting d).

Definition AddAfter (now : Z) (item : T) (duration : Z) (d : DelayingQueue) : DelayingQueue :=
  if q_shuttingDown (dq_Typed d) then d
  else if (duration <=? 0)%Z then on_Typed (Add item) d
  else mkDelaying (dq_Typed d) (dq_waitingForAddCh d ++ [(item, (now + duration)%Z)]) (dq_waiting d).

(** [insert]: an item waits once, for the earlier of its times. *)
Definition insert_waiting (item : T) (readyAt : Z) (waiting : gmap T Z) : gmap T Z :=
  match waiting !! item with
  | Some existing => if (readyAt <? existing)%Z then <[item := readyAt]> waiting else waiting
  | None => <[item := readyAt]> waiting
  end.

(** The body of [waitingLoop] on an entry received from the channel. *)
Definition take_entry (now : Z) (d : DelayingQueue) : option DelayingQueue :=
  match dq_waitingForAddCh d with
  | [] => None
  | (item, readyAt) :: ch =>
      Some (if (now <? readyAt)%Z
            then mkDelaying (dq_Typed d) ch (insert_waiting item readyAt (dq_waiting d))
            else mkDelaying (Add item (dq_Typed d)) ch (dq_waiting d))
  end.

(** The earliest entry is added when its time has come. *)
Definition earliest (item : T) (readyAt : Z) (waiting : gmap T Z) : Prop :=
  waiting !! item = Some readyAt /\ forall item' t, waiting !! item' = Some t -> (readyAt <= t)%Z.

Definition add_ready (item : T) (d : DelayingQueue) : DelayingQueue :=
  mkDelaying (Add item (dq_Typed d)) (dq_waitingForAddCh d) (delete item (dq_waiting d)).

(** The items that will be handed to a worker: marked, waiting, or on the way there. *)
Definition pending (d : DelayingQueue) : gset T :=
  q_dirty (dq_Typed d) ∪ dom (dq_waiting d) ∪ list_to_set (dq_waitingForAddCh d).*1.

Lemma insert_waiting_dom item t w : dom (insert_waiting item t w) = {[item]} ∪ dom w.
Proof.
  unfold insert_waiting. destruct (w !! item) eqn:Hw.
  - assert (item ∈ dom w) by (by apply elem_of_dom_2 in Hw).
    destruct (t <? z)%Z; [rewrite dom_insert_L; set_solver|set_solver].
  - by rewrite dom_insert_L.
Qed.

Lemma AddAfter_pending now item t d :
  q_shuttingDown (dq_Typed d) = false -> pending (AddAfter now item t d) = {[item]} ∪ pending d.
Proof.
  intros Hs. unfold AddAfter, pending, on_Typed. rewrite Hs. destruct (t <=? 0)%Z; cbn.
  - rewrite Add_dirty by done. set_solver.
  - rewrite fmap_app, list_to_set_app_L. set_solver.
Qed.

Lemma take_entry_pending now d d' :
  q_shuttingDown (dq_Typed d) = false -> take_entry now d = Some d' -> pending d' = pending d.
Proof.
  intros Hs. unfold take_entry, pending. destruct (dq_waitingForAddCh d) as [|[item t] ch]; [done|].
  intros [= <-]. destruct (now <? t)%Z; cbn.
  - rewrite insert_waiting_dom. set_solver.
  - rewrite Add_dirty by done. set_solver.
Qed.

Lemma add_ready_pending item d :
  q_shuttingDown (dq_Typed d) = false -> pending (add_ready item d) = {[item]} ∪ pending d.
Proof.
  intros Hs. unfold add_ready, pending. cbn. rewrite Add_dirty, dom_delete_L by done.
  apply leibniz_equiv. intros x. destruct (decide (x = item)); set_solver.
Qed.
End queue.
Arguments Typed T {_ _}.
Arguments DelayingQueue T {_ _}.
