(* ===== verification/RateLimiter.v ===== *)
(** * The rate limiter, [k8s.io/client-go/util/workqueue/default_rate_limiters.go]

    How long a request that comes back has to wait: the larger of a delay of its own,
    which doubles with each failure in a row up to a limit, and of what a token bucket
    over all requests says.  The bucket's answers are open. *)

From S2P Require Import Prelude GoTime.

Section limiter.
  Context {T : Type} `{Countable T}.

Record ItemExponentialFailureRateLimiter := mkExponential {
  rl_failures : gmap T nat;
  rl_baseDelay : Duration;
  rl_maxDelay : Duration;
}.

(** [float64(baseDelay) * math.Pow(2, exp)] is exact below 2^63 for a base delay below
    2^53, and above it only compared; [math.MaxInt64] is 2^63 as a double. *)
Definition backoff (baseDelay maxDelay : Duration) (exp : nat) : Duration :=
  let calculated := (baseDelay * 2 ^ Z.of_nat exp)%Z in
  if (2 ^ 63 <? calculated)%Z then maxDelay
  else if (maxDelay <? calculated)%Z then maxDelay else calculated.

Definition NumRequeues (item : T) (r : ItemExponentialFailureRateLimiter) : nat := default 0 (rl_failures r !! item).

Definition When (item : T) (r : ItemExponentialFailureRateLimiter) : Duration * ItemExponentialFailureRateLimiter :=
  let exp := NumRequeues item r in
  (backoff (rl_baseDelay r) (rl_maxDelay r) exp,
   mkExponential (<[item := S exp]> (rl_failures r)) (rl_baseDelay r) (rl_maxDelay r)).

Definition Forget (item : T) (r : ItemExponentialFailureRateLimiter) : ItemExponentialFailureRateLimiter :=
  mkExponential (delete item (rl_failures r)) (rl_baseDelay r) (rl_maxDelay r).

(** [NewTypedMaxOfRateLimiter] of the exponential limiter and the bucket. *)
Definition DefaultControllerRateLimiter : ItemExponentialFailureRateLimiter :=
  mkExponential ∅ 5000000%Z 1000000000000%Z.

Definition max_When (bucket : Duration) (item : T) (r : ItemExponentialFailureRateLimiter)
    : Duration * ItemExponentialFailureRateLimiter :=
  let '(curr, r') := When item r in
  (Z.max (Z.max 0 curr) bucket, r').

(** The limiter the controller makes, at any time. *)
Definition default_delays (r : ItemExponentialFailureRateLimiter) : Prop :=
  rl_baseDelay r = 5000000%Z /\ rl_maxDelay r = 1000000000000%Z.

Lemma NumRequeues_When bucket item item' r :
  NumRequeues item' (max_When bucket item r).2 = if decide (item = item') then S (NumRequeues item r) else NumRequeues item' r.
Proof. unfold max_When, When, NumRequeues. cbn. case_decide; by simplify_map_eq. Qed.

Lemma NumRequeues_Forget item item' r :
  NumRequeues item' (Forget item r) = if decide (item = item') then 0 else NumRequeues item' r.
Proof. unfold Forget, NumRequeues. cbn. case_decide; by simplify_map_eq. Qed.
End limiter.
Arguments ItemExponentialFailureRateLimiter T {_ _}.

(** The delays double and then stay. *)
Lemma backoff_min exp :
  backoff 5000000%Z 1000000000000%Z exp = Z.min (5000000 * 2 ^ Z.of_nat exp) 1000000000000.
Proof.
  unfold backoff. destruct (Z.ltb_spec (2 ^ 63) (5000000 * 2 ^ Z.of_nat exp)); [lia|].
  destruct (Z.ltb_spec 1000000000000 (5000000 * 2 ^ Z.of_nat exp)); lia.
Qed.
