(* ===== verification/Controller.v ===== *)
(** * The controller around the reconciler, [controller-runtime/pkg/internal/controller]

    Watches add requests to the work queue, workers take them, call [Reconcile] and
    decide from what it returns whether the request comes back
    ([processNextWorkItem], [reconcileHandler]).  Everything runs concurrently: the
    state has the world outside, the queue, and the workers with what is left of
    their program, and a step is one transition of one of them.  The world and its
    answers are parameters here. *)

From S2P Require Import Prelude GoStrings GoErrors GoTime K8sTypes MustGatherV1 Effects KubeEffects WorkQueue RateLimiter.

Abbreviation queue_of := (DelayingQueue NamespacedName).
Abbreviation limiter_of := (ItemExponentialFailureRateLimiter NamespacedName).

(** [AddRateLimited]; [bucket] is what the token bucket says. *)
Definition AddRateLimited (now bucket : Z) (req : NamespacedName) (q : queue_of) (limiter : limiter_of)
    : queue_of * limiter_of :=
  let '(delay, limiter) := max_When bucket req limiter in (AddAfter now req delay q, limiter).

(** What a call of [reconcileHandler] does to the queue and its rate limiter, by the
    outcome.  No error of the operator or of its client is a [TerminalError]. *)
Definition requeue (now bucket : Z) (req : NamespacedName) (o : Outcome) (q : queue_of) (limiter : limiter_of)
    : queue_of * limiter_of :=
  match o with
  | (_, Some _) => AddRateLimited now bucket req q limiter
  | (result, None) =>
      if (0 <? res_RequeueAfter result)%Z
      then (AddAfter now req (res_RequeueAfter result) q, Forget req limiter)
      else if res_Requeue result then AddRateLimited now bucket req q limiter
      else (q, Forget req limiter)
  end.

(** Whether the request is to come back. *)
Definition comes_back (o : Outcome) : bool :=
  match o with
  | (_, Some _) => true
  | (result, None) => (0 <? res_RequeueAfter result)%Z || res_Requeue result
  end.

(** A worker between [Get] and [Done]: calling [Reconcile], or about to call [Done]. *)
Inductive activity := Reconciling (p : kprog Outcome) | Handled.

Section controller.
  Context {W : Type} (environment : W -> W -> Prop).
  Context (serves : forall R, KubeE R -> W -> R -> W -> Prop).
  Context (reconcile : NamespacedName -> kprog Outcome) (MaxConcurrentReconciles : nat).

(** [sys_owed] is a ghost: the requests that a watch has added, or that a call has
    asked to see again, since a worker last took them. *)
Record system := mkSystem {
  sys_world : W;
  sys_queue : queue_of;
  sys_workers : list (NamespacedName * activity);
  sys_now : Z;
  sys_owed : gset NamespacedName;
  sys_limiter : limiter_of;
}.

Definition on_queue (s : system) (q : queue_of) : system :=
  mkSystem (sys_world s) q (sys_workers s) (sys_now s) (sys_owed s) (sys_limiter s).

Definition start_system (w : W) (now : Z) : system := mkSystem w newDelayingQueue [] now ∅ DefaultControllerRateLimiter.

(** Who makes a step. *)
Inductive actor := Others | Clock | Watch | Queue | Worker | Process.

Inductive step (s : system) : actor -> system -> Prop :=
(** Others change the world; time passes. *)
| step_environment w :
    environment (sys_world s) w ->
    step s Others (mkSystem w (sys_queue s) (sys_workers s) (sys_now s) (sys_owed s) (sys_limiter s))
| step_tick now :
    (sys_now s <= now)%Z ->
    step s Clock (mkSystem (sys_world s) (sys_queue s) (sys_workers s) now (sys_owed s) (sys_limiter s))
(** A watch adds a request; the queue's loop handles a delayed one. *)
| step_event req :
    step s Watch (mkSystem (sys_world s) (on_Typed (Add req) (sys_queue s)) (sys_workers s) (sys_now s)
              ({[req]} ∪ sys_owed s) (sys_limiter s))
| step_take q :
    take_entry (sys_now s) (sys_queue s) = Some q -> step s Queue (on_queue s q)
| step_ready req t :
    earliest req t (dq_waiting (sys_queue s)) -> (t <= sys_now s)%Z ->
    step s Queue (on_queue s (add_ready req (sys_queue s)))
(** A worker takes a request, makes one of [Reconcile]'s requests, hands back the
    outcome, and is done with it. *)
| step_get req q :
    (length (sys_workers s) < MaxConcurrentReconciles)%nat ->
    Get_item (dq_Typed (sys_queue s)) = Some (Some req, q) ->
    step s Worker (mkSystem (sys_world s) (on_Typed (fun _ => q) (sys_queue s))
              (sys_workers s ++ [(req, Reconciling (reconcile req))]) (sys_now s) (sys_owed s ∖ {[req]})
              (sys_limiter s))
| step_request l1 req R (e : KubeE R) k l2 x w :
    sys_workers s = l1 ++ (req, Reconciling (Vis e k)) :: l2 -> serves R e (sys_world s) x w ->
    step s Worker (mkSystem w (sys_queue s) (l1 ++ (req, Reconciling (k x)) :: l2) (sys_now s) (sys_owed s)
              (sys_limiter s))
| step_handle l1 req o l2 bucket q limiter :
    sys_workers s = l1 ++ (req, Reconciling (Ret o)) :: l2 ->
    requeue (sys_now s) bucket req o (sys_queue s) (sys_limiter s) = (q, limiter) ->
    step s Worker (mkSystem (sys_world s) q (l1 ++ (req, Handled) :: l2)
              (sys_now s) (if comes_back o then {[req]} ∪ sys_owed s else sys_owed s) limiter)
| step_done l1 req l2 :
    sys_workers s = l1 ++ (req, Handled) :: l2 ->
    step s Worker (mkSystem (sys_world s) (on_Typed (Done req) (sys_queue s)) (l1 ++ l2) (sys_now s) (sys_owed s)
              (sys_limiter s))
(** The process is told to stop, or is killed and started again with nothing but
    what is outside. *)
| step_shutdown : step s Process (on_queue s (on_Typed ShutDown (sys_queue s)))
| step_crash : step s Process (start_system (sys_world s) (sys_now s)).

(** ** One worker per request, and no request lost *)

Definition stopped (s : system) : bool := q_shuttingDown (dq_Typed (sys_queue s)).

Record system_ok (s : system) : Prop := {
  ok_queue : queue_ok (dq_Typed (sys_queue s));
  ok_workers : NoDup (sys_workers s).*1;
  ok_processing : forall req, req ∈ q_processing (dq_Typed (sys_queue s)) <-> req ∈ (sys_workers s).*1;
  ok_owed : stopped s = false -> sys_owed s ⊆ pending (sys_queue s);
  ok_number : (length (sys_workers s) <= MaxConcurrentReconciles)%nat;
}.

Lemma AddAfter_rest now req delay (q : queue_of) :
  queue_ok (dq_Typed q) ->
  queue_ok (dq_Typed (AddAfter now req delay q)) /\
  q_processing (dq_Typed (AddAfter now req delay q)) = q_processing (dq_Typed q) /\
  q_shuttingDown (dq_Typed (AddAfter now req delay q)) = q_shuttingDown (dq_Typed q).
Proof.
  intros Hq. unfold AddAfter, on_Typed. destruct (q_shuttingDown (dq_Typed q)) eqn:Hs; [done|].
  destruct (delay <=? 0)%Z; cbn; [|done]. split; [by apply Add_ok|].
  destruct (Add_rest req (dq_Typed q)) as [-> ->]. done.
Qed.

Lemma requeue_rest now bucket req o (q : queue_of) limiter :
  let q' := (requeue now bucket req o q limiter).1 in
  queue_ok (dq_Typed q) ->
  queue_ok (dq_Typed q') /\ q_processing (dq_Typed q') = q_processing (dq_Typed q) /\
  q_shuttingDown (dq_Typed q') = q_shuttingDown (dq_Typed q) /\
  (q_shuttingDown (dq_Typed q) = false -> pending q' = (if comes_back o then {[req]} ∪ pending q else pending q)).
Proof.
  intros q' Hq. assert (forall delay, let q' := AddAfter now req delay q in
    queue_ok (dq_Typed q') /\ q_processing (dq_Typed q') = q_processing (dq_Typed q) /\
    q_shuttingDown (dq_Typed q') = q_shuttingDown (dq_Typed q) /\
    (q_shuttingDown (dq_Typed q) = false -> pending q' = {[req]} ∪ pending q)) as Hadd.
  { intros delay q1. destruct (AddAfter_rest now req delay q Hq) as (? & ? & ?). split_and!; [done..|]. apply AddAfter_pending. }
  subst q'. destruct o as [res [e|]]; cbn [requeue comes_back]; [apply Hadd|].
  destruct (0 <? res_RequeueAfter res)%Z; [apply Hadd|]. by destruct (res_Requeue res); [apply Hadd|].
Qed.

Lemma start_ok w now : system_ok (start_system w now).
Proof.
  clear environment serves reconcile. split; cbn; [apply newQueue_ok|constructor| |set_solver|lia]. intros req. set_solver.
Qed.

(** Replacing what a worker does keeps who works. *)
Lemma keys_replace (l1 l2 : list (NamespacedName * activity)) req a a' :
  (l1 ++ (req, a') :: l2).*1 = (l1 ++ (req, a) :: l2).*1.
Proof. by rewrite !fmap_app. Qed.

(** Steps of the queue alone. *)
Lemma queue_step_ok s w q now owed limiter :
  system_ok s -> queue_ok (dq_Typed q) ->
  q_processing (dq_Typed q) = q_processing (dq_Typed (sys_queue s)) ->
  q_shuttingDown (dq_Typed q) = q_shuttingDown (dq_Typed (sys_queue s)) ->
  (q_shuttingDown (dq_Typed (sys_queue s)) = false -> sys_owed s ⊆ pending (sys_queue s) -> owed ⊆ pending q) ->
  system_ok (mkSystem w q (sys_workers s) now owed limiter).
Proof.
  intros [Hq Hw Hp Ho Hn] Hq' Hpr Hsh Hpe. split; cbn; rewrite ?Hpr; [done..| |done].
  unfold stopped in *. cbn. rewrite Hsh. auto.
Qed.

Lemma take_entry_rest now (q q' : queue_of) :
  queue_ok (dq_Typed q) -> take_entry now q = Some q' ->
  queue_ok (dq_Typed q') /\ q_processing (dq_Typed q') = q_processing (dq_Typed q) /\
  q_shuttingDown (dq_Typed q') = q_shuttingDown (dq_Typed q).
Proof.
  intros Hq. unfold take_entry. destruct (dq_waitingForAddCh _) as [|[it t] ch]; [done|]. intros [= <-].
  destruct (now <? t)%Z; cbn; [done|]. destruct (Add_rest it (dq_Typed q)). split; [by apply Add_ok|done].
Qed.

Lemma step_ok s a s' : system_ok s -> step s a s' -> system_ok s'.
Proof.
  intros Hok Hs. pose proof Hok as [Hq Hw Hp Ho Hn]. destruct Hs as [w Hw'|now Hnow|req|q Ht|req t [Ht _] Hnow|req q Hl Hg
    |l1 req R e k l2 x w Hl Hx|l1 req o l2 bucket q limiter Hl Hre|l1 req l2 Hl| |].
  - by apply queue_step_ok.
  - by apply queue_step_ok.
  - destruct (Add_rest req (dq_Typed (sys_queue s))) as [Hpr Hsh]. apply queue_step_ok; cbn; [done|by apply Add_ok|done..|].
    intros Hst Hsub. unfold pending in *. cbn. rewrite Add_dirty by done. set_solver.
  - destruct (take_entry_rest _ _ _ Hq Ht) as (Hq' & Hpr & Hsh). apply queue_step_ok; [done..|].
    intros Hst. by rewrite (take_entry_pending _ _ _ Hst Ht).
  - destruct (Add_rest req (dq_Typed (sys_queue s))) as [Hpr Hsh]. apply queue_step_ok; cbn; [done|by apply Add_ok|done..|].
    intros Hst Hsub. rewrite add_ready_pending by done. set_solver.
  - destruct (Get_item_ok _ _ _ Hq Hg) as [Hq' Hnew]. unfold stopped in *. unfold Get_item in Hg.
    destruct (q_queue (dq_Typed (sys_queue s))) as [|it rest]; [by destruct (q_shuttingDown _)|]. simplify_eq.
    split; cbn; [done| | | |rewrite length_app; cbn; lia].
    + rewrite fmap_app. apply NoDup_app. split_and!; [done| |apply NoDup_singleton].
      intros y Hy%Hp. cbn. set_solver.
    + intros y. rewrite fmap_app, elem_of_app, <-Hp. cbn. set_solver.
    + unfold stopped. cbn. intros Hst. specialize (Ho Hst). unfold pending in *. cbn. intros y Hy.
      specialize (Ho y). destruct (decide (y = req)); set_solver.
  - rewrite Hl in *. split; cbn; rewrite ?(keys_replace _ _ _ (Reconciling (Vis e k))); try done.
    by rewrite !length_app in *.
  - destruct (requeue_rest (sys_now s) bucket req o _ (sys_limiter s) Hq) as (Hq' & Hpr & Hsh & Hpe).
    rewrite Hre in Hq', Hpr, Hsh, Hpe. cbn in Hq', Hpr, Hsh, Hpe. rewrite Hl in *.
    split; cbn; rewrite ?(keys_replace _ _ _ (Reconciling (Ret o))), ?Hpr; try done.
    + unfold stopped in *. cbn. rewrite Hsh. intros Hst. rewrite Hpe by done. specialize (Ho Hst).
      destruct (comes_back o); set_solver.
    + by rewrite !length_app in *.
  - rewrite Hl in *. rewrite fmap_app in Hw, Hp. cbn in Hw, Hp. destruct (Done_rest req (dq_Typed (sys_queue s))) as (Hdi & Hsh & Hpr).
    apply NoDup_app in Hw as (Hw1 & Hw12 & [Hreq Hw2]%NoDup_cons).
    split; cbn; rewrite ?Hpr.
    + apply Done_ok; [done|]. apply Hp. set_solver.
    + rewrite fmap_app. apply NoDup_app. set_solver.
    + intros y. rewrite fmap_app. specialize (Hp y). specialize (Hw12 y). rewrite elem_of_app in *.
      destruct (decide (y = req)) as [->|]; set_solver.
    + unfold stopped, pending in *. cbn. rewrite Hsh, Hdi. done.
    + rewrite length_app in *. cbn in Hn. lia.
  - by split; cbn.
  - apply start_ok.
Qed.

Inductive reachable (w : W) (now : Z) : system -> Prop :=
| reach_start : reachable w now (start_system w now)
| reach_step s a s' : reachable w now s -> step s a s' -> reachable w now s'.

Lemma reachable_ok w now s : reachable w now s -> system_ok s.
Proof. induction 1; [apply start_ok|by eapply step_ok]. Qed.
End controller.
