(* ===== verification/ControllerFacts.v ===== *)
(** * What the queue promises

    One call of [Reconcile] per request at a time, and no request lost: what
    is owed is pending in every state, and can always be served by the steps of the
    controller alone. *)

From S2P Require Import Prelude GoStrings GoErrors GoTime K8sTypes MustGatherV1 Effects KubeEffects.
From S2P Require Import Reconcile MemCluster Demo WorkQueue RateLimiter Controller.

#[local] Set Default Proof Using "All".

Section progress.
  Context {W : Type} (environment : W -> W -> Prop).
  Context (serves : forall R, KubeE R -> W -> R -> W -> Prop).
  Context (reconcile : NamespacedName -> kprog Outcome) (MaxConcurrentReconciles : nat).

Abbreviation system := (@Controller.system W).
Abbreviation step := (step environment serves reconcile MaxConcurrentReconciles).
Abbreviation system_ok := (@Controller.system_ok W MaxConcurrentReconciles).

(** The steps of the controller: its queue, its workers and the clock. *)
Definition own (s s' : system) : Prop := exists a, a ∈ [Clock; Queue; Worker] /\ step s a s'.

(** What these steps keep. *)
Record later (s s' : system) : Prop := {
  later_ok : system_ok s';
  later_running : stopped s' = false;
  later_queue : q_queue (dq_Typed (sys_queue s)) `prefix_of` q_queue (dq_Typed (sys_queue s'));
  later_pending : pending (sys_queue s) ⊆ pending (sys_queue s');
}.

Lemma later_refl s : system_ok s -> stopped s = false -> later s s.
Proof. by split. Qed.

Lemma later_trans s1 s2 s3 : later s1 s2 -> later s2 s3 -> later s1 s3.
Proof. intros [] []. split; [done..|by etransitivity|set_solver]. Qed.

Lemma Add_queue item (q : Typed NamespacedName) : q_queue q `prefix_of` q_queue (Add item q).
Proof. unfold Add, Touch, Push. destruct (q_shuttingDown q); [done|]. by repeat case_decide; cbn; eauto using prefix_app_r. Qed.

Lemma AddAfter_queue now item delay (q : queue_of) :
  q_queue (dq_Typed q) `prefix_of` q_queue (dq_Typed (AddAfter now item delay q)).
Proof. unfold AddAfter, on_Typed. destruct (q_shuttingDown _); [done|]. destruct (delay <=? 0)%Z; [apply Add_queue|done]. Qed.

Lemma requeue_queue now bucket req o (q : queue_of) limiter :
  q_queue (dq_Typed q) `prefix_of` q_queue (dq_Typed (requeue now bucket req o q limiter).1).
Proof.
  destruct o as [res [e|]]; cbn [requeue]; [apply AddAfter_queue|].
  destruct (0 <? _)%Z; [apply AddAfter_queue|]. by destruct (res_Requeue res); [apply AddAfter_queue|].
Qed.

(** ** A worker can finish *)

Hypothesis answered : forall R (e : KubeE R) w, exists x w', serves R e w x w'.

Lemma own_ok s s' : own s s' -> system_ok s -> system_ok s'.
Proof. intros (a & _ & Hs) Hok. by eapply step_ok. Qed.

Lemma worker_returns s l1 req p l2 :
  system_ok s -> stopped s = false -> sys_workers s = l1 ++ (req, Reconciling p) :: l2 ->
  exists s' o, rtc own s s' /\ later s s' /\ sys_workers s' = l1 ++ (req, Reconciling (Ret o)) :: l2.
Proof.
  revert s. induction p as [o|R e k IH]; intros s Hok Hst Hl.
  { exists s, o. split; [done|]. split; [by apply later_refl|done]. }
  destruct (answered R e (sys_world s)) as (x & w & Hx).
  assert (own s (mkSystem w (sys_queue s) (l1 ++ (req, Reconciling (k x)) :: l2) (sys_now s) (sys_owed s)
                   (sys_limiter s))) as Ho.
  { exists Worker. split; [set_solver|]. by eapply step_request. }
  destruct (IH x _ (own_ok _ _ Ho Hok) Hst eq_refl) as (s' & o & Hs & Hlater & Hl').
  exists s', o. split; [by eapply rtc_l|]. split; [|done]. by destruct Hlater; split.
Qed.

Lemma worker_finishes s l1 req a l2 :
  system_ok s -> stopped s = false -> sys_workers s = l1 ++ (req, a) :: l2 ->
  exists s', rtc own s s' /\ later s s' /\ sys_workers s' = l1 ++ l2.
Proof.
  intros Hok Hst Hl.
  assert (exists s1, rtc own s s1 /\ later s s1 /\ sys_workers s1 = l1 ++ (req, Handled) :: l2) as (s1 & Hs1 & Hla & Hl1).
  { destruct a as [p|]; [|exists s; split; [done|]; split; [by apply later_refl|done]].
    destruct (worker_returns s l1 req p l2 Hok Hst Hl) as (s1 & o & Hs1 & Hla & Hl1).
    pose proof (step_handle environment serves reconcile MaxConcurrentReconciles s1 l1 req o l2 0 _ _ Hl1
                  (surjective_pairing _)) as Hstep.
    eexists. split; [eapply rtc_r; [exact Hs1|]; exists Worker; split; [set_solver|exact Hstep]|].
    split; [|done]. eapply later_trans; [exact Hla|]. destruct Hla as [Hok1 Hst1 _ _].
    destruct (requeue_rest (sys_now s1) 0 req o (sys_queue s1) (sys_limiter s1)) as (_ & _ & Hsh & Hpe); [by apply Hok1|].
    split; cbn; [by eapply step_ok|unfold stopped in *; cbn; by rewrite Hsh|apply requeue_queue|].
    rewrite Hpe by done. destruct (comes_back o); set_solver. }
  pose proof (step_done environment serves reconcile MaxConcurrentReconciles s1 l1 req l2 Hl1) as Hstep.
  eexists. split; [eapply rtc_r; [exact Hs1|]; exists Worker; split; [set_solver|exact Hstep]|]. split; [|done].
  eapply later_trans; [exact Hla|]. destruct Hla as [Hok1 Hst1 _ _].
  destruct (Done_rest req (dq_Typed (sys_queue s1))) as (Hdi & Hsh & _).
  split; cbn; [by eapply step_ok|unfold stopped in *; cbn; by rewrite Hsh| |unfold pending; cbn; by rewrite Hdi].
  unfold Done, Push. case_decide; cbn; [by apply prefix_app_r|done].
Qed.

Lemma workers_finish s :
  system_ok s -> stopped s = false -> exists s', rtc own s s' /\ later s s' /\ sys_workers s' = [].
Proof.
  remember (sys_workers s) as l eqn:Hl. revert s Hl. induction l as [|[req a] l IH]; intros s Hl Hok Hst.
  { exists s. split; [done|]. split; [by apply later_refl|done]. }
  destruct (worker_finishes s [] req a l Hok Hst (eq_sym Hl)) as (s1 & Hs1 & Hla1 & Hl1).
  destruct (IH s1 (eq_sym Hl1)) as (s2 & Hs2 & Hla2 & Hl2); [apply Hla1..|].
  exists s2. split; [by etransitivity|]. split; [by eapply later_trans|done].
Qed.

(** ** What is delayed gets its turn *)

(** The channel of delayed entries can be emptied. *)
Lemma channel_drains s :
  system_ok s -> stopped s = false ->
  exists s', rtc own s s' /\ later s s' /\ sys_workers s' = sys_workers s /\ dq_waitingForAddCh (sys_queue s') = [].
Proof.
  remember (dq_waitingForAddCh (sys_queue s)) as ch eqn:Hch. revert s Hch.
  induction ch as [|[item t] ch IH]; intros s Hch Hok Hst.
  { exists s. split; [done|]. split; [by apply later_refl|done]. }
  assert (exists q, take_entry (sys_now s) (sys_queue s) = Some q /\ dq_waitingForAddCh q = ch /\
            q_queue (dq_Typed (sys_queue s)) `prefix_of` q_queue (dq_Typed q) /\
            q_shuttingDown (dq_Typed q) = q_shuttingDown (dq_Typed (sys_queue s))) as (q & Hq & Hqch & Hqq & Hqs).
  { unfold take_entry. rewrite <-Hch. eexists. split; [done|].
    destruct (sys_now s <? t)%Z; cbn; [done|]. split; [done|]. split; [apply Add_queue|apply Add_rest]. }
  pose proof (step_take environment serves reconcile MaxConcurrentReconciles s q Hq) as Hstep.
  assert (later s (on_queue s q)) as Hla.
  { split; cbn; [by eapply step_ok|unfold stopped in *; cbn; by rewrite Hqs|done|].
    by rewrite (take_entry_pending _ _ _ Hst Hq). }
  destruct (IH (on_queue s q)) as (s' & Hs' & Hla' & Hl' & Hch'); [done|apply Hla..|].
  exists s'. split; [eapply rtc_l; [|exact Hs']; exists Queue; split; [set_solver|done]|].
  split; [by eapply later_trans|done].
Qed.

Lemma earliest_exists (w : gmap NamespacedName Z) : w <> ∅ -> exists req t, earliest req t w.
Proof.
  induction w as [|req t w Hnew IH] using map_ind; [done|]. intros _.
  destruct (decide (w = ∅)) as [->|Hw].
  { exists req, t. split; [by simplify_map_eq|]. intros req' t' Ht'.
    destruct (decide (req = req')) as [->|]; simplify_map_eq; lia. }
  destruct (IH Hw) as (req1 & t1 & Hin & Hmin). destruct (decide (t <= t1)%Z).
  - exists req, t. split; [by simplify_map_eq|]. intros req' t' Ht'.
    destruct (decide (req = req')) as [->|]; simplify_map_eq; [lia|]. specialize (Hmin _ _ Ht'). lia.
  - exists req1, t1. split; [by rewrite lookup_insert_ne by congruence|]. intros req' t' Ht'.
    destruct (decide (req = req')) as [->|]; simplify_map_eq; [lia|]. eauto.
Qed.

(** Every delayed entry can become ready. *)
Lemma waiting_empties s :
  system_ok s -> stopped s = false ->
  exists s', rtc own s s' /\ later s s' /\ sys_workers s' = sys_workers s /\
    dq_waitingForAddCh (sys_queue s') = dq_waitingForAddCh (sys_queue s) /\ dq_waiting (sys_queue s') = ∅.
Proof.
  remember (size (dq_waiting (sys_queue s))) as n eqn:Hn. revert s Hn. induction n as [|n IH]; intros s Hn Hok Hst.
  { exists s. split; [done|]. split; [by apply later_refl|]. split_and!; [done..|]. by apply map_size_empty_iff. }
  destruct (earliest_exists (dq_waiting (sys_queue s))) as (req & t & Hmin).
  { intros Hw. by rewrite Hw, map_size_empty in Hn. }
  set (s1 := mkSystem (sys_world s) (sys_queue s) (sys_workers s) (Z.max (sys_now s) t) (sys_owed s) (sys_limiter s)).
  assert (step s Clock s1) as Htick by (apply step_tick; lia).
  assert (step s1 Queue (on_queue s1 (add_ready req (sys_queue s1)))) as Hready by (eapply step_ready; [exact Hmin|cbn; lia]).
  assert (later s (on_queue s1 (add_ready req (sys_queue s1)))) as Hla.
  { split; cbn.
    - eapply step_ok; [|exact Hready]. by eapply step_ok.
    - unfold stopped in *. cbn. by rewrite (proj2 (Add_rest _ _)).
    - apply Add_queue.
    - rewrite add_ready_pending by done. set_solver. }
  destruct (IH (on_queue s1 (add_ready req (sys_queue s1)))) as (s' & Hs' & Hla' & Hl' & Hch' & Hw'); [|apply Hla..|].
  { cbn. destruct Hmin as [Hin _]. rewrite map_size_delete_Some by (by eexists). lia. }
  exists s'. split; [|split; [by eapply later_trans|done]].
  eapply rtc_l; [exists Clock; split; [set_solver|exact Htick]|].
  eapply rtc_l; [exists Queue; split; [set_solver|exact Hready]|exact Hs'].
Qed.

(** ** The queue moves *)

Hypothesis some_worker : 0 < MaxConcurrentReconciles.

Lemma queue_reaches s req l1 l2 :
  system_ok s -> stopped s = false -> sys_workers s = [] -> q_queue (dq_Typed (sys_queue s)) = l1 ++ req :: l2 ->
  exists s', rtc own s s' /\ sys_workers s' = [(req, Reconciling (reconcile req))] /\ (req ∉ sys_owed s').
Proof.
  revert s l2. induction l1 as [|x l1 IH]; intros s l2 Hok Hst Hl Hq.
  all: assert (Hget : forall y rest, q_queue (dq_Typed (sys_queue s)) = y :: rest -> exists s1, own s s1 /\
         sys_workers s1 = [(y, Reconciling (reconcile y))] /\ (y ∉ sys_owed s1) /\ stopped s1 = false /\
         q_queue (dq_Typed (sys_queue s1)) = rest)
    by (intros y rest Hy; eexists; split;
        [exists Worker; split; [set_solver|]; eapply step_get; [by rewrite Hl|unfold Get_item; by rewrite Hy]|];
        rewrite Hl; cbn; unfold stopped in *; cbn; set_solver).
  - destruct (Hget req l2 Hq) as (s1 & Hs1 & Hl1 & Ho1 & _). exists s1. split; [by eapply rtc_once|done].
  - destruct (Hget x _ Hq) as (s1 & Hs1 & Hl1 & _ & Hst1 & Hq1).
    destruct (worker_finishes s1 [] x _ [] (own_ok _ _ Hs1 Hok) Hst1 Hl1) as (s2 & Hs2 & Hla2 & Hl2).
    destruct (later_queue _ _ Hla2) as [l3 Hq2]. rewrite Hq1, <-app_assoc in Hq2. cbn in Hq2.
    destruct (IH s2 (l2 ++ l3)) as (s3 & Hs3 & Hl3 & Ho3); [apply Hla2..|done|done|].
    exists s3. split; [|done]. eapply rtc_l; [exact Hs1|]. by etransitivity.
Qed.

Lemma pending_starts s req :
  system_ok s -> stopped s = false -> req ∈ pending (sys_queue s) ->
  exists s', rtc own s s' /\ sys_workers s' = [(req, Reconciling (reconcile req))] /\ (req ∉ sys_owed s').
Proof.
  intros Hok Hst Hreq.
  destruct (workers_finish s Hok Hst) as (s1 & Hs1 & Hla1 & Hl1).
  destruct (channel_drains s1) as (s2 & Hs2 & Hla2 & Hl2 & Hch2); [apply Hla1..|].
  destruct (waiting_empties s2) as (s3 & Hs3 & Hla3 & Hl3 & Hch3 & Hw3); [apply Hla2..|].
  pose proof (later_trans _ _ _ Hla1 (later_trans _ _ _ Hla2 Hla3)) as Hla.
  assert (sys_workers s3 = []) as Hnone by congruence.
  assert (req ∈ q_queue (dq_Typed (sys_queue s3))) as (l1 & l2 & Hq)%list_elem_of_split.
  { destruct (later_ok _ _ Hla) as [[_ Hq] _ Hp _ _]. apply Hq. split.
    - pose proof (later_pending _ _ Hla req Hreq) as Hin. unfold pending in Hin. rewrite Hw3, Hch3, Hch2 in Hin.
      cbn in Hin. set_solver.
    - rewrite Hp, Hnone. set_solver. }
  destruct (queue_reaches s3 req l1 l2) as (s4 & Hs4 & ?); [apply Hla..|done|done|].
  exists s4. split; [|done]. etransitivity; [exact Hs1|]. etransitivity; [exact Hs2|]. by etransitivity.
Qed.
End progress.

(** C24: No request is lost, and none is handled twice at a time.  In every state the
    controller can come to, whatever the world does and answers, as long as every request
    gets an answer, the workers are at most as many as configured and work on different
    requests.  Unless it is stopping, a request that a watch has added, or whose last
    call failed or asked to come back, is marked in the queue or waits for its delay; and
    the queue, the workers and the clock alone can bring the controller to a new call of
    [Reconcile] for it. *)
Theorem no_request_lost `{UnicodeTables} {W : Type} environment serves r workers (w : W) now s :
  0 < workers ->
  (forall R (e : KubeE R) w, exists x w', serves R e w x w') ->
  reachable environment serves (Reconcile r) workers w now s ->
  NoDup (sys_workers s).*1 /\ length (sys_workers s) <= workers /\
  forall req, stopped s = false -> req ∈ sys_owed s ->
    req ∈ pending (sys_queue s) /\
    exists s', rtc (own environment serves (Reconcile r) workers) s s' /\
      sys_workers s' = [(req, Reconciling (Reconcile r req))] /\ (req ∉ sys_owed s').
Proof.
  intros Hn Hserves Hs. pose proof (reachable_ok _ _ _ _ _ _ _ Hs) as Hok.
  split; [apply Hok|]. split; [apply Hok|]. intros req Hst Hreq.
  pose proof (ok_owed _ _ Hok Hst req Hreq) as Hp. split; [exact Hp|].
  by apply (pending_starts environment serves (Reconcile r) workers Hserves Hn).
Qed.

#[local] Existing Instance ascii_tables.

(** A request added while the same one is being handled. *)
Lemma no_request_lost_witness :
  let serves := fun R (e : KubeE R) (c : cluster) x c' => (x, c') = mem_handle R e c in
  let s := mkSystem demo_start (mkDelaying (mkTyped [] {[demo_key]} {[demo_key]} false) [] ∅)
             [(demo_key, Reconciling (Reconcile demo_reconciler demo_key))] 0 {[demo_key]} DefaultControllerRateLimiter in
  exists s', rtc (own (fun _ _ => False) serves (Reconcile demo_reconciler) 1) s s' /\
    sys_workers s' = [(demo_key, Reconciling (Reconcile demo_reconciler demo_key))] /\ (demo_key ∉ sys_owed s').
Proof.
  intros serves s.
  assert (forall R (e : KubeE R) c, exists x c', serves R e c x c') as Ht.
  { intros R e c. exists (mem_handle R e c).1, (mem_handle R e c).2. unfold serves. by destruct (mem_handle R e c). }
  assert (reachable (fun _ _ => False) serves (Reconcile demo_reconciler) 1 demo_start 0 s) as Hs.
  { pose proof (reach_start (fun _ _ => False) serves (Reconcile demo_reconciler) 1 demo_start 0) as Hr.
    eapply reach_step in Hr; [|apply (step_event _ _ _ _ _ demo_key)].
    eapply reach_step in Hr; [|eapply (step_get _ _ _ _ _ demo_key); [cbn; lia|reflexivity]].
    eapply reach_step in Hr; [|apply (step_event _ _ _ _ _ demo_key)]. exact Hr. }
  destruct (no_request_lost _ _ demo_reconciler 1 demo_start 0 s ltac:(lia) Ht Hs) as (_ & _ & Hreq).
  apply Hreq; [reflexivity|set_solver].
Defined.
