(* ===== verification/World.v ===== *)
(** * The cluster as many see it

    The MustGathers and Jobs of a cluster that others use at the same time: users
    create, change and delete them, the Job controller and the garbage collector do
    their work, and the informers behind the operator's client lag behind.  A
    request of the operator is applied or refused, and the answer to an applied one
    can be lost.  Of the other kinds nothing is assumed: they answer anything.

    The last four fields are ghosts: to which key each UID of a MustGather was issued,
    the object of each resource version, the UIDs the informer has shown as marked for
    deletion, and the instances the operator has let go of after its cleanup. *)

From S2P Require Import Prelude GoStrings GoErrors GoTime K8sTypes MustGatherV1 Effects KubeEffects.
From S2P Require Import ApiServer TrustedCA Reconcile.

Record world := mkWorld {
  w_mg : gmap NamespacedName MustGather;
  w_cache : gmap NamespacedName MustGather;
  w_job : gmap NamespacedName Job;
  w_job_cache : gmap NamespacedName Job;
  w_uids : gmap string NamespacedName;
  w_versions : gmap string MustGather;
  w_dying : gset string;
  w_released : gset string;
}.

Definition empty_world : world := mkWorld ∅ ∅ ∅ ∅ ∅ ∅ ∅ ∅.

Definition mg_key (m : MustGather) : NamespacedName := @ObjectKeyFromObject KMustGather m.
Definition job_key (j : Job) : NamespacedName := @ObjectKeyFromObject KJob j.
Definition mg_version (m : MustGather) : string := om_ResourceVersion (mg_ObjectMeta m).
Definition mg_dying (m : MustGather) : bool := has (om_DeletionTimestamp (mg_ObjectMeta m)).
Definition job_dying (j : Job) : bool := has (om_DeletionTimestamp (job_ObjectMeta j)).
Definition owns_job (u : string) (j : Job) : bool := owned_by u (om_OwnerReferences (job_ObjectMeta j)).

(** The write with which the operator lets go of an instance it has cleaned up. *)
Definition releases (cur new : MustGather) : bool :=
  has_finalizer cur && negb (has_finalizer new) && cleanup_wanted cur.

(** Every Job of the owner [u] is on its way out. *)
Definition no_live_job (u : string) (w : world) : Prop :=
  forall k j, w_job w !! k = Some j -> owns_job u j = true -> job_dying j = true.

(** ** Writes *)

Definition set_jobs (f : gmap NamespacedName Job -> gmap NamespacedName Job) (w : world) : world :=
  mkWorld (w_mg w) (w_cache w) (f (w_job w)) (w_job_cache w) (w_uids w) (w_versions w) (w_dying w) (w_released w).

(** A new version of an object; one without finalizers that is marked goes away. *)
Definition write_mg (new : MustGather) (released : gset string) (w : world) : world :=
  mkWorld (if finalized (mg_ObjectMeta new) then delete (mg_key new) (w_mg w) else <[mg_key new := new]> (w_mg w))
    (w_cache w) (w_job w) (w_job_cache w) (w_uids w) (<[mg_version new := new]> (w_versions w)) (w_dying w)
    (released ∪ w_released w).

(** ** The operator's requests *)

Definition answers {A} (stored : option A) (x : goerror + A) : Prop :=
  match x with
  | inr o => stored = Some o
  | inl e => IsNotFound e = true -> stored = None
  end.

(** What the server keeps of an update, and of a status update. *)
Definition updates (sent cur new : MustGather) : Prop :=
  mg_key new = mg_key sent /\ mg_UID new = mg_UID cur /\ mg_Finalizers new = mg_Finalizers sent /\
  om_DeletionTimestamp (mg_ObjectMeta new) = om_DeletionTimestamp (mg_ObjectMeta cur) /\
  mg_Spec new = mg_Spec sent.

Definition updates_status (sent cur new : MustGather) : Prop :=
  client_meta (mg_ObjectMeta new) = client_meta (mg_ObjectMeta cur) /\ mg_UID new = mg_UID cur /\
  om_DeletionTimestamp (mg_ObjectMeta new) = om_DeletionTimestamp (mg_ObjectMeta cur) /\
  mg_Spec new = mg_Spec cur /\ mg_Status new = mg_Status sent.

Section serves.
  (** Whether reads of Jobs are up to date; the informer's copy is read otherwise. *)
  Variable fresh_jobs : bool.

(** [serves e w x w']: in [w] the request [e] may be answered [x], leaving [w'].  The
    operator makes none of the requests for which everything is allowed. *)
Definition serves (R : Type) (e : KubeE R) (w : world) : R -> world -> Prop :=
  match e in KubeE R return R -> world -> Prop with
  | Get k key => fun x w' =>
      w' = w /\
      match k return goerror + objOf k -> Prop with
      | KMustGather => answers (w_cache w !! key)
      | KJob => answers ((if fresh_jobs then w_job w else w_job_cache w) !! key)
      | _ => fun _ => True
      end x
  | Create k o => fun x w' =>
      match k return objOf k -> Prop with
      | KJob => fun o =>
          (w' = w /\ x <> None) \/
          (w_job w !! job_key o = None /\
           exists o', om_OwnerReferences (job_ObjectMeta o') = om_OwnerReferences (job_ObjectMeta o) /\
             job_key o' = job_key o /\ job_dying o' = false /\ w' = set_jobs (insert (job_key o) o') w)
      | KMustGather => fun _ => True
      | _ => fun _ => w' = w
      end o
  | Update k o => fun x w' =>
      match k return objOf k -> goerror + objOf k -> Prop with
      | KMustGather => fun o x =>
          (w' = w /\ exists e, x = inl e) \/
          (exists cur new, w_mg w !! mg_key o = Some cur /\ mg_version o = mg_version cur /\ mg_UID o = mg_UID cur /\
             updates o cur new /\ w_versions w !! mg_version new = None /\
             w' = write_mg new (if releases cur new then {[mg_UID cur]} else ∅) w)
      | KJob => fun _ _ => True
      | _ => fun _ _ => w' = w
      end o x
  | StatusUpdate m => fun x w' =>
      (w' = w /\ exists e, x = inl e) \/
      (exists cur new, w_mg w !! mg_key m = Some cur /\ mg_version m = mg_version cur /\
         updates_status m cur new /\ w_versions w !! mg_version new = None /\ w' = write_mg new ∅ w)
  | Delete k o => fun x w' =>
      match k return objOf k -> Prop with
      | KJob => fun o =>
          (w' = w /\ x <> None) \/
          (exists cur, w_job w !! job_key o = Some cur /\
             if decide (om_Finalizers (job_ObjectMeta cur) = [])
             then w' = set_jobs (delete (job_key o)) w
             else exists cur', om_OwnerReferences (job_ObjectMeta cur') = om_OwnerReferences (job_ObjectMeta cur) /\
                    job_key cur' = job_key cur /\ job_dying cur' = true /\
                    w' = set_jobs (insert (job_key o) cur') w)
      | KMustGather => fun _ => True
      | _ => fun _ => w' = w
      end o
  | _ => fun _ w' => w' = w
  end.
End serves.

(** ** Everybody else *)

Inductive environment (w : world) : world -> Prop :=
(** A user creates an instance, under a UID never used before; somebody changes one (its
    UID and its mark for deletion stay); one goes away. *)
| env_create o :
    w_mg w !! mg_key o = None -> w_uids w !! mg_UID o = None -> w_versions w !! mg_version o = None ->
    mg_dying o = false -> (forall k j, w_job w !! k = Some j -> owns_job (mg_UID o) j = false) ->
    environment w (mkWorld (<[mg_key o := o]> (w_mg w)) (w_cache w) (w_job w) (w_job_cache w)
                     (<[mg_UID o := mg_key o]> (w_uids w)) (<[mg_version o := o]> (w_versions w))
                     (w_dying w) (w_released w))
| env_update cur o :
    w_mg w !! mg_key o = Some cur -> mg_UID o = mg_UID cur -> w_versions w !! mg_version o = None ->
    (mg_dying cur = true -> mg_dying o = true) ->
    environment w (write_mg o ∅ w)
| env_remove k :
    environment w (mkWorld (delete k (w_mg w)) (w_cache w) (w_job w) (w_job_cache w) (w_uids w)
                     (w_versions w) (w_dying w) (w_released w))
(** The informer catches up with an instance. *)
| env_sync k :
    environment w (mkWorld (w_mg w) (partial_alter (fun _ => w_mg w !! k) k (w_cache w)) (w_job w)
                     (w_job_cache w) (w_uids w) (w_versions w)
                     (match w_mg w !! k with
                      | Some o => if mg_dying o then {[mg_UID o]} ∪ w_dying w else w_dying w
                      | None => w_dying w
                      end) (w_released w))
(** Others may have Jobs of their own, change the status of a Job, mark it for
    deletion or remove it; they do not make Jobs in the name of an instance. *)
| env_job_create j :
    w_job w !! job_key j = None -> (forall u, owns_job u j = true -> w_uids w !! u = None) ->
    environment w (set_jobs (insert (job_key j) j) w)
| env_job_update cur j :
    w_job w !! job_key j = Some cur ->
    (forall u, owns_job u j = true -> w_uids w !! u = None \/ owns_job u cur = true) ->
    (job_dying cur = true -> job_dying j = true) ->
    environment w (set_jobs (insert (job_key j) j) w)
| env_job_remove k : environment w (set_jobs (delete k) w)
| env_job_sync k :
    environment w (mkWorld (w_mg w) (w_cache w) (w_job w)
                     (partial_alter (fun _ => w_job w !! k) k (w_job_cache w)) (w_uids w) (w_versions w)
                     (w_dying w) (w_released w)).
