(* ===== verification/RelyGuarantee.v ===== *)
(** * Many workers in a world

    Rely and guarantee for programs that run as workers of the controller of [Controller],
    over any world: what a worker counts on while others act, what it sees to before each
    of its requests, and that together they keep the invariant of the world. *)

From S2P Require Import Prelude GoStrings GoErrors GoTime K8sTypes MustGatherV1 Effects KubeEffects WorkQueue Controller.

Section world.
  Context {W : Type}.
  (** The invariant of the world; how others, the other workers included, may change it
      for the worker of a request; and what that worker sees to. *)
  Context (ok : W -> Prop) (rely : NamespacedName -> W -> W -> Prop) `{rely_order : !forall k, PreOrder (rely k)}.
  Context (guarantee : NamespacedName -> forall R, KubeE R -> W -> Prop).
  Context (serves : forall R, KubeE R -> W -> R -> W -> Prop).

(** ** Programs *)

(** From [w] on, every request of [p] is made with its guarantee, whatever others do
    before it and however it is answered; [Q] holds in the end. *)
Fixpoint secure (k : NamespacedName) {A} (p : kprog A) (w : W) (Q : A -> W -> Prop) : Prop :=
  match p with
  | Ret a => Q a w
  | @Vis _ _ R e c =>
      forall w1, ok w1 -> rely k w w1 ->
        guarantee k R e w1 /\ forall x w2, serves R e w1 x w2 -> ok w2 -> secure k (c x) w2 Q
  end.

Lemma secure_bind {A B} k (p : kprog A) (f : A -> kprog B) w Q :
  secure k p w (fun a w' => secure k (f a) w' Q) -> secure k (prog_bind p f) w Q.
Proof using Type.
  revert w. induction p as [a|R e c IH]; intros w; cbn; [done|]. intros Hs w1 Hok Hr.
  destruct (Hs w1 Hok Hr) as [Hg Hc]. split; [done|]. intros x w2 Hx Hok2. apply IH. by apply Hc.
Qed.

Lemma secure_mono {A} k (p : kprog A) w (Q Q' : A -> W -> Prop) :
  secure k p w Q -> (forall a w', Q a w' -> Q' a w') -> secure k p w Q'.
Proof using Type.
  revert w. induction p as [a|R e c IH]; intros w; cbn; [auto|]. intros Hs HQ w1 Hok Hr.
  destruct (Hs w1 Hok Hr) as [Hg Hc]. split; [done|]. eauto.
Qed.

(** Programs that make requests which need no care: what they return is one of their
    outcomes, and the world has changed as it may. *)
Lemma secure_everywhere {A} k (tame : forall R, KubeE R -> Prop) (p : kprog A) w (Q : A -> W -> Prop) :
  (forall R (e : KubeE R) w, tame R e -> guarantee k R e w) ->
  (forall R (e : KubeE R) w x w', ok w -> tame R e -> serves R e w x w' -> rely k w w') ->
  everywhere tame p -> (forall a tr w', exec p tr a -> rely k w w' -> Q a w') -> secure k p w Q.
Proof using rely_order.
  intros Hg Hrely. revert w. induction p as [a|R e c IH]; intros w Ht HQ; cbn.
  { eapply HQ; [constructor|done]. }
  destruct Ht as [He Hc]. intros w1 Hok Hr. split; [auto|]. intros x w2 Hx Hok2.
  apply IH; [done|]. intros a tr w' Hex Hr2. eapply HQ; [by constructor|].
  pose proof (Hrely _ _ _ _ _ Hok He Hx). etransitivity; [exact Hr|]. by etransitivity.
Qed.

Definition secured {A} (k : NamespacedName) (p : kprog A) (w : W) : Prop := secure k p w (fun _ _ => True).

(** ** The system *)

  Context (environment : W -> W -> Prop) (reconcile : NamespacedName -> kprog Outcome) (workers : nat).
  Hypothesis environment_ok : forall w w', ok w -> environment w w' -> ok w'.
  Hypothesis environment_rely : forall k w w', ok w -> environment w w' -> rely k w w'.
  Hypothesis serves_ok : forall k R (e : KubeE R) w x w', ok w -> guarantee k R e w -> serves R e w x w' -> ok w'.
  Hypothesis serves_rely : forall k k' R (e : KubeE R) w x w',
    ok w -> k' <> k -> guarantee k R e w -> serves R e w x w' -> rely k' w w'.
  Hypothesis reconcile_secured : forall k w, secured k (reconcile k) w.

Abbreviation step := (step environment serves reconcile workers).

Record safe (s : @system W) : Prop := {
  safe_world : ok (sys_world s);
  safe_system : @system_ok W workers s;
  safe_workers req p : (req, Reconciling p) ∈ sys_workers s ->
    exists w, rely req w (sys_world s) /\ secured req p w;
}.

(** The others' part of a step. *)
Lemma safe_others s w :
  safe s -> ok w -> (forall req a, (req, a) ∈ sys_workers s -> rely req (sys_world s) w) ->
  forall req p, (req, Reconciling p) ∈ sys_workers s -> exists w0, rely req w0 w /\ secured req p w0.
Proof using rely_order.
  intros [_ _ Hs] Hok Hr req p Hin. destruct (Hs req p Hin) as (w0 & Hr0 & Hsec). exists w0.
  split; [|done]. etransitivity; [exact Hr0|]. by eapply Hr.
Qed.

Lemma NoDup_middle {A B} (l1 l2 : list (A * B)) a b a' b' :
  NoDup (l1 ++ (a, b) :: l2).*1 -> (a', b') ∈ l1 ++ l2 -> a' <> a.
Proof using Type.
  intros Hnd Hin ->. rewrite fmap_app in Hnd. apply NoDup_app in Hnd as (_ & Hl & [Hl2 _]%NoDup_cons).
  apply elem_of_app in Hin as [Hin|Hin]; apply (list_elem_of_fmap_2 fst) in Hin; cbn in *; [|done].
  eapply Hl; [exact Hin|]. by left.
Qed.

(** A worker's next request is made with its guarantee. *)
Lemma safe_request s l1 req R (e : KubeE R) k l2 :
  safe s -> sys_workers s = l1 ++ (req, Reconciling (Vis e k)) :: l2 ->
  guarantee req R e (sys_world s) /\
  forall x w, serves R e (sys_world s) x w -> ok w -> secured req (k x) w.
Proof using Type.
  intros Hsafe Hl. destruct (safe_workers _ Hsafe req (Vis e k)) as (w0 & Hr0 & Hsec);
    [rewrite Hl; apply elem_of_app; right; by left|].
  exact (Hsec _ (safe_world _ Hsafe) Hr0).
Qed.

Lemma step_safe s a s' : safe s -> step s a s' -> safe s'.
Proof using All.
  intros Hsafe Hstep. pose proof (step_ok _ _ _ _ _ _ _ (safe_system _ Hsafe) Hstep) as Hsys.
  pose proof (safe_world _ Hsafe) as Hw. pose proof (safe_workers _ Hsafe) as Hs.
  destruct Hstep as [w Henv| | | | |req q Hl Hg|l1 req R e k l2 x w Hl Hx|l1 req o l2 bucket q limiter Hl Hre|l1 req l2 Hl| |];
    split; cbn in *; try done.
  - by eapply environment_ok.
  - apply (safe_others s); [done|by eapply environment_ok|]. intros. by apply environment_rely.
  - intros req' p [Hin|Hin]%elem_of_app; [by apply Hs|]. apply list_elem_of_singleton in Hin as [= -> ->].
    exists (sys_world s). split; [done|]. apply reconcile_secured.
  - destruct (safe_request _ _ _ _ _ _ _ Hsafe Hl) as [Hgu _]. by eapply serves_ok.
  - destruct (safe_request _ _ _ _ _ _ _ Hsafe Hl) as [Hgu Hc]. assert (ok w) as Hw' by by eapply serves_ok.
    pose proof (ok_workers _ _ (safe_system _ Hsafe)) as Hnd. rewrite Hl in Hnd.
    intros req' p' Hin. assert ((req', Reconciling p') = (req, Reconciling (k x)) \/ (req', Reconciling p') ∈ l1 ++ l2) as [[= -> ->]|Hin'] by set_solver.
    + exists w. split; [done|]. by apply Hc.
    + destruct (Hs req' p') as (w1 & Hr1 & Hsec1); [rewrite Hl; set_solver|]. exists w1. split; [|done].
      etransitivity; [exact Hr1|]. eapply serves_rely; [done| |exact Hgu|exact Hx]. by eapply NoDup_middle.
  - intros req' p' Hin. apply Hs. rewrite Hl. set_solver.
  - intros req' p' Hin. apply Hs. rewrite Hl. set_solver.
  - intros req' p' Hin. set_solver.
Qed.

Lemma start_safe w now : ok w -> safe (start_system w now).
Proof using Type. intros Hw. split; cbn; [done|apply start_ok|]. intros req p Hin. by apply elem_of_nil in Hin. Qed.

(** A step changes the world by the others, or by a request made with its guarantee. *)
Lemma step_world s a s' :
  safe s -> step s a s' ->
  sys_world s' = sys_world s \/ (a = Others /\ environment (sys_world s) (sys_world s')) \/
  (a = Worker /\ exists k R (e : KubeE R) x, guarantee k R e (sys_world s) /\ serves R e (sys_world s) x (sys_world s')).
Proof using Type.
  intros Hsafe Hstep. destruct Hstep as [w Henv| | | | | |l1 req R e k l2 x w Hl Hx| | | |]; cbn; try (left; reflexivity).
  - right. left. by split.
  - right. right. split; [done|]. exists req, R, e, x. split; [|exact Hx].
    exact (proj1 (safe_request _ _ _ _ _ _ _ Hsafe Hl)).
Qed.
End world.
