(* ===== verification/ControllerRuns.v ===== *)
(** * Running the controller

    Runs of the controller of [Controller] with one worker, in any world for which there is
    a server that can be run: from one quiet moment to the next, requests are taken through
    the queue and answered by that server. *)

From S2P Require Import Prelude GoStrings GoErrors GoTime K8sTypes MustGatherV1 Effects KubeEffects WorkQueue RateLimiter Controller.

(** ** Quiet moments *)

(** A run up to a request that is not answered. *)
Fixpoint run_until {W A} (stop : forall R, KubeE R -> bool) (h : handler KubeE W) (p : kprog A) (w : W)
    : kprog A * W :=
  match p with
  | Ret a => (Ret a, w)
  | @Vis _ _ R e k => if stop R e then (Vis e k, w) else let '(x, w') := h R e w in run_until stop h (k x) w'
  end.

Section runs.
  Context {W : Type} (environment : W -> W -> Prop) (reconcile : NamespacedName -> kprog Outcome).
  Variable sv : forall R, KubeE R -> W -> R -> W -> Prop.
  Variable stop : forall R, KubeE R -> bool.
  Variable h : handler KubeE W.
  Hypothesis h_serves : forall R (e : KubeE R) w, stop R e = false -> sv R e w (h R e w).1 (h R e w).2.
  Variables (start : W) (now : Z).

Abbreviation reaches := (reachable environment sv reconcile 1 start now).

(** With nothing queued and no worker busy, others may act, or one request may be
    taken through the queue and [Reconcile]. *)
Lemma reaches_environment w w' :
  reaches (start_system w now) -> environment w w' -> reaches (start_system w' now).
Proof. intros Hr He. eapply reach_step; [exact Hr|]. by apply (step_environment _ _ _ _ (start_system w now)). Qed.

#[local] Set Default Proof Using "All".

Lemma reaches_requests q l1 req p l2 owed limiter w :
  reaches (mkSystem w q (l1 ++ (req, Reconciling p) :: l2) now owed limiter) ->
  reaches (mkSystem (run_until stop h p w).2 q
             (l1 ++ (req, Reconciling (run_until stop h p w).1) :: l2) now owed limiter).
Proof.
  revert w. induction p as [o|R e k IH]; intros w Hr; [done|]. cbn [run_until].
  destruct (stop R e) eqn:Hst; [done|].
  pose proof (h_serves R e w Hst) as Hs. destruct (h R e w) as [x w1]. cbn in Hs.
  apply IH. eapply reach_step; [exact Hr|].
  by eapply (step_request _ _ _ _ (mkSystem w q (l1 ++ (req, Reconciling (Vis e k)) :: l2) now owed limiter)).
Qed.

(** The queue while one request is in a worker's hands. *)
Definition taken (req : NamespacedName) : queue_of := mkDelaying (mkTyped [] ∅ {[req]} false) [] ∅.

Lemma reaches_taken w req :
  reaches (start_system w now) ->
  reaches (mkSystem (run_until stop h (reconcile req) w).2 (taken req)
             [(req, Reconciling (run_until stop h (reconcile req) w).1)] now ∅ DefaultControllerRateLimiter).
Proof.
  intros Hr.
  eapply reach_step in Hr; [|apply (step_event _ _ _ _ _ req)].
  eapply reach_step in Hr; [|eapply (step_get _ _ _ _ _ req); [cbn; lia|reflexivity]].
  cbn [sys_world sys_queue sys_workers sys_now sys_owed sys_limiter start_system] in Hr.
  apply (reaches_requests _ [] req _ []) in Hr. cbn [app] in Hr.
  match type of Hr with reachable _ _ _ _ _ _ (mkSystem _ ?q _ _ ?ow _) =>
    replace q with (taken req) in Hr; [replace ow with (∅ : gset NamespacedName) in Hr; [exact Hr|set_solver]|]
  end.
  unfold taken, on_Typed. cbn. f_equal. f_equal; set_solver.
Qed.

Lemma reaches_reconcile w req o w' :
  run_until stop h (reconcile req) w = (Ret o, w') -> comes_back o = false ->
  reaches (start_system w now) -> reaches (start_system w' now).
Proof.
  intros Hrun Ho Hr. apply (reaches_taken w req) in Hr. rewrite Hrun in Hr. cbn [fst snd] in Hr.
  assert (forall q : queue_of, requeue now 0 req o q DefaultControllerRateLimiter = (q, DefaultControllerRateLimiter)) as Hre.
  { intros q. unfold comes_back in Ho. destruct o as [res [e|]]; [done|]. apply orb_false_iff in Ho as [Ha Hb].
    unfold requeue. rewrite Ha, Hb. unfold Forget. cbn. by rewrite delete_empty. }
  eapply reach_step in Hr; [|eapply (step_handle _ _ _ _ _ [] req o [] 0); [done|apply Hre]].
  eapply reach_step in Hr; [|by apply (step_done _ _ _ _ _ [] req [])].
  cbn [sys_world sys_queue sys_workers sys_now sys_owed sys_limiter start_system app] in Hr. rewrite Ho in Hr.
  match type of Hr with reachable _ _ _ _ _ _ (mkSystem _ ?q _ _ _ _) =>
    replace q with (newDelayingQueue (T:=NamespacedName)) in Hr; [exact Hr|]
  end.
  unfold on_Typed, newDelayingQueue, newQueue, taken. cbn. f_equal.
  unfold Done. cbn. rewrite decide_False by set_solver. f_equal; set_solver.
Qed.
End runs.

(** Where every request is answered. *)
Definition answered (R : Type) (e : KubeE R) : bool := false.

Lemma run_until_answered {W A} (h : handler KubeE W) (p : kprog A) w : run_until answered h p w = (Ret (run h p w).1, (run h p w).2).
Proof. revert w. induction p as [a|R e k IH]; intros w; cbn; [done|]. destruct (h R e w) as [x w']. apply IH. Qed.
