(* ===== verification/Pacing.v ===== *)
(** * The pace of a failing request

    What the rate limiter and the delaying queue do together: until a request's
    delay is over only a watch can bring it back. *)

From S2P Require Import Prelude GoStrings GoErrors GoTime K8sTypes MustGatherV1 Effects KubeEffects.
From S2P Require Import Reconcile MemCluster Demo WorkQueue RateLimiter Controller ControllerRuns.

(** How long a call asks to wait, and what the limiter then counts. *)
Definition asked_delay (failures : nat) (o : Outcome) : Z :=
  let again := Z.min (5000000 * 2 ^ Z.of_nat failures) 1000000000000 in
  match o with
  | (_, Some _) => again
  | (result, None) => if (0 <? res_RequeueAfter result)%Z then res_RequeueAfter result else again
  end.

Definition failures_after (failures : nat) (o : Outcome) : nat :=
  match o with
  | (_, Some _) => S failures
  | (result, None) => if (0 <? res_RequeueAfter result)%Z then 0 else S failures
  end.

(** ** The limiter *)

Lemma max_When_delay {T} `{Countable T} bucket (item : T) r :
  default_delays r ->
  (Z.min (5000000 * 2 ^ Z.of_nat (NumRequeues item r)) 1000000000000 <= (max_When bucket item r).1)%Z.
Proof. intros [Hb Hm]. unfold max_When, When. rewrite Hb, Hm, backoff_min. cbn. lia. Qed.

Lemma max_When_default {T} `{Countable T} bucket (item : T) r :
  default_delays r -> default_delays (max_When bucket item r).2.
Proof. done. Qed.

(** What [requeue] counts. *)
Lemma requeue_counts now bucket req o (q : queue_of) (limiter : limiter_of) other :
  NumRequeues other (requeue now bucket req o q limiter).2 =
  if decide (req = other)
  then if comes_back o then failures_after (NumRequeues req limiter) o else 0
  else NumRequeues other limiter.
Proof.
  assert (forall q, NumRequeues other (AddRateLimited now bucket req q limiter).2 =
            if decide (req = other) then S (NumRequeues req limiter) else NumRequeues other limiter) as Hadd.
  { intros q1. rewrite <-(NumRequeues_When bucket). unfold AddRateLimited. by destruct (max_When _ _ _). }
  destruct o as [res [e|]]; cbn [requeue comes_back failures_after]; [apply Hadd|].
  destruct (0 <? res_RequeueAfter res)%Z; cbn [orb snd]; [by rewrite NumRequeues_Forget|].
  destruct (res_Requeue res); [apply Hadd|apply NumRequeues_Forget].
Qed.

Lemma requeue_default now bucket req o (q : queue_of) (limiter : limiter_of) :
  default_delays limiter -> default_delays (requeue now bucket req o q limiter).2.
Proof.
  intros Hd. destruct o as [res [e|]]; cbn [requeue]; [done|].
  destruct (0 <? res_RequeueAfter res)%Z; [done|]. by destruct (res_Requeue res).
Qed.

(** ** The queue *)

(** Nothing brings the request to a worker before [T]. *)
Record not_before (T : Z) (req : NamespacedName) (q : queue_of) : Prop := {
  nb_dirty : req ∉ q_dirty (dq_Typed q);
  nb_channel : forall t, (req, t) ∈ dq_waitingForAddCh q -> (T <= t)%Z;
  nb_waiting : forall t, dq_waiting q !! req = Some t -> (T <= t)%Z;
}.

Lemma not_pending_before T req q : (req ∉ pending q) -> not_before T req q.
Proof.
  unfold pending. intros Hn. split; [set_solver| |].
  - intros t Ht. exfalso. apply Hn, elem_of_union_r, elem_of_list_to_set, list_elem_of_fmap. by exists (req, t).
  - intros t Ht%elem_of_dom_2. set_solver.
Qed.

Lemma not_before_le T T' req q : (T' <= T)%Z -> not_before T req q -> not_before T' req q.
Proof. intros Hle [Hd Hc Hw]. split; [done|..]; intros t Ht; [apply Hc in Ht|apply Hw in Ht]; lia. Qed.

Lemma Add_other item req (q : Typed NamespacedName) : item <> req -> req ∉ q_dirty q -> req ∉ q_dirty (Add item q).
Proof. intros Hne Hn. unfold Add. destruct (q_shuttingDown q); [done|]. repeat case_decide; cbn; set_solver. Qed.

Lemma not_before_Add T req item q : item <> req -> not_before T req q -> not_before T req (on_Typed (Add item) q).
Proof. intros Hne []. split; cbn; [by apply Add_other|done..]. Qed.

Lemma not_before_AddAfter T req now item delay q :
  (item = req -> 0 < delay /\ T <= now + delay)%Z -> not_before T req q -> not_before T req (AddAfter now item delay q).
Proof.
  intros Hi Hq. unfold AddAfter. destruct (q_shuttingDown _); [done|].
  destruct (Z.leb_spec delay 0).
  - apply not_before_Add; [|done]. intros Heq. specialize (Hi Heq). lia.
  - destruct Hq as [Hd Hc Hw]. split; cbn; [done| |done]. intros t [Ht|Ht%list_elem_of_singleton]%elem_of_app; [by apply Hc|].
    simplify_eq. by apply Hi.
Qed.

Lemma not_before_take T req now q q' :
  (now < T)%Z -> take_entry now q = Some q' -> not_before T req q -> not_before T req q'.
Proof.
  intros Hnow. unfold take_entry. destruct (dq_waitingForAddCh q) as [|[item t] ch] eqn:Hch; [done|].
  intros [= <-] [Hd Hc Hw]. rewrite Hch in Hc.
  assert (item = req -> (T <= t)%Z) as Ht by (intros ->; apply Hc; by left).
  assert (forall t', (req, t') ∈ ch -> (T <= t')%Z) as Hc' by (intros t' Ht'; apply Hc; by right).
  destruct (Z.ltb_spec now t); split; cbn; try done.
  - unfold insert_waiting. intros t'. destruct (decide (item = req)) as [->|Hne].
    + destruct (dq_waiting q !! req) as [old|] eqn:Hold; [specialize (Hw old eq_refl)|]; [destruct (t <? old)%Z|];
        intros ?; simplify_map_eq; auto.
    + destruct (dq_waiting q !! item); [destruct (t <? _)%Z|]; rewrite ?lookup_insert_ne by done; apply Hw.
  - apply Add_other; [|done]. intros Heq. specialize (Ht Heq). lia.
Qed.

Lemma not_before_ready T req now item t q :
  (now < T)%Z -> (t <= now)%Z -> dq_waiting q !! item = Some t -> not_before T req q -> not_before T req (add_ready item q).
Proof.
  intros Hnow Ht Hit [Hd Hc Hw].
  assert (item <> req) as Hne by (intros ->; specialize (Hw _ Hit); lia).
  split; cbn; [by apply Add_other|done|]. intros t'. rewrite lookup_delete_ne by done. apply Hw.
Qed.

(** A call that asks to come back waits at least as long as it asks. *)
Lemma not_before_requeue T req now bucket item o q (limiter : limiter_of) :
  default_delays limiter ->
  (item = req -> T <= now + asked_delay (NumRequeues req limiter) o)%Z ->
  not_before T req q -> not_before T req (requeue now bucket item o q limiter).1.
Proof.
  intros Hd Hi Hq.
  assert ((item = req -> T <= now + Z.min (5000000 * 2 ^ Z.of_nat (NumRequeues req limiter)) 1000000000000)%Z ->
          not_before T req (AddRateLimited now bucket item q limiter).1) as Hadd.
  { intros Hle. unfold AddRateLimited. pose proof (max_When_delay bucket item limiter Hd) as Hm.
    destruct (max_When bucket item limiter) as [delay limiter']. cbn in *. apply not_before_AddAfter; [|done].
    intros ->. specialize (Hle eq_refl). lia. }
  destruct o as [res [e|]]; cbn [requeue asked_delay] in *; [by apply Hadd|].
  destruct (Z.ltb_spec 0 (res_RequeueAfter res)); [|by destruct (res_Requeue res); [apply Hadd|]].
  apply not_before_AddAfter; [|done]. auto.
Qed.

(** ** The controller *)

#[local] Set Default Proof Using "All".

Section pacing.
  Context {W : Type} (environment : W -> W -> Prop).
  Context (serves : forall R, KubeE R -> W -> R -> W -> Prop).
  Context (reconcile : NamespacedName -> kprog Outcome) (MaxConcurrentReconciles : nat).

Abbreviation system := (@Controller.system W).
Abbreviation step := (step environment serves reconcile MaxConcurrentReconciles).
Abbreviation reachable := (reachable environment serves reconcile MaxConcurrentReconciles).

Lemma reachable_default w now s : reachable w now s -> default_delays (sys_limiter s).
Proof.
  induction 1 as [|s a s' _ IH Hs]; [done|]. destruct Hs; cbn; try done.
  pose proof (requeue_default (sys_now s) bucket req o (sys_queue s) _ IH) as Hd. by rewrite H0 in Hd.
Qed.

(** A watch adds a request. *)
Definition watch_adds (req : NamespacedName) (s : system) : system :=
  mkSystem (sys_world s) (on_Typed (Add req) (sys_queue s)) (sys_workers s) (sys_now s) ({[req]} ∪ sys_owed s)
    (sys_limiter s).

(** Anything but a watch that adds the request, and a stop of the process. *)
Inductive quiet (req : NamespacedName) (s s' : system) : Prop :=
| quiet_step a : a <> Watch -> a <> Process -> step s a s' -> quiet req s s'
| quiet_watch other : other <> req -> s' = watch_adds other s -> quiet req s s'.

(** A request that has been handled and waits until [T], having failed [n] times in a row. *)
Record paced (T : Z) (n : nat) (req : NamespacedName) (s : system) : Prop := {
  paced_queue : not_before T req (sys_queue s);
  paced_handled : forall a, (req, a) ∈ sys_workers s -> a = Handled;
  paced_count : NumRequeues req (sys_limiter s) = n;
  paced_default : default_delays (sys_limiter s);
}.

Lemma quiet_steps req s s' : quiet req s s' -> exists a, step s a s'.
Proof. intros [a _ _ Hs|other _ ->]; [by exists a|]. exists Watch. apply step_event. Qed.

Lemma quiet_now req s s' : quiet req s s' -> (sys_now s <= sys_now s')%Z.
Proof. intros [a Hwa Hpr Hs|other _ ->]; [|done]. by destruct Hs. Qed.

(** The workers of a request have handed back their outcome, whatever the others do. *)
Lemma handled_replace (req other : NamespacedName) act act' l1 l2 :
  (other = req -> act' = Handled) ->
  (forall a, (req, a) ∈ l1 ++ (other, act) :: l2 -> a = Handled) ->
  forall a, (req, a) ∈ l1 ++ (other, act') :: l2 -> a = Handled.
Proof.
  intros Ha Hh a [Hin|[Heq|Hin]%elem_of_cons]%elem_of_app; [|simplify_eq; auto|]; apply Hh; set_solver.
Qed.

Lemma paced_quiet T n req s s' :
  (sys_now s' < T)%Z -> system_ok MaxConcurrentReconciles s -> quiet req s s' -> paced T n req s -> paced T n req s'.
Proof.
  intros Hnow Hok Hq Hp. pose proof (quiet_now _ _ _ Hq) as Hmon. pose proof Hp as [Hb Hh Hc Hd].
  destruct Hq as [a Hwa Hpr Hs|other Hne ->]; [|by split; [apply not_before_Add|..]].
  destruct Hs as [w _|now _|other|q Ht|other t [Ht _] Hle|other q _ Hg
    |l1 other R e k l2 x w Hl _|l1 other o l2 bucket q limiter Hl Hre|l1 other l2 Hl| |];
    cbn [sys_world sys_queue sys_workers sys_now sys_owed sys_limiter on_queue] in Hnow, Hmon.
  1, 2: by split.
  - done.
  - split; [by apply (not_before_take T req (sys_now s) (sys_queue s))|done..].
  - split; [by apply (not_before_ready T req (sys_now s) other t)|done..].
  - pose proof (proj2 (ok_queue _ _ Hok)) as Hqu. unfold Get_item in Hg.
    destruct (q_queue (dq_Typed (sys_queue s))) as [|it rest] eqn:Hqq; [by destruct (q_shuttingDown _)|]. simplify_eq.
    destruct Hb as [Hbd Hbc Hbw].
    assert (other <> req) as Hne by (intros ->; apply Hbd, Hqu; by left).
    split; cbn; [split; cbn; [set_solver|done..]| |done..].
    intros a' [Ha'|Ha'%list_elem_of_singleton]%elem_of_app; [by apply Hh|congruence].
  - rewrite Hl in Hh. split; cbn; [done| |done..]. eapply handled_replace; [|exact Hh].
    intros ->. exfalso. assert (Reconciling (Vis e k) = Handled) by (apply Hh; set_solver). done.
  - rewrite Hl in Hh.
    assert (other <> req) as Hne by (intros ->; assert (Reconciling (Ret o) = Handled) by (apply Hh; set_solver); done).
    pose proof (requeue_counts (sys_now s) bucket other o (sys_queue s) (sys_limiter s) req) as Hcnt.
    pose proof (requeue_default (sys_now s) bucket other o (sys_queue s) (sys_limiter s) Hd) as Hdef.
    pose proof (not_before_requeue T req (sys_now s) bucket other o (sys_queue s) (sys_limiter s) Hd ltac:(done) Hb) as Hnb.
    rewrite Hre in Hcnt, Hdef, Hnb. rewrite decide_False in Hcnt by done.
    split; cbn; [done|by eapply handled_replace|by rewrite <-Hc|done].
  - destruct (Done_rest other (dq_Typed (sys_queue s))) as (Hdi & _ & _). destruct Hb as [Hbd Hbc Hbw].
    rewrite Hl in Hh. split; cbn; [split; cbn; [by rewrite Hdi|done..]| |done..].
    intros a' Ha'. apply Hh. set_solver.
  - done.
  - done.
Qed.

Lemma paced_run T n req s s' :
  system_ok MaxConcurrentReconciles s -> paced T n req s -> rtc (quiet req) s s' -> (sys_now s' < T)%Z ->
  system_ok MaxConcurrentReconciles s' /\ paced T n req s'.
Proof.
  intros Hok Hp Hr. induction Hr as [s|s s1 s' Hq Hr IH]; [done|]. intros Hnow.
  assert (sys_now s1 <= sys_now s')%Z as Hle.
  { clear -Hr. induction Hr as [|s1 s2 s3 Hq _ IH]; [done|]. pose proof (quiet_now _ _ _ Hq). lia. }
  destruct (quiet_steps _ _ _ Hq) as [a Hs]. apply IH; [by eapply step_ok|apply (paced_quiet T n req s); [lia|done..]|done].
Qed.

(** A call that comes back, of a request that nothing else has asked for. *)
Lemma handled_paced s l1 req o l2 bucket q limiter :
  system_ok MaxConcurrentReconciles s -> default_delays (sys_limiter s) ->
  sys_workers s = l1 ++ (req, Reconciling (Ret o)) :: l2 -> comes_back o = true -> (req ∉ pending (sys_queue s)) ->
  requeue (sys_now s) bucket req o (sys_queue s) (sys_limiter s) = (q, limiter) ->
  let n := NumRequeues req (sys_limiter s) in
  paced (sys_now s + asked_delay n o) (failures_after n o) req
    (mkSystem (sys_world s) q (l1 ++ (req, Handled) :: l2) (sys_now s) ({[req]} ∪ sys_owed s) limiter).
Proof.
  intros Hok Hd Hl Hcb Hpe Hre n.
  pose proof (requeue_counts (sys_now s) bucket req o (sys_queue s) (sys_limiter s) req) as Hcnt.
  pose proof (requeue_default (sys_now s) bucket req o (sys_queue s) (sys_limiter s) Hd) as Hdef.
  pose proof (not_before_requeue (sys_now s + asked_delay n o) req (sys_now s) bucket req o (sys_queue s) (sys_limiter s)
                Hd ltac:(subst n; lia) (not_pending_before _ _ _ Hpe)) as Hnb.
  rewrite Hre in Hcnt, Hdef, Hnb. rewrite decide_True, Hcb in Hcnt by done. split; [done| |done..].
  cbn. pose proof (ok_workers _ _ Hok) as Hnd. rewrite Hl, fmap_app in Hnd. cbn in Hnd.
  apply NoDup_app in Hnd as (_ & Hno & [Hno2 _]%NoDup_cons).
  intros a [Hin|[Heq|Hin]%elem_of_cons]%elem_of_app; [|congruence|].
  - exfalso. apply (Hno req); [|by left]. apply list_elem_of_fmap. by exists (req, a).
  - exfalso. apply Hno2. apply list_elem_of_fmap. by exists (req, a).
Qed.
End pacing.

(** C38: A failing request is paced.  Take any state the controller can come to in which a
    call of [Reconcile] has ended with an error, or asks to come back, for a request that
    failed [n] times in a row before and that nothing has asked for since it was taken.
    After an error, no call for that request is under way again before 5 ms doubled [n]
    times have passed, or 1000 s if that is less, and when they have, [n + 1] failures
    are counted; after a call that named a delay of its own, that delay has passed and no
    failure is counted.  Whatever the world, the other workers, the token bucket and the
    clock do meanwhile: only a watch that adds the request itself, or a stop of the
    process, brings it back earlier. *)
Theorem failing_request_is_paced `{UnicodeTables} {W : Type} environment serves r workers (w : W) now
    s l1 req o l2 bucket q limiter s' :
  reachable environment serves (Reconcile r) workers w now s ->
  sys_workers s = l1 ++ (req, Reconciling (Ret o)) :: l2 -> comes_back o = true -> (req ∉ pending (sys_queue s)) ->
  requeue (sys_now s) bucket req o (sys_queue s) (sys_limiter s) = (q, limiter) ->
  rtc (quiet environment serves (Reconcile r) workers req)
    (mkSystem (sys_world s) q (l1 ++ (req, Handled) :: l2) (sys_now s) ({[req]} ∪ sys_owed s) limiter) s' ->
  let n := NumRequeues req (sys_limiter s) in
  (sys_now s' < sys_now s + asked_delay n o)%Z ->
  (forall p, (req, Reconciling p) ∉ sys_workers s') /\ NumRequeues req (sys_limiter s') = failures_after n o.
Proof.
  intros Hs Hl Hcb Hpe Hre Hr n Hnow. pose proof (reachable_ok _ _ _ _ _ _ _ Hs) as Hok.
  pose proof (reachable_default _ _ _ _ _ _ _ Hs) as Hd.
  pose proof (step_handle environment serves (Reconcile r) workers s l1 req o l2 bucket q limiter Hl Hre) as Hstep.
  rewrite Hcb in Hstep.
  pose proof (handled_paced environment serves (Reconcile r) workers s l1 req o l2 bucket q limiter Hok Hd Hl Hcb Hpe Hre) as Hp.
  eapply step_ok in Hstep; [|exact Hok].
  destruct (paced_run environment serves (Reconcile r) workers _ _ req _ s' Hstep Hp Hr Hnow) as [_ [_ Hh Hc _]].
  split; [|exact Hc]. intros p Hin%Hh. done.
Qed.

#[local] Existing Instance ascii_tables.

(** A server that does not answer reads. *)
Definition unreadable : handler KubeE cluster :=
  fun R e c =>
    match e in KubeE R return R * cluster with
    | Get _ _ => (inl (errorString "timeout"), c)
    | e => mem_handle _ e c
    end.

Definition unread : Outcome * cluster := run unreadable (Reconcile demo_reconciler demo_key) demo_start.

Lemma unread_fails : exists res e, unread.1 = (res, Some e).
Proof. eexists _, _. vm_compute. reflexivity. Qed.

(** The first failure of a request, seen again just before its 5 ms are over. *)
Lemma failing_request_is_paced_witness :
  let serves := fun R (e : KubeE R) (c : cluster) x c' => (x, c') = unreadable R e c in
  let failed := (mkDelaying (mkTyped [] ∅ ∅ false) [] {[demo_key := 5000000%Z]} : queue_of) in
  let s' := mkSystem unread.2 failed [] 4999999 {[demo_key]}
              (mkExponential {[demo_key := 1]} 5000000%Z 1000000000000%Z) in
  (forall p, (demo_key, Reconciling p) ∉ sys_workers s') /\ NumRequeues demo_key (sys_limiter s') = 1.
Proof.
  intros serves failed s'.
  pose proof (reach_start (fun _ _ => False) serves (Reconcile demo_reconciler) 1 demo_start 0) as Hr.
  apply (reaches_taken _ _ serves answered unreadable) with (req := demo_key) in Hr.
  2: { intros R e c _. unfold serves. by destruct (unreadable R e c). }
  rewrite run_until_answered in Hr. fold unread in Hr. cbn [fst snd] in Hr.
  destruct unread_fails as (res & e & He). rewrite He in Hr. clear He. subst s'. revert Hr. generalize unread.2 as w'.
  intros w' Hr.
  refine (failing_request_is_paced _ _ demo_reconciler 1 demo_start 0 _ [] demo_key (res, Some e) [] 0
            (mkDelaying (mkTyped [] ∅ {[demo_key]} false) [(demo_key, 5000000%Z)] ∅)
            (mkExponential {[demo_key := 1]} 5000000%Z 1000000000000%Z) _ Hr _ _ _ _ _ _).
  - reflexivity.
  - reflexivity.
  - cbn. set_solver.
  - vm_compute. reflexivity.
  - eapply rtc_l; [apply (quiet_step _ _ _ _ _ _ _ Worker); [done..|]; by apply (step_done _ _ _ _ _ [] demo_key [])|].
    eapply rtc_l; [apply (quiet_step _ _ _ _ _ _ _ Queue); [done..|]; by eapply step_take|].
    eapply rtc_l; [apply (quiet_step _ _ _ _ _ _ _ Clock); [done..|]; by apply (step_tick _ _ _ _ _ 4999999)|].
    cbn [sys_world sys_queue sys_workers sys_now sys_owed sys_limiter on_queue app].
    match goal with |- rtc _ (mkSystem _ ?q _ _ ?ow _) _ =>
      replace ow with ({[demo_key]} : gset NamespacedName) by set_solver; replace q with failed by done
    end.
    done.
  - vm_compute. reflexivity.
Defined.
