(* ===== verification/Interleaving.v ===== *)
(** * Many reconciles at once

    Rely and guarantee for the reconciler in the world of [World]: what a worker may
    count on while others act, what it must see to before each of its requests, and
    why the workers do not disturb each other.  That [Reconcile] does its part is
    shown in ReconcileRely. *)

From S2P Require Import Prelude GoStrings GoErrors GoTime K8sTypes MustGatherV1 Effects KubeEffects.
From S2P Require Import ApiServer Conditions OperatorUtils Template MustGatherUtil TrustedCA Cleanup SftpValidation.
From S2P Require Import Reconcile World.

(** ** The invariant of the world *)

Definition known_as (w : world) (k : NamespacedName) (o : MustGather) : Prop :=
  mg_key o = k /\ w_uids w !! mg_UID o = Some k /\ w_versions w !! mg_version o = Some o.

Section interleaving.
  (** Whether reads of Jobs are up to date. *)
  Variable fresh_jobs : bool.

Record world_ok (w : world) : Prop := {
  ok_store k o : w_mg w !! k = Some o -> known_as w k o;
  ok_cache k o : w_cache w !! k = Some o -> known_as w k o;
  ok_dying k o : w_mg w !! k = Some o \/ w_cache w !! k = Some o -> mg_UID o ∈ w_dying w -> mg_dying o = true;
  ok_shown k o : w_cache w !! k = Some o -> mg_dying o = true -> mg_UID o ∈ w_dying w;
  ok_issued u : u ∈ w_dying w -> is_Some (w_uids w !! u);
  ok_released u : u ∈ w_released w -> u ∈ w_dying w;
  ok_job_key k j : w_job w !! k = Some j -> job_key j = k;
  ok_jobs k j u k' : w_job w !! k = Some j -> owns_job u j = true -> w_uids w !! u = Some k' -> k' = k;
  ok_clean u : fresh_jobs = true -> u ∈ w_released w -> no_live_job u w;
}.

Lemma empty_world_ok : world_ok empty_world.
Proof. split; cbn; try set_solver. all: intros; simplify_map_eq; naive_solver. Qed.

(** ** What a worker counts on *)

(** [rely k w w']: from [w] to [w'] others have acted, for the worker of [k]. *)
Record rely (k : NamespacedName) (w w' : world) : Prop := {
  rely_uids u k' : w_uids w !! u = Some k' -> w_uids w' !! u = Some k';
  rely_versions v o : w_versions w !! v = Some o -> w_versions w' !! v = Some o;
  rely_dying u : u ∈ w_dying w -> u ∈ w_dying w';
  rely_released u : w_uids w !! u = Some k -> u ∈ w_released w' -> u ∈ w_released w;
  rely_jobs u : w_uids w !! u = Some k -> no_live_job u w -> no_live_job u w';
}.

#[global] Instance rely_preorder k : PreOrder (rely k).
Proof.
  split; [by split|]. intros w1 w2 w3 [] []. split; eauto.
Qed.

(** What a worker sees to before it makes a request. *)
Definition guarantee (k : NamespacedName) (R : Type) (e : KubeE R) (w : world) : Prop :=
  match e with
  | Create KJob o =>
      job_key o = k /\
      exists u, w_uids w !! u = Some k /\ (u ∉ w_released w) /\ forall u', owns_job u' o = true -> u' = u
  | Update KMustGather o =>
      mg_key o = k /\
      forall cur new, w_mg w !! mg_key o = Some cur -> mg_version o = mg_version cur -> updates o cur new ->
        releases cur new = true -> mg_UID cur ∈ w_dying w /\ (fresh_jobs = true -> no_live_job (mg_UID cur) w)
  | Create KMustGather _ | Delete KMustGather _ | Update KJob _ => False
  | _ => True
  end.

(** Requests that need no care. *)
Definition tame (R : Type) (e : KubeE R) : Prop :=
  match e with
  | Create KJob _ | Create KMustGather _ | Update KMustGather _ | Update KJob _ | Delete KMustGather _ => False
  | _ => True
  end.

Lemma tame_guarantee k R (e : KubeE R) w : tame R e -> guarantee k R e w.
Proof. by destruct e as [| |[]|[]| |[]| | | | | |]. Qed.

(** ** Steps of the world *)

Lemma set_jobs_delete_ok w k : world_ok w -> world_ok (set_jobs (delete k) w).
Proof.
  intros []. split; cbn; eauto; unfold no_live_job; cbn.
  - intros k' j Hj. rewrite lookup_delete_Some in Hj. naive_solver.
  - intros k' j u k'' Hj. rewrite lookup_delete_Some in Hj. naive_solver.
  - intros u Hf Hu k' j Hj. rewrite lookup_delete_Some in Hj. unfold no_live_job in *. naive_solver.
Qed.

Lemma no_live_job_delete u w k : no_live_job u w -> no_live_job u (set_jobs (delete k) w).
Proof. intros Hn k' j Hj. cbn in Hj. rewrite lookup_delete_Some in Hj. naive_solver. Qed.

(** A Job put in the place of another, or in none. *)
Lemma set_jobs_insert_ok w k j :
  world_ok w -> job_key j = k ->
  (forall u k', owns_job u j = true -> w_uids w !! u = Some k' ->
     k' = k /\ (fresh_jobs = true -> job_dying j = true \/ (u ∉ w_released w))) ->
  world_ok (set_jobs (insert k j) w).
Proof.
  intros [] Hkey Hj. split; cbn; eauto; unfold no_live_job in *; cbn.
  - intros k1 j1 Hl. destruct (decide (k1 = k)) as [->|]; simplify_map_eq; eauto.
  - intros k1 j1 u k2 Hl Ho Hu. destruct (decide (k1 = k)) as [->|]; simplify_map_eq; [by eapply Hj|eauto].
  - intros u Hf Hu k1 j1 Hl Ho. destruct (decide (k1 = k)) as [->|]; simplify_map_eq; [|eauto].
    destruct (ok_issued0 u) as [k' Hk']; [auto|]. destruct (Hj u k' Ho Hk') as [_ [?|?]]; [done..|set_solver].
Qed.

Lemma no_live_job_insert u w k j :
  (owns_job u j = true -> job_dying j = true) -> no_live_job u w -> no_live_job u (set_jobs (insert k j) w).
Proof.
  intros Hj Hn k' j' Hl Ho. cbn in Hl. destruct (decide (k' = k)) as [->|]; simplify_map_eq; [auto|eauto].
Qed.

Lemma no_live_job_same u w w' : w_job w' = w_job w -> no_live_job u w -> no_live_job u w'.
Proof. unfold no_live_job. by intros ->. Qed.

(** What is known stays known while the ghosts grow. *)
Lemma known_as_mono w w' k o :
  w_uids w ⊆ w_uids w' -> w_versions w ⊆ w_versions w' -> known_as w k o -> known_as w' k o.
Proof. intros Hu Hv (? & ? & ?). split_and!; [done|by eapply lookup_weaken..]. Qed.

Lemma write_mg_ok w cur new released :
  world_ok w -> w_mg w !! mg_key new = Some cur -> mg_UID new = mg_UID cur -> w_versions w !! mg_version new = None ->
  (mg_dying cur = true -> mg_dying new = true) ->
  (forall u, u ∈ released -> u = mg_UID cur /\ (u ∈ w_dying w) /\ (fresh_jobs = true -> no_live_job u w)) ->
  world_ok (write_mg new released w).
Proof.
  intros Hok Hcur Huid Hv Hdy Hrel. pose proof (ok_store _ Hok _ _ Hcur) as (Hk & Hu & _).
  assert (forall k o, w_mg (write_mg new released w) !! k = Some o -> o = new /\ k = mg_key new \/ w_mg w !! k = Some o) as Hmg.
  { intros k o. cbn. destruct (finalized _); [rewrite lookup_delete_Some; naive_solver|].
    rewrite lookup_insert_Some. naive_solver. }
  assert (forall k o, known_as w k o -> known_as (write_mg new released w) k o) as Hka.
  { intros k o. apply known_as_mono; cbn; [done|by apply insert_subseteq]. }
  destruct Hok. split; cbn [w_cache w_job w_job_cache w_uids w_versions w_dying w_released write_mg]; eauto.
  - intros k o [[-> ->]|Ho]%Hmg; [|auto]. split_and!; [done|by rewrite Huid|cbn; by simplify_map_eq].
  - intros k o [[[-> ->]|Ho]%Hmg|Ho]; eauto. rewrite Huid. eauto.
  - intros u [?%Hrel|?]%elem_of_union; [naive_solver|auto].
  - intros u Hf Hu'. apply (no_live_job_same u w); [done|]. apply elem_of_union in Hu' as [?%Hrel|?]; [naive_solver|auto].
Qed.

Lemma write_mg_rely w k new released :
  w_versions w !! mg_version new = None -> (forall u, u ∈ released -> w_uids w !! u <> Some k) ->
  rely k w (write_mg new released w).
Proof.
  intros Hv Hrel. split; cbn; eauto.
  - intros v o Ho. rewrite lookup_insert_ne; congruence.
  - intros u Hu [Hr|?]%elem_of_union; [by apply Hrel in Hr|done].
Qed.

(** ** Steps of the others *)

Lemma create_ok w o :
  world_ok w -> w_uids w !! mg_UID o = None -> w_versions w !! mg_version o = None -> mg_dying o = false ->
  (forall k j, w_job w !! k = Some j -> owns_job (mg_UID o) j = false) ->
  world_ok (mkWorld (<[mg_key o := o]> (w_mg w)) (w_cache w) (w_job w) (w_job_cache w)
    (<[mg_UID o := mg_key o]> (w_uids w)) (<[mg_version o := o]> (w_versions w)) (w_dying w) (w_released w)).
Proof.
  intros Hok Hu Hv Hd Hj. set (w' := mkWorld _ _ _ _ _ _ _ _).
  assert (forall k o, known_as w k o -> known_as w' k o) as Hka.
  { intros k o'. apply known_as_mono; cbn; by apply insert_subseteq. }
  destruct Hok. split; cbn; eauto.
  - intros k o'. rewrite lookup_insert_Some. intros [[<- <-]|[Hne Ho]]; [|auto]. split_and!; cbn; by simplify_map_eq.
  - intros k o'. rewrite lookup_insert_Some. intros [[[<- <-]|[Hne Ho]]|Ho] Hdy; [|eauto..].
    destruct (ok_issued0 _ Hdy). congruence.
  - intros u Hdy. destruct (ok_issued0 _ Hdy) as [k Hk']. exists k. rewrite lookup_insert_ne; congruence.
  - intros k j u k' Hl Ho. rewrite lookup_insert_Some. intros [[<- <-]|[_ Hu']]; [|eauto].
    rewrite (Hj _ _ Hl) in Ho. done.
Qed.

Lemma sync_ok w k :
  world_ok w ->
  world_ok (mkWorld (w_mg w) (partial_alter (fun _ => w_mg w !! k) k (w_cache w)) (w_job w) (w_job_cache w)
    (w_uids w) (w_versions w)
    (match w_mg w !! k with
     | Some o => if mg_dying o then {[mg_UID o]} ∪ w_dying w else w_dying w
     | None => w_dying w
     end) (w_released w)).
Proof.
  intros []. set (dying := match w_mg w !! k with Some _ => _ | None => _ end).
  assert (forall k' o, partial_alter (fun _ => w_mg w !! k) k (w_cache w) !! k' = Some o ->
    w_mg w !! k' = Some o \/ k' <> k /\ w_cache w !! k' = Some o) as Hca.
  { intros k' o. destruct (decide (k = k')) as [->|]; [rewrite lookup_partial_alter_eq|rewrite lookup_partial_alter_ne by done]; auto. }
  assert (forall u, u ∈ dying ->
    (u ∈ w_dying w) \/ exists o, w_mg w !! k = Some o /\ mg_dying o = true /\ u = mg_UID o) as Hdy.
  { intros u. unfold dying. destruct (w_mg w !! k) as [o|]; [|auto]. destruct (mg_dying o) eqn:?; [|auto]. set_solver. }
  assert (w_dying w ⊆ dying) as Hsub.
  { unfold dying. destruct (w_mg w !! k) as [o|]; [|done]. destruct (mg_dying o); set_solver. }
  split; cbn; eauto.
  - intros k' o [?|[_ ?]]%Hca; eauto.
  - intros k' o Ho Hin. assert (w_mg w !! k' = Some o \/ k' <> k /\ w_cache w !! k' = Some o) as Ho' by naive_solver.
    apply Hdy in Hin as [Hin|(o1 & Ho1 & Hd1 & Hu1)]; [naive_solver|].
    destruct (ok_store0 _ _ Ho1) as (_ & Hk1 & _). rewrite <-Hu1 in Hk1. destruct Ho' as [Ho'|[Hne Ho']].
    + destruct (ok_store0 _ _ Ho') as (_ & Hk2 & _). congruence.
    + destruct (ok_cache0 _ _ Ho') as (_ & Hk2 & _). congruence.
  - intros k' o. destruct (decide (k = k')) as [<-|]; [rewrite lookup_partial_alter_eq|rewrite lookup_partial_alter_ne by done].
    + intros Ho Hd. unfold dying. rewrite Ho, Hd. set_solver.
    + intros Ho Hd. apply Hsub. eauto.
  - intros u [?|(o & Ho & _ & ->)]%Hdy; [auto|]. destruct (ok_store0 _ _ Ho) as (_ & ? & _). by eexists.
Qed.

Lemma environment_ok w w' : world_ok w -> environment w w' -> world_ok w'.
Proof.
  intros Hok He. destruct He as [o Hk Hu Hv Hd Hj|cur o Hcur Hu Hv Hd|k|k|j Hn Hj|cur j Hcur Hj Hd|k|k].
  - by apply create_ok.
  - eapply write_mg_ok; eauto. set_solver.
  - destruct Hok. split; cbn; eauto; intros k'; intros; rewrite lookup_delete_Some in *; naive_solver.
  - by apply sync_ok.
  - apply set_jobs_insert_ok; [done..|]. intros u k' Ho Hk. rewrite (Hj u Ho) in Hk. done.
  - apply set_jobs_insert_ok; [done..|]. intros u k' Ho Hk. destruct (Hj u Ho) as [Hn|Hc]; [congruence|].
    split; [by eapply ok_jobs|]. intros Hf. destruct (decide (u ∈ w_released w)) as [Hr|]; [|auto].
    left. apply Hd. by eapply ok_clean.
  - by apply set_jobs_delete_ok.
  - by destruct Hok.
Qed.

Lemma environment_rely k w w' : environment w w' -> rely k w w'.
Proof.
  intros He. destruct He as [o Hk Hu Hv Hd Hj|cur o Hcur Hu Hv Hd|k'|k'|j Hn Hj|cur j Hcur Hj Hd|k'|k'].
  - split; cbn; eauto; intros; rewrite lookup_insert_ne; congruence.
  - apply write_mg_rely; [done|set_solver].
  - by split.
  - split; cbn; eauto. intros u ?. destruct (w_mg w !! k') as [o|]; [|done]. destruct (mg_dying o); set_solver.
  - split; cbn; eauto. intros u Hu. apply no_live_job_insert. intros Ho. rewrite (Hj u Ho) in Hu. done.
  - split; cbn; eauto. intros u Hu Hn. apply no_live_job_insert; [|done]. intros Ho. apply Hd.
    destruct (Hj u Ho); [congruence|eauto].
  - split; cbn; eauto. intros u _. apply no_live_job_delete.
  - by split.
Qed.

(** ** Jobs of an instance that was let go of *)

Definition live_job (u : string) (k : NamespacedName) (w : world) : Prop :=
  exists j, w_job w !! k = Some j /\ owns_job u j = true /\ job_dying j = false.

(** They do not become more. *)
Definition no_new_jobs (w w' : world) : Prop :=
  w_released w ⊆ w_released w' /\
  forall u k, u ∈ w_released w -> live_job u k w' -> live_job u k w.

Lemma no_new_jobs_same w w' : w_released w ⊆ w_released w' -> w_job w' = w_job w -> no_new_jobs w w'.
Proof. intros Hr Hj. split; [done|]. unfold live_job. by rewrite Hj. Qed.

Lemma no_new_jobs_delete w k : no_new_jobs w (set_jobs (delete k) w).
Proof.
  split; [done|]. intros u k' _ (j & Hl & Ho & Hd). cbn in Hl. apply lookup_delete_Some in Hl as [_ Hl].
  by exists j.
Qed.

Lemma no_new_jobs_insert w k j :
  (forall u, u ∈ w_released w -> owns_job u j = true -> job_dying j = false -> live_job u k w) ->
  no_new_jobs w (set_jobs (insert k j) w).
Proof.
  intros Hj. split; [done|]. intros u k' Hu (j' & Hl & Ho & Hd). cbn in Hl.
  destruct (decide (k' = k)) as [->|]; simplify_map_eq; [by apply Hj|by exists j'].
Qed.

Lemma released_known w u : world_ok w -> u ∈ w_released w -> w_uids w !! u <> None.
Proof. intros Hok Hu. destruct (ok_issued _ Hok u); [by apply ok_released|]. congruence. Qed.

Lemma environment_no_new_jobs w w' : world_ok w -> environment w w' -> no_new_jobs w w'.
Proof.
  intros Hok He. destruct He as [| | | |j Hn Hj|cur j Hcur Hj Hd|k|]; try (by apply no_new_jobs_same; cbn; set_solver).
  - apply no_new_jobs_insert. intros u Hu Ho. by destruct (released_known w u Hok Hu); apply Hj.
  - apply no_new_jobs_insert. intros u Hu Ho Hdj. exists cur. split; [done|].
    destruct (Hj u Ho) as [Hn|Hc]; [by destruct (released_known w u)|].
    split; [done|]. destruct (job_dying cur) eqn:Hdc; [|done]. by rewrite Hd in Hdj.
  - apply no_new_jobs_delete.
Qed.

(** ** Steps of the operator *)

Abbreviation serves := (serves fresh_jobs).

Lemma delete_job_ok w k cur cur' :
  world_ok w -> w_job w !! k = Some cur ->
  om_OwnerReferences (job_ObjectMeta cur') = om_OwnerReferences (job_ObjectMeta cur) ->
  job_key cur' = job_key cur -> job_dying cur' = true -> world_ok (set_jobs (insert k cur') w).
Proof.
  intros Hok Hcur Hrefs Hkey Hd. apply set_jobs_insert_ok; [done|rewrite Hkey; by eapply ok_job_key|]. intros u k' Ho Hk. split; [|auto].
  unfold owns_job in Ho. rewrite Hrefs in Ho. by eapply ok_jobs.
Qed.

Lemma updates_status_ok w m cur new :
  world_ok w -> w_mg w !! mg_key m = Some cur -> updates_status m cur new -> w_versions w !! mg_version new = None ->
  world_ok (write_mg new ∅ w).
Proof.
  intros Hok Hcur (Hcm & Hu & Hd & _) Hv. destruct (ok_store _ Hok _ _ Hcur) as (Hk & _ & _).
  assert (mg_key new = mg_key m) as Hkey.
  { rewrite <-Hk. unfold mg_key, ObjectKeyFromObject, client_meta in *. cbn. congruence. }
  eapply (write_mg_ok _ cur); eauto; [by rewrite Hkey|unfold mg_dying; by rewrite Hd|set_solver].
Qed.

(** A request made with its guarantee keeps the invariant. *)
Lemma serves_ok k R (e : KubeE R) w x w' :
  world_ok w -> guarantee k R e w -> serves R e w x w' -> world_ok w'.
Proof.
  intros Hok Hg Hs. destruct e as [k0 key|ns ls|k0 o|k0 o|m|k0 o| | | | | |]; cbn in Hs; try (by subst).
  - by destruct Hs as [-> _].
  - destruct k0; try (by subst). destruct Hs as [[-> _]|(Hn & o' & Hr & Hk & Hd & ->)]; [done|].
    destruct Hg as (Hkey & u & Hu & Hnr & Hown). apply set_jobs_insert_ok; [done..|]. intros u' k' Ho Hk'.
    unfold owns_job in Ho. rewrite Hr in Ho. apply Hown in Ho as ->. split; [congruence|auto].
  - destruct k0; try (by subst). destruct Hs as [[-> _]|(cur & new & Hcur & Hv & Hu & Hup & Hfresh & ->)]; [done|].
    destruct Hg as [Hkey Hrel]. pose proof Hup as (Hk & Huid & _ & Hd & _).
    eapply (write_mg_ok _ cur); eauto; [by rewrite Hk|unfold mg_dying; by rewrite Hd|].
    intros u. destruct (releases cur new) eqn:Hr; [|set_solver]. intros ->%elem_of_singleton.
    split; [done|]. by eapply Hrel.
  - destruct Hs as [[-> _]|(cur & new & Hcur & Hv & Hup & Hfresh & ->)]; [done|]. by eapply updates_status_ok.
  - destruct k0; try (by subst). destruct Hs as [[-> _]|(cur & Hcur & Hs)]; [done|]. case_decide.
    + subst. by apply set_jobs_delete_ok.
    + destruct Hs as (cur' & Hr & Hk & Hd & ->). by eapply delete_job_ok.
Qed.

(** It makes no Job for an instance that was let go of. *)
Lemma serves_no_new_jobs k R (e : KubeE R) w x w' :
  guarantee k R e w -> serves R e w x w' -> no_new_jobs w w'.
Proof.
  intros Hg Hs. assert (no_new_jobs w w) as Hsame by by apply no_new_jobs_same.
  destruct e as [k0 key|ns ls|k0 o|k0 o|m|k0 o| | | | | |]; cbn in Hs; try (by subst).
  - by destruct Hs as [-> _].
  - destruct k0; try (by subst). destruct Hs as [[-> _]|(Hn & o' & Hr & Hk & Hd & ->)]; [done|].
    destruct Hg as (Hkey & u & Hu & Hnr & Hown). apply no_new_jobs_insert. intros u' Hu'.
    unfold owns_job. rewrite Hr. by intros ->%Hown.
  - destruct k0; try (by subst). destruct Hs as [[-> _]|(cur & new & _ & _ & _ & _ & _ & ->)]; [done|].
    apply no_new_jobs_same; cbn; set_solver.
  - destruct Hs as [[-> _]|(cur & new & _ & _ & _ & _ & ->)]; [done|]. apply no_new_jobs_same; cbn; set_solver.
  - destruct k0; try (by subst). destruct Hs as [[-> _]|(cur & Hcur & Hs)]; [done|]. case_decide.
    + subst. apply no_new_jobs_delete.
    + destruct Hs as (cur' & _ & _ & Hd & ->). apply no_new_jobs_insert. intros u _ _. by rewrite Hd.
Qed.

(** It is no surprise to the workers of other instances. *)
Lemma serves_rely k k' R (e : KubeE R) w x w' :
  world_ok w -> k' <> k -> guarantee k R e w -> serves R e w x w' -> rely k' w w'.
Proof.
  intros Hok Hne Hg Hs. destruct e as [k0 key|ns ls|k0 o|k0 o|m|k0 o| | | | | |]; cbn in Hs; try (by subst).
  - by destruct Hs as [-> _].
  - destruct k0; try (by subst). destruct Hs as [[-> _]|(Hn & o' & Hr & Hk & Hd & ->)]; [done|].
    destruct Hg as (Hkey & u & Hu & Hnr & Hown). split; cbn; eauto. intros u' Hu'. apply no_live_job_insert.
    unfold owns_job. rewrite Hr. intros ->%Hown. congruence.
  - destruct k0; try (by subst). destruct Hs as [[-> _]|(cur & new & Hcur & Hv & Hu & Hup & Hfresh & ->)]; [done|].
    apply write_mg_rely; [done|]. destruct Hg as [Hkey _]. destruct (ok_store _ Hok _ _ Hcur) as (_ & Huk & _).
    destruct (releases cur new); [|set_solver]. intros u ->%elem_of_singleton. congruence.
  - destruct Hs as [[-> _]|(cur & new & Hcur & Hv & Hup & Hfresh & ->)]; [done|]. apply write_mg_rely; [done|set_solver].
  - destruct k0; try (by subst). destruct Hs as [[-> _]|(cur & Hcur & Hs)]; [done|]. case_decide.
    + subst. split; cbn; eauto. intros u _. apply no_live_job_delete.
    + destruct Hs as (cur' & Hr & _ & Hd & ->). split; cbn; eauto. intros u _. by apply no_live_job_insert.
Qed.

(** Nor is a tame one to the worker itself. *)
Lemma tame_rely k R (e : KubeE R) w x w' : world_ok w -> tame R e -> serves R e w x w' -> rely k w w'.
Proof.
  intros Hok Ht Hs. destruct e as [k0 key|ns ls|k0 o|k0 o|m|k0 o| | | | | |]; cbn in Hs; try (by subst).
  - by destruct Hs as [-> _].
  - by destruct k0; subst.
  - by destruct k0; subst.
  - destruct Hs as [[-> _]|(cur & new & Hcur & Hv & Hup & Hfresh & ->)]; [done|]. apply write_mg_rely; [done|set_solver].
  - destruct k0; try (by subst). destruct Hs as [[-> _]|(cur & Hcur & Hs)]; [done|]. case_decide.
    + subst. split; cbn; eauto. intros u _. apply no_live_job_delete.
    + destruct Hs as (cur' & Hr & _ & Hd & ->). split; cbn; eauto. intros u _. by apply no_live_job_insert.
Qed.
End interleaving.
