(* ===== verification/ReconcileRely.v ===== *)
(** * [Reconcile] among others

    The proof that [Reconcile] sees to its guarantees, whatever happens between its
    requests: a worker creates a Job only in the name of an instance that has not been
    let go of, and lets go of an instance only when no live Job of it is left. *)

From S2P Require Import Prelude GoStrings GoErrors GoTime K8sTypes MustGatherV1 Effects KubeEffects.
From S2P Require Import ApiServer Conditions OperatorUtils Template MustGatherUtil TrustedCA Cleanup SftpValidation.
From S2P Require Import Reconcile Requests ReconcileSafety World RelyGuarantee Interleaving.

(** ** The calculus, in this world *)

Abbreviation secure_in fresh_jobs k :=
  (secure (world_ok fresh_jobs) rely (guarantee fresh_jobs) (serves fresh_jobs) k).
Abbreviation secured_in fresh_jobs :=
  (secured (world_ok fresh_jobs) rely (guarantee fresh_jobs) (serves fresh_jobs)).

(** Programs that make tame requests only: what they return is one of their outcomes, and
    the world has changed as it may. *)
Lemma secure_tame {A} fresh_jobs k (p : kprog A) w (Q : A -> world -> Prop) :
  everywhere tame p -> (forall a tr w', exec p tr a -> rely k w w' -> Q a w') -> secure_in fresh_jobs k p w Q.
Proof.
  apply secure_everywhere; [apply _| |].
  - intros. by apply tame_guarantee.
  - intros. by eapply tame_rely.
Qed.

Section reconcile.
  Context `{UnicodeTables}.
  Variable r : MustGatherReconciler.
  Variable fresh_jobs : bool.

(** ** The Job of an instance *)

Lemma getJobFromInstance_job m tr job :
  exec (getJobFromInstance r m) tr (inr job) ->
  exists image operatorImage directoryName proxies,
    job = jobTemplate image operatorImage m (r_TrustedCAConfigMap r) directoryName proxies.
Proof.
  intros He. pose proof (getJobFromInstance_built r (fun _ _ => True) m []) as Hw.
  destruct (wpg_sound _ _ _ _ _ Hw He) as [_ Hb]. destruct (Hb job eq_refl) as (image & op & dir & proxies & _ & _ & ->).
  by exists image, op, dir, proxies.
Qed.

(** The Job that is sent lies at the key of its instance, and names nobody else. *)
Lemma owned_job_sent m image op dir proxies :
  let job := owned_job (mg_ObjectMeta m) (mg_Namespace m) (jobTemplate image op m (r_TrustedCAConfigMap r) dir proxies) in
  job_key job = mg_key m /\ forall u, owns_job u job = true -> u = mg_UID m.
Proof.
  intros job. subst job. set (j := jobTemplate _ _ _ _ _ _).
  pose proof (jobTemplate_meta image op m (r_TrustedCAConfigMap r) dir proxies) as Hm. fold j in Hm.
  assert (om_OwnerReferences (job_ObjectMeta (owned_job (mg_ObjectMeta m) (mg_Namespace m) j))
          = [controllerRef (mg_ObjectMeta m)]) as Hrefs.
  { apply owned_job_refs; by rewrite Hm. }
  split.
  - unfold job_key, mg_key, ObjectKeyFromObject. cbn [meta_of].
    destruct (owned_job_key (mg_ObjectMeta m) (mg_Namespace m) j) as [-> _].
    rewrite owned_job_namespace by (by rewrite Hm). by rewrite Hm.
  - intros u. unfold owns_job. rewrite Hrefs. cbn. str_case (om_UID (mg_ObjectMeta m)) u; [done|by intros].
Qed.

(** ** Cleanup *)

Lemma known_as_rely k' w w' k m : rely k' w w' -> known_as w k m -> known_as w' k m.
Proof. intros [] (? & ? & ?). split_and!; auto. Qed.

(** Nothing at its key: no live Job of the instance, wherever one looks. *)
Lemma no_live_job_at fresh w k m :
  world_ok fresh w -> known_as w k m ->
  (forall j, w_job w !! k = Some j -> owns_job (mg_UID m) j = true -> job_dying j = true) ->
  no_live_job (mg_UID m) w.
Proof.
  intros Hok (_ & Hu & _) Hj k' j Hl Ho. pose proof (ok_jobs _ _ Hok _ _ _ _ Hl Ho Hu) as ->. eauto.
Qed.

Lemma cleanup_secure k m w (Q : option goerror -> world -> Prop) :
  known_as w k m ->
  (forall err w', rely k w w' -> (err = None -> fresh_jobs = true -> no_live_job (mg_UID m) w') -> Q err w') ->
  secure_in fresh_jobs k (cleanupMustGatherResources r m) w Q.
Proof.
  intros Hm HQ. destruct fresh_jobs; [|by apply secure_tame; [by_requests|]; intros; apply HQ].
  assert (forall err w', rely k w w' -> (err = None -> no_live_job (mg_UID m) w') -> Q err w') as HQ' by auto.
  clear HQ. rename HQ' into HQ.
  pose proof (proj1 Hm) as Hkey. unfold cleanupMustGatherResources. apply secure_bind.
  intros w1 Hok1 Hr1. split; [done|]. intros x w2 [-> Hx] _. cbn [secure].
  change (jobKey m) with (mg_key m) in Hx. rewrite Hkey in Hx. pose proof (known_as_rely _ _ _ _ _ Hr1 Hm) as Hm1.
  destruct x as [e|job]; cbn in Hx.
  { destruct (IsNotFound e) eqn:Hnf; cbn; apply HQ; try done. intros _. eapply no_live_job_at; eauto.
    rewrite Hx by done. done. }
  destruct (owned_by (mg_UID m) _) eqn:Ho; cbn [negb secure].
  2: { apply HQ; [done|]. intros _. eapply no_live_job_at; eauto. intros j. rewrite Hx. intros [= <-].
       unfold owns_job. by rewrite Ho. }
  pose proof (ok_job_key _ _ Hok1 _ _ Hx) as Hjk.
  apply secure_bind, secure_tame; [by ev_go|]. intros [e|pods] tr w3 _ Hr3.
  { cbn. apply HQ; [by etransitivity|done]. }
  apply secure_bind, secure_tame; [by_requests|]. intros [e|] tr' w4 _ Hr4.
  { cbn. apply HQ; [by repeat (etransitivity; [eassumption|])|done]. }
  assert (rely k w w4) as Hw4 by (repeat (etransitivity; [eassumption|]); done).
  apply secure_bind. intros w5 Hok5 Hr5. split; [done|]. intros x w6 Hdel Hok6. cbn [secure].
  assert (rely k w w6) as Hw6.
  { etransitivity; [exact Hw4|]. etransitivity; [exact Hr5|]. by eapply (tame_rely true k _ (Delete KJob job)). }
  destruct x as [e|]; [by apply HQ|].
  assert (no_live_job (mg_UID m) w6) as Hclean.
  { eapply no_live_job_at; [done|by eapply known_as_rely|]. intros j. cbn in Hdel.
    destruct Hdel as [[_ Hn]|(cur & Hcur & Hdel)]; [done|]. rewrite Hjk in *. case_decide.
    - subst w6. cbn. by rewrite lookup_delete_eq.
    - destruct Hdel as (cur' & _ & _ & Hd & ->). cbn. rewrite lookup_insert_eq. by intros [= <-]. }
  str_case (r_TrustedCAConfigMap r) ""; cbn [negb]; [by apply HQ|].
  apply secure_tame; [by_requests|]. intros err tr2 w7 _ Hr7. apply HQ; [by etransitivity|]. intros _.
  eapply rely_jobs; [exact Hr7| |done]. by destruct (known_as_rely _ _ _ _ _ Hw6 Hm) as (_ & ? & _).
Qed.

(** ** The branches of [Reconcile] *)

(** An object sent back under its version is the current one. *)
Lemma current_version w k m cur :
  world_ok fresh_jobs w -> known_as w k m -> w_mg w !! k = Some cur -> mg_version m = mg_version cur -> cur = m.
Proof. intros Hok (_ & _ & Hv) Hcur Heq. destruct (ok_store _ _ Hok _ _ Hcur) as (_ & _ & Hv'). congruence. Qed.

Abbreviation secured := (secured_in fresh_jobs).

Lemma tame_secured {A} k (p : kprog A) w : everywhere tame p -> secured k p w.
Proof. intros Ht. by apply secure_tame. Qed.

Lemma reconcileDeletion_secured k m w :
  known_as w k m -> mg_UID m ∈ w_dying w -> secured k (reconcileDeletion r m) w.
Proof.
  intros Hm Hd. unfold RelyGuarantee.secured, reconcileDeletion. destruct (has_finalizer m) eqn:Hf; [|done].
  apply secure_bind.
  enough (forall err w', rely k w w' -> (err = None -> cleanup_wanted m = true -> fresh_jobs = true -> no_live_job (mg_UID m) w') ->
    secure_in fresh_jobs k (match err with
      | Some err => Ret (emptyResult, Some err)
      | None => let* res := call (Update KMustGather (remove_finalizer m)) in
                match res with inl err => ManageError (remove_finalizer m) err | inr _ => Ret (emptyResult, None) end
      end) w' (fun _ _ => True)) as Hrest.
  { destruct (cleanup_wanted m) eqn:Hcw.
    - apply cleanup_secure; [done|]. intros err w' Hr Hn. apply Hrest; auto.
    - apply (Hrest None w); [done|]. by intros. }
  intros [err|] w' Hr Hn; [done|]. apply secure_bind. intros w1 Hok1 Hr1.
  assert (rely k w w1) as Hw1 by by etransitivity. pose proof (known_as_rely _ _ _ _ _ Hw1 Hm) as Hm1.
  pose proof (proj1 Hm) as Hkey. split.
  - split; [exact Hkey|]. intros cur new Hcur Hv _ Hrel. change (mg_key (remove_finalizer m)) with (mg_key m) in Hcur.
    rewrite Hkey in Hcur. pose proof (current_version _ _ _ _ Hok1 Hm1 Hcur Hv) as ->.
    split; [by eapply rely_dying|]. intros Hfr. eapply rely_jobs; [exact Hr1| |].
    + by destruct (known_as_rely _ _ _ _ _ Hr Hm) as (_ & ? & _).
    + apply Hn; [done| |done]. unfold releases in Hrel. by apply andb_true_iff in Hrel as [_ ->].
  - intros [e|o] w2 _ _; [|done]. apply tame_secured; by_requests.
Qed.

Lemma addFinalizer_secured k m w : known_as w k m -> secured k (addFinalizer m) w.
Proof.
  intros Hm. apply secure_bind. intros w1 Hok1 Hr1. split; [|by intros [e|o] w2].
  split; [exact (proj1 Hm)|]. intros cur new _ _ (_ & _ & Hfin & _) Hrel. exfalso.
  unfold releases in Hrel. apply andb_true_iff in Hrel as [[_ Hnf]%andb_true_iff _].
  unfold has_finalizer in Hnf. rewrite Hfin in Hnf. cbn in Hnf.
  rewrite existsb_app in Hnf. cbn in Hnf. rewrite str_eqb_refl in Hnf. by rewrite orb_true_r in Hnf.
Qed.

Lemma reconcileCreate_secured k m w :
  known_as w k m -> mg_UID m ∉ w_released w -> secured k (reconcileCreate r m) w.
Proof.
  intros Hm Hlive. pose proof (proj1 Hm) as Hkey. unfold RelyGuarantee.secured, reconcileCreate.
  apply secure_bind, secure_tame; [by_requests|]. intros [e|job] tr w1 Hex Hr1.
  { apply tame_secured. destruct (errors_Is _ _); [by_requests|by_requests]. }
  apply getJobFromInstance_job in Hex as (image & op & dir & proxies & ->).
  apply secure_bind, secure_tame; [by ev_go|]. intros [e|sa] tr2 w2 _ Hr2.
  { apply tame_secured. destruct (IsNotFound e); [by_requests|done]. }
  apply secure_bind, secure_tame; [by_requests|]. intros [out|] tr3 w3 _ Hr3; [done|].
  unfold CreateResourceIfNotExists. apply secure_bind, secure_bind. intros w4 Hok4 Hr4.
  assert (rely k w w4) as Hw4 by (repeat (etransitivity; [eassumption|]); done).
  destruct (known_as_rely _ _ _ _ _ Hw4 Hm) as (_ & Hu & _).
  destruct (owned_job_sent m image op dir proxies) as [Hjk Hjo]. split.
  - split; [by rewrite Hjk|]. exists (mg_UID m). split; [done|]. split; [|done].
    intros Hrel. apply Hlive. destruct Hm as (_ & Hu0 & _). by eapply rely_released.
  - intros x w5 _ _. cbn [secure]. apply tame_secured.
    destruct x as [e|]; [destruct (IsAlreadyExists e)|]; by ev_go.
Qed.

Lemma reconcileActive_secured k m w :
  known_as w k m -> mg_UID m ∉ w_released w -> secured k (reconcileActive r m) w.
Proof.
  intros Hm Hlive. unfold RelyGuarantee.secured, reconcileActive.
  apply secure_bind, secure_tame; [by_requests|]. intros [e|] tr w1 _ Hr1; [apply tame_secured; by_requests|].
  apply secure_bind, secure_tame; [by ev_go|]. intros [e|job] tr2 w2 _ Hr2.
  - destruct (negb (IsNotFound e)); [apply tame_secured; by_requests|].
    assert (rely k w w2) as Hw2 by by etransitivity. apply reconcileCreate_secured; [by eapply known_as_rely|].
    intros Hrel. apply Hlive. destruct Hm as (_ & Hu & _). by eapply rely_released.
  - apply tame_secured; by_requests.
Qed.

Lemma Reconcile_secured k w : secured k (Reconcile r k) w.
Proof.
  unfold RelyGuarantee.secured, Reconcile. apply secure_bind. intros w1 Hok Hr. split; [done|]. intros x w2 [-> Hx] _. cbn [secure].
  destruct x as [e|m]; [by destruct (IsNotFound e)|]. cbn in Hx. pose proof (ok_cache _ _ Hok _ _ Hx) as Hm.
  destruct (has (om_DeletionTimestamp (mg_ObjectMeta m))) eqn:Hd.
  { apply reconcileDeletion_secured; [done|]. by eapply ok_shown. }
  destruct (has_finalizer m); cbn [negb].
  2: { apply secure_bind. eapply secure_mono; [by apply addFinalizer_secured|]. by intros []. }
  destruct (usesOperatorSA r m); [apply tame_secured; by_requests|]. apply reconcileActive_secured; [done|].
  intros Hrel%(ok_released _ _ Hok). pose proof (ok_dying _ _ Hok _ _ (or_intror Hx) Hrel). unfold mg_dying in *. congruence.
Qed.
End reconcile.
