(* ===== verification/Concurrent.v ===== *)
(** * The operator in a cluster in use

    The controller of [Controller] with the reconciler's program, in the world of
    [World]: any number of workers, users and controllers between any two requests,
    lost answers, a lagging informer, restarts at any point. *)

From S2P Require Import Prelude GoStrings GoErrors GoTime K8sTypes MustGatherV1 Effects KubeEffects.
From S2P Require Import ApiServer TrustedCA Reconcile Demo WorkQueue Controller World RelyGuarantee Interleaving ReconcileRely.

Section operator.
  Context `{UnicodeTables}.
  Variable r : MustGatherReconciler.
  Variable workers : nat.
  Variable fresh_jobs : bool.

(** The states the operator can come to, from an empty cluster on. *)
Definition operator_reaches (now : Z) : @system world -> Prop :=
  reachable environment (serves fresh_jobs) (Reconcile r) workers empty_world now.

Abbreviation safe :=
  (safe (world_ok fresh_jobs) rely (guarantee fresh_jobs) (serves fresh_jobs) workers).

Lemma operator_step_safe s a s' :
  safe s -> step environment (serves fresh_jobs) (Reconcile r) workers s a s' -> safe s'.
Proof.
  apply step_safe; [apply _|apply environment_ok|intros; by apply environment_rely|apply serves_ok|apply serves_rely|].
  apply Reconcile_secured.
Qed.

(** A step of the operator. *)
Definition operator_step (s s' : @system world) : Prop :=
  exists a, step environment (serves fresh_jobs) (Reconcile r) workers s a s'.

Lemma step_no_new_jobs s s' : safe s -> operator_step s s' -> no_new_jobs (sys_world s) (sys_world s').
Proof.
  intros Hsafe [a Hstep]. pose proof (safe_world _ _ _ _ _ _ Hsafe) as Hw. 
  destruct (step_world _ _ _ _ _ _ _ _ _ _ Hsafe Hstep) as [Hs|[[_ He]|(_ & k & R & e & x & Hg & Hx)]].
  - apply no_new_jobs_same; by rewrite Hs.
  - by eapply environment_no_new_jobs.
  - by eapply serves_no_new_jobs.
Qed.

Lemma steps_no_new_jobs s s' : safe s -> rtc operator_step s s' -> no_new_jobs (sys_world s) (sys_world s').
Proof.
  intros Hsafe Hs. induction Hs as [s|s s1 s' H1 Hs IH]; [by apply no_new_jobs_same|].
  destruct (step_no_new_jobs _ _ Hsafe H1) as [Hr1 Hj1]. destruct H1 as [a H1].
  destruct (IH (operator_step_safe _ _ _ Hsafe H1)) as [Hr2 Hj2]. split; [by etransitivity|]. auto.
Qed.

Lemma operator_safe now s : operator_reaches now s -> safe s.
Proof. induction 1 as [|s a s' _ IH Hs]; [|by eapply operator_step_safe]. apply start_safe, empty_world_ok. Qed.
End operator.
