(* ===== verification/ConcurrentRuns.v ===== *)
(** * Runs of the operator in the world

    A server for [World] that can be run, and with it two runs: one for the theorem that
    an instance let go of stays clean, and one that shows what reads of Jobs from a
    lagging informer lead to. *)

From S2P Require Import Prelude GoStrings GoErrors GoTime K8sTypes MustGatherV1 Effects KubeEffects.
From S2P Require Import ApiServer MemCluster TrustedCA Reconcile Demo WorkQueue Controller World RelyGuarantee Interleaving.
From S2P Require Import ReconcileRely Concurrent ControllerRuns.

(** ** A server *)

Definition with_version (v : string) (del : option Time) (m : MustGather) : MustGather :=
  let a := mg_ObjectMeta m in
  mkMustGather (mg_TypeMeta m)
    (mkMeta (om_Name a) (om_Namespace a) (om_UID a) v (om_Generation a) del (om_Labels a) (om_OwnerReferences a)
       (om_Finalizers a))
    (mg_Spec m) (mg_Status m).

Definition next_version (w : world) : string := fresh (dom (w_versions w)).

Definition refused : goerror := NewConflict "refused".
Definition absent : goerror := NewNotFound "not found".

Definition serve (fresh_jobs : bool) : handler KubeE world :=
  fun R e w =>
    match e in KubeE R return R * world with
    | Get k key =>
        (match k return goerror + objOf k with
         | KMustGather => match w_cache w !! key with Some o => inr o | None => inl absent end
         | KJob => match (if fresh_jobs then w_job w else w_job_cache w) !! key with Some o => inr o | None => inl absent end
         | KServiceAccount => inr (mkServiceAccount emptyMeta)
         | KSecret => inr demo_secret
         | _ => inl absent
         end, w)
    | ListPods _ _ => (inr [], w)
    | Create k o =>
        match k return objOf k -> option goerror * world with
        | KJob => fun o =>
            if job_dying o then (Some refused, w)
            else match w_job w !! job_key o with
                 | Some _ => (Some (NewAlreadyExists "already exists"), w)
                 | None => (None, set_jobs (insert (job_key o) o) w)
                 end
        | _ => fun _ => (None, w)
        end o
    | Update k o =>
        match k return objOf k -> (goerror + objOf k) * world with
        | KMustGather => fun o =>
            match w_mg w !! mg_key o with
            | Some cur =>
                if decide (mg_version o = mg_version cur /\ mg_UID o = mg_UID cur) then
                  let new := with_version (next_version w) (om_DeletionTimestamp (mg_ObjectMeta cur)) o in
                  (inr new, write_mg new (if releases cur new then {[mg_UID cur]} else ∅) w)
                else (inl refused, w)
            | None => (inl absent, w)
            end
        | _ => fun o => (inr o, w)
        end o
    | StatusUpdate m =>
        match w_mg w !! mg_key m with
        | Some cur =>
            if decide (mg_version m = mg_version cur) then
              let new := with_version (next_version w) (om_DeletionTimestamp (mg_ObjectMeta cur))
                           (mkMustGather (mg_TypeMeta cur) (mg_ObjectMeta cur) (mg_Spec cur) (mg_Status m)) in
              (inr new, write_mg new ∅ w)
            else (inl refused, w)
        | None => (inl absent, w)
        end
    | Delete k o =>
        match k return objOf k -> option goerror * world with
        | KJob => fun o =>
            match w_job w !! job_key o with
            | Some cur =>
                if decide (om_Finalizers (job_ObjectMeta cur) = []) then (None, set_jobs (delete (job_key o)) w)
                else (Some refused, w)
            | None => (Some absent, w)
            end
        | _ => fun _ => (None, w)
        end o
    | RecordEvent _ _ _ _ => (tt, w)
    | MetricInc _ => (tt, w)
    | LookupEnv name => (if name =?s OPERATOR_IMAGE then Some "quay.io/operator:v1" else None, w)
    | TimeNow => (mkTime 1700000000 0 0, w)
    | RandInt63 => (42%Z, w)
    | SftpDial _ _ _ => (None, w)
    end.

Lemma next_version_new w : w_versions w !! next_version w = None.
Proof. apply (not_elem_of_dom (D:=gset string)). unfold next_version. apply is_fresh. Qed.

Lemma answers_stored {A} (o : option A) : answers o (match o with Some a => inr a | None => inl absent end).
Proof. by destruct o. Qed.

(** The server's answers are among those the world allows. *)
Lemma serve_serves fresh_jobs R (e : KubeE R) w :
  serves fresh_jobs R e w (serve fresh_jobs R e w).1 (serve fresh_jobs R e w).2.
Proof.
  destruct e as [k key|ns ls|k o|k o|m|k o| | | | | |]; try done; try (destruct k; done).
  - destruct k; cbn; split; try done; apply answers_stored.
  - destruct k; try done. cbn. destruct (job_dying o) eqn:Hd; [by left|].
    destruct (w_job w !! job_key o) eqn:Ho; [by left|]. right. split; [done|]. by exists o.
  - destruct k; try done. cbn. destruct (w_mg w !! mg_key o) as [cur|] eqn:Ho; [|left; eauto].
    case_decide as Hv; [|left; eauto]. right. destruct Hv. eexists cur, _. split_and!; [done..| | |done]; [|apply next_version_new].
    by split_and!.
  - cbn. destruct (w_mg w !! mg_key m) as [cur|] eqn:Ho; [|left; eauto].
    case_decide as Hv; [|left; eauto]. right. eexists cur, _. split_and!; [done..| | |done]; [|apply next_version_new].
    by split_and!.
  - destruct k; try done. cbn. destruct (w_job w !! job_key o) as [cur|] eqn:Ho; [|by left].
    destruct (decide (om_Finalizers (job_ObjectMeta cur) = [])) eqn:Hd; [|by left]. right. exists cur. split; [done|]. by rewrite Hd.
Qed.

(** ** A life in the world *)

#[local] Existing Instance ascii_tables.

Definition plain_reconciler : MustGatherReconciler := mkReconciler "" "operator-ns" "quay.io/must-gather:latest" "operator-sa".

Definition new_instance : MustGather :=
  mkMustGather (mkTypeMeta "MustGather" "operator.openshift.io/v1") (mkMeta "demo" "user-ns" "u1" "v1" 1 None ∅ [] [])
    (mkMustGatherSpec "default" None None None None None None None) None.

(** The user creates it; the operator sets the finalizer and starts the Job. *)
Definition synced (w : world) : world :=
  mkWorld (w_mg w) (partial_alter (fun _ => w_mg w !! demo_key) demo_key (w_cache w)) (w_job w)
    (w_job_cache w) (w_uids w) (w_versions w)
    (match w_mg w !! demo_key with
     | Some o => if mg_dying o then {[mg_UID o]} ∪ w_dying w else w_dying w
     | None => w_dying w
     end) (w_released w).

Definition reconciled (fresh_jobs : bool) (w : world) : world :=
  (run (serve fresh_jobs) (Reconcile plain_reconciler demo_key) w).2.

Definition created_world (o : MustGather) : world :=
  mkWorld {[mg_key o := o]} ∅ ∅ ∅ {[mg_UID o := mg_key o]} {[mg_version o := o]} ∅ ∅.

Definition gathering (fresh_jobs : bool) : world :=
  reconciled fresh_jobs (synced (reconciled fresh_jobs (synced (created_world new_instance)))).

Definition stored_instance (w : world) : MustGather := default new_instance (w_mg w !! demo_key).

(** The user deletes it; the operator lets it go. *)
Definition marked (w : world) : MustGather := with_version (next_version w) (Some (mkTime 1700000100 0 0)) (stored_instance w).

Definition let_go (fresh_jobs : bool) : world :=
  reconciled fresh_jobs (synced (write_mg (marked (gathering fresh_jobs)) ∅ (gathering fresh_jobs))).

Lemma created_environment o : mg_dying o = false -> environment empty_world (created_world o).
Proof. intros Ho. apply (env_create empty_world o); done. Qed.

Lemma synced_environment w : environment w (synced w).
Proof. apply env_sync. Qed.

Lemma marked_environment w m :
  w_mg w !! demo_key = Some m -> mg_key m = demo_key -> environment w (write_mg (marked w) ∅ w).
Proof.
  intros Hm Hk. assert (stored_instance w = m) as Hs by (unfold stored_instance; by rewrite Hm).
  apply (env_update w m).
  - rewrite <-Hm. f_equal. rewrite <-Hk. unfold marked. by rewrite Hs.
  - unfold marked. by rewrite Hs.
  - apply next_version_new.
  - done.
Qed.

Lemma reconciled_reached fresh_jobs now w :
  comes_back (run (serve fresh_jobs) (Reconcile plain_reconciler demo_key) w).1 = false ->
  operator_reaches plain_reconciler 1 fresh_jobs now (start_system w now) ->
  operator_reaches plain_reconciler 1 fresh_jobs now (start_system (reconciled fresh_jobs w) now).
Proof.
  intros Ho. eapply (reaches_reconcile _ _ _ answered (serve fresh_jobs)).
  - intros. apply serve_serves.
  - apply run_until_answered.
  - exact Ho.
Qed.

Lemma let_go_reached fresh_jobs now :
  operator_reaches plain_reconciler 1 fresh_jobs now (start_system (let_go fresh_jobs) now).
Proof.
  assert (operator_reaches plain_reconciler 1 fresh_jobs now (start_system (gathering fresh_jobs) now)) as Hg.
  { do 2 (apply reconciled_reached; [by destruct fresh_jobs; vm_compute|];
          eapply reaches_environment; [|apply synced_environment]).
    eapply reaches_environment; [constructor|by apply created_environment]. }
  apply reconciled_reached; [by destruct fresh_jobs; vm_compute|].
  eapply reaches_environment; [|apply synced_environment]. eapply reaches_environment; [exact Hg|].
  apply (marked_environment _ (stored_instance (gathering fresh_jobs))); by destruct fresh_jobs; vm_compute.
Qed.

(** ** The theorems *)



(** C21: The client of the operator reads Jobs from an informer, and this is not enough.
    When the informer's view of Jobs may lag behind that of instances, the operator can
    come to a state in which it has let go of an instance whose resources are to be cleaned
    up, and a Job of the instance is there and not marked for deletion: the cleanup does
    not find the Job that was created before, and the finalizer goes. *)
Theorem stale_job_reads_leave_a_job :
  exists r now s u k job,
    operator_reaches r 1 false now s /\ (u ∈ w_released (sys_world s)) /\
    w_job (sys_world s) !! k = Some job /\ owns_job u job = true /\ job_dying job = false.
Proof.
  pose (w := let_go false). destruct (w_job w !! demo_key) as [job|] eqn:Hj; [|by vm_compute in Hj].
  exists plain_reconciler, 0%Z, (start_system w 0), "u1", demo_key, job.
  split; [apply let_go_reached|]. split; [vm_compute; reflexivity|]. split; [exact Hj|].
  vm_compute in Hj. injection Hj as <-. vm_compute. split; reflexivity.
Qed.
