(* ===== verification/CaWorld.v ===== *)
(** * The CA copies as many see them

    The copies of the CA bundle in a cluster that others use at the same time: any number
    of workers of the operator, users, the garbage collector, and an informer that lags
    behind.  An update is refused unless it is made on the current version; a deletion
    names no version and is not.  Instances are what the informer shows of them, and
    nothing is assumed of the requests for other kinds.

    The last two fields are ghosts: to which key each UID of a MustGather was issued, and
    the ConfigMap of each resource version. *)

From S2P Require Import Prelude GoStrings GoErrors GoTime K8sTypes MustGatherV1 Effects KubeEffects.
From S2P Require Import ApiServer TrustedCA Reconcile TrustedCARefinement World.

Record ca_world := mkCaWorld {
  cw_mg : gmap NamespacedName MustGather;
  cw_cm : gmap NamespacedName ConfigMap;
  cw_cache : gmap NamespacedName ConfigMap;
  cw_uids : gmap string NamespacedName;
  cw_versions : gmap string ConfigMap;
}.

Definition empty_ca_world : ca_world := mkCaWorld ∅ ∅ ∅ ∅ ∅.

Definition cm_key (c : ConfigMap) : NamespacedName := @ObjectKeyFromObject KConfigMap c.
Definition cm_version (c : ConfigMap) : string := om_ResourceVersion (cm_ObjectMeta c).
Definition cm_dying (c : ConfigMap) : bool := has (om_DeletionTimestamp (cm_ObjectMeta c)).

(** ** Writes *)

Definition remove_cm (k : NamespacedName) (w : ca_world) : ca_world :=
  mkCaWorld (cw_mg w) (delete k (cw_cm w)) (cw_cache w) (cw_uids w) (cw_versions w).

(** A new version of a ConfigMap; one without finalizers that is marked goes away. *)
Definition write_cm (new : ConfigMap) (w : ca_world) : ca_world :=
  mkCaWorld (cw_mg w)
    (if finalized (cm_ObjectMeta new) then delete (cm_key new) (cw_cm w) else <[cm_key new := new]> (cw_cm w))
    (cw_cache w) (cw_uids w) (<[cm_version new := new]> (cw_versions w)).

Definition new_version (w : ca_world) (new : ConfigMap) : Prop :=
  cm_version new <> "" /\ cw_versions w !! cm_version new = None.

(** ** The operator's requests *)

(** What the server keeps of what it is sent. *)
Definition keeps (sent new : ConfigMap) : Prop :=
  cm_key new = cm_key sent /\ cm_owners new = cm_owners sent /\ cm_Data new = cm_Data sent /\
  om_Finalizers (cm_ObjectMeta new) = om_Finalizers (cm_ObjectMeta sent).

(** [ca_serves e w x w']: in [w] the request [e] may be answered [x], leaving [w'].  An
    answer to a write that was applied can be lost.  The reply to a status write is the
    same instance. *)
Definition ca_serves (R : Type) (e : KubeE R) (w : ca_world) : R -> ca_world -> Prop :=
  match e in KubeE R return R -> ca_world -> Prop with
  | Get k key => fun x w' =>
      w' = w /\
      match k return goerror + objOf k -> Prop with
      | KMustGather => answers (cw_mg w !! key)
      | KConfigMap => answers (cw_cache w !! key)
      | _ => fun _ => True
      end x
  | Create k o => fun x w' =>
      match k return objOf k -> Prop with
      | KConfigMap => fun o =>
          (w' = w /\ x <> None) \/
          (cw_cm w !! cm_key o = None /\
           exists new, keeps o new /\ cm_dying new = false /\ new_version w new /\ w' = write_cm new w)
      | _ => fun _ => w' = w
      end o
  | Update k o => fun x w' =>
      match k return objOf k -> goerror + objOf k -> Prop with
      | KConfigMap => fun o x =>
          (w' = w /\ exists e, x = inl e) \/
          (exists cur new, cw_cm w !! cm_key o = Some cur /\ (cm_version o = "" \/ cm_version o = cm_version cur) /\
             keeps o new /\ cm_dying new = cm_dying cur /\ new_version w new /\ w' = write_cm new w)
      | _ => fun _ _ => w' = w
      end o x
  | StatusUpdate m => fun x w' =>
      w' = w /\ forall m', x = inr m' -> mg_key m' = mg_key m /\ mg_UID m' = mg_UID m
  | Delete k o => fun x w' =>
      match k return objOf k -> Prop with
      | KConfigMap => fun o =>
          (w' = w /\ x <> None) \/
          (exists cur, cw_cm w !! cm_key o = Some cur /\
             if decide (om_Finalizers (cm_ObjectMeta cur) = []) then w' = remove_cm (cm_key o) w
             else exists new, keeps cur new /\ cm_dying new = true /\ new_version w new /\ w' = write_cm new w)
      | _ => fun _ => w' = w
      end o
  | _ => fun _ w' => w' = w
  end.

(** ** Everybody else *)

Inductive ca_environment (w : ca_world) : ca_world -> Prop :=
(** The informer shows an instance; no two have one UID. *)
| ca_env_shown o :
    (forall k, cw_uids w !! mg_UID o = Some k -> k = mg_key o) ->
    ca_environment w (mkCaWorld (<[mg_key o := o]> (cw_mg w)) (cw_cm w) (cw_cache w)
                        (<[mg_UID o := mg_key o]> (cw_uids w)) (cw_versions w))
| ca_env_hidden k :
    ca_environment w (mkCaWorld (delete k (cw_mg w)) (cw_cm w) (cw_cache w) (cw_uids w) (cw_versions w))
(** Somebody creates or changes a ConfigMap, in any way; one goes away. *)
| ca_env_write o : new_version w o -> ca_environment w (write_cm o w)
| ca_env_remove k : ca_environment w (remove_cm k w)
(** The informer catches up with a ConfigMap. *)
| ca_env_sync k :
    ca_environment w (mkCaWorld (cw_mg w) (cw_cm w) (partial_alter (fun _ => cw_cm w !! k) k (cw_cache w))
                        (cw_uids w) (cw_versions w)).

(** ** The invariant *)

Definition known_cm (w : ca_world) (k : NamespacedName) (c : ConfigMap) : Prop :=
  cm_key c = k /\ cm_version c <> "" /\ cw_versions w !! cm_version c = Some c.

Record ca_ok (w : ca_world) : Prop := {
  ca_ok_store k c : cw_cm w !! k = Some c -> known_cm w k c /\ finalized (cm_ObjectMeta c) = false;
  ca_ok_cache k c : cw_cache w !! k = Some c -> known_cm w k c;
  ca_ok_mg k m : cw_mg w !! k = Some m -> mg_key m = k /\ cw_uids w !! mg_UID m = Some k;
}.

Lemma empty_ca_ok : ca_ok empty_ca_world.
Proof. by split. Qed.

(** Versions and UIDs stay what they are. *)
Definition ca_rely (k : NamespacedName) (w w' : ca_world) : Prop :=
  cw_uids w ⊆ cw_uids w' /\ cw_versions w ⊆ cw_versions w'.

#[export] Instance ca_rely_preorder k : PreOrder (ca_rely k).
Proof. split; [by split|]. intros w1 w2 w3 [] []. split; by etransitivity. Qed.

Lemma known_cm_mono w w' k c : cw_versions w ⊆ cw_versions w' -> known_cm w k c -> known_cm w' k c.
Proof. intros Hv (? & ? & ?). split_and!; [done..|]. by eapply lookup_weaken. Qed.

Lemma write_cm_ok w new : ca_ok w -> new_version w new -> ca_ok (write_cm new w).
Proof.
  intros [Hs Hc Hm] [Hne Hv]. assert (cw_versions w ⊆ cw_versions (write_cm new w)) as Hsub by by apply insert_subseteq.
  split; cbn; [|eauto using known_cm_mono|done]. intros k c. destruct (finalized (cm_ObjectMeta new)) eqn:Hf.
  - intros [_ [Hk Hfc]%Hs]%lookup_delete_Some. split; [by eapply known_cm_mono|done].
  - intros [[<- <-]|[_ [Hk Hfc]%Hs]]%lookup_insert_Some; [|split; [by eapply known_cm_mono|done]].
    split; [|done]. split_and!; [done..|]. cbn. by rewrite lookup_insert_eq.
Qed.

Lemma write_cm_rely w k new : new_version w new -> ca_rely k w (write_cm new w).
Proof. intros [_ Hv]. split; [done|]. by apply insert_subseteq. Qed.

Lemma remove_cm_ok w k : ca_ok w -> ca_ok (remove_cm k w).
Proof. intros [Hs Hc Hm]. split; cbn; [|done..]. intros k' c [_ Hl]%lookup_delete_Some. by apply Hs. Qed.

Lemma ca_environment_ok w w' : ca_ok w -> ca_environment w w' -> ca_ok w'.
Proof.
  intros Hok He. destruct He as [o Ho|k|o Hv|k|k]; [| |by apply write_cm_ok|by apply remove_cm_ok|];
    destruct Hok as [Hs Hc Hm]; split; cbn; try done.
  - intros k m. rewrite !lookup_insert_Some. intros [[<- <-]|[Hne [Hk Hu]%Hm]]; [by auto|]. split; [done|].
    destruct (decide (mg_UID o = mg_UID m)) as [Heq|]; [|by right]. left. rewrite <-Heq in Hu. by rewrite (Ho _ Hu).
  - intros k' m [_ Hl]%lookup_delete_Some. by apply Hm.
  - intros k' c. rewrite lookup_partial_alter_Some. intros [[<- Hl]|[_ Hl]]; [by apply Hs|by apply Hc].
Qed.

Lemma ca_environment_rely k w w' : ca_environment w w' -> ca_rely k w w'.
Proof.
  intros He. destruct He as [o Ho|k'|o Hv|k'|k']; [|done|by apply write_cm_rely|done..]. split; [|done]. cbn.
  destruct (cw_uids w !! mg_UID o) as [k'|] eqn:Hu; [|by apply insert_subseteq].
  rewrite insert_id; [done|]. by rewrite Hu, (Ho _ eq_refl).
Qed.
