(* ===== verification/CaConcurrent.v ===== *)
(** * The CA copies among others

    Rely and guarantee for the CA copies in the world of [CaWorld]: a worker writes the
    copy of its instance's namespace only, and adds or takes away the ownership of that
    instance only. *)

From S2P Require Import Prelude GoStrings GoErrors GoTime K8sTypes MustGatherV1 Effects KubeEffects.
From S2P Require Import ApiServer Conditions OperatorUtils Template MustGatherUtil TrustedCA Cleanup SftpValidation.
From S2P Require Import Reconcile Requests TrustedCARefinement World RelyGuarantee CaWorld.

(** ** What a request may do to the owners *)

Inductive owner_change (u : string) (old : list OwnerReference) : list OwnerReference -> Prop :=
| owner_joins ref : or_UID ref = u -> u ∉ owner_uids old -> owner_change u old (old ++ [ref])
| owner_leaves : remove_owner u old <> [] -> owner_change u old (remove_owner u old).

(** From what is stored before, in [w], to what is stored after.  A deletion follows a read
    of a copy that nobody else owned; that copy is the one deleted if it is current. *)
Inductive copy_change (w : ca_world) (u : string) : option ConfigMap -> option ConfigMap -> Prop :=
| copy_made c ref : cm_owners c = [ref] -> or_UID ref = u -> copy_change w u None (Some c)
| copy_owned old new :
    owner_change u (cm_owners old) (cm_owners new) -> cm_Data new = cm_Data old ->
    copy_change w u (Some old) (Some new)
| copy_deleted old seen new :
    known_cm w (cm_key old) seen -> owner_uids (cm_owners seen) ⊆ {[u]} ->
    (cm_version seen = cm_version old -> seen = old) ->
    (forall c, new = Some c -> cm_dying c = true /\ cm_owners c = cm_owners old) ->
    copy_change w u (Some old) new.

Section copies.
  Variable r : MustGatherReconciler.

Definition copy_of (k : NamespacedName) : NamespacedName := copy_key r (nn_Namespace k).

(** [u] is an instance the informer has shown at [k], outside the operator's namespace. *)
Definition instance_at (w : ca_world) (k : NamespacedName) (u : string) : Prop :=
  cw_uids w !! u = Some k /\ nn_Namespace k <> r_OperatorNamespace r.

(** What a worker sees to before it makes a request. *)
Definition ca_guarantee (k : NamespacedName) (R : Type) (e : KubeE R) (w : ca_world) : Prop :=
  match e with
  | Create KConfigMap o =>
      cm_key o = copy_of k /\ exists u ref, instance_at w k u /\ cm_owners o = [ref] /\ or_UID ref = u
  | Update KConfigMap o =>
      cm_key o = copy_of k /\
      exists u old, instance_at w k u /\ known_cm w (copy_of k) old /\ cm_version o = cm_version old /\
        owner_change u (cm_owners old) (cm_owners o) /\ cm_Data o = cm_Data old /\
        om_Finalizers (cm_ObjectMeta o) = om_Finalizers (cm_ObjectMeta old)
  | Delete KConfigMap o =>
      exists u, instance_at w k u /\ known_cm w (copy_of k) o /\ owner_uids (cm_owners o) ⊆ {[u]}
  | _ => True
  end.

(** Requests that need no care. *)
Definition ca_tame (R : Type) (e : KubeE R) : Prop :=
  match e with Create KConfigMap _ | Update KConfigMap _ | Delete KConfigMap _ => False | _ => True end.

Lemma ca_tame_guarantee R (e : KubeE R) k w : ca_tame R e -> ca_guarantee k R e w.
Proof. by destruct e as [| |[]|[]| |[]| | | | | |]. Qed.

Lemma ca_tame_serves R (e : KubeE R) w x w' : ca_tame R e -> ca_serves R e w x w' -> w' = w.
Proof.
  intros He Hs. destruct e as [k ?|? ?|k ?|k ?|?|k ?|? ? ? ?|?|?| | |? ? ?]; try destruct k; cbn in Hs; try done; by destruct Hs.
Qed.

(** ** What a request does to the world *)

Lemma ca_serves_cases R (e : KubeE R) w x w' :
  ca_serves R e w x w' ->
  w' = w \/ (exists new, new_version w new /\ w' = write_cm new w) \/ (exists k, w' = remove_cm k w).
Proof.
  intros Hs. destruct e as [k ?|? ?|k o|k o|?|k o|? ? ? ?|?|?| | |? ? ?]; try destruct k; cbn in Hs; try (by left); try (by left; destruct Hs).
  - destruct Hs as [[-> _]|(_ & new & _ & _ & Hv & ->)]; [by left|]. right. left. by exists new.
  - destruct Hs as [[-> _]|(_ & new & _ & _ & _ & _ & Hv & ->)]; [by left|]. right. left. by exists new.
  - destruct Hs as [[-> _]|(cur & _ & Hs)]; [by left|]. right. case_decide; [right; by eexists|].
    destruct Hs as (new & _ & _ & Hv & ->). left. by exists new.
Qed.

Lemma ca_serves_ok R (e : KubeE R) w x w' : ca_ok w -> ca_serves R e w x w' -> ca_ok w'.
Proof.
  intros Hok [->|[(new & Hv & ->)|[k ->]]]%ca_serves_cases; [done|by apply write_cm_ok|by apply remove_cm_ok].
Qed.

Lemma ca_serves_rely k R (e : KubeE R) w x w' : ca_serves R e w x w' -> ca_rely k w w'.
Proof. intros [->|[(new & Hv & ->)|[k' ->]]]%ca_serves_cases; [done|by apply write_cm_rely|done]. Qed.

Lemma write_cm_other new w c :
  cm_key new <> c -> cw_cm (write_cm new w) !! c = cw_cm w !! c.
Proof. intros Hne. cbn. destruct (finalized _); by rewrite ?lookup_delete_ne, ?lookup_insert_ne. Qed.

Lemma write_cm_here new w :
  finalized (cm_ObjectMeta new) = false -> cw_cm (write_cm new w) !! cm_key new = Some new.
Proof. intros Hf. cbn. by rewrite Hf, lookup_insert_eq. Qed.

(** Marked or not, with the same finalizers as one that stays. *)
Lemma kept_not_finalized old new :
  finalized (cm_ObjectMeta old) = false -> cm_dying new = cm_dying old ->
  om_Finalizers (cm_ObjectMeta new) = om_Finalizers (cm_ObjectMeta old) -> finalized (cm_ObjectMeta new) = false.
Proof.
  unfold finalized, cm_dying. intros Hf Hd ->.
  by destruct (om_DeletionTimestamp (cm_ObjectMeta new)), (om_DeletionTimestamp (cm_ObjectMeta old)).
Qed.

(** A request made with its guarantee changes one copy only, *)
Lemma ca_serves_other k R (e : KubeE R) w x w' c :
  ca_ok w -> ca_guarantee k R e w -> ca_serves R e w x w' -> c <> copy_of k -> cw_cm w' !! c = cw_cm w !! c.
Proof.
  intros Hok Hg Hs Hc. revert Hg Hs. destruct e as [k0 ?|? ?|k0 o|k0 o|?|k0 o|? ? ? ?|?|?| | |? ? ?]; try destruct k0; cbn;
    try (by intros _ ->); try (by intros _ [-> _]).
  - intros [Hk _] [[-> _]|(_ & new & [Hkn _] & _ & _ & ->)]; [done|]. apply write_cm_other. congruence.
  - intros [Hk _] [[-> _]|(_ & new & _ & _ & [Hkn _] & _ & _ & ->)]; [done|]. apply write_cm_other. congruence.
  - intros (u & _ & (Hk & _) & _) [[-> _]|(cur & Hcur & Hs)]; [done|]. case_decide.
    + subst. cbn. rewrite lookup_delete_ne; congruence.
    + destruct Hs as (new & [Hkn _] & _ & _ & ->). apply write_cm_other.
      destruct (ca_ok_store _ Hok _ _ Hcur) as [(Hkc & _) _]. congruence.
Qed.

(** and that one as it may. *)
Lemma ca_serves_copy k R (e : KubeE R) w x w' :
  ca_ok w -> ca_guarantee k R e w -> ca_serves R e w x w' ->
  cw_cm w' !! copy_of k = cw_cm w !! copy_of k \/
  exists u, instance_at w k u /\ copy_change w u (cw_cm w !! copy_of k) (cw_cm w' !! copy_of k).
Proof.
  intros Hok Hg Hs. revert Hg Hs. destruct e as [k0 ?|? ?|k0 o|k0 o|?|k0 o|? ? ? ?|?|?| | |? ? ?]; try destruct k0; cbn;
    try (by intros _ ->; left); try (by intros _ [-> _]; left).
  - intros (Hk & u & ref & Hu & Hrefs & Href) [[-> _]|(Hno & new & (Hkn & Ho & _) & Hd & _ & ->)]; [by left|].
    right. exists u. split; [done|]. rewrite Hk in Hno. rewrite Hno.
    replace (copy_of k) with (cm_key new) by congruence. rewrite write_cm_here.
    + eapply copy_made; [by rewrite Ho|done].
    + unfold finalized, cm_dying in *. by destruct (om_DeletionTimestamp _).
  - intros (Hk & u & old & Hu & (Hko & Hno & Hvo) & Hv & Hch & Hda & Hfi)
      [[-> _]|(cur & new & Hcur & Hvc & (Hkn & Ho & Hdn & Hfn) & Hd & _ & ->)]; [by left|].
    right. exists u. split; [done|]. rewrite Hk in Hcur.
    destruct (ca_ok_store _ Hok _ _ Hcur) as [(Hkc & Hnc & Hvs) Hfin].
    assert (cur = old) as -> by (destruct Hvc; congruence).
    rewrite Hcur. replace (copy_of k) with (cm_key new) by congruence.
    rewrite write_cm_here by (eapply kept_not_finalized; [exact Hfin|done|congruence]).
    apply copy_owned; congruence.
  - intros (u & Hu & (Hko & Hno & Hvo) & Hsub) [[-> _]|(cur & Hcur & Hs)]; [by left|].
    right. exists u. split; [done|]. rewrite Hko in *.
    destruct (ca_ok_store _ Hok _ _ Hcur) as [(Hkc & Hnc & Hvs) Hfin]. rewrite Hcur.
    apply (copy_deleted _ _ _ o); [by rewrite Hkc|done|congruence|]. case_decide.
    + subst. cbn. by rewrite lookup_delete_eq.
    + destruct Hs as (new & (Hkn & Ho & _ & Hfn) & Hd & _ & ->). intros c. replace (copy_of k) with (cm_key new) by congruence.
      rewrite write_cm_here; [by intros [= <-]|]. unfold finalized. rewrite Hfn.
      destruct (om_DeletionTimestamp _); [|done]. by destruct (om_Finalizers (cm_ObjectMeta cur)).
Qed.

(** ** What [Reconcile] sees to *)

Abbreviation ca_secure := (secure ca_ok ca_rely ca_guarantee ca_serves).
Abbreviation ca_secured := (secured ca_ok ca_rely ca_guarantee ca_serves).

Lemma secure_ca_tame {A} k (p : kprog A) w (Q : A -> ca_world -> Prop) :
  everywhere ca_tame p -> (forall a tr w', exec p tr a -> ca_rely k w w' -> Q a w') -> ca_secure k p w Q.
Proof.
  apply secure_everywhere; [apply _| |].
  - intros. by apply ca_tame_guarantee.
  - intros R e w1 x w2 _ _ Hs. by eapply ca_serves_rely.
Qed.

Lemma ca_tame_secured {A} k (p : kprog A) w : everywhere ca_tame p -> ca_secured k p w.
Proof. intros Hp. by apply secure_ca_tame. Qed.

(** An instance the informer has shown. *)
Definition shown (w : ca_world) (k : NamespacedName) (m : MustGather) : Prop :=
  mg_key m = k /\ cw_uids w !! mg_UID m = Some k.

Lemma shown_rely k' w w' k m : ca_rely k' w w' -> shown w k m -> shown w' k m.
Proof. intros [Hu _] [Hk Hl]. split; [done|]. by eapply lookup_weaken. Qed.

Lemma shown_instance w k m : shown w k m -> mg_Namespace m <> r_OperatorNamespace r -> instance_at w k (mg_UID m).
Proof. intros [<- Hu] Hns. by split. Qed.

Lemma copy_of_shown w k m : shown w k m -> mkKey (mg_Namespace m) (r_TrustedCAConfigMap r) = copy_of k.
Proof. by intros [<- _]. Qed.

(** A read of the copy: what is answered is a version of it. *)
Lemma secure_read_copy {A} k m w (f : goerror + ConfigMap -> kprog A) (Q : A -> ca_world -> Prop) :
  shown w k m ->
  (forall w', ca_rely k w w' -> forall e, ca_secure k (f (inl e)) w' Q) ->
  (forall w' c, ca_rely k w w' -> known_cm w' (copy_of k) c -> ca_secure k (f (inr c)) w' Q) ->
  ca_secure k (let* res := call (Get KConfigMap (mkKey (mg_Namespace m) (r_TrustedCAConfigMap r))) in f res) w Q.
Proof.
  intros Hm He Hc. cbn [prog_bind call secure]. intros w1 Hok Hr. split; [done|]. intros [e|c] w2 [-> Hx] _; [by apply He|].
  apply Hc; [done|]. rewrite (copy_of_shown _ _ _ Hm) in Hx. by apply (ca_ok_cache _ Hok).
Qed.

(** ** The two operations *)

Lemma ensure_secure k m w (Q : option goerror -> ca_world -> Prop) :
  shown w k m -> (forall err w', ca_rely k w w' -> Q err w') -> ca_secure k (ensureTrustedCAConfigMap r m) w Q.
Proof.
  intros Hm HQ. unfold ensureTrustedCAConfigMap. str_case (mg_Namespace m) (r_OperatorNamespace r); [by apply HQ|].
  cbn [prog_bind call secure]. intros w1 Hok1 Hr1. split; [done|]. intros [e|src] w2 [-> _] _; [by apply HQ|].
  pose proof (shown_rely _ _ _ _ _ Hr1 Hm) as Hm1. apply secure_read_copy; [done|..].
  - intros w3 Hr3 e. destruct (IsNotFound e); cbn [negb]; [|by apply HQ; etransitivity].
    cbn [prog_bind call secure]. intros w4 Hok4 Hr4. assert (ca_rely k w1 w4) as Hw4 by by etransitivity. split.
    + split; [exact (copy_of_shown _ _ _ Hm)|]. eexists _, _. split; [|by split].
      apply shown_instance; [by eapply shown_rely|done].
    + intros x w5 Hs%(ca_serves_rely k) _. apply HQ. etransitivity; [exact Hr1|]. by etransitivity.
  - intros w3 c Hr3 Hc. destruct (owned_by (mg_UID m) (cm_owners c)) eqn:Hown; [by apply HQ; etransitivity|].
    cbn [prog_bind call secure]. intros w4 Hok4 Hr4. assert (ca_rely k w1 w4) as Hw4 by by etransitivity. split.
    + split; [exact (proj1 Hc)|]. exists (mg_UID m), c.
      split; [apply shown_instance; [by eapply shown_rely|done]|]. split; [eapply known_cm_mono; [apply Hr4|done]|].
      split; [done|]. split; [|by split]. apply owner_joins; [done|].
      intros Hin%owned_by_spec. congruence.
    + intros [e|x] w5 Hs%(ca_serves_rely k) _; apply HQ; (etransitivity; [exact Hr1|]); by etransitivity.
Qed.

Lemma release_secure k m w (Q : option goerror -> ca_world -> Prop) :
  shown w k m -> (forall err w', ca_rely k w w' -> Q err w') -> ca_secure k (cleanupTrustedCAConfigMap r m) w Q.
Proof.
  intros Hm HQ. unfold cleanupTrustedCAConfigMap. str_case (mg_Namespace m) (r_OperatorNamespace r); [by apply HQ|].
  apply secure_read_copy; [done|..].
  - intros w1 Hr1 e. destruct (IsNotFound e); by apply HQ.
  - intros w1 c Hr1 Hc.
    assert (forall w2, ca_rely k w1 w2 -> instance_at w2 k (mg_UID m) /\ known_cm w2 (copy_of k) c) as Hw.
    { intros w2 Hr2. split; [|eapply known_cm_mono; [apply Hr2|done]].
      apply shown_instance; [|done]. eapply shown_rely; [|exact Hm]. by etransitivity. }
    destruct (remove_owner (mg_UID m) (cm_owners c)) as [|ref refs] eqn:Hrm; cbn [prog_bind call secure];
      intros w2 Hok2 Hr2; destruct (Hw w2 Hr2) as [Hi Hk]; split.
    + exists (mg_UID m). split_and!; [done..|]. apply owner_uids_empty in Hrm. rewrite owner_uids_remove in Hrm. by apply empty_difference_subseteq_L.
    + intros x w3 Hs%(ca_serves_rely k) _. apply HQ. etransitivity; [exact Hr1|]. by etransitivity.
    + split; [exact (proj1 Hc)|]. exists (mg_UID m), c. split_and!; [done..| |done|done].
      change (cm_owners (cm_with_OwnerReferences c (ref :: refs))) with (ref :: refs).
      rewrite <-Hrm. apply owner_leaves. by rewrite Hrm.
    + intros [e|x] w3 Hs%(ca_serves_rely k) _; apply HQ; (etransitivity; [exact Hr1|]); by etransitivity.
Qed.

(** ** The handlers *)

Lemma cleanup_ca_secure k m w (Q : option goerror -> ca_world -> Prop) :
  shown w k m -> (forall err w', Q err w') -> ca_secure k (cleanupMustGatherResources r m) w Q.
Proof.
  intros Hm HQ. unfold cleanupMustGatherResources.
  apply secure_bind, secure_ca_tame; [by ev_go|]. intros [e|job] tr w1 _ Hr1; [destruct (IsNotFound e); apply HQ|].
  destruct (owned_by (mg_UID m) _); cbn [negb]; [|apply HQ].
  apply secure_bind, secure_ca_tame; [by ev_go|]. intros [e|pods] tr2 w2 _ Hr2; [apply HQ|].
  apply secure_bind, secure_ca_tame; [by_requests|]. intros [e|] tr3 w3 _ Hr3; [apply HQ|].
  apply secure_bind, secure_ca_tame; [by ev_go|]. intros [e|] tr4 w4 _ Hr4; [apply HQ|].
  destruct (negb _); [|apply HQ]. apply release_secure; [|auto].
  eapply shown_rely; [|exact Hm]. do 3 (etransitivity; [eassumption|]). exact Hr4.
Qed.

Lemma handleJobCompletion_ca_secured `{UnicodeTables} k m s t w :
  shown w k m -> ca_secured k (handleJobCompletion r m s t) w.
Proof.
  intros Hm. unfold handleJobCompletion. cbn [prog_bind call]. intros w1 Hok1 Hr1. split; [done|].
  intros [e|m'] w2 [-> Hm'] _; [apply ca_tame_secured; by_requests|]. destruct (cleanup_wanted m'); [|done].
  specialize (Hm' m' eq_refl) as [Hk Hu].
  apply secure_bind, cleanup_ca_secure; [|intros [e|] w3; [apply ca_tame_secured; by_requests|done]].
  destruct (shown_rely _ _ _ _ _ Hr1 Hm) as [Hmk Hmu]. split; [by rewrite Hk|by rewrite Hu].
Qed.

Lemma reconcileJob_ca_secured `{UnicodeTables} k m job w : shown w k m -> ca_secured k (reconcileJob r m job) w.
Proof.
  intros Hm. unfold reconcileJob. repeat case_match; try (apply ca_tame_secured; by_requests).
  - by apply handleJobCompletion_ca_secured.
  - intros w1 Hok1 Hr1. split; [done|]. intros x w2 -> _. apply handleJobCompletion_ca_secured. by eapply shown_rely.
Qed.

Lemma reconcileActive_ca_secured `{UnicodeTables} k m w : shown w k m -> ca_secured k (reconcileActive r m) w.
Proof.
  intros Hm. unfold reconcileActive, prepare.
  assert (forall w1, ca_rely k w w1 -> ca_secured k
    (let* res := call (Get KJob (jobKey m)) in
     match res with
     | inl err => if negb (IsNotFound err) then ManageError m err else reconcileCreate r m
     | inr existingJob => reconcileJob r m existingJob
     end) w1) as Hjob.
  { intros w1 Hr1. apply secure_bind, secure_ca_tame; [by ev_go|]. intros [e|job] tr w2 _ Hr2.
    - destruct (negb _); apply ca_tame_secured; by_requests.
    - apply reconcileJob_ca_secured. eapply shown_rely; [|exact Hm]. by etransitivity. }
  apply secure_bind, secure_bind.
  enough (forall err w1, ca_rely k w w1 -> ca_secure k
    (match err with
     | Some err => Ret (Some err)
     | None =>
         let cmName := getObfuscateConfigMapRefName (spec_Obfuscate (mg_Spec m)) in
         if cmName <>?s "" then
           let* res := call (Get KConfigMap (mkKey (mg_Namespace m) cmName)) in
           Ret match res with inl err => Some (obfuscationConfigMapMissing m cmName err) | inr _ => None end
         else Ret None
     end) w1 (fun err w2 => ca_secured k
        (match err with
         | Some err => ManageError m err
         | None =>
             let* res := call (Get KJob (jobKey m)) in
             match res with
             | inl err => if negb (IsNotFound err) then ManageError m err else reconcileCreate r m
             | inr existingJob => reconcileJob r m existingJob
             end
         end) w2)) as Hrest.
  { destruct (_ <>?s _); [by apply ensure_secure|by apply Hrest]. }
  intros err w1 Hr1. cbv zeta. apply secure_ca_tame; [by ev_go|]. intros [e|] tr w2 _ Hr2.
  - apply ca_tame_secured. by ev_go.
  - apply Hjob. by etransitivity.
Qed.

Lemma Reconcile_ca_secured `{UnicodeTables} k w : ca_secured k (Reconcile r k) w.
Proof.
  unfold Reconcile. cbn [prog_bind call]. intros w1 Hok Hr. split; [done|]. intros x w2 [-> Hx] _.
  destruct x as [e|m]; [by destruct (IsNotFound e)|]. assert (shown w1 k m) as Hm by by apply (ca_ok_mg _ Hok).
  destruct (has _).
  { unfold reconcileDeletion. destruct (has_finalizer m); [|done]. apply secure_bind.
    enough (forall err w3, ca_secured k
      (match err with
       | Some err => Ret (emptyResult, Some err)
       | None => let* res := call (Update KMustGather (remove_finalizer m)) in
                 match res with inl err => ManageError (remove_finalizer m) err | inr _ => Ret (emptyResult, None) end
       end) w3) as Hrest by (destruct (cleanup_wanted m); [by apply cleanup_ca_secure|apply Hrest]).
    intros err w3. apply ca_tame_secured. by ev_go. }
  destruct (has_finalizer m); cbn [negb]; [|apply ca_tame_secured; by ev_go].
  destruct (usesOperatorSA r m); [apply ca_tame_secured; by_requests|]. by apply reconcileActive_ca_secured.
Qed.
End copies.
