(* ===== verification/CaRuns.v ===== *)
(** * The CA copies of an operator at work

    The theorem on every step of the operator in the world of [CaWorld], a server for that
    world, and a run: the copy another instance uses is deleted. *)

From S2P Require Import Prelude GoStrings GoErrors GoTime K8sTypes MustGatherV1 Effects KubeEffects.
From S2P Require Import ApiServer OperatorUtils TrustedCA Reconcile Demo TrustedCARefinement WorkQueue RateLimiter Controller.
From S2P Require Import World RelyGuarantee ControllerRuns ConcurrentRuns CaWorld CaConcurrent.

Section operator.
  Context `{UnicodeTables}.
  Variable r : MustGatherReconciler.
  Variable workers : nat.

Abbreviation ca_step := (step ca_environment ca_serves (Reconcile r) workers).
Abbreviation ca_safe := (safe ca_ok ca_rely (ca_guarantee r) ca_serves workers).

Lemma ca_step_safe s a s' : ca_safe s -> ca_step s a s' -> ca_safe s'.
Proof.
  apply step_safe; [apply _|apply ca_environment_ok|intros; by apply ca_environment_rely| | |apply Reconcile_ca_secured].
  - intros k R e w x w' Hok _. by apply ca_serves_ok.
  - intros k k' R e w x w' _ _ _. by apply ca_serves_rely.
Qed.

Lemma ca_reachable_safe now s :
  reachable ca_environment ca_serves (Reconcile r) workers empty_ca_world now s -> ca_safe s.
Proof. induction 1 as [|s a s' _ IH Hs]; [|by eapply ca_step_safe]. apply start_safe, empty_ca_ok. Qed.
End operator.

(** C20: A step of a worker changes the CA copies by one owner.  Take any state the
    operator can come to, with any number of workers, with users and other clients that
    write any ConfigMap in any way, with answers lost, the informers behind, and the process
    killed at any point; and any step of a worker.  It leaves every ConfigMap alone, or it
    changes one: the copy in the namespace of an instance that the informer has shown,
    outside the operator's own namespace.  Then it creates the copy for that instance, adds
    that instance to the owners, takes it away from the owners while others remain, the
    data staying what they are, or deletes the copy; and this only after reading a version
    of the copy that nobody else owned.  So nobody else loses the copy unless it became an
    owner after that version. *)
Theorem copies_change_by_one_owner `{UnicodeTables} r workers now s s' c :
  reachable ca_environment ca_serves (Reconcile r) workers empty_ca_world now s ->
  step ca_environment ca_serves (Reconcile r) workers s Worker s' ->
  let w := sys_world s in
  let w' := sys_world s' in
  cw_cm w' !! c = cw_cm w !! c \/
  exists k u, cw_uids w !! u = Some k /\ nn_Namespace k <> r_OperatorNamespace r /\
    c = copy_key r (nn_Namespace k) /\ (forall c', c' <> c -> cw_cm w' !! c' = cw_cm w !! c') /\
    copy_change w u (cw_cm w !! c) (cw_cm w' !! c).
Proof.
  intros Hr Hstep w w'. pose proof (ca_reachable_safe r workers now s Hr) as Hsafe.
  destruct (step_world _ _ _ _ _ _ _ _ _ _ Hsafe Hstep) as [Hs|[[[=] _]|(_ & k & R & e & x & Hg & Hx)]].
  { left. unfold w'. by rewrite Hs. }
  pose proof (safe_world _ _ _ _ _ _ Hsafe) as Hok. fold w in Hok, Hg, Hx. fold w' in Hx.
  destruct (decide (c = copy_of r k)) as [->|Hc]; [|left; by eapply ca_serves_other].
  destruct (ca_serves_copy r k R e w x w' Hok Hg Hx) as [|(u & [Hu Hns] & Hch)]; [by left|]. right. exists k, u.
  split_and!; [done..| |done]. intros c' Hc'. by eapply ca_serves_other.
Qed.

(** ** A server *)

Definition versioned_cm (w : ca_world) (del : option Time) (c : ConfigMap) : ConfigMap :=
  let a := cm_ObjectMeta c in
  mkConfigMap (mkMeta (om_Name a) (om_Namespace a) (om_UID a) (fresh ({[""]} ∪ dom (cw_versions w))) (om_Generation a) del
    (om_Labels a) (om_OwnerReferences a) (om_Finalizers a)) (cm_Data c) (cm_BinaryData c) (cm_Immutable c).

(** The Job of an instance: there is one when the instance is marked for deletion. *)
Definition job_of (m : MustGather) : Job :=
  job_with_ObjectMeta (demo_job (job_status 0 0 0))
    (om_with_OwnerReferences (mg_ObjectMeta m) [controllerRef (mg_ObjectMeta m)]).

Definition serve_ca : handler KubeE ca_world :=
  fun R e w =>
    match e in KubeE R return R * ca_world with
    | Get k key =>
        (match k return goerror + objOf k with
         | KMustGather => match cw_mg w !! key with Some o => inr o | None => inl absent end
         | KConfigMap => match cw_cache w !! key with Some o => inr o | None => inl absent end
         | KJob => match cw_mg w !! key with
                   | Some m => if mg_dying m then inr (job_of m) else inl absent
                   | None => inl absent
                   end
         | KServiceAccount => inr (mkServiceAccount emptyMeta)
         | KSecret => inr demo_secret
         | _ => inl absent
         end, w)
    | ListPods _ _ => (inr [], w)
    | Create k o =>
        match k return objOf k -> option goerror * ca_world with
        | KConfigMap => fun o =>
            match cw_cm w !! cm_key o with
            | Some _ => (Some (NewAlreadyExists "already exists"), w)
            | None => (None, write_cm (versioned_cm w None o) w)
            end
        | _ => fun _ => (None, w)
        end o
    | Update k o =>
        match k return objOf k -> (goerror + objOf k) * ca_world with
        | KConfigMap => fun o =>
            match cw_cm w !! cm_key o with
            | Some cur =>
                if decide (cm_version o = cm_version cur) then
                  let new := versioned_cm w (om_DeletionTimestamp (cm_ObjectMeta cur)) o in (inr new, write_cm new w)
                else (inl refused, w)
            | None => (inl absent, w)
            end
        | _ => fun o => (inr o, w)
        end o
    | StatusUpdate m => (inr m, w)
    | Delete k o =>
        match k return objOf k -> option goerror * ca_world with
        | KConfigMap => fun o =>
            match cw_cm w !! cm_key o with
            | Some cur =>
                if decide (om_Finalizers (cm_ObjectMeta cur) = []) then (None, remove_cm (cm_key o) w)
                else (Some refused, w)
            | None => (Some absent, w)
            end
        | _ => fun _ => (None, w)
        end o
    | RecordEvent _ _ _ _ => (tt, w)
    | MetricInc _ => (tt, w)
    | LookupEnv name => (if name =?s OPERATOR_IMAGE then Some "quay.io/operator:v1" else None, w)
    | TimeNow => (mkTime 1700000000 0 0, w)
    | RandInt63 => (42%Z, w)
    | SftpDial _ _ _ => (None, w)
    end.

Lemma versioned_cm_new w del c : new_version w (versioned_cm w del c).
Proof.
  pose proof (is_fresh ({[""]} ∪ dom (cw_versions w) : gset string)) as Hf. apply not_elem_of_union in Hf as [Hne Hv].
  split; cbn; [set_solver|by apply (not_elem_of_dom (D:=gset string))].
Qed.

(** The server's answers are among those the world allows. *)
Lemma serve_ca_serves R (e : KubeE R) w : ca_serves R e w (serve_ca R e w).1 (serve_ca R e w).2.
Proof.
  destruct e as [k key|ns ls|k o|k o|m|k o| | | | | |]; try done; try (destruct k; done).
  - destruct k; cbn; split; try done; apply answers_stored.
  - destruct k; try done. cbn. destruct (cw_cm w !! cm_key o) eqn:Ho; [by left|]. right. split; [done|].
    exists (versioned_cm w None o). split; [|split; [|split; [apply versioned_cm_new|done]]]; [by repeat split|done].
  - destruct k; try done. cbn. destruct (cw_cm w !! cm_key o) as [cur|] eqn:Ho; [|left; eauto].
    case_decide as Hv; [|left; eauto]. right.
    exists cur, (versioned_cm w (om_DeletionTimestamp (cm_ObjectMeta cur)) o). split; [done|]. split; [by right|].
    split; [by repeat split|]. split; [done|]. split; [apply versioned_cm_new|done].
  - cbn. split; [done|]. by intros m' [= <-].
  - destruct k; try done. cbn. destruct (cw_cm w !! cm_key o) as [cur|] eqn:Ho; [|by left].
    destruct (decide (om_Finalizers (cm_ObjectMeta cur) = [])) eqn:Hd; [|by left]. right. exists cur. split; [done|]. by rewrite Hd.
Qed.

(** ** A run *)

#[local] Existing Instance ascii_tables.

Definition user_instance (name uid : string) (del : option Time) : MustGather :=
  mkMustGather (mkTypeMeta "MustGather" "operator.openshift.io/v1")
    (mkMeta name "user-ns" uid "1" 1 del ∅ [] [mustGatherFinalizer])
    (mkMustGatherSpec "default" None None None None None None None) None.

Definition ca_copy_key : NamespacedName := copy_key demo_reconciler "user-ns".

Definition shown_now (m : MustGather) (w : ca_world) : ca_world :=
  mkCaWorld (<[mg_key m := m]> (cw_mg w)) (cw_cm w) (cw_cache w) (<[mg_UID m := mg_key m]> (cw_uids w)) (cw_versions w).

Definition synced_cm (k : NamespacedName) (w : ca_world) : ca_world :=
  mkCaWorld (cw_mg w) (cw_cm w) (partial_alter (fun _ => cw_cm w !! k) k (cw_cache w)) (cw_uids w) (cw_versions w).

Definition reconciled_ca (m : MustGather) (w : ca_world) : ca_world :=
  (run serve_ca (Reconcile demo_reconciler (mg_key m)) w).2.

Definition first_instance : MustGather := user_instance "demo" "u1" None.
Definition second_instance : MustGather := user_instance "demo2" "u2" None.
Definition first_deleted : MustGather := user_instance "demo" "u1" (Some (mkTime 1700000100 0 0)).

(** The operator's bundle is there; the first instance gets the copy, the informer shows
    it, and the second instance joins, which the informer has not shown yet. *)
Definition bundle_world : ca_world := synced_cm (cm_key demo_ca) (write_cm (versioned_cm empty_ca_world None demo_ca) empty_ca_world).
Definition copied_world : ca_world := synced_cm ca_copy_key (reconciled_ca first_instance (shown_now first_instance bundle_world)).
Definition joined_world : ca_world := reconciled_ca second_instance (shown_now second_instance copied_world).

(** Then the first one is deleted; its Job is there, and done. *)
Definition leaving_world : ca_world := shown_now first_deleted joined_world.

Definition deletes_cm (R : Type) (e : KubeE R) : bool := match e with Delete KConfigMap _ => true | _ => false end.

Abbreviation ca_run_reaches := (reachable ca_environment ca_serves (Reconcile demo_reconciler) 1 empty_ca_world 0).

Lemma reconciled_ca_reached m w :
  comes_back (run serve_ca (Reconcile demo_reconciler (mg_key m)) w).1 = false ->
  ca_run_reaches (start_system w 0) -> ca_run_reaches (start_system (reconciled_ca m w) 0).
Proof.
  intros Ho. eapply (reaches_reconcile _ _ _ answered serve_ca); [|apply run_until_answered|exact Ho].
  intros. apply serve_ca_serves.
Qed.

Lemma shown_now_reached m w :
  (forall k, cw_uids w !! mg_UID m = Some k -> k = mg_key m) ->
  ca_run_reaches (start_system w 0) -> ca_run_reaches (start_system (shown_now m w) 0).
Proof. intros Hm Hr. eapply reaches_environment; [exact Hr|]. by apply ca_env_shown. Qed.

Lemma synced_cm_reached k w :
  ca_run_reaches (start_system w 0) -> ca_run_reaches (start_system (synced_cm k w) 0).
Proof. intros Hr. eapply reaches_environment; [exact Hr|]. apply ca_env_sync. Qed.

Lemma leaving_reached : ca_run_reaches (start_system leaving_world 0).
Proof.
  apply shown_now_reached; [vm_compute; congruence|].
  apply reconciled_ca_reached; [vm_compute; reflexivity|]. apply shown_now_reached; [vm_compute; congruence|].
  apply synced_cm_reached, reconciled_ca_reached; [vm_compute; reflexivity|].
  apply shown_now_reached; [vm_compute; congruence|]. apply synced_cm_reached.
  eapply reaches_environment; [constructor|]. apply ca_env_write, versioned_cm_new.
Qed.

(** The worker of the first instance is about to delete a copy the second one owns too. *)
Lemma about_to_delete :
  exists c f o, run_until deletes_cm serve_ca (Reconcile demo_reconciler demo_key) leaving_world
                = (Vis (Delete KConfigMap c) f, leaving_world) /\
    serve_ca _ (Delete KConfigMap c) leaving_world = (None, remove_cm ca_copy_key leaving_world) /\
    cw_cm leaving_world !! ca_copy_key = Some o /\ or_UID <$> cm_owners o = ["u1"; "u2"].
Proof. do 3 eexists. split; [vm_compute; reflexivity|]. vm_compute. repeat split. Qed.

(** It deletes it, having read the version before the second one joined. *)
Lemma copies_change_by_one_owner_witness :
  exists s s' o u seen,
    ca_run_reaches s /\ step ca_environment ca_serves (Reconcile demo_reconciler) 1 s Worker s' /\
    cw_cm (sys_world s) !! ca_copy_key = Some o /\ or_UID <$> cm_owners o = ["u1"; "u2"] /\
    cw_cm (sys_world s') !! ca_copy_key = None /\
    known_cm (sys_world s) (cm_key o) seen /\ owner_uids (cm_owners seen) ⊆ {[u]}.
Proof.
  destruct about_to_delete as (c & f & o & Hrun & Hs & Ho & Hu).
  pose proof (reaches_taken ca_environment (Reconcile demo_reconciler) ca_serves deletes_cm serve_ca
    (fun R e w _ => serve_ca_serves R e w) empty_ca_world 0 leaving_world demo_key leaving_reached) as Hr.
  rewrite Hrun in Hr. cbn [fst snd] in Hr.
  pose proof (serve_ca_serves _ (Delete KConfigMap c) leaving_world) as Hx. rewrite Hs in Hx. cbn [fst snd] in Hx.
  revert Ho Hr Hx. generalize leaving_world as lw. clear Hrun Hs. intros lw Ho Hr Hx.
  match type of Hr with reachable _ _ _ _ _ _ ?s0 => set (s := s0) in Hr end.
  pose (s' := mkSystem (remove_cm ca_copy_key lw) (taken demo_key) [(demo_key, Reconciling (f None))] 0 ∅ DefaultControllerRateLimiter).
  assert (step ca_environment ca_serves (Reconcile demo_reconciler) 1 s Worker s') as Hstep.
  { by apply (step_request _ _ _ _ s [] demo_key _ (Delete KConfigMap c) f [] None). }
  assert (cw_cm (sys_world s') !! ca_copy_key = None) as Hgone by apply lookup_delete_eq.
  destruct (copies_change_by_one_owner _ 1 0 s s' ca_copy_key Hr Hstep) as [Hsame|(k & u & _ & _ & _ & _ & Hch)].
  - exfalso. rewrite Hgone in Hsame. change (sys_world s) with lw in Hsame. congruence.
  - rewrite Hgone in Hch. change (sys_world s) with lw in Hch. rewrite Ho in Hch.
    inversion Hch as [| |o' seen new Hseen Hsub]; subst. by exists s, s', o, u, seen.
Defined.
