(* ===== verification/Scheme.v ===== *)
(** * The scheme: which Go type is which kind

    [runtime.Scheme] of apimachinery, the types every group version has ([metav1]), and
    [scheme.Builder] of controller-runtime. *)

From S2P Require Import Prelude GoStrings GoErrors K8sTypes.

(** ** [runtime.Scheme] *)

Record GroupVersion := mkGV { gv_Group : string; gv_Version : string }.
Record GroupVersionKind := mkGVK { gvk_GroupVersion : GroupVersion; gvk_Kind : string }.

(** [reflect.Type] of a struct. *)
Record GoType := mkGoType { t_PkgPath : string; t_Name : string }.

#[export] Instance GroupVersion_eq_dec : EqDecision GroupVersion.
Proof. solve_decision. Defined.
#[export] Instance GroupVersionKind_eq_dec : EqDecision GroupVersionKind.
Proof. solve_decision. Defined.
#[export] Instance GoType_eq_dec : EqDecision GoType.
Proof. solve_decision. Defined.

(** [gvkToType], and with it [typeToGVK], in the order of registration; and the
    types of [unversionedTypes]. *)
Record Scheme := mkScheme {
  s_known : list (GroupVersionKind * GoType);
  s_unversioned : list GoType;
}.

Definition NewScheme : Scheme := mkScheme [] [].

Definition gvkToType (s : Scheme) (gvk : GroupVersionKind) : option GoType :=
  snd <$> List.find (fun e => bool_decide (e.1 = gvk)) (s_known s).

Definition typeToGVK (s : Scheme) (t : GoType) : list GroupVersionKind :=
  map fst (List.filter (fun e => bool_decide (e.2 = t)) (s_known s)).

(** Registrations panic or return an error, which makes [utilruntime.Must] panic: [None]. *)
Definition registration : Type := Scheme -> option Scheme.

Definition AddKnownTypeWithName (gvk : GroupVersionKind) (t : GoType) : registration := fun s =>
  if gv_Version (gvk_GroupVersion gvk) =?s "" then None
  else match gvkToType s gvk with
       | Some oldT => if decide (oldT = t) then Some s else None
       | None => Some (mkScheme (s_known s ++ [(gvk, t)]) (s_unversioned s))
       end.

Fixpoint AddKnownTypes (gv : GroupVersion) (types : list GoType) : registration := fun s =>
  match types with
  | [] => Some s
  | t :: types => s ← AddKnownTypeWithName (mkGVK gv (t_Name t)) t s; AddKnownTypes gv types s
  end.

(** The loop of [AddUnversionedTypes]; [unversionedKinds] has one type for each name. *)
Fixpoint mark_unversioned (types : list GoType) : registration := fun s =>
  match types with
  | [] => Some s
  | t :: types =>
      match List.find (fun old => t_Name old =?s t_Name t) (s_unversioned s) with
      | Some old => if decide (old = t) then mark_unversioned types s else None
      | None => mark_unversioned types (mkScheme (s_known s) (s_unversioned s ++ [t]))
      end
  end.

Definition AddUnversionedTypes (gv : GroupVersion) (types : list GoType) : registration := fun s =>
  s ← AddKnownTypes gv types s; mark_unversioned types s.

(** [metav1.AddToGroupVersion]. *)
Definition metav1_type (name : string) : GoType := mkGoType "k8s.io/apimachinery/pkg/apis/meta/v1" name.

Definition optionsTypes : list GoType :=
  map metav1_type ["ListOptions"; "GetOptions"; "DeleteOptions"; "CreateOptions"; "UpdateOptions"; "PatchOptions"].

Definition AddToGroupVersion (gv : GroupVersion) : registration := fun s =>
  s ← AddKnownTypeWithName (mkGVK gv "WatchEvent") (metav1_type "WatchEvent") s;
  s ← AddKnownTypeWithName (mkGVK (mkGV (gv_Group gv) "__internal") "WatchEvent") (metav1_type "InternalEvent") s;
  s ← AddKnownTypes gv optionsTypes s;
  AddUnversionedTypes (mkGV "" "v1")
    (map metav1_type ["Status"; "APIVersions"; "APIGroupList"; "APIGroup"; "APIResourceList"]) s.

(** [ObjectKinds] and [apiutil.GVKForObject], for an object whose type meta is empty: it
    has to be of a registered, versioned type with a single kind. *)
Definition GVKForObject (s : Scheme) (t : GoType) : option GroupVersionKind :=
  if bool_decide (t ∈ s_unversioned s) then None
  else match typeToGVK s t with
       | [gvk] => Some gvk
       | _ => None
       end.

(** ** [scheme.Builder] *)

Record Builder := mkBuilder { b_GroupVersion : GroupVersion; b_SchemeBuilder : list registration }.

Definition Register (bld : Builder) (objects : list GoType) : Builder :=
  mkBuilder (b_GroupVersion bld)
    (b_SchemeBuilder bld ++
     [fun s => s ← AddKnownTypes (b_GroupVersion bld) objects s; AddToGroupVersion (b_GroupVersion bld) s]).

(** [SchemeBuilder.AddToScheme]: the functions in turn. *)
Fixpoint run_builder (fs : list registration) : registration := fun s =>
  match fs with
  | [] => Some s
  | f :: fs => s ← f s; run_builder fs s
  end.

Definition AddToScheme (bld : Builder) : registration := run_builder (b_SchemeBuilder bld).
