(* ===== verification/ClientGo.v ===== *)
(** * The groups of client-go's scheme [vendor/k8s.io/client-go/kubernetes/scheme/register.go]

    The packages in the order of [localSchemeBuilder], each with the group, the version and
    the types of its [register.go]. *)

From S2P Require Import Prelude GoStrings K8sTypes Scheme.

Record api_group := mkGroup { grp_PkgPath : string; grp_Group : string; grp_Version : string; grp_types : list string }.

Definition group_type (g : api_group) (name : string) : GoType := mkGoType (grp_PkgPath g) name.

(** [addKnownTypes], the same in each package but that of the core. *)
Definition addKnownTypes (g : api_group) : registration := fun s =>
  let gv := mkGV (grp_Group g) (grp_Version g) in
  s ← AddKnownTypes gv (map (group_type g) (grp_types g)) s;
  AddToGroupVersion gv s.

Definition admissionregistrationv1 : api_group :=
  mkGroup "k8s.io/api/admissionregistration/v1" "admissionregistration.k8s.io" "v1"
  ["ValidatingWebhookConfiguration"; "ValidatingWebhookConfigurationList"; "MutatingWebhookConfiguration";
  "MutatingWebhookConfigurationList"; "ValidatingAdmissionPolicy"; "ValidatingAdmissionPolicyList";
  "ValidatingAdmissionPolicyBinding"; "ValidatingAdmissionPolicyBindingList"].

Definition batchv1 : api_group :=
  mkGroup "k8s.io/api/batch/v1" "batch" "v1" ["Job"; "JobList"; "CronJob"; "CronJobList"].

Definition corev1 : api_group :=
  mkGroup "k8s.io/api/core/v1" "" "v1" ["Pod"; "PodList"; "PodStatusResult"; "PodTemplate"; "PodTemplateList";
       "ReplicationController"; "ReplicationControllerList"; "Service"; "ServiceProxyOptions"; "ServiceList";
       "Endpoints"; "EndpointsList"; "Node"; "NodeList"; "NodeProxyOptions"; "Binding"; "Event"; "EventList";
       "List"; "LimitRange"; "LimitRangeList"; "ResourceQuota"; "ResourceQuotaList"; "Namespace";
       "NamespaceList"; "Secret"; "SecretList"; "ServiceAccount"; "ServiceAccountList"; "PersistentVolume";
       "PersistentVolumeList"; "PersistentVolumeClaim"; "PersistentVolumeClaimList"; "PodAttachOptions";
       "PodLogOptions"; "PodExecOptions"; "PodPortForwardOptions"; "PodProxyOptions"; "ComponentStatus";
       "ComponentStatusList"; "SerializedReference"; "RangeAllocation"; "ConfigMap"; "ConfigMapList"].

Definition corev1_AddToScheme : registration := fun s =>
  let gv := mkGV (grp_Group corev1) (grp_Version corev1) in
  s ← AddKnownTypes gv (map (group_type corev1) (grp_types corev1)) s;
  s ← AddKnownTypes gv [metav1_type "Status"] s;
  AddToGroupVersion gv s.

(** Those between them. *)
Definition groups_to_batch : list api_group :=
  [mkGroup "k8s.io/api/admissionregistration/v1alpha1" "admissionregistration.k8s.io" "v1alpha1"
       ["ValidatingAdmissionPolicy"; "ValidatingAdmissionPolicyList"; "ValidatingAdmissionPolicyBinding";
       "ValidatingAdmissionPolicyBindingList"; "MutatingAdmissionPolicy"; "MutatingAdmissionPolicyList";
       "MutatingAdmissionPolicyBinding"; "MutatingAdmissionPolicyBindingList"];
   mkGroup "k8s.io/api/admissionregistration/v1beta1" "admissionregistration.k8s.io" "v1beta1"
       ["ValidatingWebhookConfiguration"; "ValidatingWebhookConfigurationList"; "MutatingWebhookConfiguration";
       "MutatingWebhookConfigurationList"; "ValidatingAdmissionPolicy"; "ValidatingAdmissionPolicyList";
       "ValidatingAdmissionPolicyBinding"; "ValidatingAdmissionPolicyBindingList"];
   mkGroup "k8s.io/api/apiserverinternal/v1alpha1" "internal.apiserver.k8s.io" "v1alpha1" ["StorageVersion";
       "StorageVersionList"];
   mkGroup "k8s.io/api/apps/v1" "apps" "v1" ["Deployment"; "DeploymentList"; "StatefulSet"; "StatefulSetList";
       "DaemonSet"; "DaemonSetList"; "ReplicaSet"; "ReplicaSetList"; "ControllerRevision";
       "ControllerRevisionList"];
   mkGroup "k8s.io/api/apps/v1beta1" "apps" "v1beta1" ["Deployment"; "DeploymentList"; "DeploymentRollback";
       "Scale"; "StatefulSet"; "StatefulSetList"; "ControllerRevision"; "ControllerRevisionList"];
   mkGroup "k8s.io/api/apps/v1beta2" "apps" "v1beta2" ["Deployment"; "DeploymentList"; "Scale"; "StatefulSet";
       "StatefulSetList"; "DaemonSet"; "DaemonSetList"; "ReplicaSet"; "ReplicaSetList"; "ControllerRevision";
       "ControllerRevisionList"];
   mkGroup "k8s.io/api/authentication/v1" "authentication.k8s.io" "v1" ["TokenReview"; "TokenRequest";
       "SelfSubjectReview"];
   mkGroup "k8s.io/api/authentication/v1alpha1" "authentication.k8s.io" "v1alpha1" ["SelfSubjectReview"];
   mkGroup "k8s.io/api/authentication/v1beta1" "authentication.k8s.io" "v1beta1" ["SelfSubjectReview";
       "TokenReview"];
   mkGroup "k8s.io/api/authorization/v1" "authorization.k8s.io" "v1" ["SelfSubjectRulesReview";
       "SelfSubjectAccessReview"; "SubjectAccessReview"; "LocalSubjectAccessReview"];
   mkGroup "k8s.io/api/authorization/v1beta1" "authorization.k8s.io" "v1beta1" ["SelfSubjectRulesReview";
       "SelfSubjectAccessReview"; "SubjectAccessReview"; "LocalSubjectAccessReview"];
   mkGroup "k8s.io/api/autoscaling/v1" "autoscaling" "v1" ["HorizontalPodAutoscaler";
       "HorizontalPodAutoscalerList"; "Scale"];
   mkGroup "k8s.io/api/autoscaling/v2" "autoscaling" "v2" ["HorizontalPodAutoscaler";
       "HorizontalPodAutoscalerList"];
   mkGroup "k8s.io/api/autoscaling/v2beta1" "autoscaling" "v2beta1" ["HorizontalPodAutoscaler";
       "HorizontalPodAutoscalerList"];
   mkGroup "k8s.io/api/autoscaling/v2beta2" "autoscaling" "v2beta2" ["HorizontalPodAutoscaler";
       "HorizontalPodAutoscalerList"]].

Definition groups_to_core : list api_group :=
  [mkGroup "k8s.io/api/batch/v1beta1" "batch" "v1beta1" ["CronJob"; "CronJobList"];
   mkGroup "k8s.io/api/certificates/v1" "certificates.k8s.io" "v1" ["CertificateSigningRequest";
       "CertificateSigningRequestList"];
   mkGroup "k8s.io/api/certificates/v1beta1" "certificates.k8s.io" "v1beta1" ["CertificateSigningRequest";
       "CertificateSigningRequestList"; "ClusterTrustBundle"; "ClusterTrustBundleList"];
   mkGroup "k8s.io/api/certificates/v1alpha1" "certificates.k8s.io" "v1alpha1" ["ClusterTrustBundle";
       "ClusterTrustBundleList"];
   mkGroup "k8s.io/api/coordination/v1alpha2" "coordination.k8s.io" "v1alpha2" ["LeaseCandidate";
       "LeaseCandidateList"];
   mkGroup "k8s.io/api/coordination/v1beta1" "coordination.k8s.io" "v1beta1" ["Lease"; "LeaseList";
       "LeaseCandidate"; "LeaseCandidateList"];
   mkGroup "k8s.io/api/coordination/v1" "coordination.k8s.io" "v1" ["Lease"; "LeaseList"]].

Definition groups_from_core : list api_group :=
  [mkGroup "k8s.io/api/discovery/v1" "discovery.k8s.io" "v1" ["EndpointSlice"; "EndpointSliceList"];
   mkGroup "k8s.io/api/discovery/v1beta1" "discovery.k8s.io" "v1beta1" ["EndpointSlice"; "EndpointSliceList"];
   mkGroup "k8s.io/api/events/v1" "events.k8s.io" "v1" ["Event"; "EventList"];
   mkGroup "k8s.io/api/events/v1beta1" "events.k8s.io" "v1beta1" ["Event"; "EventList"];
   mkGroup "k8s.io/api/extensions/v1beta1" "extensions" "v1beta1" ["Deployment"; "DeploymentList";
       "DeploymentRollback"; "Scale"; "DaemonSetList"; "DaemonSet"; "Ingress"; "IngressList"; "ReplicaSet";
       "ReplicaSetList"; "NetworkPolicy"; "NetworkPolicyList"];
   mkGroup "k8s.io/api/flowcontrol/v1" "flowcontrol.apiserver.k8s.io" "v1" ["FlowSchema"; "FlowSchemaList";
       "PriorityLevelConfiguration"; "PriorityLevelConfigurationList"];
   mkGroup "k8s.io/api/flowcontrol/v1beta1" "flowcontrol.apiserver.k8s.io" "v1beta1" ["FlowSchema";
       "FlowSchemaList"; "PriorityLevelConfiguration"; "PriorityLevelConfigurationList"];
   mkGroup "k8s.io/api/flowcontrol/v1beta2" "flowcontrol.apiserver.k8s.io" "v1beta2" ["FlowSchema";
       "FlowSchemaList"; "PriorityLevelConfiguration"; "PriorityLevelConfigurationList"];
   mkGroup "k8s.io/api/flowcontrol/v1beta3" "flowcontrol.apiserver.k8s.io" "v1beta3" ["FlowSchema";
       "FlowSchemaList"; "PriorityLevelConfiguration"; "PriorityLevelConfigurationList"];
   mkGroup "k8s.io/api/networking/v1" "networking.k8s.io" "v1" ["Ingress"; "IngressList"; "IngressClass";
       "IngressClassList"; "NetworkPolicy"; "NetworkPolicyList"; "IPAddress"; "IPAddressList"; "ServiceCIDR";
       "ServiceCIDRList"];
   mkGroup "k8s.io/api/networking/v1alpha1" "networking.k8s.io" "v1alpha1" ["IPAddress"; "IPAddressList";
       "ServiceCIDR"; "ServiceCIDRList"];
   mkGroup "k8s.io/api/networking/v1beta1" "networking.k8s.io" "v1beta1" ["Ingress"; "IngressList"; "IngressClass";
       "IngressClassList"; "IPAddress"; "IPAddressList"; "ServiceCIDR"; "ServiceCIDRList"];
   mkGroup "k8s.io/api/node/v1" "node.k8s.io" "v1" ["RuntimeClass"; "RuntimeClassList"];
   mkGroup "k8s.io/api/node/v1alpha1" "node.k8s.io" "v1alpha1" ["RuntimeClass"; "RuntimeClassList"];
   mkGroup "k8s.io/api/node/v1beta1" "node.k8s.io" "v1beta1" ["RuntimeClass"; "RuntimeClassList"];
   mkGroup "k8s.io/api/policy/v1" "policy" "v1" ["PodDisruptionBudget"; "PodDisruptionBudgetList"; "Eviction"];
   mkGroup "k8s.io/api/policy/v1beta1" "policy" "v1beta1" ["PodDisruptionBudget"; "PodDisruptionBudgetList";
       "Eviction"];
   mkGroup "k8s.io/api/rbac/v1" "rbac.authorization.k8s.io" "v1" ["Role"; "RoleBinding"; "RoleBindingList";
       "RoleList"; "ClusterRole"; "ClusterRoleBinding"; "ClusterRoleBindingList"; "ClusterRoleList"];
   mkGroup "k8s.io/api/rbac/v1beta1" "rbac.authorization.k8s.io" "v1beta1" ["Role"; "RoleBinding";
       "RoleBindingList"; "RoleList"; "ClusterRole"; "ClusterRoleBinding"; "ClusterRoleBindingList";
       "ClusterRoleList"];
   mkGroup "k8s.io/api/rbac/v1alpha1" "rbac.authorization.k8s.io" "v1alpha1" ["Role"; "RoleBinding";
       "RoleBindingList"; "RoleList"; "ClusterRole"; "ClusterRoleBinding"; "ClusterRoleBindingList";
       "ClusterRoleList"];
   mkGroup "k8s.io/api/resource/v1beta2" "resource.k8s.io" "v1beta2" ["DeviceClass"; "DeviceClassList";
       "ResourceClaim"; "ResourceClaimList"; "ResourceClaimTemplate"; "ResourceClaimTemplateList";
       "ResourceSlice"; "ResourceSliceList"];
   mkGroup "k8s.io/api/resource/v1beta1" "resource.k8s.io" "v1beta1" ["DeviceClass"; "DeviceClassList";
       "ResourceClaim"; "ResourceClaimList"; "ResourceClaimTemplate"; "ResourceClaimTemplateList";
       "ResourceSlice"; "ResourceSliceList"];
   mkGroup "k8s.io/api/resource/v1alpha3" "resource.k8s.io" "v1alpha3" ["DeviceClass"; "DeviceClassList";
       "ResourceClaim"; "ResourceClaimList"; "ResourceClaimTemplate"; "ResourceClaimTemplateList";
       "ResourceSlice"; "ResourceSliceList"; "DeviceTaintRule"; "DeviceTaintRuleList"];
   mkGroup "k8s.io/api/scheduling/v1alpha1" "scheduling.k8s.io" "v1alpha1" ["PriorityClass"; "PriorityClassList"];
   mkGroup "k8s.io/api/scheduling/v1beta1" "scheduling.k8s.io" "v1beta1" ["PriorityClass"; "PriorityClassList"];
   mkGroup "k8s.io/api/scheduling/v1" "scheduling.k8s.io" "v1" ["PriorityClass"; "PriorityClassList"];
   mkGroup "k8s.io/api/storage/v1beta1" "storage.k8s.io" "v1beta1" ["StorageClass"; "StorageClassList";
       "VolumeAttachment"; "VolumeAttachmentList"; "CSIDriver"; "CSIDriverList"; "CSINode"; "CSINodeList";
       "CSIStorageCapacity"; "CSIStorageCapacityList"; "VolumeAttributesClass"; "VolumeAttributesClassList"];
   mkGroup "k8s.io/api/storage/v1" "storage.k8s.io" "v1" ["StorageClass"; "StorageClassList"; "VolumeAttachment";
       "VolumeAttachmentList"; "CSINode"; "CSINodeList"; "CSIDriver"; "CSIDriverList"; "CSIStorageCapacity";
       "CSIStorageCapacityList"];
   mkGroup "k8s.io/api/storage/v1alpha1" "storage.k8s.io" "v1alpha1" ["VolumeAttachment"; "VolumeAttachmentList";
       "CSIStorageCapacity"; "CSIStorageCapacityList"; "VolumeAttributesClass"; "VolumeAttributesClassList"];
   mkGroup "k8s.io/api/storagemigration/v1alpha1" "storagemigration.k8s.io" "v1alpha1" ["StorageVersionMigration";
       "StorageVersionMigrationList"]].

Definition localSchemeBuilder : list registration :=
  map addKnownTypes ([admissionregistrationv1] ++ groups_to_batch ++ [batchv1] ++ groups_to_core)
  ++ [corev1_AddToScheme] ++ map addKnownTypes groups_from_core.

Definition clientgoscheme_AddToScheme : registration := run_builder localSchemeBuilder.
