(* ===== verification/OperatorScheme.v ===== *)
(** * The scheme of the operator

    The registrations of [api/v1] and [api/v1alpha1] ([groupversion_info.go] and the [init]
    functions), those of openshift/api, and the [init] of [main.go] that puts them together
    with client-go's. *)

From S2P Require Import Prelude GoStrings K8sTypes Scheme ClientGo.

(** [api/v1] and [api/v1alpha1]: [groupversion_info.go], and the [init] of
    [mustgather_types.go]. *)
Definition v1_GroupVersion : GroupVersion := mkGV "operator.openshift.io" "v1".
Definition v1alpha1_GroupVersion : GroupVersion := mkGV "operator.openshift.io" "v1alpha1".

Definition v1_type (name : string) : GoType := mkGoType "github.com/openshift/must-gather-operator/api/v1" name.
Definition v1alpha1_type (name : string) : GoType :=
  mkGoType "github.com/openshift/must-gather-operator/api/v1alpha1" name.

Definition v1_SchemeBuilder : Builder := mkBuilder v1_GroupVersion [].
Definition v1alpha1_SchemeBuilder : Builder := mkBuilder v1alpha1_GroupVersion [].

(** The builders after [init]. *)
Definition v1_init : Builder := Register v1_SchemeBuilder [v1_type "MustGather"; v1_type "MustGatherList"].
Definition v1alpha1_init : Builder :=
  Register v1alpha1_SchemeBuilder [v1alpha1_type "MustGather"; v1alpha1_type "MustGatherList"].

(** [openshift/api]. *)
Definition configv1_type (name : string) : GoType := mkGoType "github.com/openshift/api/config/v1" name.
Definition imagev1_type (name : string) : GoType := mkGoType "github.com/openshift/api/image/v1" name.

Definition configv1_AddToScheme : registration := fun s =>
  let gv := mkGV "config.openshift.io" "v1" in
  s ← AddKnownTypes gv (map configv1_type
    ["APIServer"; "APIServerList"; "Authentication"; "AuthenticationList"; "Build"; "BuildList"; "ClusterOperator";
     "ClusterOperatorList"; "ClusterVersion"; "ClusterVersionList"; "Console"; "ConsoleList"; "DNS"; "DNSList";
     "FeatureGate"; "FeatureGateList"; "Image"; "ImageList"; "Infrastructure"; "InfrastructureList"; "Ingress";
     "IngressList"; "Node"; "NodeList"; "Network"; "NetworkList"; "OAuth"; "OAuthList"; "OperatorHub";
     "OperatorHubList"; "Project"; "ProjectList"; "Proxy"; "ProxyList"; "Scheduler"; "SchedulerList";
     "ImageContentPolicy"; "ImageContentPolicyList"; "ImageDigestMirrorSet"; "ImageDigestMirrorSetList";
     "ImageTagMirrorSet"; "ImageTagMirrorSetList"]) s;
  AddToGroupVersion gv s.

Definition imagev1_addKnownTypes : registration := fun s =>
  let gv := mkGV "image.openshift.io" "v1" in
  s ← AddKnownTypes gv (map imagev1_type
    ["Image"; "ImageList"; "ImageSignature"; "ImageStream"; "ImageStreamList"; "ImageStreamMapping"; "ImageStreamTag";
     "ImageStreamTagList"; "ImageStreamImage"; "ImageStreamLayers"; "ImageStreamImport"; "ImageTag"; "ImageTagList";
     "SecretList"]) s;
  AddToGroupVersion gv s.

Definition docker_addKnownTypes (pkg version : string) : registration :=
  AddKnownTypes (mkGV "image.openshift.io" version) [mkGoType pkg "DockerImage"].

Definition imagev1_AddToScheme : registration :=
  run_builder
    [imagev1_addKnownTypes;
     docker_addKnownTypes "github.com/openshift/api/image/docker10" "1.0";
     docker_addKnownTypes "github.com/openshift/api/image/dockerpre012" "pre012";
     corev1_AddToScheme].

(** The [init] of [main.go]; [None] is a panic at start. *)
Definition main_init : option Scheme :=
  s ← clientgoscheme_AddToScheme NewScheme;
  s ← configv1_AddToScheme s;
  s ← imagev1_AddToScheme s;
  s ← AddToScheme v1alpha1_init s;
  AddToScheme v1_init s.
