(* ===== verification/Permissions.v ===== *)
(** * What the operator is permitted to do

    The [kubebuilder:rbac] markers of [mustgather_controller.go], from which the roles of
    the operator's bundle are made, and the ClusterRole of [deploy/]; what each request needs
    from the API server; and that the operator's requests get it. *)

From S2P Require Import Prelude GoStrings GoErrors GoTime K8sTypes MustGatherV1 Effects KubeEffects.
From S2P Require Import ApiServer Conditions OperatorUtils Template MustGatherUtil TrustedCA Cleanup SftpValidation.
From S2P Require Import Reconcile Requests ReconcileSafety Demo AdmissionPolicy Watches Scheme ClientGo OperatorScheme.

(** ** Roles *)

(** [rbacv1.PolicyRule]; no resource names stand for all. *)
Record PolicyRule := mkRule {
  pol_APIGroups : list string;
  pol_Resources : list string;
  pol_ResourceNames : list string;
  pol_Verbs : list string;
}.

(** What is asked of the authorizer; a subresource is part of the resource, after a slash. *)
Record Attributes := mkAttributes { at_Verb : string; at_Group : string; at_Resource : string; at_Name : string }.

Definition matches (l : list string) (s : string) : bool := existsb (fun x => (x =?s "*") || (x =?s s)) l.

Definition rule_permits (a : Attributes) (rule : PolicyRule) : bool :=
  matches (pol_Verbs rule) (at_Verb a) && existsb (str_eqb (at_Group a)) (pol_APIGroups rule)
  && matches (pol_Resources rule) (at_Resource a)
  && match pol_ResourceNames rule with [] => true | names => existsb (str_eqb (at_Name a)) names end.

Definition permits (rules : list PolicyRule) (a : Attributes) : bool := existsb (rule_permits a) rules.

(** ** The rules *)

Definition all_verbs : list string := ["get"; "list"; "watch"; "create"; "update"; "patch"; "delete"].
Definition read_verbs : list string := ["get"; "list"; "watch"].

Definition rbac_markers : list PolicyRule :=
  [mkRule ["operator.openshift.io"] ["mustgathers"] [] all_verbs;
   mkRule ["operator.openshift.io"] ["mustgathers/status"] [] ["get"; "update"; "patch"];
   mkRule ["operator.openshift.io"] ["mustgathers/finalizers"] [] ["update"];
   mkRule ["config.openshift.io"] ["clusterversions"] [] read_verbs;
   mkRule ["batch"] ["jobs"; "jobs/finalizers"] [] all_verbs;
   mkRule ["monitoring.coreos.com"] ["servicemonitors"] [] ["get"; "create"];
   mkRule ["apps"] ["deployments"; "daemonsets"; "replicasets"; "statefulsets"] [] all_verbs;
   mkRule ["apps"] ["deployments/finalizers"] [] ["update"];
   mkRule ["image.openshift.io"] ["imagestreams"] [] read_verbs;
   mkRule [""] ["pods"; "services"; "services/finalizers"; "endpoints"; "persistentvolumeclaims"; "events";
                "configmaps"; "secrets"] [] all_verbs;
   mkRule [""] ["serviceaccounts"] [] read_verbs;
   mkRule ["networking.k8s.io"] ["networkpolicies"] [] ["get"; "list"; "watch"; "create"; "update"; "delete"];
   mkRule ["admissionregistration.k8s.io"] ["validatingadmissionpolicies"] [] ["create"];
   mkRule ["admissionregistration.k8s.io"] ["validatingadmissionpolicies"] ["block-mustgather-restricted-namespaces"]
     ["get"; "list"; "watch"; "update"; "patch"];
   mkRule ["admissionregistration.k8s.io"] ["validatingadmissionpolicybindings"] [] ["create"];
   mkRule ["admissionregistration.k8s.io"] ["validatingadmissionpolicybindings"]
     ["block-mustgather-restricted-namespaces"] ["get"; "list"; "watch"; "update"; "patch"]].

(** [deploy/02_must-gather-operator.ClusterRole.yaml]. *)
Definition deploy_ClusterRole : list PolicyRule :=
  [mkRule ["config.openshift.io"] ["clusterversions"; "clusterversions/status"] [] read_verbs;
   mkRule [""] ["configmaps"; "pods"] [] ["*"];
   mkRule [""] ["services"; "services/finalizers"] [] ["*"];
   mkRule ["apps"] ["replicasets"; "deployments"] [] ["get"; "list"];
   mkRule ["monitoring.coreos.com"] ["servicemonitors"] [] ["*"];
   mkRule ["apps"] ["deployments/finalizers"] ["must-gather-operator"] ["update"];
   mkRule ["operator.openshift.io"] ["mustgathers"; "mustgathers/finalizers"; "mustgathers/status"] [] ["*"];
   mkRule ["batch"] ["jobs"] [] ["*"];
   mkRule [""] ["events"] [] ["*"];
   mkRule [""] ["secrets"] [] ["get"; "delete"; "create"; "list"; "watch"];
   mkRule [""] ["serviceaccounts"] [] read_verbs;
   mkRule ["config.openshift.io"] ["proxies"] ["cluster"] ["get"; "list"];
   mkRule [""] ["services"; "endpoints"; "pods"] [] read_verbs;
   mkRule ["admissionregistration.k8s.io"] ["validatingadmissionpolicies"] [] ["create"];
   mkRule ["admissionregistration.k8s.io"] ["validatingadmissionpolicies"] ["block-mustgather-restricted-namespaces"]
     ["get"; "list"; "watch"; "update"; "patch"];
   mkRule ["admissionregistration.k8s.io"] ["validatingadmissionpolicybindings"] [] ["create"];
   mkRule ["admissionregistration.k8s.io"] ["validatingadmissionpolicybindings"]
     ["block-mustgather-restricted-namespaces"] ["get"; "list"; "watch"; "update"; "patch"];
   mkRule ["networking.k8s.io"] ["networkpolicies"] [] ["create"; "delete"; "get"; "list"; "update"; "watch"]].

(** ** What a request needs *)

(** The Go type of the objects of a kind. *)
Definition type_of (k : Kind) : GoType :=
  match k with
  | KMustGather => v1_type "MustGather"
  | KJob => group_type batchv1 "Job"
  | KConfigMap => group_type corev1 "ConfigMap"
  | KServiceAccount => group_type corev1 "ServiceAccount"
  | KSecret => group_type corev1 "Secret"
  | KPod => group_type corev1 "Pod"
  | KImageStream => imagev1_type "ImageStream"
  | KClusterVersion => configv1_type "ClusterVersion"
  | KValidatingAdmissionPolicy => group_type admissionregistrationv1 "ValidatingAdmissionPolicy"
  | KValidatingAdmissionPolicyBinding => group_type admissionregistrationv1 "ValidatingAdmissionPolicyBinding"
  end.

(** [meta.UnsafeGuessKindToResource]: the plural, as discovery has it for these kinds. *)
Definition guess_resource (kind : string) : string :=
  let singularName := ascii_lower kind in
  if kind =?s "" then ""
  else if strings_HasSuffix singularName "endpoints" then singularName
  else if strings_HasSuffix singularName "s" then singularName +:+ "es"
  else if strings_HasSuffix singularName "y"
  then String.substring 0 (String.length singularName - 1) singularName +:+ "ies"
  else singularName +:+ "s".

(** The group and the resource under which objects of a Go type are requested; [None]
    when the scheme does not know the type. *)
Definition resource_of (s : Scheme) (t : GoType) : option (string * string) :=
  gvk ← GVKForObject s t; Some (gv_Group (gvk_GroupVersion gvk), guess_resource (gvk_Kind gvk)).

Definition asks (s : Scheme) (t : GoType) (verb name : string) : option (list Attributes) :=
  r ← resource_of s t; Some [mkAttributes verb r.1 r.2 name].

Definition both (a b : option (list Attributes)) : option (list Attributes) := l ← a; l' ← b; Some (l ++ l').

(** A read of the manager's client goes through an informer, which lists and watches the
    kind in all namespaces. *)
Definition informer (s : Scheme) (k : Kind) : option (list Attributes) :=
  both (asks s (type_of k) "list" "") (asks s (type_of k) "watch" "").

(** An owner reference that blocks the deletion of a MustGather: where the plug-in
    [OwnerReferencesPermissionEnforcement] is on, who adds it has to be allowed to set the
    finalizers of that owner.  It is asked here for every reference of an object written. *)
Definition blocking_owners (refs : list OwnerReference) : list Attributes :=
  map (fun ref => mkAttributes "update" "operator.openshift.io" "mustgathers/finalizers" (or_Name ref))
    (List.filter (fun ref => default false (or_BlockOwnerDeletion ref)) refs).

Definition writes (s : Scheme) (verb : string) (k : Kind) (o : objOf k) : option (list Attributes) :=
  both (asks s (type_of k) verb (om_Name (meta_of o))) (Some (blocking_owners (om_OwnerReferences (meta_of o)))).

Definition needs (s : Scheme) {R} (e : KubeE R) : option (list Attributes) :=
  match e with
  | Get k _ => informer s k
  | ListPods _ _ => informer s KPod
  | Create k o => writes s "create" k o
  | Update k o => writes s "update" k o
  | StatusUpdate m =>
      r ← resource_of s (type_of KMustGather);
      Some [mkAttributes "update" r.1 (r.2 +:+ "/status") (om_Name (mg_ObjectMeta m))]
  | Delete k o => asks s (type_of k) "delete" (om_Name (meta_of o))
  | RecordEvent _ _ _ _ => both (asks s (group_type corev1 "Event") "create" "") (asks s (group_type corev1 "Event") "patch" "")
  | MetricInc _ | LookupEnv _ | TimeNow | RandInt63 | SftpDial _ _ _ => Some []
  end.

(** The installation of the policy reads through the API reader, without an informer. *)
Definition needs_direct (s : Scheme) {R} (e : KubeE R) : option (list Attributes) :=
  match e with
  | Get k key => asks s (type_of k) "get" (nn_Name key)
  | _ => needs s e
  end.

Definition granted (rules : list PolicyRule) (l : option (list Attributes)) : bool :=
  match l with Some l => forallb (permits rules) l | None => false end.

Definition permitted (s : Scheme) (rules : list PolicyRule) (R : Type) (e : KubeE R) : Prop :=
  granted rules (needs s e) = true.

Definition permitted_direct (s : Scheme) (rules : list PolicyRule) (R : Type) (e : KubeE R) : Prop :=
  granted rules (needs_direct s e) = true.

(** ** Granted *)

Definition the_scheme : Scheme := Eval vm_compute in default NewScheme main_init.

Lemma the_scheme_init : main_init = Some the_scheme.
Proof. vm_compute. reflexivity. Qed.
#[local] Opaque the_scheme.

(** The requests of the reconciler, by kind. *)
Definition reconciling (R : Type) (e : KubeE R) : Prop :=
  match e with
  | Get k _ => k ∉ [KValidatingAdmissionPolicy; KValidatingAdmissionPolicyBinding]
  | Create k _ => k ∈ [KJob; KConfigMap]
  | Update k _ => k ∈ [KMustGather; KConfigMap]
  | Delete k _ => k ∈ [KJob; KPod; KConfigMap]
  | _ => True
  end.

Definition reads_image_stream (R : Type) (e : KubeE R) : bool :=
  match e with Get KImageStream _ => true | _ => false end.

Lemma forallb_app' {A} (f : A -> bool) l l' : forallb f l = true -> forallb f l' = true -> forallb f (l ++ l') = true.
Proof. intros H1 H2. by rewrite forallb_app, H1, H2. Qed.

Lemma granted_both rules a b : granted rules a = true -> granted rules b = true -> granted rules (both a b) = true.
Proof. destruct a as [l|], b as [l'|]; try done. apply forallb_app'. Qed.

Lemma owners_granted rules refs :
  (forall name, permits rules (mkAttributes "update" "operator.openshift.io" "mustgathers/finalizers" name) = true) ->
  granted rules (Some (blocking_owners refs)) = true.
Proof.
  intros Hr. cbn. unfold blocking_owners. induction (List.filter _ refs) as [|ref l IH]; cbn [map forallb]; [done|].
  by rewrite Hr, IH.
Qed.

(** The operations of the reconciler on each kind, under any name. *)
Record grants_reconciler (rules : list PolicyRule) : Prop := {
  grants_reads k : k ∉ [KValidatingAdmissionPolicy; KValidatingAdmissionPolicyBinding; KImageStream] ->
    granted rules (informer the_scheme k) = true;
  grants_create k name : k ∈ [KJob; KConfigMap] -> granted rules (asks the_scheme (type_of k) "create" name) = true;
  grants_update k name : k ∈ [KMustGather; KConfigMap] -> granted rules (asks the_scheme (type_of k) "update" name) = true;
  grants_delete k name : k ∈ [KJob; KPod; KConfigMap] -> granted rules (asks the_scheme (type_of k) "delete" name) = true;
  grants_finalizers name :
    permits rules (mkAttributes "update" "operator.openshift.io" "mustgathers/finalizers" name) = true;
  grants_status name :
    permits rules (mkAttributes "update" "operator.openshift.io" "mustgathers/status" name) = true;
  grants_events verb : verb ∈ ["create"; "patch"] ->
    granted rules (asks the_scheme (group_type corev1 "Event") verb "") = true;
}.

Lemma reconciling_permitted rules R (e : KubeE R) :
  grants_reconciler rules -> reconciling R e -> reads_image_stream R e = false ->
  permitted the_scheme rules R e.
Proof.
  intros Hg Hr Hi. unfold permitted. destruct e as [k key|ns ls|k o|k o|m|k o|m t rs msg| | | | |]; cbn [needs]; try done.
  - apply (grants_reads _ Hg). cbn in Hr. destruct k; cbn in Hi; try done; set_solver.
  - apply (grants_reads _ Hg). set_solver.
  - apply granted_both; [by apply (grants_create _ Hg)|apply owners_granted, (grants_finalizers _ Hg)].
  - apply granted_both; [by apply (grants_update _ Hg)|apply owners_granted, (grants_finalizers _ Hg)].
  - pose proof (grants_status _ Hg (om_Name (mg_ObjectMeta m))) as Hs.
    replace (resource_of the_scheme (type_of KMustGather)) with (Some ("operator.openshift.io", "mustgathers"))
      by (vm_compute; reflexivity). cbn [mbind option_bind granted forallb fst snd].
    change ("mustgathers" +:+ "/status") with "mustgathers/status". by rewrite Hs.
  - by apply (grants_delete _ Hg).
  - apply granted_both; apply (grants_events _ Hg); set_solver.
Qed.

Ltac by_kind := intros; match goal with k : Kind |- _ => destruct k; try (exfalso; set_solver); vm_compute; reflexivity end.

Lemma markers_grant : grants_reconciler rbac_markers.
Proof.
  split; [by_kind..|by intros; vm_compute|by intros; vm_compute|].
  intros verb [->|[->|[]%not_elem_of_nil]%elem_of_cons]%elem_of_cons; vm_compute; reflexivity.
Qed.

Lemma deploy_grants : grants_reconciler deploy_ClusterRole.
Proof.
  split; [by_kind..|by intros; vm_compute|by intros; vm_compute|].
  intros verb [->|[->|[]%not_elem_of_nil]%elem_of_cons]%elem_of_cons; vm_compute; reflexivity.
Qed.

(** ** The reconciler's requests *)

Lemma Reconcile_requests `{UnicodeTables} r req : everywhere reconciling (Reconcile r req).
Proof.
  eapply makes_everywhere; [apply _|]. intros R e.
  by destruct e as [k| |k|k| |k| | | | | |]; try destruct k; cbn; try set_solver.
Qed.

(** ** The installation of the policy *)

(** The API server answers a read with the object of that name. *)
Definition keyed (ev : event KubeE) : Prop :=
  (match ev_eff ev in KubeE R return R -> Prop with
   | Get k key => fun x => match x with inr o => ObjectKeyFromObject o = key | inl _ => True end
   | _ => fun _ => True
   end) (ev_resp ev).

Definition direct_ok (ev : event KubeE) : Prop :=
  granted rbac_markers (needs_direct the_scheme (ev_eff ev)) = true /\
  granted deploy_ClusterRole (needs_direct the_scheme (ev_eff ev)) = true.

Lemma policy_update_granted rules k name refs :
  (forall name, permits rules (mkAttributes "update" "operator.openshift.io" "mustgathers/finalizers" name) = true) ->
  granted rules (asks the_scheme (type_of k) "update" blockMustGatherRestrictedNamespacesPolicyName) = true ->
  name = blockMustGatherRestrictedNamespacesPolicyName ->
  granted rules (both (asks the_scheme (type_of k) "update" name) (Some (blocking_owners refs))) = true.
Proof. intros Hf Hk ->. apply granted_both; [done|by apply owners_granted]. Qed.

Lemma ensureVAP_ok tr res : exec ensureVAP tr res -> Forall keyed tr -> Forall direct_ok tr.
Proof.
  intros He Hk. apply exec_inv in He as ([e|existing] & tr1 & -> & He); cbn [prog_bind] in He;
    apply Forall_cons in Hk as [Hk _]; cbn in Hk.
  - constructor; [by split; vm_compute|]. destruct (IsNotFound e); apply exec_inv in He.
    + destruct He as (x & tr2 & -> & He). apply exec_inv in He as [-> _]. by repeat constructor; vm_compute.
    + by destruct He as [-> _].
  - constructor; [by split; vm_compute|]. destruct (negb _); apply exec_inv in He; [|by destruct He as [-> _]].
    destruct He as (x & tr2 & -> & He). apply exec_inv in He as [-> _]. repeat constructor;
      (eapply (policy_update_granted _ KValidatingAdmissionPolicy);
        [intros; vm_compute; reflexivity|vm_compute; reflexivity|]); cbn;
      unfold ObjectKeyFromObject in Hk; cbn in Hk; congruence.
Qed.

Lemma ensureVAPBinding_ok tr res : exec ensureVAPBinding tr res -> Forall keyed tr -> Forall direct_ok tr.
Proof.
  intros He Hk. apply exec_inv in He as ([e|existing] & tr1 & -> & He); cbn [prog_bind] in He;
    apply Forall_cons in Hk as [Hk _]; cbn in Hk.
  - constructor; [by split; vm_compute|]. destruct (IsNotFound e); apply exec_inv in He.
    + destruct He as (x & tr2 & -> & He). apply exec_inv in He as [-> _]. by repeat constructor; vm_compute.
    + by destruct He as [-> _].
  - constructor; [by split; vm_compute|]. destruct (negb _); apply exec_inv in He; [|by destruct He as [-> _]].
    destruct He as (x & tr2 & -> & He). apply exec_inv in He as [-> _]. repeat constructor;
      (eapply (policy_update_granted _ KValidatingAdmissionPolicyBinding);
        [intros; vm_compute; reflexivity|vm_compute; reflexivity|]); cbn;
      unfold ObjectKeyFromObject in Hk; cbn in Hk; congruence.
Qed.

(** ** The theorem *)

Definition gv_string (gv : GroupVersion) : string := gv_Group gv +:+ "/" +:+ gv_Version gv.

(** C14: Every request can be made.  The [init] functions put a scheme together without a
    panic, in which the Go type of each object the operator handles has one kind, and the
    owner references it writes name that of the MustGather.  Under the rules of the
    [kubebuilder:rbac] markers the API server permits every request [Reconcile] can make,
    whatever it is answered, with the listing and watching behind each read; the watches;
    and every request of the installation of the policy.  The ClusterRole of [deploy/]
    permits all of these but one: the informer behind the reads of image streams. *)
Theorem every_request_is_permitted `{UnicodeTables} r req :
  exists scheme, main_init = Some scheme /\
    (forall k, is_Some (GVKForObject scheme (type_of k))) /\
    (gvk ← GVKForObject scheme (type_of KMustGather); Some (gv_string (gvk_GroupVersion gvk), gvk_Kind gvk))
      = Some (MustGatherAPIVersion, MustGatherKind) /\
    everywhere (permitted scheme rbac_markers) (Reconcile r req) /\
    everywhere (fun R e => permitted scheme deploy_ClusterRole R e <-> reads_image_stream R e = false) (Reconcile r req) /\
    (forall rules w, rules ∈ [rbac_markers; deploy_ClusterRole] -> w ∈ SetupWithManager_watches r ->
       granted rules (informer scheme (w_kind w)) = true) /\
    (forall rules tr res, rules ∈ [rbac_markers; deploy_ClusterRole] -> exec ensureAdmissionPolicy tr res ->
       Forall keyed tr -> Forall (fun ev => permitted_direct scheme rules _ (ev_eff ev)) tr).
Proof.
  exists the_scheme. split; [apply the_scheme_init|]. split.
  { intros k. destruct k; eexists; vm_compute; reflexivity. }
  split; [vm_compute; reflexivity|]. split.
  { eapply everywhere_mono; [|apply Reconcile_requests]. intros R e He.
    destruct (reads_image_stream R e) eqn:Hi; [|by apply reconciling_permitted, Hi; [apply markers_grant|]].
    by destruct e as [[]| | | | | | | | | | |]. }
  split.
  { eapply everywhere_mono; [|apply Reconcile_requests]. intros R e He. split.
    - intros Hp. by destruct e as [[]| | | | | | | | | | |].
    - apply reconciling_permitted; [apply deploy_grants|done]. }
  split.
  { intros rules w Hrules Hw. assert (w_kind w ∈ [KMustGather; KJob; KConfigMap]) as Hk.
    { unfold SetupWithManager_watches in Hw. destruct (_ <>?s _); set_solver. }
    assert (grants_reconciler rules) as Hg by (pose proof markers_grant; pose proof deploy_grants; set_solver).
    apply (grants_reads _ Hg). destruct (w_kind w); set_solver. }
  intros rules tr res Hrules He Hk.
  apply exec_bind_inv in He as (tr1 & tr2 & r1 & -> & H1 & He).
  apply exec_bind_inv in He as (tr3 & tr4 & r2 & -> & H2 & He). apply exec_inv in He as [-> _].
  rewrite app_nil_r in *. apply Forall_app in Hk as [Hk1 Hk2]. apply Forall_app.
  apply ensureVAP_ok in H1; [|done]. apply ensureVAPBinding_ok in H2; [|done].
  assert (forall ev, direct_ok ev -> permitted_direct the_scheme rules _ (ev_eff ev)) as Hok
    by (intros ev [Hm Hd]; unfold permitted_direct; set_solver).
  split; [exact (Forall_impl _ _ _ H1 Hok)|exact (Forall_impl _ _ _ H2 Hok)].
Qed.

#[local] Existing Instance Demo.ascii_tables.

(** The installation in an empty cluster, and a reconcile that reads an image stream. *)
Lemma every_request_is_permitted_witness :
  let tr := [Ev (Get KValidatingAdmissionPolicy vap_key) (inl (NewNotFound ""));
             Ev (Create KValidatingAdmissionPolicy blockMustGatherRestrictedNamespacesPolicy) None;
             Ev (Get KValidatingAdmissionPolicyBinding vap_key) (inl (NewNotFound ""));
             Ev (Create KValidatingAdmissionPolicyBinding blockMustGatherRestrictedNamespacesPolicyBinding) None] in
  exists scheme, main_init = Some scheme /\ exec ensureAdmissionPolicy tr None /\
    Forall (fun ev => permitted_direct scheme deploy_ClusterRole _ (ev_eff ev)) tr /\
    ~ permitted scheme deploy_ClusterRole _ (Get KImageStream vap_key).
Proof.
  intros tr. destruct (every_request_is_permitted (mkReconciler "" "" "" "") vap_key)
    as (scheme & Hs & _ & _ & _ & _ & _ & Hinst).
  exists scheme. split; [exact Hs|].
  assert (exec ensureAdmissionPolicy tr None) as He by (repeat econstructor).
  assert (Forall keyed tr) as Hk by (repeat (apply Forall_cons; split; [exact I|]); apply Forall_nil; exact I).
  split; [exact He|]. split; [exact (Hinst deploy_ClusterRole tr None (list_elem_of_further _ _ _ (list_elem_of_here _ _)) He Hk)|].
  pose proof (eq_trans (eq_sym the_scheme_init) Hs) as Heq. apply (inj Some) in Heq. rewrite <-Heq. by vm_compute.
Defined.
