(* ===== verification/SilentHost.v ===== *)
(** * Requests that are never answered

    Two requests of the reconciler may be waited for without end.  The trial connection has
    no time limit once it is dialled ([SftpTiming]).  And a read of the manager's client
    waits until the informer of the kind has listed it ([Informers.Get] of
    controller-runtime's cache, under the context of the reconcile, which has no deadline):
    an operator that may not list the kind ([Permissions]) waits for good.  A
    worker that makes such a request is gone, and there is one worker unless the manager
    is told otherwise. *)

From S2P Require Import Prelude GoStrings GoErrors GoTime K8sTypes MustGatherV1 Effects KubeEffects.
From S2P Require Import ApiServer MemCluster OperatorUtils Template MustGatherUtil TrustedCA Cleanup SftpValidation Reconcile.
From S2P Require Import ReconcileSafety Scheme ClientGo OperatorScheme Permissions Demo WorkQueue Controller World ControllerRuns ConcurrentRuns.

Section silent.
  Context `{UnicodeTables}.
  Variable r : MustGatherReconciler.
  Variable workers : nat.
  Variable fresh_jobs : bool.
  (** The hosts that accept a connection and never say anything. *)
  Variable silent : string -> bool.
  (** The rules the operator runs under. *)
  Variable role : list PolicyRule.

(** Whether the informer of a kind can do its work. *)
Definition can_list (k : Kind) : bool := granted role (informer the_scheme k).

(** The requests that get no answer. *)
Definition hangs (R : Type) (e : KubeE R) : bool :=
  match e with
  | SftpDial _ _ host => silent host
  | Get k _ => negb (can_list k)
  | ListPods _ _ => negb (can_list KPod)
  | _ => false
  end.

Definition serves_or_hangs (R : Type) (e : KubeE R) (w : world) (x : R) (w' : world) : Prop :=
  hangs R e = false /\ serves fresh_jobs R e w x w'.

Abbreviation silent_step := (step environment serves_or_hangs (Reconcile r) workers).
Abbreviation silent_reaches := (reachable environment serves_or_hangs (Reconcile r) workers empty_world).

(** A worker that waits for such an answer. *)
Definition hanging (a : activity) : Prop :=
  match a with
  | Reconciling (@Vis _ _ R e _) => hangs R e = true
  | _ => False
  end.

(** Any steps but a restart and the end of the process. *)
Definition running (s s' : @system world) : Prop := exists a, a <> Process /\ silent_step s a s'.

(** The operator stands still. *)
Record stands_still (s s' : @system world) : Prop := {
  still_workers : sys_workers s' = sys_workers s;
  still_world : rtc environment (sys_world s) (sys_world s');
  still_owed : sys_owed s ⊆ sys_owed s';
}.

Lemma hanging_step s s' :
  length (sys_workers s) = workers -> (forall req a, (req, a) ∈ sys_workers s -> hanging a) ->
  running s s' -> stands_still s s'.
Proof.
  intros Hl Hh (a & Ha & Hs).
  assert (forall l1 req act l2, sys_workers s = l1 ++ (req, act) :: l2 -> hanging act) as Hmid.
  { intros l1 req act l2 Hw. apply (Hh req). rewrite Hw. set_solver. }
  destruct Hs as [w Hw|now Hnow|req|q Ht|req t Hmin Hnow|req q Hlt Hg|l1 req R e k l2 x w Hw [Hx _]|l1 req o l2 bucket q limiter Hw Hre|l1 req l2 Hw| |];
    try done; try (split; cbn; [done|by repeat constructor|set_solver]).
  - split; cbn; [done|by apply rtc_once|done].
  - lia.
  - exfalso. apply Hmid in Hw. cbn in Hw. congruence.
  - exfalso. by apply Hmid in Hw.
  - exfalso. by apply Hmid in Hw.
Qed.

Lemma hanging_for_good s s' :
  length (sys_workers s) = workers -> (forall req a, (req, a) ∈ sys_workers s -> hanging a) ->
  rtc running s s' -> stands_still s s'.
Proof.
  intros Hl Hh Hs. induction Hs as [s|s s1 s' H1 Hs IH]; [by split|].
  destruct (hanging_step s s1 Hl Hh H1) as [Hw1 Hr1 Ho1]. destruct IH as [Hw Hr Ho]; [by rewrite Hw1..|].
  split; [congruence|by etransitivity|by etransitivity].
Qed.

(** ** How a worker gets there *)

(** [p] comes to such a connection by requests that leave the world as it is. *)
Inductive may_hang {A} (w : world) : kprog A -> Prop :=
| may_hang_now R (e : KubeE R) k : hangs R e = true -> may_hang w (Vis e k)
| may_hang_later R (e : KubeE R) k x : serves_or_hangs R e w x w -> may_hang w (k x) -> may_hang w (Vis e k).

(** [p] returns [a] by such requests. *)
Inductive may_return {A} (w : world) (a : A) : kprog A -> Prop :=
| may_return_now : may_return w a (Ret a)
| may_return_later R (e : KubeE R) k x : serves_or_hangs R e w x w -> may_return w a (k x) -> may_return w a (Vis e k).

Lemma may_hang_bind {A B} w (p : kprog A) (f : A -> kprog B) a :
  may_return w a p -> may_hang w (f a) -> may_hang w (prog_bind p f).
Proof. intros Hp Hf. induction Hp as [|R e k x Hx _ IH]; cbn; [done|]. by eapply may_hang_later. Qed.

Lemma may_return_bind {A B} w (p : kprog A) (f : A -> kprog B) a b :
  may_return w a p -> may_return w b (f a) -> may_return w b (prog_bind p f).
Proof. intros Hp Hf. induction Hp as [|R e k x Hx _ IH]; cbn; [done|]. by eapply may_return_later. Qed.

Lemma may_hang_first {A B} w (p : kprog A) (f : A -> kprog B) : may_hang w p -> may_hang w (prog_bind p f).
Proof. induction 1 as [R e k Hh|R e k x Hx _ IH]; cbn; [by apply may_hang_now|by eapply may_hang_later]. Qed.

Lemma worker_hangs s req p :
  may_hang (sys_world s) p -> sys_workers s = [(req, Reconciling p)] ->
  exists a, rtc running s (mkSystem (sys_world s) (sys_queue s) [(req, a)] (sys_now s) (sys_owed s)
                             (sys_limiter s)) /\ hanging a.
Proof.
  destruct s as [w q ws now owed]. cbn. intros Hp ->.
  induction Hp as [R e k Hh|R e k x Hx _ (a & Ha & Hh)].
  - exists (Reconciling (Vis e k)). split; [done|exact Hh].
  - exists a. split; [|done]. eapply rtc_l; [|exact Ha]. exists Worker. split; [done|].
    by apply (step_request _ _ _ _ (mkSystem _ _ [(req, Reconciling (Vis e k))] _ _ _) [] req R e k []).
Qed.

(** ** The way of [Reconcile] *)

Hypothesis role_grants : grants_reconciler role.
#[local] Set Default Proof Using "All".

Lemma read_answered k : k ∉ [KValidatingAdmissionPolicy; KValidatingAdmissionPolicyBinding; KImageStream] ->
  negb (can_list k) = false.
Proof using role_grants. intros Hk. unfold can_list. by rewrite (grants_reads _ role_grants). Qed.

Ltac answered := cbn [hangs]; first [apply read_answered; set_solver|done].
Ltac hears y :=
  first [eapply may_hang_later with (x := y)|eapply may_return_later with (x := y)]; [split; [answered|done]|cbn [prog_bind]].

(** The copy of the CA bundle of an instance that has it already. *)
Definition own_copy (m : MustGather) : ConfigMap :=
  mkConfigMap (om_with_OwnerReferences emptyMeta [instanceOwnerRef m]) ∅ ∅ None.

Lemma prepare_may_return w m : may_return w None (prepare r m).
Proof.
  unfold prepare. apply may_return_bind with (a := None).
  - destruct (negb _); [|constructor]. unfold ensureTrustedCAConfigMap. destruct (_ =?s _); [constructor|].
    cbn [prog_bind call]. hears (@inr goerror ConfigMap (own_copy m)). hears (@inr goerror ConfigMap (own_copy m)).
    replace (owned_by (mg_UID m) (cm_owners (own_copy m))) with true; [constructor|].
    symmetry. apply owned_by_spec. unfold owner_uids. cbn. set_solver.
  - destruct (negb _); [|constructor]. cbn [prog_bind call]. hears (@inr goerror ConfigMap (own_copy m)). constructor.
Qed.

Lemma getJobFromInstance_may_return w m :
  spec_ImageStreamRef (mg_Spec m) = None -> exists job, may_return w (inr job) (getJobFromInstance r m).
Proof.
  intros His. eexists. unfold getJobFromInstance, getMustGatherImage. rewrite His. cbn [prog_bind call].
  hears (Some "quay.io/operator:v1"). hears (mkTime 1700000000 0 0).
  unfold GenerateMustGatherDirectoryName, getClusterIDSuffix. cbn [prog_bind call].
  hears (@inl goerror ClusterVersion (NewNotFound "")). hears 0%Z.
  unfold getJobTemplate, ReadProxyVarsFromEnv. cbn [prog_bind call readProxyVars ProxyEnvNames].
  hears (@None string). hears (@None string). hears (@None string). constructor.
Qed.

Lemma trial_may_hang w m sftp :
  sftp_of m = Some sftp -> silent (derefString (sftp_Host sftp)) = true -> may_hang w (checkSecretAndSFTP m).
Proof.
  intros Hs Hsil. unfold checkSecretAndSFTP. rewrite Hs. cbn [prog_bind call]. hears (@inr goerror Secret demo_secret).
  change (default "" (sec_Data demo_secret !! "username")) with "alice".
  change (default "" (sec_Data demo_secret !! "password")) with "secret".
  cbn [str_eqb]. apply may_hang_first. by apply may_hang_now.
Qed.

(** An instance that leads to one of these requests. *)
Definition never_answered (m : MustGather) : Prop :=
  (spec_ImageStreamRef (mg_Spec m) = None /\
   exists sftp, sftp_of m = Some sftp /\ silent (derefString (sftp_Host sftp)) = true) \/
  (is_Some (spec_ImageStreamRef (mg_Spec m)) /\ can_list KImageStream = false).

Lemma image_may_hang w m :
  is_Some (spec_ImageStreamRef (mg_Spec m)) -> can_list KImageStream = false -> may_hang w (getJobFromInstance r m).
Proof.
  intros [ref His] Hl. unfold getJobFromInstance, getMustGatherImage. rewrite His. cbn [prog_bind call].
  apply may_hang_now. cbn. by rewrite Hl.
Qed.

Lemma Reconcile_may_hang w m :
  w_cache w !! mg_key m = Some m -> w_job w !! mg_key m = None -> w_job_cache w !! mg_key m = None ->
  active r m -> never_answered m -> may_hang w (Reconcile r (mg_key m)).
Proof.
  intros Hc Hj Hjc (Hdel & Hfin & Hsa) Hna. unfold Reconcile. cbn [prog_bind call].
  hears (@inr goerror MustGather m). rewrite Hdel, Hfin, Hsa. cbn [has negb].
  unfold reconcileActive. eapply may_hang_bind; [apply prepare_may_return|]. cbn [prog_bind call].
  eapply may_hang_later with (x := inl (NewNotFound "")).
  { split; [answered|]. split; [done|]. intros _. change (jobKey m) with (mg_key m). by destruct fresh_jobs. }
  cbn [prog_bind]. rewrite IsNotFound_NewNotFound. cbn [negb]. unfold reconcileCreate.
  destruct Hna as [(His & sftp & Hs & Hsil)|[His Hl]]; [|by apply may_hang_first, image_may_hang].
  destruct (getJobFromInstance_may_return w m His) as [job Hjob].
  eapply may_hang_bind; [exact Hjob|]. cbn [prog_bind call].
  hears (@inr goerror ServiceAccount (mkServiceAccount emptyMeta)).
  apply may_hang_first. by eapply trial_may_hang.
Qed.
End silent.

(** ** From a quiet moment *)

(** Nothing to do for a worker. *)
Record idle {W} (s : @system W) : Prop := {
  idle_running : stopped s = false;
  idle_workers : sys_workers s = [];
  idle_queue : q_queue (dq_Typed (sys_queue s)) = [];
}.

Lemma Add_idle {W} workers (s : @system W) req :
  @system_ok W workers s -> idle s -> q_queue (Add req (dq_Typed (sys_queue s))) = [req].
Proof.
  intros [[Hnd Hq] _ Hp _ _] [Hst Hw Hqu]. unfold stopped in Hst. unfold Add, Push. rewrite Hst.
  assert (req ∉ q_processing (dq_Typed (sys_queue s))) as Hnp by (rewrite Hp, Hw; set_solver).
  assert (req ∉ q_dirty (dq_Typed (sys_queue s))) as Hnd'.
  { intros Hd. assert (req ∈ q_queue (dq_Typed (sys_queue s))) as Hin by (by apply Hq). rewrite Hqu in Hin. set_solver. }
  rewrite !decide_False by done. cbn. by rewrite Hqu.
Qed.

(** The informers catch up with an object, and its event is taken up. *)
Lemma worker_starts `{UnicodeTables} r fresh_jobs silent role now0 s key m :
  reachable environment (serves_or_hangs fresh_jobs silent role) (Reconcile r) 1 empty_world now0 s -> idle s ->
  w_mg (sys_world s) !! key = Some m -> w_job (sys_world s) !! key = None ->
  exists s1, rtc (running r 1 fresh_jobs silent role) s s1 /\ sys_workers s1 = [(key, Reconciling (Reconcile r key))] /\
    w_cache (sys_world s1) !! key = Some m /\ w_job (sys_world s1) !! key = None /\
    w_job_cache (sys_world s1) !! key = None.
Proof.
  intros Hr Hidle Hm Hj. pose proof (reachable_ok _ _ _ _ _ _ _ Hr) as Hok.
  pose proof (Add_idle 1 s key Hok Hidle) as Hq. destruct Hidle as [Hst Hw Hqu]. clear Hok Hr.
  destruct s as [w q ws now owed]. cbn in *. subst ws.
  destruct (Add key (dq_Typed q)) as [queue dirty processing down] eqn:Ha. cbn in Hq. subst queue.
  eexists. split; [eapply rtc_l; [|eapply rtc_l; [|eapply rtc_l; [|apply rtc_once]]]|].
  - exists Others. split; [done|]. apply step_environment. apply (env_sync w key).
  - exists Others. split; [done|]. apply step_environment. apply (env_job_sync _ key).
  - exists Watch. split; [done|]. apply (step_event _ _ _ _ _ key).
  - exists Worker. split; [done|]. apply (step_get _ _ _ _ _ key); [cbn; lia|]. cbn. rewrite Ha. reflexivity.
  - cbn. by rewrite !lookup_partial_alter_eq.
Qed.


#[local] Existing Instance ascii_tables.

(** Two instances: one is uploaded to a silent host, under the rules of the markers; the
    other asks for an image stream, under those of [deploy/]. *)
Definition example_instance (spec : MustGatherSpec) : MustGather :=
  mkMustGather (mkTypeMeta "MustGather" "operator.openshift.io/v1") (mkMeta "demo" "user-ns" "u1" "v1" 1 None ∅ [] [])
    spec None.

Definition silent_spec : MustGatherSpec :=
  mkMustGatherSpec "default" None None None (Some (mkUploadTargetSpec UploadTypeSFTP (Some (mkSFTPSpec "01234567"
    (mkLocalRef "case-secret") None (Some "silent.example.com"))))) None None None.

Definition image_spec : MustGatherSpec :=
  mkMustGatherSpec "default" (Some (mkImageStreamTagRef "must-gather" "latest")) None None None None None None.

Definition silent_example (host : string) : bool := host =?s "silent.example.com".

(** The world in which the instance has been created and given its finalizer. *)
Definition before_silence (role : list PolicyRule) (spec : MustGatherSpec) : world :=
  (run_until (hangs silent_example role) (serve true) (Reconcile plain_reconciler demo_key)
     (synced (created_world (example_instance spec)))).2.

Definition stored (role : list PolicyRule) (spec : MustGatherSpec) : MustGather :=
  default (example_instance spec) (w_mg (before_silence role spec) !! demo_key).

Lemma before_silence_facts role spec :
  grants_reconciler role ->
  run_until (hangs silent_example role) (serve true) (Reconcile plain_reconciler demo_key)
    (synced (created_world (example_instance spec))) = (Ret (emptyResult, None), before_silence role spec) /\
  w_mg (before_silence role spec) !! mg_key (stored role spec) = Some (stored role spec) /\
  w_job (before_silence role spec) !! mg_key (stored role spec) = None /\
  active plain_reconciler (stored role spec) /\ mg_Spec (stored role spec) = spec /\
  mg_key (stored role spec) = demo_key.
Proof.
  intros Hg. pose proof (read_answered role Hg KMustGather ltac:(set_solver)) as Hget.
  unfold stored, before_silence, Reconcile. cbn [run_until prog_bind call hangs]. rewrite Hget. vm_compute. repeat split.
Qed.

Lemma before_silence_reached role spec :
  grants_reconciler role ->
  reachable environment (serves_or_hangs true silent_example role) (Reconcile plain_reconciler) 1 empty_world 0
    (start_system (before_silence role spec) 0).
Proof.
  intros Hg. destruct (before_silence_facts role spec Hg) as [Hrun _].
  eapply (reaches_reconcile _ _ _ (hangs silent_example role) (serve true) _ _ 0 _ demo_key _ _ Hrun eq_refl).
  eapply reaches_environment; [|apply synced_environment].
  eapply reaches_environment; [constructor|by apply created_environment].
  Unshelve. intros R e w He. split; [done|apply serve_serves].
Qed.

